(* ===== verification/_CoqProject ===== *)
-Q . S2P
Prelude.v
StdString.v
Bus.v
Pdu.v
Throttle.v
ThrottleRate.v
Session.v
SessionSystem.v
SessionTrace.v
SessionWire.v
SessionThreads.v
Auth.v
StdMap.v
Registry.v
ServerService.v
Dbus.v
Config.v
IpValidator.v
Acceptor.v
Process.v
ServerInfo.v
Network.v
NetworkRouting.v
NetworkAdmin.v
System.v
Framer.v
LegacyHandler.v
StateMachine.v
StateMachineV2.v
ClientHandler.v
