(* ===== verification/Prelude.v ===== *)
(** * A verification of the opensmsc short-message centre

    opensmsc is a short-message centre in C++.  A server process accepts TCP
    connections of SMPP clients (ESMEs), checks their addresses against a whitelist
    and starts one handler process per connection; the handler takes over the socket
    over D-Bus, speaks SMPP 3.4 with the client, asks an authentication service about
    bind requests and hands submitted messages back to the server, which routes them
    to the handler of a receiving client.  This library models these programs as
    executable definitions, translated function by function from the sources, and
    proves the properties that make them correct.

    ** The parts and the files that model them

    Shared:
    - [Prelude] (this file): octets, machine integers, hexadecimal output, the effect
      monad of C++ member functions, reachability and a small Hoare logic.
    - [StdString]: [std::stoi], [std::stoul], character classes, prefixes of arguments.
    - [Bus]: the class of what D-Bus does to the strings of a call.

    The handler process, one per client:
    - [Pdu]: SmppClientHandler/include/smpp_pdu.hpp, the whole wire format: header
      codec, C-octet strings, the [submit_sm] parser, the response and [deliver_sm]
      builders.
    - [Throttle], [ThrottleRate]: [SmppSession::throttle_check], the token bucket, in IEEE
      binary64, and the rate that it lets through, rounding errors included.
    - [Session]: SmppClientHandler/src/smpp_session.cpp, every member function of
      [SmppSession] in the order of the source.  The class [IAuth] is what the session
      expects of the authentication service.
    - [SessionSystem], [SessionTrace]: a session under its event loop and its D-Bus thread:
      a transition system whose events are the completions of reads and timers, posted
      calls and the D-Bus methods; what an activation adds to the trace.
    - [SessionWire]: the same with the writes that have not completed, and with reads that
      fail on the closed socket: how a session winds down, and that writes may overlap.
    - [SessionThreads]: the member functions of the io thread lock scope by lock scope,
      interleaved with the D-Bus thread, shown to refine the atomic activations of
      [SessionSystem].

    The services:
    - [Auth]: Authenticator/src/credentials_store.cpp and auth_service.cpp, shown to be
      an instance of [IAuth] and composed with the session.
    - [StdMap]: [std::map] with string keys, in iteration order, refining [gmap].
    - [Registry]: SMPPServer/src/connection_registry.cpp, refining a table with a limit.
    - [ServerService]: SMPPServer/src/smpp_server_service.cpp, the IServer methods.
    - [Dbus]: the adaptors and proxies of include/generated/ of the three programs, methods
      and signals.
    - [Config]: Common/src/config.cpp and logger.cpp, SMPPServer/include/logger.hpp.
    - [IpValidator]: SMPPServer/src/ip_validator.cpp, the whitelist.
    - [Acceptor]: session_id.hpp, session_launcher.cpp, tcp_server.cpp (the accept loop and
      [handle_connection]) and the command line of the handler's main.cpp.
    - [Process]: the three [main] functions: options, order of set-up, ways to end.
    - [ServerInfo]: app_info.hpp, app_info.cpp, smpp_service_manager.cpp.

    The composition:
    - [Network]: the server and any number of handlers as one transition system, with the
      calls in flight between them, handler processes that exit, and the two threads of the
      server: [register_session] in its two critical sections, and the methods of the D-Bus
      thread, which decide under the mutex whom to call and make their calls one by one.
    - [NetworkRouting], [NetworkAdmin]: what becomes of a message that the server routes, and
      what a call of [DisconnectAll] does to the sessions of an address.
    - [System]: one message from the octets that the sender's session reads to the PDU that
      the receiver's session writes.

    Beside these, the older parts that the sources keep:
    - [Framer], [LegacyHandler]: SMPPServer/src/smpp_pdu_framer.cpp,
      smpp_client_handler.cpp, smpp_handler.cpp, smpp_session.cpp, the in-process handler.
    - [StateMachine], [StateMachineV2]: the two client state machines of
      SmppClientHandler (smpp_state_machine.cpp; smpp_state_machine_v2.cpp with
      smpp_states.cpp and smpp_state_base.hpp).
    - [ClientHandler]: SmppClientHandler/src/smpp_client_handler.cpp, around the latter, with
      everything that can be done through the reference of [get_state_machine].

    ** How the code is rendered

    The members of a class are a record; a member function is a computation in the
    monad [M]: it reads and updates the record, emits effects (asynchronous operations,
    D-Bus calls and signals, timers) in order, and returns, throws, or reaches undefined
    behaviour (an access outside of a buffer, a deleted object).  [uint32_t] and its like
    are integers reduced modulo their width; strings and byte vectors are lists of octets.
    A composed system is a step relation over the record and the operations that are
    outstanding; its theorems are about every reachable configuration, or every execution from
    a given one ([reachable (eq n)]).  In [Network] the
    calls of a session to the server are messages in flight, so that a session may run on
    before its call is served: every behaviour of the synchronous calls of the source is
    among those considered.

    Code outside of the repository is a parameter: the TOML parser ([Auth.parser],
    [Config.Toml]), [inet_pton] ([IpValidator]), the smppcxx request classes
    ([LegacyHandler.bind_parser]), [std::system], the clocks, the random generator, the
    file system, the bus ([Bus], [Process.refuses_digit_elements]) and the generated
    config.h ([ServerInfo]).  The hypotheses on them are that codes and addresses have 32
    bits ([Authenticate_u32], [inet_pton_u32]), that a D-Bus string is the C string of the
    argument, can be sent on, and may be any ASCII text ([Bus]), and that an element of a
    well-known bus name does not begin with a digit; witnesses instantiate them.

    ** What the theorems show

    - Safety of a session: no activation crashes, in any interleaving
      ([session_never_crashes]); one response per request ([on_body_one_response]); the
      protocol state machine and its life cycle ([on_body_state], [session_lifecycle]);
      one exit signal ([session_exits_once]); bound only if authenticated
      ([bound_is_authenticated]); one outstanding read ([one_read_outstanding]); unique
      message ids and consecutive delivery numbers ([message_ids_unique],
      [deliver_sequence]); silent peers are disconnected
      ([keepalive_ends_silent_session]); a session that is over comes to rest, its writes
      included ([session_winds_down]); the two threads of a handler are as good as atomic
      ([threads_atomic]); a session is reported only after its [bind_resp]
      ([delivery_after_bind_resp]); the configured rate is kept ([throttle_rate],
      [throttle_burst]).
    - The whole system: deliveries are among the submissions, with multiplicity
      ([no_forged_delivery]); the server's table agrees with the sessions ([table_agrees]);
      [DisconnectAll] ends the sessions of its address and no other
      ([disconnect_all_reaches]).
    - Composition: credentials file to bind ([bind_by_document]); submission to delivery, in
      every interleaving ([submission_is_delivered]); accepted connection to its handler
      ([handle_connection_correct], [accept_loop_correct]); proxies and adaptors
      ([rpc_transparent], [signals_received]).
    - Refinement of specifications: [authenticate_correct], [registry_refines],
      [get_all_sessions_correct], [route_message_correct], [whitelist_correct].
    - The older parts: [framer_reassembles], [write_queue_fifo], [sm_follows_diagram].
    - Processes and configuration: [server_main_correct], [server_options_correct],
      [config_load_typed].
    - The wire format: round trips and bounds ([submit_sm_roundtrip],
      [deliver_sm_roundtrip], [make_response_wellformed], [parse_submit_sm_bounds],
      [read_cstr_correct]).
    - Defects, stated as theorems about the code as it is: [handler_name_refused],
      [gone_receiver_blocks], [first_ids_collide], [sighup_reload], [over_limit_leaks],
      [failed_reload], [read_cstr_limit_keeps_terminator], [deliver_sm_length_wraps],
      [framer_loses_excess], [handler_never_answers], [unbind_resp_lost],
      [sm_never_leaves_idle], [destructor_double_free], [client_handler_destruction],
      [writes_not_serialised].

    ** Bounds and fuel

    Recursion is structural but for: [Pdu.read_cstr_loop], one unit of fuel per octet of
    the length limit ([read_cstr_correct] shows it enough); [hex_digits], sixteen digits
    for 64 bits; [StateMachine.dec_digits], ten for 32 bits; the [while] loop of
    [LegacyHandler.dispatch_loop], two rounds, where running out would be undefined
    behaviour and is excluded by [write_queue_fifo].  D-Bus arguments are below 128 MiB.
    [throttle_rate] is for intervals in which the number of checks and of seconds, each
    times the rate, is at most [2 ^ 48], where the rounding errors together stay below
    one token.

    ** What is left out

    Logging inside the components; memory exhaustion (a read allocates what the header
    announces) and failures of the D-Bus connection itself.  Not modelled: delivery of
    signals by the operating system, socket options, the defaulted move operations, and what
    overlapping writes or the use of [socket_] by both threads of a handler do inside asio:
    starting a write and closing the socket are atomic steps in [SessionThreads], although
    the code does not synchronise them.  The
    methods of the authenticator are atomic: each holds its mutex for its whole body.  The
    accept loop and the whitelist ([Acceptor]) meet [Network] at [register_session]; that two
    connections do not get the same uuid is a guard of [Network], not shown of the random
    generator.  What remains of the sources are declarations, log lines and tests.

    ** Where it could go on

    The completions of writes ([SessionWire]) inside [Network]; a limit on the memory that a
    client can make its handler allocate, which the code does not have. *)

From Stdlib Require Export ZArith Lia Strings.Byte.
From Stdlib Require String.
Export String.StringSyntax.
From stdpp Require Export prelude list gmap.

#[local] Open Scope Z_scope.

(** ** Octets and C++ byte strings

    [uint8_t] and [char] are both the 256-value type [byte]; [std::string] and
    [std::vector<uint8_t>] are both lists of octets, so that the casts between
    the two ([static_cast<char>], [reinterpret_cast<const char*>]) are the
    identity. *)

Abbreviation cstring := (list byte).

(** A string literal of the source. *)
Definition str (s : String.string) : cstring := String.list_byte_of_string s.
Arguments str s%_string_scope.

#[global] Instance byte_eq_decision : EqDecision byte := Byte.byte_eq_dec.

#[global] Instance byte_countable : Countable byte.
Proof.
  apply (inj_countable' Byte.to_N (fun n => default x00 (Byte.of_N n))).
  intros b. by rewrite Byte.of_to_N.
Defined.

Definition byte_to_Z (b : byte) : Z := Z.of_N (Byte.to_N b).

(** [static_cast<uint8_t>(z)]: the value modulo 256. *)
Definition byte_of_Z (z : Z) : byte :=
  default x00 (Byte.of_N (Z.to_N (z mod 256))).

(** ** Machine integers: values of [Z] reduced to their width *)

Definition u16 (z : Z) : Z := z mod 2 ^ 16.
Definition u32 (z : Z) : Z := z mod 2 ^ 32.
Definition u64 (z : Z) : Z := z mod 2 ^ 64.

Definition is_u32 (z : Z) : Prop := 0 <= z < 2 ^ 32.

Declare Scope cpp_scope.
Delimit Scope cpp_scope with cpp.
Notation "x +u32 y" := (u32 (x + y)) (at level 50, left associativity) : cpp_scope.
Notation "x -u32 y" := (u32 (x - y)) (at level 50, left associativity) : cpp_scope.
Notation "x -u64 y" := (u64 (x - y)) (at level 50, left associativity) : cpp_scope.
Notation "x <<u32 n" := (u32 (Z.shiftl x n)) (at level 50, left associativity) : cpp_scope.

(** ** [std::hex << std::setfill('0') << std::setw(w) << n] *)

Definition hex_digit (d : Z) : byte :=
  if d <? 10 then byte_of_Z (48 + d) else byte_of_Z (87 + d).

(** Digits of [n], most significant first, without padding.  [fuel] bounds the
    number of digits; sixteen are enough for a 64-bit value. *)
Fixpoint hex_digits (fuel : nat) (n : Z) (acc : cstring) : cstring :=
  match fuel with
  | O => acc
  | S fuel =>
      let acc := hex_digit (n mod 16) :: acc in
      if n <? 16 then acc else hex_digits fuel (n / 16) acc
  end.

Definition hex_setw (w : nat) (n : Z) : cstring :=
  let ds := hex_digits 16 n [] in
  replicate (w - length ds) x30 ++ ds.

(** Reading back lower-case hexadecimal: the reference the printer is checked
    against. *)
Definition hex_value (b : byte) : Z :=
  let z := byte_to_Z b in if z <? 58 then z - 48 else z - 87.

Definition hex_read (s : cstring) : Z :=
  foldl (fun acc b => 16 * acc + hex_value b) 0 s.

(** ** Effectful C++ code

    A member function is a computation over the object's state [S] that emits
    the effects [E] it has on the outside world, in order.  It ends normally,
    by throwing an exception, or in undefined behaviour (an access outside the
    bounds of a buffer). *)

Inductive outcome (X A : Type) : Type :=
| Ret (a : A)
| Throw (x : X)
| UB.
Arguments Ret {X A} a.
Arguments Throw {X A} x.
Arguments UB {X A}.

Section Effects.
Context {S E X : Type}.

Definition M (A : Type) : Type := S -> outcome X A * S * list E.

Definition eret {A} (a : A) : M A := fun s => (Ret a, s, []).

Definition ebind {A B} (m : M A) (k : A -> M B) : M B :=
  fun s =>
    match m s with
    | (Ret a, s1, es1) => let '(r, s2, es2) := k a s1 in (r, s2, es1 ++ es2)
    | (Throw x, s1, es1) => (Throw x, s1, es1)
    | (UB, s1, es1) => (UB, s1, es1)
    end.

Definition eget : M S := fun s => (Ret s, s, []).
Definition emodify (f : S -> S) : M unit := fun s => (Ret (), f s, []).
Definition emit (e : E) : M unit := fun s => (Ret (), s, [e]).
Definition ethrow {A} (x : X) : M A := fun s => (Throw x, s, []).

(** [None] stands for an access outside the bounds of a buffer. *)
Definition edefined {A} (o : option A) : M A :=
  fun s => match o with Some a => (Ret a, s, []) | None => (UB, s, []) end.

Definition ewhen (b : bool) (m : M unit) : M unit :=
  if b then m else eret ().
End Effects.
Arguments M : clear implicits.

Declare Scope eff_scope.
Delimit Scope eff_scope with eff.
Notation "x <- m ;; k" := (ebind m (fun x => k))
  (at level 100, m at next level, right associativity) : eff_scope.
Notation "m ;;; k" := (ebind m (fun _ => k))
  (at level 100, right associativity) : eff_scope.

(** Symbolic execution of a sequence. *)
Lemma ebind_run {St E X A B} (m : M St E X A) (k : A -> M St E X B) s a s1 es1 :
  m s = (Ret a, s1, es1) ->
  ebind m k s = let '(r, s2, es2) := k a s1 in (r, s2, es1 ++ es2).
Proof. intros H. unfold ebind. by rewrite H. Qed.

(** Projections of a run. *)
Definition run_state {S E X A} (r : outcome X A * S * list E) : S := snd (fst r).
Definition run_effects {S E X A} (r : outcome X A * S * list E) : list E := snd r.
Definition run_outcome {S E X A} (r : outcome X A * S * list E) : outcome X A :=
  fst (fst r).

(** ** Reachability *)

Section Reachability.
Context {C L : Type} (init : C -> Prop) (step : C -> L -> C -> Prop).

Inductive reachable : C -> Prop :=
| reachable_init c : init c -> reachable c
| reachable_step c l c' : reachable c -> step c l c' -> reachable c'.

Lemma invariant_rule (I : C -> Prop) :
  (forall c, init c -> I c) ->
  (forall c l c', reachable c -> I c -> step c l c' -> I c') ->
  forall c, reachable c -> I c.
Proof. intros Hi Hs c. induction 1; eauto. Qed.
End Reachability.

(** ** A program logic for effectful code

    The assertions speak of the object's state and of what the effects so far
    have done to the outside, [G]; [interp] is the meaning of one effect.  A
    triple also says that the code returns: no exception, no undefined
    behaviour. *)

Section Hoare.
Context {S E X G : Type} (interp : E -> G -> G).

Definition interp_all (es : list E) (g : G) : G := foldl (fun g e => interp e g) g es.

Definition triple {A} (P : S -> G -> Prop) (m : M S E X A) (Q : A -> S -> G -> Prop) : Prop :=
  forall s g, P s g ->
    match m s with
    | (Ret a, s', es) => Q a s' (interp_all es g)
    | _ => False
    end.

Lemma interp_all_app es1 es2 g :
  interp_all (es1 ++ es2) g = interp_all es2 (interp_all es1 g).
Proof. apply foldl_app. Qed.

Lemma triple_ret {A} (P : S -> G -> Prop) (a : A) :
  triple P (eret a) (fun r s g => r = a /\ P s g).
Proof. by intros s g H. Qed.

Lemma triple_bind {A B} P (m : M S E X A) Q (k : A -> M S E X B) R :
  triple P m Q -> (forall a, triple (Q a) (k a) R) -> triple P (ebind m k) R.
Proof.
  intros Hm Hk s g HP. specialize (Hm s g HP). unfold ebind.
  destruct (m s) as [[[a| |] s1] es1]; [|done..].
  specialize (Hk a s1 _ Hm). destruct (k a s1) as [[[b| |] s2] es2]; [|done..].
  by rewrite interp_all_app.
Qed.

Lemma triple_conseq {A} (P P' : S -> G -> Prop) (m : M S E X A) (Q Q' : A -> S -> G -> Prop) :
  triple P m Q -> (forall s g, P' s g -> P s g) -> (forall a s g, Q a s g -> Q' a s g) ->
  triple P' m Q'.
Proof.
  intros Hm HP HQ s g H. specialize (Hm s g (HP _ _ H)).
  destruct (m s) as [[[a| |] s1] es1]; auto.
Qed.

Lemma triple_get (P : S -> G -> Prop) :
  triple P eget (fun r s g => r = s /\ P s g).
Proof. by intros s g H. Qed.

Lemma triple_if {A} (b : bool) P (m1 m2 : M S E X A) Q :
  triple P m1 Q -> triple P m2 Q -> triple P (if b then m1 else m2) Q.
Proof. by destruct b. Qed.

Lemma triple_decide {A} (C : Prop) `{!Decision C} P (m1 m2 : M S E X A) Q :
  triple P m1 Q -> triple P m2 Q -> triple P (if decide C then m1 else m2) Q.
Proof. by destruct (decide C). Qed.
End Hoare.

(** ** Lemmas on octets and machine integers *)

Create HintDb cpp.
#[export] Hint Extern 1 (_ <= _) => lia : cpp.
#[export] Hint Extern 1 (_ < _) => lia : cpp.

Lemma byte_to_Z_range b : 0 <= byte_to_Z b < 256.
Proof. unfold byte_to_Z. pose proof (Byte.to_N_bounded b). lia. Qed.

Lemma byte_of_to b : byte_of_Z (byte_to_Z b) = b.
Proof.
  unfold byte_of_Z. rewrite Z.mod_small by apply byte_to_Z_range.
  unfold byte_to_Z. by rewrite N2Z.id, Byte.of_to_N.
Qed.

Lemma byte_to_of z : byte_to_Z (byte_of_Z z) = z mod 256.
Proof.
  unfold byte_to_Z, byte_of_Z.
  pose proof (Z.mod_pos_bound z 256 ltac:(lia)) as Hz.
  destruct (Byte.of_N _) as [b|] eqn:E; simpl.
  - apply Byte.to_of_N in E. rewrite E. lia.
  - apply Byte.of_N_None_iff in E. lia.
Qed.

Lemma byte_to_Z_inj a b : byte_to_Z a = byte_to_Z b -> a = b.
Proof. intros H. by rewrite <- (byte_of_to a), <- (byte_of_to b), H. Qed.

Lemma u32_range z : is_u32 (u32 z).
Proof. unfold is_u32, u32. apply Z.mod_pos_bound. lia. Qed.

Lemma u32_small z : is_u32 z -> u32 z = z.
Proof. intros. apply Z.mod_small. done. Qed.

Lemma u32_idem z : u32 (u32 z) = u32 z.
Proof. apply u32_small, u32_range. Qed.

Lemma u32_add_small a b :
  0 <= a -> 0 <= b -> a + b < 2 ^ 32 -> u32 (a + u32 b) = a + b.
Proof.
  intros. rewrite (u32_small b) by (unfold is_u32; lia).
  apply u32_small. unfold is_u32. lia.
Qed.
#[export] Hint Resolve u32_range byte_to_Z_range : cpp.

(** ** Hexadecimal output is the inverse of hexadecimal input *)

Lemma hex_value_digit d : 0 <= d < 16 -> hex_value (hex_digit d) = d.
Proof.
  intros H. unfold hex_value, hex_digit.
  destruct (Z.ltb_spec d 10); rewrite byte_to_of, Z.mod_small by lia;
    case_match; lia.
Qed.

Lemma hex_read_app s1 s2 :
  hex_read (s1 ++ s2) = hex_read s1 * 16 ^ Z.of_nat (length s2) + hex_read s2.
Proof.
  unfold hex_read. rewrite foldl_app. generalize (foldl (λ acc b, 16 * acc + hex_value b) 0 s1).
  induction s2 as [|b s2 IH] using rev_ind; intros a; [simpl; lia|].
  rewrite !foldl_app, IH, length_app, Nat2Z.inj_add, Z.pow_add_r by lia. simpl. lia.
Qed.

Lemma hex_read_zeros n : hex_read (replicate n x30) = 0.
Proof.
  induction n as [|n IH]; [done|].
  change (replicate (S n) x30) with ([x30] ++ replicate n x30).
  by rewrite hex_read_app, IH.
Qed.

Lemma hex_digits_read fuel n acc :
  0 <= n < 16 ^ Z.of_nat fuel ->
  hex_read (hex_digits fuel n acc) = n * 16 ^ Z.of_nat (length acc) + hex_read acc.
Proof.
  revert n acc. induction fuel as [|fuel IH]; intros n acc Hn.
  { simpl in *. change (16 ^ 0) with 1 in Hn. assert (n = 0) by lia. subst. lia. }
  cbn [hex_digits]. pose proof (Z.mod_pos_bound n 16 ltac:(lia)).
  pose proof (Z.div_mod n 16 ltac:(lia)).
  assert (Hc : hex_read (hex_digit (n mod 16) :: acc)
               = (n mod 16) * 16 ^ Z.of_nat (length acc) + hex_read acc).
  { change (?b :: acc) with ([b] ++ acc). rewrite hex_read_app.
    unfold hex_read at 1. simpl. rewrite hex_value_digit by lia. lia. }
  destruct (Z.ltb_spec n 16).
  - rewrite Hc, Z.mod_small by lia. done.
  - rewrite IH.
    + rewrite Hc. simpl length. rewrite Nat2Z.inj_succ, Z.pow_succ_r by lia. nia.
    + rewrite Nat2Z.inj_succ, Z.pow_succ_r in Hn by lia.
      split; [apply Z.div_pos; lia|]. apply Z.div_lt_upper_bound; lia.
Qed.

Lemma hex_digits_length fuel n acc w :
  0 <= n < 16 ^ Z.of_nat w -> (1 <= w)%nat -> (w <= fuel)%nat ->
  (length (hex_digits fuel n acc) <= w + length acc)%nat.
Proof.
  revert n acc w. induction fuel as [|fuel IH]; intros n acc w Hn Hw Hf; [lia|].
  cbn [hex_digits]. destruct (Z.ltb_spec n 16); [simpl; lia|].
  destruct w as [|w]; [lia|]. rewrite Nat2Z.inj_succ, Z.pow_succ_r in Hn by lia.
  assert (Hd : 0 <= n / 16 < 16 ^ Z.of_nat w).
  { split; [apply Z.div_pos; lia|]. apply Z.div_lt_upper_bound; lia. }
  assert (1 <= w)%nat.
  { destruct w; [|lia]. change (16 ^ Z.of_nat 0) with 1 in Hn. lia. }
  specialize (IH (n / 16) (hex_digit (n mod 16) :: acc) w Hd). simpl in IH. lia.
Qed.

Lemma hex_setw_length w n :
  0 <= n < 16 ^ Z.of_nat w -> (1 <= w <= 16)%nat -> length (hex_setw w n) = w.
Proof.
  intros Hn Hw. unfold hex_setw. rewrite length_app, length_replicate.
  pose proof (hex_digits_length 16 n [] w Hn). simpl in *. lia.
Qed.

Lemma hex_setw_read w n : 0 <= n < 2 ^ 64 -> hex_read (hex_setw w n) = n.
Proof.
  intros Hn. unfold hex_setw. rewrite hex_read_app, hex_read_zeros.
  rewrite hex_digits_read by (change (16 ^ Z.of_nat 16) with (2 ^ 64); lia).
  simpl. unfold hex_read. simpl. lia.
Qed.

(** ** Lists of hexadecimal digits *)

Definition is_hex_digit (c : byte) : Prop := exists d, 0 <= d < 16 /\ c = hex_digit d.

Lemma hex_digits_hex fuel n acc :
  Forall is_hex_digit acc -> Forall is_hex_digit (hex_digits fuel n acc).
Proof.
  revert n acc. induction fuel as [|fuel IH]; intros n acc Ha; [done|]. cbn [hex_digits].
  assert (Forall is_hex_digit (hex_digit (n mod 16) :: acc)).
  { constructor; [|done]. exists (n mod 16). split; [|done]. by apply Z.mod_pos_bound. }
  destruct (n <? 16); [done|]. by apply IH.
Qed.

Lemma hex_setw_hex w n : Forall is_hex_digit (hex_setw w n).
Proof.
  unfold hex_setw. apply Forall_app. split; [|by apply hex_digits_hex].
  apply Forall_replicate. by exists 0.
Qed.

Lemma hex_read_nonneg s : Forall is_hex_digit s -> 0 <= hex_read s.
Proof.
  induction s as [|c s IH] using rev_ind; [done|]. rewrite Forall_app, Forall_singleton.
  intros [Hs (d & Hd & ->)]. rewrite hex_read_app. unfold hex_read at 2. simpl.
  rewrite hex_value_digit by done. specialize (IH Hs). lia.
Qed.

Lemma hex_read_cons c s : hex_read (c :: s) = hex_value c * 16 ^ Z.of_nat (length s) + hex_read s.
Proof. change (c :: s) with ([c] ++ s). rewrite hex_read_app. unfold hex_read at 1. simpl. lia. Qed.

Lemma hex_read_bound s : Forall is_hex_digit s -> hex_read s < 16 ^ Z.of_nat (length s).
Proof.
  induction 1 as [|c s (d & Hd & ->) Hs IH]; [done|]. rewrite hex_read_cons, hex_value_digit by done.
  cbn [length]. rewrite Nat2Z.inj_succ, Z.pow_succ_r by lia. nia.
Qed.

(** Numerals of the same length are determined by their value. *)
Lemma hex_read_inj s1 s2 :
  Forall is_hex_digit s1 -> Forall is_hex_digit s2 -> length s1 = length s2 ->
  hex_read s1 = hex_read s2 -> s1 = s2.
Proof.
  intros H1. revert s2. induction H1 as [|c1 s1 (d1 & Hd1 & ->) Hs1 IH]; intros s2 H2 Hl Hr.
  { by destruct s2. }
  destruct H2 as [|c2 s2 (d2 & Hd2 & ->) Hs2]; [done|]. cbn in Hl. injection Hl as Hl.
  rewrite !hex_read_cons, !hex_value_digit, Hl in Hr by done.
  pose proof (hex_read_nonneg _ Hs1). pose proof (hex_read_nonneg _ Hs2).
  pose proof (hex_read_bound _ Hs1) as B1. pose proof (hex_read_bound _ Hs2). rewrite Hl in B1.
  assert (d1 = d2) as -> by nia. f_equal. apply IH; [done|done|lia].
Qed.

(** A numeral split in two. *)
Lemma hex_setw_split w1 w2 n :
  (1 <= w1)%nat -> (1 <= w2)%nat -> (w1 + w2 <= 16)%nat -> 0 <= n < 16 ^ Z.of_nat (w1 + w2) ->
  hex_setw (w1 + w2) n
  = hex_setw w1 (n / 16 ^ Z.of_nat w2) ++ hex_setw w2 (n mod 16 ^ Z.of_nat w2).
Proof.
  intros H1 H2 H12 Hn. assert (Hp : 0 < 16 ^ Z.of_nat w2) by (apply Z.pow_pos_nonneg; lia).
  pose proof (Z.mod_pos_bound n (16 ^ Z.of_nat w2) Hp) as Hm.
  pose proof Hn as Hn'. rewrite Nat2Z.inj_add, Z.pow_add_r in Hn' by lia.
  assert (Hd : 0 <= n / 16 ^ Z.of_nat w2 < 16 ^ Z.of_nat w1).
  { split; [apply Z.div_pos; lia|]. apply Z.div_lt_upper_bound; lia. }
  assert (H64 : forall w, (w <= 16)%nat -> 16 ^ Z.of_nat w <= 2 ^ 64).
  { intros w Hw. change (2 ^ 64) with (16 ^ 16). apply Z.pow_le_mono_r; lia. }
  pose proof (H64 (w1 + w2)%nat). pose proof (H64 w1). pose proof (H64 w2).
  apply hex_read_inj.
  - apply hex_setw_hex.
  - apply Forall_app. split; apply hex_setw_hex.
  - rewrite length_app, !hex_setw_length by lia. done.
  - rewrite hex_read_app, !hex_setw_read, hex_setw_length by lia.
    rewrite (Z.div_mod n (16 ^ Z.of_nat w2)) at 1 by lia. lia.
Qed.
