(* ===== verification/StdString.v ===== *)
(** * StdString: the parts of the C++ and C libraries that the sources parse text with

    [std::isspace] and [std::isdigit] (C locale), [std::stoi] and [std::stoul],
    [c_str], prefixes of command-line arguments.  The numeric conversions are given
    a reference: the decimal numeral that the text starts with. *)

From S2P Require Import Prelude.
#[local] Open Scope Z_scope.

Inductive std_exn := InvalidArgument | OutOfRange | RuntimeError (what : cstring).

Definition isspace (c : byte) : bool :=
  let z := byte_to_Z c in (z =? 32) || ((9 <=? z) && (z <=? 13)).

Definition isdigit (c : byte) : bool :=
  let z := byte_to_Z c in (48 <=? z) && (z <=? 57).

Fixpoint drop_while (p : byte -> bool) (s : cstring) : cstring :=
  match s with
  | [] => []
  | c :: s' => if p c then drop_while p s' else s
  end.

Fixpoint take_while (p : byte -> bool) (s : cstring) : cstring :=
  match s with
  | [] => []
  | c :: s' => if p c then c :: take_while p s' else []
  end.

Definition decimal (ds : cstring) : Z := foldl (fun acc c => 10 * acc + (byte_to_Z c - 48)) 0 ds.

(** What [strtol] and [strtoul] read: leading space, a sign, decimal digits; what
    follows them is ignored.  The sign and the magnitude; [None] without digits. *)
Definition scan_integer (s : cstring) : option (bool * Z) :=
  let s := drop_while isspace s in
  let '(neg, s) :=
    match s with
    | c :: s' => if decide (c = x2d) then (true, s') else if decide (c = x2b) then (false, s') else (false, s)
    | [] => (false, s)
    end in
  let ds := take_while isdigit s in
  if decide (ds = []) then None else Some (neg, decimal ds).

(** [std::stoi(s)] *)
Definition stoi (s : cstring) : std_exn + Z :=
  match scan_integer s with
  | None => inl InvalidArgument
  | Some (neg, m) =>
      let v := if neg : bool then - m else m in
      if (- 2 ^ 31 <=? v) && (v <? 2 ^ 31) then inr v else inl OutOfRange
  end.

(** [std::stoul(s)], [unsigned long] being 64 bits wide: a magnitude out of range is
    an error, a minus sign negates modulo 2^64. *)
Definition stoul (s : cstring) : std_exn + Z :=
  match scan_integer s with
  | None => inl InvalidArgument
  | Some (neg, m) =>
      if m <? 2 ^ 64 then inr (if neg : bool then u64 (- m) else m) else inl OutOfRange
  end.

(** [s.c_str()] read as a C string. *)
Definition c_str (s : cstring) : cstring := take_while (fun c => negb (bool_decide (c = x00))) s.

(** [a.rfind(p, 0) == 0], then [a.substr(p.size())]. *)
Fixpoint strip_prefix (p a : cstring) : option cstring :=
  match p, a with
  | [], _ => Some a
  | x :: p, y :: a => if decide (x = y) then strip_prefix p a else None
  | _ :: _, [] => None
  end.

(** ** Lemmas *)

Lemma strip_prefix_app p a : strip_prefix p (p ++ a) = Some a.
Proof. induction p as [|x p IH]; [done|]. cbn. by rewrite decide_True. Qed.

Lemma strip_prefix_Some p a v : strip_prefix p a = Some v <-> a = p ++ v.
Proof.
  split; [|intros ->; apply strip_prefix_app]. revert a.
  induction p as [|x p IH]; intros [|y a] H; cbn in H; simplify_eq/=; [done..|].
  case_decide; [|done]. subst. f_equal. by apply IH.
Qed.

Lemma isdigit_spec c : isdigit c = true <-> 48 <= byte_to_Z c <= 57.
Proof. unfold isdigit. lia. Qed.

Lemma decimal_app a b :
  decimal (a ++ b) = decimal a * 10 ^ Z.of_nat (length b) + decimal b.
Proof.
  unfold decimal. rewrite foldl_app.
  generalize (foldl (fun acc c => 10 * acc + (byte_to_Z c - 48)) 0 a).
  induction b as [|c b IH] using rev_ind; intros z; [simpl; lia|].
  rewrite !foldl_app, IH, length_app, Nat2Z.inj_add, Z.pow_add_r by lia. simpl. lia.
Qed.

Lemma decimal_cons c ds :
  decimal (c :: ds) = (byte_to_Z c - 48) * 10 ^ Z.of_nat (length ds) + decimal ds.
Proof. change (c :: ds) with ([c] ++ ds). rewrite decimal_app. unfold decimal at 1. simpl. lia. Qed.

(** A numeral of [n] digits is below [10 ^ n]. *)
Lemma decimal_range ds :
  Forall (fun c => isdigit c = true) ds -> 0 <= decimal ds < 10 ^ Z.of_nat (length ds).
Proof.
  induction 1 as [|c ds Hc _ IH]; [by vm_compute|]. rewrite decimal_cons. cbn [length].
  apply isdigit_spec in Hc. rewrite Nat2Z.inj_succ, Z.pow_succ_r by lia. nia.
Qed.

Lemma take_while_Forall p s : Forall (fun c => p c = true) (take_while p s).
Proof. induction s as [|c s IH]; cbn; [done|]. destruct (p c) eqn:E; by constructor. Qed.

Lemma take_while_app p a b :
  Forall (fun c => p c = true) a -> head b = None \/ (exists c, head b = Some c /\ p c = false) ->
  take_while p (a ++ b) = a.
Proof.
  intros Ha Hb. induction Ha as [|c a Hc Ha IH]; cbn; [|by rewrite Hc, IH].
  destruct b as [|c b]; [done|]. cbn in *. destruct Hb as [|(? & [= <-] & ->)]; done.
Qed.

Lemma scan_integer_nonneg s neg m : scan_integer s = Some (neg, m) -> 0 <= m.
Proof.
  unfold scan_integer. destruct (match drop_while isspace s with [] => _ | _ => _ end) as [n' s'].
  case_decide; [done|]. intros [= _ <-]. apply decimal_range, take_while_Forall.
Qed.

(** [stoul] returns a 64-bit value. *)
Lemma stoul_range s v : stoul s = inr v -> 0 <= v < 2 ^ 64.
Proof.
  unfold stoul. destruct (scan_integer s) as [[neg m]|] eqn:E; [|done].
  pose proof (scan_integer_nonneg _ _ _ E). destruct (Z.ltb_spec m (2 ^ 64)); [|done].
  intros [= <-]. destruct neg; [apply Z.mod_pos_bound|]; lia.
Qed.

(** A decimal numeral is read in full, whatever follows it. *)
Lemma scan_integer_digits ds rest :
  ds <> [] -> Forall (fun c => isdigit c = true) ds ->
  head rest = None \/ (exists c, head rest = Some c /\ isdigit c = false) ->
  scan_integer (ds ++ rest) = Some (false, decimal ds).
Proof.
  intros Hne Hd Hr. unfold scan_integer. destruct ds as [|d ds]; [done|].
  pose proof (Forall_inv Hd) as Hd0. cbn beta in Hd0.
  assert (Hs : isspace d = false) by (apply isdigit_spec in Hd0; unfold isspace; lia).
  cbn [app drop_while]. rewrite Hs.
  rewrite (decide_False (P := d = x2d)) by (by intros ->).
  rewrite (decide_False (P := d = x2b)) by (by intros ->).
  change (d :: ds ++ rest) with ((d :: ds) ++ rest).
  rewrite take_while_app by done. by rewrite decide_False by done.
Qed.
