(* ===== verification/Bus.v ===== *)
(** * Bus: what D-Bus does to the arguments of a call

    The components call each other over D-Bus with arguments of type [s] only.  The bus
    is third-party code: the class [Bus] states what its documentation says of strings.
    An argument is handed over as a C string, and a string that is not valid UTF-8 makes
    the call fail. *)

From S2P Require Import Prelude StdString.
#[local] Open Scope Z_scope.

(** Octets 1 to 127: ASCII text. *)
Definition plain_octet (c : byte) : bool := (1 <=? byte_to_Z c) && (byte_to_Z c <? 128).
Definition plain (s : cstring) : Prop := Forall (fun c => plain_octet c = true) s.

Class Bus := {
  (** What arrives, or [None] when the call throws. *)
  bus_string : cstring -> option cstring;
  (** It is the C string of the argument, *)
  bus_string_c_str s s' : bus_string s = Some s' -> s' = c_str s;
  (** and can be sent on. *)
  bus_string_again s s' : bus_string s = Some s' -> bus_string s' = Some s';
  (** ASCII is valid UTF-8. *)
  bus_string_plain s : plain s -> bus_string s = Some s
}.

(** The arguments of a call. *)
Definition bus_args `{Bus} (args : list cstring) : option (list cstring) := mapM bus_string args.

Lemma c_str_no_nul s : x00 ∉ c_str s.
Proof.
  unfold c_str. induction s as [|c s IH]; cbn; [apply not_elem_of_nil|].
  destruct (bool_decide (c = x00)) eqn:E; cbn; [apply not_elem_of_nil|].
  apply bool_decide_eq_false in E. rewrite elem_of_cons. naive_solver.
Qed.

Lemma c_str_id s : x00 ∉ s -> c_str s = s.
Proof.
  unfold c_str. induction s as [|c s IH]; intros H; cbn; [done|].
  rewrite elem_of_cons in H. rewrite bool_decide_eq_false_2 by naive_solver. cbn.
  f_equal. apply IH. naive_solver.
Qed.

Lemma bus_string_no_nul `{Bus} s s' : x00 ∉ s -> bus_string s = Some s' -> s' = s.
Proof. intros Hs Hb. by rewrite (bus_string_c_str _ _ Hb), c_str_id. Qed.

Lemma bus_args_plain `{Bus} args : Forall plain args -> bus_args args = Some args.
Proof.
  intros Hf. unfold bus_args. apply mapM_Some. induction Hf as [|s args Hs _ IH]; constructor; [|done].
  by apply bus_string_plain.
Qed.

Lemma plain_app a b : plain (a ++ b) <-> plain a /\ plain b.
Proof. apply Forall_app. Qed.

Lemma hex_plain s : Forall is_hex_digit s -> plain s.
Proof.
  intros Hs. eapply Forall_impl; [exact Hs|]. intros c (d & Hd & ->). unfold plain_octet, hex_digit.
  destruct (Z.ltb_spec d 10); rewrite byte_to_of, Z.mod_small by lia; lia.
Qed.

#[export] Instance plain_dec s : Decision (plain s).
Proof. apply Forall_dec. intros c. apply _. Defined.

(** A bus that carries ASCII only. *)
Definition ascii_string (s : cstring) : option cstring :=
  if bool_decide (plain s) then Some s else None.

Lemma plain_c_str s : plain s -> c_str s = s.
Proof.
  unfold plain. rewrite Forall_forall. intros H. apply c_str_id. intros Hin. by specialize (H _ Hin).
Qed.

Definition ascii_bus : Bus.
Proof.
  refine {| bus_string := ascii_string |}; unfold ascii_string.
  - intros s s'. case_bool_decide; [|done]. intros [= <-]. by rewrite plain_c_str.
  - intros s s'. case_bool_decide as Hp; [|done]. intros [= <-]. by rewrite bool_decide_eq_true_2.
  - intros s Hp. by rewrite bool_decide_eq_true_2.
Defined.
