(* ===== verification/Pdu.v ===== *)
(** * Pdu: the SMPP wire format of [SmppClientHandler/include/smpp_pdu.hpp]

    Command and status constants, the 16-octet header, C-octet strings, the
    [submit_sm] parser and the builders of response and [deliver_sm] PDUs.
    A pointer into a buffer is the buffer with an offset; reading or writing
    outside the buffer is [None]. *)

From S2P Require Import Prelude.
#[local] Open Scope Z_scope.
#[local] Open Scope cpp_scope.

(** ** Constants *)

Definition BIND_TRANSMITTER : Z := 0x00000002.
Definition BIND_TRANSMITTER_RESP : Z := 0x80000002.
Definition BIND_RECEIVER : Z := 0x00000003.
Definition BIND_RECEIVER_RESP : Z := 0x80000003.
Definition BIND_TRANSCEIVER : Z := 0x00000009.
Definition BIND_TRANSCEIVER_RESP : Z := 0x80000009.
Definition UNBIND : Z := 0x00000006.
Definition UNBIND_RESP : Z := 0x80000006.
Definition ENQUIRE_LINK : Z := 0x00000015.
Definition ENQUIRE_LINK_RESP : Z := 0x80000015.
Definition SUBMIT_SM : Z := 0x00000004.
Definition SUBMIT_SM_RESP : Z := 0x80000004.
Definition DELIVER_SM : Z := 0x00000005.
Definition DELIVER_SM_RESP : Z := 0x80000005.
Definition GENERIC_NACK : Z := 0x80000000.

Definition ESME_ROK : Z := 0x00000000.
Definition ESME_RINVBNDSTS : Z := 0x00000004.
Definition ESME_RALYBND : Z := 0x00000005.
Definition ESME_RINVPASWD : Z := 0x0000000E.
Definition ESME_RINVSYSID : Z := 0x0000000F.
Definition ESME_RINVCMDID : Z := 0x00000003.
Definition ESME_RTHROTTLED : Z := 0x00000058.

(** ** Buffers *)

(** [memcpy(buf.data() + off, src.data(), src.size())]. *)
Definition mem_write (buf : list byte) (off : nat) (src : list byte) : option (list byte) :=
  if decide (off + length src <= length buf)%nat
  then Some (take off buf ++ src ++ drop (off + length src) buf)
  else None.

(** [std::vector<uint8_t> v(n)]: [n] zero octets. *)
Definition vector_u8 (n : Z) : list byte := replicate (Z.to_nat n) x00.

(** ** Header *)

Record Header := {
  command_length : Z;
  command_id : Z;
  command_status : Z;
  sequence_number : Z
}.

Definition read_u32 (buf : list byte) (p : nat) : option Z :=
  b0 ← buf !! p;
  b1 ← buf !! (p + 1)%nat;
  b2 ← buf !! (p + 2)%nat;
  b3 ← buf !! (p + 3)%nat;
  Some (Z.lor (Z.lor (Z.lor (byte_to_Z b0 <<u32 24) (byte_to_Z b1 <<u32 16))
                     (byte_to_Z b2 <<u32 8))
              (byte_to_Z b3)).

Definition write_u32 (buf : list byte) (p : nat) (v : Z) : option (list byte) :=
  mem_write buf p
    [byte_of_Z (Z.land (Z.shiftr v 24) 0xff);
     byte_of_Z (Z.land (Z.shiftr v 16) 0xff);
     byte_of_Z (Z.land (Z.shiftr v 8) 0xff);
     byte_of_Z (Z.land v 0xff)].

Definition decode_header (buf : list byte) : option Header :=
  len ← read_u32 buf 0;
  cid ← read_u32 buf 4;
  sts ← read_u32 buf 8;
  seq ← read_u32 buf 12;
  Some {| command_length := len; command_id := cid;
          command_status := sts; sequence_number := seq |}.

(** ** C-octet strings *)

(** The [while] loop of [read_cstr]; one unit of fuel per iteration. *)
Fixpoint read_cstr_loop (fuel : nat) (buf : list byte) (off : nat) (s : cstring)
    (max_len : nat) : cstring * nat :=
  match fuel with
  | O => (s, off)
  | S fuel =>
      if decide (length s < max_len)%nat then
        match buf !! off with
        | None => (s, off)
        | Some c =>
            if decide (c = x00) then (s, S off)
            else read_cstr_loop fuel buf (S off) (s ++ [c]) max_len
        end
      else (s, off)
  end.

(** Returns the string and the advanced offset.  The loop adds one octet to the
    string per iteration, so it runs at most [max_len] times. *)
Definition read_cstr (buf : list byte) (off : nat) (max_len : nat) : cstring * nat :=
  read_cstr_loop (S max_len) buf off [] max_len.

(** The default of the [max_len] argument. *)
Definition default_max_len : nat := 65.

(** ** [submit_sm] *)

Record SubmitSm := {
  service_type : cstring;
  src_ton : byte; src_npi : byte;
  src_addr : cstring;
  dst_ton : byte; dst_npi : byte;
  dst_addr : cstring;
  esm_class : byte; protocol_id : byte; priority_flag : byte;
  schedule_delivery_time : cstring;
  validity_period : cstring;
  registered_delivery : byte; replace_if_present : byte;
  data_coding : byte; sm_default_msg_id : byte;
  short_message : cstring
}.

Definition SubmitSm_init : SubmitSm :=
  {| service_type := []; src_ton := x00; src_npi := x00; src_addr := [];
     dst_ton := x00; dst_npi := x00; dst_addr := [];
     esm_class := x00; protocol_id := x00; priority_flag := x00;
     schedule_delivery_time := []; validity_period := [];
     registered_delivery := x00; replace_if_present := x00;
     data_coding := x00; sm_default_msg_id := x00; short_message := [] |}.

(** [if (off < body.size()) field = body[off++];] on a field that holds 0. *)
Definition next_u8 (body : list byte) (off : nat) : byte * nat :=
  match body !! off with
  | Some b => (b, S off)
  | None => (x00, off)
  end.

Definition parse_submit_sm (body : list byte) : SubmitSm :=
  if decide (body = []) then SubmitSm_init else
  let off := 0%nat in
  let '(service_type, off) := read_cstr body off default_max_len in
  let '(src_ton, off) := next_u8 body off in
  let '(src_npi, off) := next_u8 body off in
  let '(src_addr, off) := read_cstr body off default_max_len in
  let '(dst_ton, off) := next_u8 body off in
  let '(dst_npi, off) := next_u8 body off in
  let '(dst_addr, off) := read_cstr body off default_max_len in
  let '(esm_class, off) := next_u8 body off in
  let '(protocol_id, off) := next_u8 body off in
  let '(priority_flag, off) := next_u8 body off in
  let '(schedule_delivery_time, off) := read_cstr body off default_max_len in
  let '(validity_period, off) := read_cstr body off default_max_len in
  let '(registered_delivery, off) := next_u8 body off in
  let '(replace_if_present, off) := next_u8 body off in
  let '(data_coding, off) := next_u8 body off in
  let '(sm_default_msg_id, off) := next_u8 body off in
  let short_message :=
    match body !! off with
    | None => []
    | Some sm_len =>
        let off := S off in
        let avail := Nat.min (Z.to_nat (byte_to_Z sm_len)) (length body - off) in
        take avail (drop off body)
    end in
  {| service_type := service_type; src_ton := src_ton; src_npi := src_npi;
     src_addr := src_addr; dst_ton := dst_ton; dst_npi := dst_npi;
     dst_addr := dst_addr; esm_class := esm_class; protocol_id := protocol_id;
     priority_flag := priority_flag;
     schedule_delivery_time := schedule_delivery_time;
     validity_period := validity_period;
     registered_delivery := registered_delivery;
     replace_if_present := replace_if_present; data_coding := data_coding;
     sm_default_msg_id := sm_default_msg_id; short_message := short_message |}.

(** ** PDU builders *)

Definition make_response (command_id command_status sequence_number : Z)
    (system_id : cstring) : option (list byte) :=
  let body_len :=
    if decide (system_id = []) then 0 else Z.of_nat (length system_id) + 1 in
  let total := 16 +u32 u32 body_len in
  let pdu := vector_u8 total in
  pdu ← write_u32 pdu 0 total;
  pdu ← write_u32 pdu 4 command_id;
  pdu ← write_u32 pdu 8 command_status;
  pdu ← write_u32 pdu 12 sequence_number;
  if decide (system_id = []) then Some pdu
  else mem_write pdu 16 (system_id ++ [x00]).

(** The octets pushed on [body] by [make_deliver_sm], lines 149 to 166. *)
Definition deliver_sm_body (src_addr dst_addr short_message : cstring)
    (src_ton src_npi dst_ton dst_npi : byte) : list byte :=
  [x00]
  ++ [src_ton; src_npi] ++ src_addr ++ [x00]
  ++ [dst_ton; dst_npi] ++ dst_addr ++ [x00]
  ++ [x00; x00; x00]
  ++ [x00; x00]
  ++ [x00; x00; x00; x00]
  ++ [byte_of_Z (Z.of_nat (length short_message))]
  ++ short_message.

Definition make_deliver_sm (sequence_number : Z)
    (src_addr dst_addr short_message : cstring)
    (src_ton src_npi dst_ton dst_npi : byte) : option (list byte) :=
  let body :=
    deliver_sm_body src_addr dst_addr short_message src_ton src_npi dst_ton dst_npi in
  let total := 16 +u32 u32 (Z.of_nat (length body)) in
  let pdu := vector_u8 total in
  pdu ← write_u32 pdu 0 total;
  pdu ← write_u32 pdu 4 DELIVER_SM;
  pdu ← write_u32 pdu 8 ESME_ROK;
  pdu ← write_u32 pdu 12 sequence_number;
  mem_write pdu 16 body.

Definition bind_resp_id (req_id : Z) : Z := Z.lor req_id 0x80000000.

(** ** Specifications: the layout SMPP 3.4 prescribes *)

(** Big-endian encoding of a 32-bit integer. *)
Definition be32 (v : Z) : list byte :=
  [byte_of_Z (v / 2 ^ 24); byte_of_Z (v / 2 ^ 16); byte_of_Z (v / 2 ^ 8); byte_of_Z v].

Definition header_octets (h : Header) : list byte :=
  be32 (command_length h) ++ be32 (command_id h)
  ++ be32 (command_status h) ++ be32 (sequence_number h).

(** A whole PDU: the header with its length field computed, then the body. *)
Definition pdu_octets (cid sts seq : Z) (body : list byte) : list byte :=
  header_octets {| command_length := 16 + Z.of_nat (length body); command_id := cid;
                   command_status := sts; sequence_number := seq |} ++ body.

(** What [read_cstr] is to compute on the octets that remain: the string up to
    the terminator, or to the length limit, and the number of octets consumed. *)
Fixpoint cstr_ref (max_len : nat) (r : list byte) : cstring * nat :=
  match max_len, r with
  | S max_len, b :: r =>
      if decide (b = x00) then ([], 1%nat)
      else let '(s, n) := cstr_ref max_len r in (b :: s, S n)
  | _, _ => ([], 0%nat)
  end.

(** The body of a [submit_sm] (or [deliver_sm]) PDU, section 4.4.1. *)
Definition encode_submit_sm (sm : SubmitSm) : list byte :=
  service_type sm ++ [x00]
  ++ [src_ton sm; src_npi sm] ++ src_addr sm ++ [x00]
  ++ [dst_ton sm; dst_npi sm] ++ dst_addr sm ++ [x00]
  ++ [esm_class sm; protocol_id sm; priority_flag sm]
  ++ schedule_delivery_time sm ++ [x00] ++ validity_period sm ++ [x00]
  ++ [registered_delivery sm; replace_if_present sm; data_coding sm; sm_default_msg_id sm]
  ++ [byte_of_Z (Z.of_nat (length (short_message sm)))] ++ short_message sm.

(** A C-octet string that fits the limit of [read_cstr] with its terminator. *)
Definition cstr_ok (s : cstring) : Prop := (x00 ∉ s) /\ (length s < default_max_len)%nat.

#[export] Instance cstr_ok_dec s : Decision (cstr_ok s).
Proof. unfold cstr_ok. apply _. Defined.

(** ** Lemmas: 32-bit big-endian integers *)

Lemma lor_disjoint a b n :
  0 <= n -> 0 <= b < 2 ^ n -> Z.lor (a * 2 ^ n) b = a * 2 ^ n + b.
Proof.
  intros Hn Hb.
  assert (Hl : Z.land (a * 2 ^ n) b = 0).
  { apply Z.bits_inj'. intros i Hi. rewrite Z.land_spec, Z.bits_0.
    destruct (Z.lt_ge_cases i n).
    - rewrite Z.mul_pow2_bits_low; [done | lia].
    - rewrite andb_comm, <- (Z.mod_small b (2 ^ n)) by lia.
      by rewrite Z.mod_pow2_bits_high by lia. }
  rewrite <- Z.lxor_lor by done. symmetry. by apply Z.add_nocarry_lxor.
Qed.

Lemma land_ff_byte v : byte_of_Z (Z.land v 0xff) = byte_of_Z v.
Proof.
  apply byte_to_Z_inj. rewrite !byte_to_of.
  change 0xff with (Z.ones 8). rewrite Z.land_ones by lia.
  change (2 ^ 8) with 256. by rewrite Z.mod_mod.
Qed.

(** The octets [write_u32] stores are the big-endian encoding. *)
Lemma write_u32_be32 buf p v : write_u32 buf p v = mem_write buf p (be32 v).
Proof.
  unfold write_u32, be32. rewrite !land_ff_byte, !Z.shiftr_div_pow2 by lia. done.
Qed.

Lemma be32_combine b0 b1 b2 b3 :
  Z.lor (Z.lor (Z.lor (byte_to_Z b0 <<u32 24) (byte_to_Z b1 <<u32 16))
               (byte_to_Z b2 <<u32 8)) (byte_to_Z b3)
  = byte_to_Z b0 * 2 ^ 24 + byte_to_Z b1 * 2 ^ 16 + byte_to_Z b2 * 2 ^ 8 + byte_to_Z b3.
Proof.
  pose proof (byte_to_Z_range b0). pose proof (byte_to_Z_range b1).
  pose proof (byte_to_Z_range b2). pose proof (byte_to_Z_range b3).
  rewrite !Z.shiftl_mul_pow2 by lia.
  rewrite !u32_small by (unfold is_u32; lia).
  rewrite (lor_disjoint (byte_to_Z b0) (byte_to_Z b1 * 2 ^ 16) 24) by lia.
  replace (byte_to_Z b0 * 2 ^ 24 + byte_to_Z b1 * 2 ^ 16)
    with ((byte_to_Z b0 * 2 ^ 8 + byte_to_Z b1) * 2 ^ 16) by lia.
  rewrite (lor_disjoint _ (byte_to_Z b2 * 2 ^ 8) 16) by lia.
  replace ((byte_to_Z b0 * 2 ^ 8 + byte_to_Z b1) * 2 ^ 16 + byte_to_Z b2 * 2 ^ 8)
    with (((byte_to_Z b0 * 2 ^ 8 + byte_to_Z b1) * 2 ^ 8 + byte_to_Z b2) * 2 ^ 8) by lia.
  rewrite (lor_disjoint _ (byte_to_Z b3) 8) by lia. lia.
Qed.

Lemma be32_value v :
  byte_to_Z (byte_of_Z (v / 2 ^ 24)) * 2 ^ 24 + byte_to_Z (byte_of_Z (v / 2 ^ 16)) * 2 ^ 16
  + byte_to_Z (byte_of_Z (v / 2 ^ 8)) * 2 ^ 8 + byte_to_Z (byte_of_Z v) = u32 v.
Proof.
  rewrite !byte_to_of. unfold u32.
  change (2 ^ 24) with (2 ^ 16 * 256). change (2 ^ 16) with (2 ^ 8 * 256).
  change (2 ^ 8) with 256. change (2 ^ 32) with (256 * 256 * 256 * 256).
  rewrite <- !Z.div_div by lia. Z.div_mod_to_equations. lia.
Qed.

Lemma length_be32 v : length (be32 v) = 4%nat.
Proof. done. Qed.

Lemma lookup_app_plus (pre l : list byte) k : (pre ++ l) !! (length pre + k)%nat = l !! k.
Proof. rewrite lookup_app_r by lia. f_equal. lia. Qed.

(** Reading at the place where a 32-bit integer is encoded. *)
Lemma read_u32_be32 pre v post :
  read_u32 (pre ++ be32 v ++ post) (length pre) = Some (u32 v).
Proof.
  unfold read_u32, be32.
  rewrite <- (Nat.add_0_r (length pre)) at 1.
  rewrite !lookup_app_plus. cbn.
  by rewrite be32_combine, be32_value.
Qed.

Lemma read_u32_Some buf p :
  (p + 4 <= length buf)%nat -> exists v, read_u32 buf p = Some v /\ is_u32 v.
Proof.
  intros H.
  destruct (lookup_lt_is_Some_2 buf p) as [b0 H0]; [lia|].
  destruct (lookup_lt_is_Some_2 buf (p + 1)) as [b1 H1]; [lia|].
  destruct (lookup_lt_is_Some_2 buf (p + 2)) as [b2 H2]; [lia|].
  destruct (lookup_lt_is_Some_2 buf (p + 3)) as [b3 H3]; [lia|].
  eexists. unfold read_u32. rewrite H0, H1, H2, H3. simpl. split; [done|].
  rewrite be32_combine.
  pose proof (byte_to_Z_range b0). pose proof (byte_to_Z_range b1).
  pose proof (byte_to_Z_range b2). pose proof (byte_to_Z_range b3).
  unfold is_u32. lia.
Qed.

Lemma read_u32_None buf p : (length buf < p + 4)%nat -> read_u32 buf p = None.
Proof.
  intros H. unfold read_u32.
  destruct (buf !! (p + 3)%nat) eqn:E; [apply lookup_lt_Some in E; lia|].
  by destruct (buf !! p), (buf !! (p + 1)%nat), (buf !! (p + 2)%nat).
Qed.

(** ** Lemmas: buffers *)

Lemma mem_write_mid pre mid post src :
  length mid = length src ->
  mem_write (pre ++ mid ++ post) (length pre) src = Some (pre ++ src ++ post).
Proof.
  intros H. unfold mem_write.
  rewrite decide_True by (rewrite !length_app; lia).
  rewrite take_app_length, drop_app_ge by lia.
  replace (length pre + length src - length pre)%nat with (length mid) by lia.
  by rewrite drop_app_length.
Qed.

Lemma write_u32_mid pre mid post v :
  length mid = 4%nat ->
  write_u32 (pre ++ mid ++ post) (length pre) v = Some (pre ++ be32 v ++ post).
Proof. intros H. rewrite write_u32_be32. by apply mem_write_mid. Qed.

(** The four [write_u32] calls both builders perform on a fresh vector write
    the header; [k] is what the builder does next. *)
Lemma build_header {A} n cid sts seq (r : list byte) (k : list byte -> option A) :
  (pdu ← write_u32 (replicate 16 x00 ++ r) 0 n;
   pdu ← write_u32 pdu 4 cid;
   pdu ← write_u32 pdu 8 sts;
   pdu ← write_u32 pdu 12 seq;
   k pdu)
  = k (header_octets {| command_length := n; command_id := cid;
                        command_status := sts; sequence_number := seq |} ++ r).
Proof.
  pose proof (write_u32_mid [] (replicate 4 x00) (replicate 12 x00 ++ r) n eq_refl) as E0.
  pose proof (write_u32_mid (be32 n) (replicate 4 x00) (replicate 8 x00 ++ r) cid eq_refl) as E1.
  pose proof (write_u32_mid (be32 n ++ be32 cid) (replicate 4 x00) (replicate 4 x00 ++ r)
                sts eq_refl) as E2.
  pose proof (write_u32_mid (be32 n ++ be32 cid ++ be32 sts) (replicate 4 x00) r
                seq eq_refl) as E3.
  unfold header_octets. cbn [command_length command_id command_status sequence_number].
  cbn [app replicate length be32] in *.
  rewrite E0. cbn [mbind option_bind]. rewrite E1. cbn [mbind option_bind].
  rewrite E2. cbn [mbind option_bind]. rewrite E3. cbn [mbind option_bind]. done.
Qed.

Lemma vector_u8_header (body : list byte) :
  vector_u8 (16 + Z.of_nat (length body)) = replicate 16 x00 ++ replicate (length body) x00.
Proof. unfold vector_u8. rewrite <- replicate_add. f_equal. lia. Qed.

Lemma length_header_octets h : length (header_octets h) = 16%nat.
Proof. done. Qed.

(** With the copy of the body, they build the whole PDU. *)
Lemma build_pdu cid sts seq body total :
  total = 16 + Z.of_nat (length body) ->
  (pdu ← write_u32 (vector_u8 total) 0 total;
   pdu ← write_u32 pdu 4 cid;
   pdu ← write_u32 pdu 8 sts;
   pdu ← write_u32 pdu 12 seq;
   mem_write pdu 16 body)
  = Some (pdu_octets cid sts seq body).
Proof.
  intros ->. rewrite vector_u8_header, build_header. unfold pdu_octets.
  set (h := header_octets _).
  pose proof (mem_write_mid h (replicate (length body) x00) [] body) as E.
  rewrite !app_nil_r in E. apply E. apply length_replicate.
Qed.

(** The response builder, without undefined behaviour as long as the length of
    the PDU is a 32-bit integer. *)
Definition response_body (system_id : cstring) : list byte :=
  if decide (system_id = []) then [] else system_id ++ [x00].

Lemma make_response_octets cid sts seq sid :
  17 + Z.of_nat (length sid) < 2 ^ 32 ->
  make_response cid sts seq sid = Some (pdu_octets cid sts seq (response_body sid)).
Proof.
  intros Hlen. unfold make_response, response_body. destruct (decide (sid = [])) as [->|Hne].
  - change (16 +u32 u32 0) with (16 + Z.of_nat (length (@nil byte))).
    by rewrite vector_u8_header, build_header.
  - rewrite <- (build_pdu _ _ _ (sid ++ [x00]) (16 + (Z.of_nat (length sid) + 1)))
      by (rewrite length_app; simpl; lia).
    by rewrite u32_add_small by lia.
Qed.

Lemma make_deliver_sm_octets seq src dst msg st sn dt dn :
  33 + Z.of_nat (length src + length dst + length msg) < 2 ^ 32 ->
  make_deliver_sm seq src dst msg st sn dt dn
  = Some (pdu_octets DELIVER_SM ESME_ROK seq (deliver_sm_body src dst msg st sn dt dn)).
Proof.
  intros Hlen. unfold make_deliver_sm.
  set (body := deliver_sm_body src dst msg st sn dt dn).
  assert (Hb : Z.of_nat (length body) = 17 + Z.of_nat (length src + length dst + length msg)).
  { unfold body, deliver_sm_body. rewrite !length_app. simpl. lia. }
  rewrite u32_add_small by lia. by apply build_pdu.
Qed.

Lemma read_u32_at (h : list byte) p v post :
  length h = p -> read_u32 (h ++ be32 v ++ post) p = Some (u32 v).
Proof. intros <-. apply read_u32_be32. Qed.

(** Decoding the header of any buffer that starts with an encoded header. *)
Lemma decode_header_octets h rest :
  decode_header (header_octets h ++ rest)
  = Some {| command_length := u32 (command_length h); command_id := u32 (command_id h);
            command_status := u32 (command_status h);
            sequence_number := u32 (sequence_number h) |}.
Proof.
  unfold decode_header, header_octets. rewrite <- !app_assoc.
  rewrite (read_u32_be32 [] _ _ : read_u32 (be32 _ ++ _) 0 = _). cbn [mbind option_bind].
  rewrite (read_u32_at (be32 _) 4) by done. cbn [mbind option_bind].
  rewrite (app_assoc (be32 (command_length h))).
  rewrite (read_u32_at (be32 _ ++ be32 _) 8) by done. cbn [mbind option_bind].
  rewrite (app_assoc (be32 _ ++ be32 _)).
  by rewrite (read_u32_at ((be32 _ ++ be32 _) ++ be32 _) 12) by done.
Qed.

Lemma decode_header_total buf :
  (16 <= length buf)%nat -> exists h, decode_header buf = Some h /\
    is_u32 (command_length h) /\ is_u32 (command_id h) /\
    is_u32 (command_status h) /\ is_u32 (sequence_number h).
Proof.
  intros Hl. unfold decode_header.
  destruct (read_u32_Some buf 0) as (v0 & -> & ?); [lia|].
  destruct (read_u32_Some buf 4) as (v1 & -> & ?); [lia|].
  destruct (read_u32_Some buf 8) as (v2 & -> & ?); [lia|].
  destruct (read_u32_Some buf 12) as (v3 & -> & ?); [lia|].
  simpl. eauto 10.
Qed.

(** ** Lemmas: C-octet strings *)

Lemma read_cstr_loop_ref fuel buf off s max_len :
  (length s <= max_len)%nat -> (max_len - length s < fuel)%nat ->
  read_cstr_loop fuel buf off s max_len
  = let '(t, n) := cstr_ref (max_len - length s) (drop off buf) in (s ++ t, (off + n)%nat).
Proof.
  revert off s. induction fuel as [|fuel IH]; intros off s Hs Hf; [lia|].
  cbn [read_cstr_loop]. case_decide as Hlt.
  - destruct (max_len - length s)%nat as [|m] eqn:Em; [lia|].
    destruct (buf !! off) as [c|] eqn:Ec.
    + rewrite (drop_S _ c) by done. cbn [cstr_ref]. case_decide.
      * rewrite app_nil_r. f_equal. lia.
      * rewrite IH by (rewrite length_app; simpl; lia).
        rewrite length_app. cbn [length].
        replace (max_len - (length s + 1))%nat with m by lia.
        destruct (cstr_ref m _) as [t n]. by rewrite <- app_assoc, Nat.add_succ_r.
    + rewrite drop_ge by (by apply lookup_ge_None). cbn [cstr_ref].
      by rewrite app_nil_r, Nat.add_0_r.
  - replace (max_len - length s)%nat with 0%nat by lia. cbn [cstr_ref].
    by rewrite app_nil_r, Nat.add_0_r.
Qed.

(** [read_cstr] computes the reference function on the remaining octets. *)
Lemma read_cstr_ref buf off max_len :
  read_cstr buf off max_len
  = let '(t, n) := cstr_ref max_len (drop off buf) in (t, (off + n)%nat).
Proof.
  unfold read_cstr. rewrite read_cstr_loop_ref by (simpl; lia).
  cbn [length]. by rewrite Nat.sub_0_r.
Qed.

Lemma cstr_ref_bounds max_len r t n :
  cstr_ref max_len r = (t, n) ->
  (x00 ∉ t) /\ (length t <= max_len)%nat /\ (length t <= n <= S (length t))%nat /\
  (n <= length r)%nat.
Proof.
  revert r t n. induction max_len as [|m IH]; intros [|b r] t n; cbn [cstr_ref];
    intros H; simplify_eq; try (split_and!; simpl; [set_solver | lia..]).
  case_decide; simplify_eq; [split_and!; simpl; [set_solver | lia..]|].
  destruct (cstr_ref m r) as [t' n'] eqn:E. simplify_eq.
  destruct (IH _ _ _ E) as (? & ? & ? & ?). split_and!; simpl; [set_solver | lia..].
Qed.

Lemma cstr_ref_terminated max_len s rest :
  x00 ∉ s -> (length s < max_len)%nat ->
  cstr_ref max_len (s ++ x00 :: rest) = (s, S (length s)).
Proof.
  revert max_len. induction s as [|b s IH]; intros [|m] Hs Hl; cbn [cstr_ref app length] in *;
    try lia; [done|].
  rewrite decide_False by set_solver. rewrite IH by (set_solver || lia). done.
Qed.

Lemma cstr_ref_truncated max_len s rest :
  x00 ∉ s -> length s = max_len -> cstr_ref max_len (s ++ rest) = (s, length s).
Proof.
  revert max_len. induction s as [|b s IH]; intros [|m] Hs Hl; cbn [cstr_ref app length] in *;
    try lia; [by destruct rest|].
  rewrite decide_False by set_solver. rewrite IH by (set_solver || lia). done.
Qed.

(** A cursor: the octets that remain at an offset determine what the readers
    return and where they leave the offset. *)
Lemma read_cstr_at body off s rest :
  drop off body = s ++ x00 :: rest -> cstr_ok s ->
  read_cstr body off default_max_len = (s, (off + S (length s))%nat) /\
  drop (off + S (length s)) body = rest.
Proof.
  intros Hd [H1 H2]. rewrite read_cstr_ref, Hd, cstr_ref_terminated by done.
  split; [done|]. rewrite <- drop_drop, Hd, cons_middle, app_assoc.
  apply drop_app_length'. rewrite length_app. simpl. lia.
Qed.

Lemma next_u8_at body off b rest :
  drop off body = b :: rest ->
  next_u8 body off = (b, S off) /\ drop (S off) body = rest.
Proof.
  intros Hd. unfold next_u8.
  assert (Hl : body !! off = Some b) by (by rewrite <- (Nat.add_0_r off), <- lookup_drop, Hd).
  rewrite Hl. split; [done|]. rewrite (drop_S _ b) in Hd by done. by simplify_eq.
Qed.

(** Advances over the next field: the hypothesis [Hd] gives the octets at the
    cursor, and is updated to those after the field. *)
Ltac parse_field Hd :=
  first [ let E := fresh "E" in
          destruct (next_u8_at _ _ _ _ Hd) as [E Hd']; rewrite E; clear E Hd; rename Hd' into Hd
        | let E := fresh "E" in
          destruct (read_cstr_at _ _ _ _ Hd) as [E Hd']; [done|];
          rewrite E; clear E Hd; rename Hd' into Hd ].

(** ** Properties of the wire format *)

(** Well-formed fields: what the encoding can represent. *)
Definition submit_sm_ok (sm : SubmitSm) : Prop :=
  cstr_ok (service_type sm) /\ cstr_ok (src_addr sm) /\ cstr_ok (dst_addr sm) /\
  cstr_ok (schedule_delivery_time sm) /\ cstr_ok (validity_period sm) /\
  (length (short_message sm) <= 255)%nat.

#[export] Instance submit_sm_ok_dec sm : Decision (submit_sm_ok sm).
Proof. unfold submit_sm_ok. apply _. Defined.

Lemma parse_encode_submit_sm sm :
  submit_sm_ok sm -> parse_submit_sm (encode_submit_sm sm) = sm.
Proof.
  intros (H1 & H2 & H3 & H4 & H5 & H6). unfold parse_submit_sm.
  rewrite decide_False by (unfold encode_submit_sm; by destruct (service_type sm)).
  set (body := encode_submit_sm sm).
  assert (Hd : drop 0 body = encode_submit_sm sm) by done.
  unfold encode_submit_sm in Hd. cbn [app] in Hd. clearbody body.
  do 16 parse_field Hd.
  destruct (next_u8_at _ _ _ _ Hd) as [E Hd'].
  unfold next_u8 in E. destruct (body !! _) as [b|]; [|injection E; lia].
  injection E as ->. rewrite Hd'. apply (f_equal length) in Hd'. rewrite length_drop in Hd'.
  rewrite Hd', byte_to_of, Z.mod_small, Nat2Z.id, Nat.min_id, take_ge by lia.
  by destruct sm.
Qed.

Lemma read_cstr_bounds body off max_len s off' :
  read_cstr body off max_len = (s, off') ->
  (x00 ∉ s) /\ (length s <= max_len)%nat /\ (off + length s <= off' <= off + S (length s))%nat /\
  ((off <= length body)%nat -> (off' <= length body)%nat).
Proof.
  rewrite read_cstr_ref. destruct (cstr_ref _ _) as [t n] eqn:E. intros ?; simplify_eq.
  destruct (cstr_ref_bounds _ _ _ _ E) as (? & ? & ? & Hn). rewrite length_drop in Hn.
  split_and!; [done | lia..].
Qed.

Lemma deliver_sm_body_encode src dst msg st sn dt dn :
  deliver_sm_body src dst msg st sn dt dn
  = encode_submit_sm
      {| service_type := []; src_ton := st; src_npi := sn; src_addr := src;
         dst_ton := dt; dst_npi := dn; dst_addr := dst;
         esm_class := x00; protocol_id := x00; priority_flag := x00;
         schedule_delivery_time := []; validity_period := [];
         registered_delivery := x00; replace_if_present := x00;
         data_coding := x00; sm_default_msg_id := x00; short_message := msg |}.
Proof. done. Qed.

Lemma drop_pdu_octets cid sts seq body : drop 16 (pdu_octets cid sts seq body) = body.
Proof. unfold pdu_octets. by rewrite drop_app_ge by done. Qed.

Lemma length_pdu_octets cid sts seq body :
  length (pdu_octets cid sts seq body) = (16 + length body)%nat.
Proof. unfold pdu_octets. rewrite length_app. done. Qed.

(** Decoding the header of a PDU whose length and fields are 32-bit integers. *)
Lemma decode_pdu_octets cid sts seq body :
  is_u32 cid -> is_u32 sts -> is_u32 seq -> 16 + Z.of_nat (length body) < 2 ^ 32 ->
  decode_header (pdu_octets cid sts seq body)
  = Some {| command_length := 16 + Z.of_nat (length body); command_id := cid;
            command_status := sts; sequence_number := seq |}.
Proof.
  intros. unfold pdu_octets. rewrite decode_header_octets.
  cbn [command_length command_id command_status sequence_number].
  by rewrite !u32_small by (done || unfold is_u32; lia).
Qed.

Lemma cstr_ok_nil : cstr_ok [].
Proof. split; [set_solver | unfold default_max_len; simpl; lia]. Qed.
#[export] Hint Resolve cstr_ok_nil : cpp.

(** Parsing the body of a [deliver_sm] gives back the addresses and the text. *)
Lemma parse_deliver_sm_body src dst msg st sn dt dn :
  cstr_ok src -> cstr_ok dst -> (length msg <= 255)%nat ->
  let sm := parse_submit_sm (deliver_sm_body src dst msg st sn dt dn) in
  src_addr sm = src /\ dst_addr sm = dst /\ short_message sm = msg /\
  src_ton sm = st /\ src_npi sm = sn /\ dst_ton sm = dt /\ dst_npi sm = dn.
Proof.
  intros H1 H2 H3. cbv zeta. rewrite deliver_sm_body_encode, parse_encode_submit_sm; [done|].
  split_and!; auto with cpp.
Qed.

(** The octets of the text that a peer reads when its length exceeds 255. *)
Lemma parse_deliver_sm_body_long src dst msg st sn dt dn :
  cstr_ok src -> cstr_ok dst ->
  short_message (parse_submit_sm (deliver_sm_body src dst msg st sn dt dn))
  = take (length msg mod 256) msg.
Proof.
  intros H1 H2. unfold parse_submit_sm. rewrite decide_False by done.
  set (body := deliver_sm_body _ _ _ _ _ _ _).
  assert (Hd : drop 0 body = [] ++ deliver_sm_body src dst msg st sn dt dn) by done.
  unfold deliver_sm_body in Hd. cbn [app] in Hd. clearbody body.
  assert (H0 := cstr_ok_nil).
  destruct (read_cstr_at body 0 [] _ Hd H0) as [-> Hd']. clear Hd. rename Hd' into Hd.
  do 9 parse_field Hd.
  destruct (read_cstr_at _ _ [] _ Hd H0) as [-> Hd']. clear Hd. rename Hd' into Hd.
  destruct (read_cstr_at _ _ [] _ Hd H0) as [-> Hd']. clear Hd. rename Hd' into Hd.
  do 4 parse_field Hd. destruct (next_u8_at _ _ _ _ Hd) as [E Hd'].
  unfold next_u8 in E. destruct (body !! _) as [b|]; [|injection E; lia].
  injection E as ->. cbn [short_message]. rewrite Hd'.
  apply (f_equal length) in Hd'. rewrite length_drop in Hd'.
  rewrite Hd', byte_to_of. f_equal.
  pose proof (Nat.Div0.mod_le (length msg) 256). rewrite <- (Nat2Z.inj_mod _ 256). lia.
Qed.

(** C26: Every response PDU is well formed: the builder stays inside its
    buffer, the length field is the number of octets, the four header fields
    decode to the arguments, and the body is the optional C-octet string. *)
Theorem make_response_wellformed cid sts seq sid :
  is_u32 cid -> is_u32 sts -> is_u32 seq -> 17 + Z.of_nat (length sid) < 2 ^ 32 ->
  exists pdu, make_response cid sts seq sid = Some pdu /\
    decode_header pdu = Some {| command_length := Z.of_nat (length pdu); command_id := cid;
                                command_status := sts; sequence_number := seq |} /\
    drop 16 pdu = (if decide (sid = []) then [] else sid ++ [x00]).
Proof.
  intros Hc Hs Hq Hl. eexists. rewrite make_response_octets by done. split; [done|].
  assert (Z.of_nat (length (response_body sid)) <= Z.of_nat (length sid) + 1).
  { unfold response_body. case_decide; [simpl; lia|]. rewrite length_app. simpl. lia. }
  rewrite drop_pdu_octets, decode_pdu_octets, length_pdu_octets by (done || lia).
  split; [|done]. do 2 f_equal. lia.
Qed.

Lemma make_response_wellformed_witness :
  exists pdu, make_response BIND_TRANSMITTER_RESP ESME_ROK 7 (str "smpp-server") = Some pdu /\
    decode_header pdu = Some {| command_length := Z.of_nat (length pdu);
                                command_id := BIND_TRANSMITTER_RESP;
                                command_status := ESME_ROK; sequence_number := 7 |} /\
    drop 16 pdu = str "smpp-server" ++ [x00].
Proof. by apply (make_response_wellformed _ _ _ (str "smpp-server")). Defined.

(** Storing a 32-bit integer with [write_u32] and loading it with
    [read_u32] gives it back; the store is defined exactly when the four octets
    lie inside the buffer, and it changes no other octet. *)
Theorem u32_store_load buf p v :
  (is_Some (write_u32 buf p v) <-> (p + 4 <= length buf)%nat) /\
  forall buf', write_u32 buf p v = Some buf' ->
    read_u32 buf' p = Some (u32 v) /\ length buf' = length buf /\
    forall i, (i < p \/ p + 4 <= i)%nat -> buf' !! i = buf !! i.
Proof.
  rewrite write_u32_be32. unfold mem_write. rewrite length_be32.
  case_decide as Hp; [|split; [split; [by intros [] | lia] | done]].
  split; [by split|]. intros buf' <-%(inj Some).
  assert (Ht : length (take p buf) = p) by (rewrite length_take; lia).
  split_and!.
  - by apply read_u32_at.
  - rewrite !length_app, length_drop, length_be32, Ht. lia.
  - intros i Hi. destruct (decide (i < p)%nat).
    + by rewrite lookup_app_l, lookup_take_lt by lia.
    + rewrite lookup_app_r, Ht, lookup_app_r, length_be32, lookup_drop by (rewrite ?length_be32; lia).
      f_equal. lia.
Qed.

(** The loop of [read_cstr] computes its reference definition: it
    returns the octets up to the terminator (or the first [max_len] of them) and
    advances the offset by what it consumed, never past the end of the buffer. *)
Theorem read_cstr_correct buf off max_len :
  let '(t, n) := cstr_ref max_len (drop off buf) in
  read_cstr buf off max_len = (t, (off + n)%nat) /\
  (x00 ∉ t) /\ (length t <= max_len)%nat /\ (n <= length buf - off)%nat.
Proof.
  pose proof (read_cstr_ref buf off max_len) as E.
  destruct (cstr_ref max_len (drop off buf)) as [t n] eqn:Er.
  destruct (cstr_ref_bounds _ _ _ _ Er) as (? & ? & ? & Hn). rewrite length_drop in Hn. done.
Qed.

(** A string of exactly [max_len] octets is returned without its
    terminator being consumed: the offset stays on the terminator, so the next
    [read_cstr] returns an empty string. *)
Theorem read_cstr_limit_keeps_terminator pre s rest :
  x00 ∉ s -> length s = default_max_len ->
  let '(t, off) := read_cstr (pre ++ s ++ x00 :: rest) (length pre) default_max_len in
  t = s /\ off = (length pre + length s)%nat /\
  read_cstr (pre ++ s ++ x00 :: rest) off default_max_len = ([], S off).
Proof.
  intros H1 H2. rewrite read_cstr_ref, drop_app_length, cstr_ref_truncated by done.
  split_and!; [done..|]. rewrite read_cstr_ref, app_assoc, <- length_app, drop_app_length.
  cbn [cstr_ref default_max_len]. rewrite decide_True by done. f_equal. lia.
Qed.

Lemma read_cstr_limit_keeps_terminator_witness :
  let buf := [x01] ++ replicate 65 x61 ++ x00 :: [x02] in
  let '(t, off) := read_cstr buf 1 default_max_len in
  t = replicate 65 x61 /\ off = 66%nat /\ read_cstr buf off default_max_len = ([], S off).
Proof.
  apply (read_cstr_limit_keeps_terminator [x01] (replicate 65 x61) [x02]); [|done].
  intros H. apply elem_of_replicate in H as [? _]. done.
Defined.

(** C28: Round trip of the [submit_sm] body: parsing the section 4.4.1
    encoding of well-formed fields gives back every field. *)
Theorem submit_sm_roundtrip sm :
  submit_sm_ok sm -> parse_submit_sm (encode_submit_sm sm) = sm.
Proof. apply parse_encode_submit_sm. Qed.

Lemma submit_sm_roundtrip_witness :
  let sm := {| service_type := str "CMT"; src_ton := x01; src_npi := x01;
               src_addr := str "441234"; dst_ton := x00; dst_npi := x01;
               dst_addr := str "esme1"; esm_class := x40; protocol_id := x00;
               priority_flag := x01; schedule_delivery_time := [];
               validity_period := str "000001000000000R"; registered_delivery := x01;
               replace_if_present := x00; data_coding := x00; sm_default_msg_id := x00;
               short_message := str "Hello" |} in
  parse_submit_sm (encode_submit_sm sm) = sm.
Proof.
  intros sm. apply submit_sm_roundtrip. apply (bool_decide_unpack _). by vm_compute.
Defined.

(** [parse_submit_sm] is defined on every body, and what it returns is
    bounded: C-octet strings have no terminator inside and at most 65 octets, the
    text has at most 255 octets and no more than the body holds. *)
Theorem parse_submit_sm_bounds body :
  let sm := parse_submit_sm body in
  Forall (fun s => (x00 ∉ s) /\ (length s <= default_max_len)%nat)
    [service_type sm; src_addr sm; dst_addr sm; schedule_delivery_time sm; validity_period sm] /\
  (length (short_message sm) <= 255)%nat /\ (length (short_message sm) <= length body)%nat.
Proof.
  cbv zeta. unfold parse_submit_sm. case_decide.
  { split_and!; [|simpl; lia..]. by rewrite !Forall_cons, Forall_nil; split_and!; (set_solver || (simpl; lia)). }
  repeat match goal with
         | |- context [read_cstr ?b ?o ?m] =>
             let E := fresh "E" in
             destruct (read_cstr b o m) as [? ?] eqn:E; apply read_cstr_bounds in E as (? & ? & _ & _)
         | |- context [next_u8 ?b ?o] => destruct (next_u8 b o) as [? ?]
         end.
  cbn [service_type src_addr dst_addr schedule_delivery_time validity_period short_message].
  split; [by rewrite !Forall_cons, Forall_nil|].
  destruct (body !! _) as [sm_len|]; [|simpl; lia].
  pose proof (byte_to_Z_range sm_len). rewrite length_take, length_drop. lia.
Qed.

(** What a peer makes of the octets of a [deliver_sm] PDU. *)
Lemma deliver_pdu_decodes seq src dst msg :
  is_u32 seq -> cstr_ok src -> cstr_ok dst -> (length msg <= 255)%nat ->
  let pdu := pdu_octets DELIVER_SM ESME_ROK seq (deliver_sm_body src dst msg x00 x00 x00 x00) in
  decode_header pdu = Some {| command_length := Z.of_nat (length pdu);
                              command_id := DELIVER_SM; command_status := ESME_ROK;
                              sequence_number := seq |} /\
  let sm := parse_submit_sm (drop 16 pdu) in
  src_addr sm = src /\ dst_addr sm = dst /\ short_message sm = msg.
Proof.
  intros Hq Hs Hd Hm pdu. pose proof Hs as [_ Hsl]. pose proof Hd as [_ Hdl].
  unfold default_max_len in *. unfold pdu.
  assert (Hb : length (deliver_sm_body src dst msg x00 x00 x00 x00)
               = (17 + length src + length dst + length msg)%nat).
  { unfold deliver_sm_body. rewrite !length_app. simpl. lia. }
  rewrite decode_pdu_octets, length_pdu_octets, drop_pdu_octets by (done || lia).
  split; [do 2 f_equal; lia|].
  destruct (parse_deliver_sm_body src dst msg x00 x00 x00 x00) as (? & ? & ? & _); done.
Qed.

(** C27: A [deliver_sm] PDU built for addresses below the C-octet limit and a
    text of at most 255 octets carries exactly that message: its header is that
    of a [deliver_sm] with the given sequence number and its body parses to the
    addresses and the text. *)
Theorem deliver_sm_roundtrip seq src dst msg :
  is_u32 seq -> cstr_ok src -> cstr_ok dst -> (length msg <= 255)%nat ->
  exists pdu, make_deliver_sm seq src dst msg x00 x00 x00 x00 = Some pdu /\
    decode_header pdu = Some {| command_length := Z.of_nat (length pdu);
                                command_id := DELIVER_SM; command_status := ESME_ROK;
                                sequence_number := seq |} /\
    let sm := parse_submit_sm (drop 16 pdu) in
    src_addr sm = src /\ dst_addr sm = dst /\ short_message sm = msg.
Proof.
  intros Hq Hs Hd Hm. pose proof Hs as [_ Hsl]. pose proof Hd as [_ Hdl].
  unfold default_max_len in *. eexists. rewrite make_deliver_sm_octets by lia. split; [done|].
  by apply deliver_pdu_decodes.
Qed.

Lemma deliver_sm_roundtrip_witness :
  exists pdu, make_deliver_sm 0x20000000 (str "441234") (str "esme1") (str "Hello")
                x00 x00 x00 x00 = Some pdu /\
    decode_header pdu = Some {| command_length := Z.of_nat (length pdu);
                                command_id := DELIVER_SM; command_status := ESME_ROK;
                                sequence_number := 0x20000000 |} /\
    let sm := parse_submit_sm (drop 16 pdu) in
    src_addr sm = str "441234" /\ dst_addr sm = str "esme1" /\ short_message sm = str "Hello".
Proof.
  by apply deliver_sm_roundtrip; first [done | apply (bool_decide_unpack _); vm_compute].
Defined.

(** The one-octet length field wraps: of a text of [n] octets a peer
    reads the first [n mod 256], although the PDU carries all of them. *)
Theorem deliver_sm_length_wraps seq src dst msg :
  cstr_ok src -> cstr_ok dst -> Z.of_nat (length msg) < 2 ^ 31 ->
  exists pdu, make_deliver_sm seq src dst msg x00 x00 x00 x00 = Some pdu /\
    length pdu = (33 + length src + length dst + length msg)%nat /\
    short_message (parse_submit_sm (drop 16 pdu)) = take (length msg mod 256) msg.
Proof.
  intros Hs Hd Hm. pose proof Hs as [_ Hsl]. pose proof Hd as [_ Hdl].
  unfold default_max_len in *. eexists. rewrite make_deliver_sm_octets by lia. split; [done|].
  rewrite length_pdu_octets, drop_pdu_octets, parse_deliver_sm_body_long by done.
  split; [|done]. unfold deliver_sm_body. rewrite !length_app. simpl. lia.
Qed.

Lemma deliver_sm_length_wraps_witness :
  exists pdu, make_deliver_sm 1 (str "1") (str "2") (replicate 300 x61) x00 x00 x00 x00 = Some pdu /\
    length pdu = 335%nat /\
    short_message (parse_submit_sm (drop 16 pdu)) = take (300 mod 256) (replicate 300 x61).
Proof.
  apply (deliver_sm_length_wraps 1 (str "1") (str "2") (replicate 300 x61)); [..|done];
    apply (bool_decide_unpack _); by vm_compute.
Defined.
