(* ===== verification/Throttle.v ===== *)
(** * Throttle: the token bucket of [SmppSession::throttle_check]

    [double] is IEEE 754 binary64, computed by the Standard Library's
    specification of floating-point arithmetic ([SpecFloat], which rounds to
    nearest even); time points of [steady_clock] are nanoseconds. *)

From Stdlib Require Import SpecFloat.
From S2P Require Import Prelude.
#[local] Open Scope Z_scope.

Abbreviation double := spec_float.

Definition d_of_Z (z : Z) : double := binary_normalize 53 1024 z 0 false.
Definition d_add : double -> double -> double := SFadd 53 1024.
Definition d_sub : double -> double -> double := SFsub 53 1024.
Definition d_mul : double -> double -> double := SFmul 53 1024.
Definition d_div : double -> double -> double := SFdiv 53 1024.
Definition d_gt (x y : double) : bool := SFltb y x.
Definition d_ge (x y : double) : bool := SFleb y x.

(** The rate-limiter members of [SmppSession]. *)
Record bucket := {
  max_submit_per_sec_ : Z;
  tb_tokens_ : double;
  tb_last_refill_ : Z
}.

(** The members' initial values in the constructor; [now] is
    [steady_clock::now()]. *)
Definition bucket_init (max_submit_per_sec now : Z) : bucket :=
  {| max_submit_per_sec_ := max_submit_per_sec;
     tb_tokens_ := d_of_Z max_submit_per_sec;
     tb_last_refill_ := now |}.

(** [std::chrono::duration<double>(to - from).count()]: seconds. *)
Definition elapsed_seconds (from to : Z) : double :=
  d_div (d_of_Z (to - from)) (d_of_Z 1000000000).

Definition throttle_check (now : Z) (tb : bucket) : bool * bucket :=
  if max_submit_per_sec_ tb =? 0 then (true, tb) else
  let elapsed := elapsed_seconds (tb_last_refill_ tb) now in
  let max := d_of_Z (max_submit_per_sec_ tb) in
  let tokens := d_add (tb_tokens_ tb) (d_mul elapsed max) in
  let tokens := if d_gt tokens max then max else tokens in
  let with_tokens t :=
    {| max_submit_per_sec_ := max_submit_per_sec_ tb; tb_tokens_ := t;
       tb_last_refill_ := now |} in
  if d_ge tokens (d_of_Z 1)
  then (true, with_tokens (d_sub tokens (d_of_Z 1)))
  else (false, with_tokens tokens).

(** The answers to the checks made at the given times, in order. *)
Fixpoint throttle_run (times : list Z) (tb : bucket) : list bool * bucket :=
  match times with
  | [] => ([], tb)
  | now :: times =>
      let '(ok, tb) := throttle_check now tb in
      let '(oks, tb) := throttle_run times tb in
      (ok :: oks, tb)
  end.

(** ** Exact arithmetic on small integers *)

(** Doubles hold the integers below [2 ^ 53] exactly: the 53-bit mantissa of
    [m] is [m] shifted to full width. *)
Definition d_exact (m : positive) : double :=
  let d := Z.pos (digits2_pos m) in
  S754_finite false (Z.to_pos (Z.pos m * 2 ^ (53 - d))) (d - 53).

Lemma digits2_pos_size p : Z.pos (digits2_pos p) = Z.log2 (Z.pos p) + 1.
Proof.
  induction p as [p IH|p IH|]; [..|done]; cbn [digits2_pos]; rewrite Pos2Z.inj_succ, IH.
  - change (Z.pos p~1) with (2 * Z.pos p + 1). rewrite Z.log2_succ_double by lia. lia.
  - change (Z.pos p~0) with (2 * Z.pos p). rewrite Z.log2_double by lia. lia.
Qed.

Lemma digits2_shift p n :
  0 <= n -> Z.pos (digits2_pos (Z.to_pos (Z.pos p * 2 ^ n))) = Z.pos (digits2_pos p) + n.
Proof.
  intros Hn. assert (0 < 2 ^ n) by (apply Z.pow_pos_nonneg; lia).
  rewrite !digits2_pos_size, Z2Pos.id by nia.
  rewrite Z.log2_mul_pow2 by lia. lia.
Qed.

Lemma iter_xO p n : Pos.iter xO p n = Z.to_pos (Z.pos p * 2 ^ Z.pos n).
Proof.
  induction n as [|n IH] using Pos.peano_ind; [simpl; lia|].
  rewrite Pos.iter_succ, IH.
  assert (0 < 2 ^ Z.pos n) by (apply Z.pow_pos_nonneg; lia).
  apply Pos2Z.inj. rewrite Pos2Z.inj_xO, !Z2Pos.id by (rewrite ?Pos2Z.inj_succ, ?Z.pow_succ_r; nia).
  rewrite Pos2Z.inj_succ, Z.pow_succ_r by lia. lia.
Qed.

Lemma shl_align_le m e e' :
  e' <= e -> shl_align m e e' = (Z.to_pos (Z.pos m * 2 ^ (e - e')), e').
Proof.
  intros H. unfold shl_align. destruct (e' - e) as [|p|p] eqn:E; [|lia|].
  - replace (e - e') with 0 by lia. simpl. f_equal; lia.
  - rewrite iter_xO. replace (Z.pos p) with (e - e') by lia. done.
Qed.

Lemma shl_align_ge m e e' : e <= e' -> shl_align m e e' = (m, e).
Proof. intros H. unfold shl_align. by destruct (e' - e) eqn:E; [| |lia]. Qed.

Lemma iter_shr_exact n m :
  SpecFloat.iter_pos shr_1 n (Build_shr_record (Z.pos m * 2 ^ Z.pos n) false false)
  = Build_shr_record (Z.pos m) false false.
Proof.
  revert m. assert (Hadd : forall a b m,
    (forall m, SpecFloat.iter_pos shr_1 a (Build_shr_record (Z.pos m * 2 ^ Z.pos a) false false)
               = Build_shr_record (Z.pos m) false false) ->
    (forall m, SpecFloat.iter_pos shr_1 b (Build_shr_record (Z.pos m * 2 ^ Z.pos b) false false)
               = Build_shr_record (Z.pos m) false false) ->
    SpecFloat.iter_pos shr_1 b (SpecFloat.iter_pos shr_1 a
      (Build_shr_record (Z.pos m * 2 ^ (Z.pos a + Z.pos b)) false false))
    = Build_shr_record (Z.pos m) false false).
  { intros a b m Ha Hb. assert (0 < 2 ^ Z.pos b) by (apply Z.pow_pos_nonneg; lia).
    replace (Z.pos m * 2 ^ (Z.pos a + Z.pos b))
      with (Z.pos (Z.to_pos (Z.pos m * 2 ^ Z.pos b)) * 2 ^ Z.pos a).
    - rewrite Ha, Z2Pos.id by nia. apply Hb.
    - rewrite Z2Pos.id, Z.pow_add_r by nia. lia. }
  induction n as [n IH|n IH|]; intros m; cbn [SpecFloat.iter_pos].
  - replace (Z.pos m * 2 ^ Z.pos n~1) with (Z.pos (Z.to_pos (Z.pos m * 2 ^ (Z.pos n + Z.pos n)))~0).
    + cbn [shr_1 orb]. rewrite Z2Pos.id by (apply Z.mul_pos_pos; [lia|apply Z.pow_pos_nonneg; lia]).
      by apply Hadd.
    + assert (0 < 2 ^ (Z.pos n + Z.pos n)) by (apply Z.pow_pos_nonneg; lia).
      rewrite Pos2Z.inj_xO, Z2Pos.id by nia.
      replace (Z.pos n~1) with (Z.succ (Z.pos n + Z.pos n)) by lia.
      rewrite Z.pow_succ_r by lia. lia.
  - replace (Z.pos n~0) with (Z.pos n + Z.pos n) by lia. by apply Hadd.
  - replace (Z.pos m * 2 ^ 1) with (Z.pos m~0) by lia. done.
Qed.

Lemma fexp_small e : -1021 <= e -> fexp 53 1024 e = e - 53.
Proof. intros. unfold fexp, emin. lia. Qed.

(** A mantissa of full width needs no alignment and no rounding. *)
Lemma full_width_exact j :
  let d := Z.pos (digits2_pos j) in
  d <= 53 ->
  0 < Z.pos j * 2 ^ (53 - d) /\
  (forall l, shr_fexp 53 1024 (Z.pos j * 2 ^ (53 - d)) (d - 53) l
             = (shr_record_of_loc (Z.pos j * 2 ^ (53 - d)) l, d - 53)) /\
  binary_round_aux 53 1024 false (Z.pos j * 2 ^ (53 - d)) (d - 53) loc_Exact = d_exact j.
Proof.
  intros d Hj. assert (1 <= d) by (unfold d; lia).
  assert (Hdx : Z.pos (digits2_pos (Z.to_pos (Z.pos j * 2 ^ (53 - d)))) = 53)
    by (rewrite digits2_shift; unfold d; lia).
  assert (Hpos : 0 < Z.pos j * 2 ^ (53 - d))
    by (apply Z.mul_pos_pos; [lia | apply Z.pow_pos_nonneg; lia]).
  assert (Hfix : forall l, shr_fexp 53 1024 (Z.pos j * 2 ^ (53 - d)) (d - 53) l
                 = (shr_record_of_loc (Z.pos j * 2 ^ (53 - d)) l, d - 53)).
  { intros l. unfold shr_fexp. replace (Zdigits2 (Z.pos j * 2 ^ (53 - d))) with 53.
    - rewrite fexp_small by lia. by replace (53 + (d - 53) - 53 - (d - 53)) with 0 by lia.
    - rewrite <- (Z2Pos.id (Z.pos j * 2 ^ (53 - d))) by done. by symmetry. }
  split_and!; [done..|]. unfold binary_round_aux. rewrite Hfix.
  cbn [shr_record_of_loc shr_m loc_of_shr_record round_nearest_even].
  rewrite Hfix. cbn [shr_record_of_loc shr_m]. unfold d_exact. fold d.
  destruct (Z.pos j * 2 ^ (53 - d)) as [|p|p]; [lia| |lia].
  by rewrite (proj2 (Z.leb_le _ _)) by lia.
Qed.

(** A value [m * 2 ^ e] that is an integer below [2 ^ 53] is represented
    exactly, however its mantissa is aligned. *)
Lemma binary_round_exact m j k :
  0 <= k -> Z.pos m = Z.pos j * 2 ^ k -> Z.pos (digits2_pos j) <= 53 -> k <= 52 ->
  binary_round 53 1024 false m (- k) = d_exact j.
Proof.
  intros Hk Hm Hj Hk'. destruct (full_width_exact j Hj) as (Hpos & Hfix & Hfin).
  set (d := Z.pos (digits2_pos j)) in *. assert (1 <= d) by (unfold d; lia).
  assert (Hd : Z.pos (digits2_pos m) = d + k).
  { replace m with (Z.to_pos (Z.pos j * 2 ^ k)) by (rewrite <- Hm; done).
    by rewrite digits2_shift. }
  unfold binary_round. rewrite Hd, fexp_small by lia.
  destruct (Z.le_ge_cases (d - 53) (- k)) as [Hle|Hge].
  - rewrite shl_align_le by lia. rewrite Z2Pos.id by (rewrite Hm; apply Z.mul_pos_pos;
      [apply Z.mul_pos_pos; [lia|]|]; apply Z.pow_pos_nonneg; lia).
    rewrite Hm, <- Z.mul_assoc, <- Z.pow_add_r by lia.
    replace (k + (- k - (d + k + - k - 53))) with (53 - d) by lia.
    replace (d + k + - k - 53) with (d - 53) by lia. done.
  - rewrite shl_align_ge by lia. rewrite <- Hfin.
    unfold binary_round_aux at 1. unfold shr_fexp at 1.
    cbn [Zdigits2]. rewrite Hd, fexp_small by lia.
    replace (d + k + - k - 53 - - k) with (d - 53 + k) by lia.
    destruct (d - 53 + k) as [|p|p] eqn:Ep; [|..|lia].
    + cbn [shr]. unfold binary_round_aux. rewrite Hfix. cbn [shr_record_of_loc].
      rewrite Hm. replace (53 - d) with k by lia. by replace (d - 53) with (- k) by lia.
    + cbn [shr shr_record_of_loc]. rewrite Hm.
      replace (Z.pos j * 2 ^ k)
        with (Z.pos (Z.to_pos (Z.pos j * 2 ^ (53 - d))) * 2 ^ Z.pos p).
      * rewrite iter_shr_exact, Z2Pos.id by done. unfold binary_round_aux. rewrite Hfix.
        cbn [shr_record_of_loc]. by replace (- k + Z.pos p) with (d - 53) by lia.
      * rewrite Z2Pos.id, <- Z.mul_assoc, <- Z.pow_add_r by (done || lia).
        f_equal. f_equal. lia.
Qed.

Lemma digits2_bound m n : 0 <= n -> Z.pos m < 2 ^ n -> Z.pos (digits2_pos m) <= n.
Proof.
  intros Hn Hm. rewrite digits2_pos_size. apply Z.log2_lt_pow2 in Hm; lia.
Qed.

Lemma d_of_Z_pos m : Z.pos m < 2 ^ 53 -> d_of_Z (Z.pos m) = d_exact m.
Proof.
  intros H. apply (binary_round_exact m m 0); [lia | lia | | lia].
  apply digits2_bound; lia.
Qed.

Lemma d_exact_aligned m :
  Z.pos m < 2 ^ 53 ->
  Z.pos (fst (shl_align (Z.to_pos (Z.pos m * 2 ^ (53 - Z.pos (digits2_pos m))))
                (Z.pos (digits2_pos m) - 53) (-52)))
  = Z.pos m * 2 ^ 52.
Proof.
  intros H. pose proof (digits2_bound m 53 ltac:(lia) H).
  rewrite shl_align_le by lia. cbn [fst].
  assert (0 < 2 ^ (53 - Z.pos (digits2_pos m))) by (apply Z.pow_pos_nonneg; lia).
  assert (0 < 2 ^ (Z.pos (digits2_pos m) - 53 - -52)) by (apply Z.pow_pos_nonneg; lia).
  rewrite !Z2Pos.id by (rewrite ?Z2Pos.id; nia).
  rewrite <- Z.mul_assoc, <- Z.pow_add_r by lia. f_equal. f_equal. lia.
Qed.

(** Taking one token from a whole number of tokens is exact. *)
Lemma d_sub_one k : 1 <= k < 2 ^ 53 -> d_sub (d_of_Z k) (d_of_Z 1) = d_of_Z (k - 1).
Proof.
  intros Hk. destruct k as [|m|]; [lia| |lia].
  rewrite d_of_Z_pos by lia. change (d_of_Z 1) with (S754_finite false (2 ^ 52) (-52)).
  unfold d_sub, d_exact. cbn [SFsub cond_Zopp].
  rewrite Z.min_r by lia. rewrite d_exact_aligned by lia.
  change (Z.pos (fst (shl_align (2 ^ 52) (-52) (-52)))) with (2 ^ 52).
  replace (Z.pos m * 2 ^ 52 - 2 ^ 52) with ((Z.pos m - 1) * 2 ^ 52) by lia.
  destruct (Z.pos m - 1) as [|j|] eqn:Ej; [done| |lia].
  rewrite d_of_Z_pos by lia. unfold binary_normalize.
  destruct (Z.pos j * 2 ^ 52) as [|q|] eqn:Eq; [lia| |lia].
  apply (binary_round_exact q j 52); [lia | lia | apply digits2_bound; lia | lia].
Qed.

Lemma d_ge_one k : 0 <= k < 2 ^ 53 -> d_ge (d_of_Z k) (d_of_Z 1) = (1 <=? k).
Proof.
  intros Hk. destruct k as [|m|]; [done| |lia].
  rewrite d_of_Z_pos, (proj2 (Z.leb_le _ _)) by lia.
  change (d_of_Z 1) with (S754_finite false (2 ^ 52) (-52)).
  unfold d_ge, d_exact, SFleb. cbn [SFcompare].
  destruct (Z.compare_spec (-52) (Z.pos (digits2_pos m) - 53)) as [E|E|E]; [|done|lia].
  replace (Z.pos (digits2_pos m)) with 1 by lia.
  destruct m as [m|m|]; [..|done]; pose proof (digits2_pos_size m); simpl in E; lia.
Qed.

(** The order of whole numbers of tokens is that of the integers. *)
Lemma d_gt_le k n : 0 <= k <= n -> n < 2 ^ 53 -> d_gt (d_of_Z k) (d_of_Z n) = false.
Proof.
  intros Hk Hn. destruct k as [|m|]; [by destruct n as [|n|]; [|rewrite d_of_Z_pos|]; [|..|lia]| |lia].
  destruct n as [|n|]; [lia| |lia]. rewrite !d_of_Z_pos by lia.
  unfold d_gt, d_exact, SFltb. cbn [SFcompare].
  assert (Hd : Z.pos (digits2_pos m) <= Z.pos (digits2_pos n)).
  { rewrite !digits2_pos_size. pose proof (Z.log2_le_mono (Z.pos m) (Z.pos n)). lia. }
  destruct (Z.compare_spec (Z.pos (digits2_pos n) - 53) (Z.pos (digits2_pos m) - 53))
    as [E|E|E]; [|lia|done].
  replace (Z.pos (digits2_pos n)) with (Z.pos (digits2_pos m)) by lia.
  change (Pos.compare_cont Eq) with Pos.compare.
  assert (0 < 2 ^ (53 - Z.pos (digits2_pos m))).
  { apply Z.pow_pos_nonneg; [lia|]. pose proof (digits2_bound m 53). lia. }
  destruct (Pos.compare_spec (Z.to_pos (Z.pos n * 2 ^ (53 - Z.pos (digits2_pos m))))
              (Z.to_pos (Z.pos m * 2 ^ (53 - Z.pos (digits2_pos m))))) as [?|Hlt|?]; [done| |done].
  apply Pos2Z.pos_lt_pos in Hlt. rewrite !Z2Pos.id in Hlt by nia. nia.
Qed.

(** No time passes: nothing is added. *)
Lemma d_refill_zero k n t :
  0 <= k < 2 ^ 53 -> 0 < n < 2 ^ 53 ->
  d_add (d_of_Z k) (d_mul (elapsed_seconds t t) (d_of_Z n)) = d_of_Z k.
Proof.
  intros Hk Hn. unfold elapsed_seconds. rewrite Z.sub_diag.
  destruct n as [|n|]; [lia| |lia]. rewrite (d_of_Z_pos n) by lia.
  change (d_mul (d_div (d_of_Z 0) (d_of_Z 1000000000)) (d_exact n)) with (S754_zero false).
  destruct k as [|k|]; [done| |lia]. by rewrite d_of_Z_pos by lia.
Qed.

Definition bucket_at (max k t : Z) : bucket :=
  {| max_submit_per_sec_ := max; tb_tokens_ := d_of_Z k; tb_last_refill_ := t |}.

(** One check on a bucket that holds [k] tokens, at the time of the last one. *)
Lemma throttle_check_frozen max k t :
  0 < max < 2 ^ 32 -> 0 <= k <= max ->
  throttle_check t (bucket_at max k t)
  = if 1 <=? k then (true, bucket_at max (k - 1) t) else (false, bucket_at max k t).
Proof.
  intros Hm Hk. unfold throttle_check, bucket_at.
  cbn [max_submit_per_sec_ tb_tokens_ tb_last_refill_].
  rewrite (proj2 (Z.eqb_neq _ _)), d_refill_zero, d_gt_le, d_ge_one by lia.
  destruct (Z.leb_spec 1 k); [|done]. by rewrite d_sub_one by lia.
Qed.

Lemma throttle_run_frozen max k t n :
  0 < max < 2 ^ 32 -> 0 <= k <= max ->
  throttle_run (replicate n t) (bucket_at max k t)
  = (replicate (n `min` Z.to_nat k) true ++ replicate (n - Z.to_nat k) false,
     bucket_at max (Z.max 0 (k - Z.of_nat n)) t).
Proof.
  intros Hm. revert k. induction n as [|n IH]; intros k Hk.
  { simpl. f_equal. f_equal. lia. }
  cbn [replicate throttle_run]. rewrite throttle_check_frozen by done.
  destruct (Z.leb_spec 1 k).
  - rewrite IH by lia. replace (S n `min` Z.to_nat k)%nat with (S (n `min` Z.to_nat (k - 1))) by lia.
    replace (S n - Z.to_nat k)%nat with (n - Z.to_nat (k - 1))%nat by lia.
    cbn [replicate app]. do 2 f_equal. lia.
  - rewrite IH by lia. assert (k = 0) by lia. subst. change (Z.to_nat 0) with 0%nat.
    rewrite !Nat.min_0_r, !Nat.sub_0_r. cbn [replicate app]. do 2 f_equal. lia.
Qed.

(** Burst bound of the rate limiter, in binary64 arithmetic: of [n]
    requests that arrive at the instant the session is created, exactly the first
    [max_submit_per_sec] are allowed and all others are refused. *)
Theorem throttle_burst max t n :
  0 < max < 2 ^ 32 ->
  fst (throttle_run (replicate n t) (bucket_init max t))
  = replicate (n `min` Z.to_nat max) true ++ replicate (n - Z.to_nat max) false.
Proof.
  intros Hm. change (bucket_init max t) with (bucket_at max max t).
  by rewrite throttle_run_frozen by lia.
Qed.

Lemma throttle_burst_witness :
  fst (throttle_run (replicate 10 5) (bucket_init 3 5))
  = replicate 3 true ++ replicate 7 false.
Proof. by apply (throttle_burst 3 5 10). Defined.

(** A rate of zero disables the limiter: every request is allowed, at any
    time, and the bucket does not change. *)
Theorem throttle_unlimited times now :
  throttle_run times (bucket_init 0 now)
  = (replicate (length times) true, bucket_init 0 now).
Proof.
  induction times as [|t times IH]; [done|].
  cbn [throttle_run length replicate]. change (throttle_check t (bucket_init 0 now))
    with (true, bucket_init 0 now). cbv iota beta. by rewrite IH.
Qed.
