(* ===== verification/ThrottleRate.v ===== *)
(** * ThrottleRate: the token bucket lets through the configured rate

    A bound on what [SmppSession::throttle_check] lets through in any interval of time, in
    the floating-point arithmetic that it uses.  The first half bounds the rounding of the
    Standard Library's binary64 ([SpecFloat]) from above; the second follows the tokens
    through a run of checks. *)

From Stdlib Require Import SpecFloat.
From S2P Require Import Prelude Throttle.
#[local] Open Scope Z_scope.

(** ** Values

    Every finite double is a multiple of [2 ^ -1074]; its value is that multiple. *)

Definition one : Z := 2 ^ 1074.

Definition val (x : double) : Z :=
  match x with
  | S754_finite false m e => Z.pos m * 2 ^ (e + 1074)
  | _ => 0
  end.

(** Non-negative, finite and in canonical form. *)
Definition fin (x : double) : Prop :=
  match x with
  | S754_zero _ => True
  | S754_finite false m e => fexp 53 1024 (Z.pos (digits2_pos m) + e) = e
  | _ => False
  end.

Lemma pow2_pos n : 0 <= n -> 0 < 2 ^ n.
Proof. intros. by apply Z.pow_pos_nonneg. Qed.

Lemma digits_bounds m :
  2 ^ (Z.pos (digits2_pos m) - 1) <= Z.pos m < 2 ^ Z.pos (digits2_pos m).
Proof.
  rewrite digits2_pos_size. replace (Z.log2 (Z.pos m) + 1 - 1) with (Z.log2 (Z.pos m)) by lia.
  pose proof (Z.log2_spec (Z.pos m) ltac:(lia)). by rewrite Z.add_1_r.
Qed.

Lemma fexp_max e : fexp 53 1024 e = Z.max (e - 53) (-1074).
Proof. unfold fexp, emin. lia. Qed.

Lemma fin_finite m e :
  fin (S754_finite false m e) <->
  -1074 <= e /\ Z.pos (digits2_pos m) <= 53 /\ (Z.pos (digits2_pos m) = 53 \/ e = -1074).
Proof. cbn [fin]. rewrite fexp_max. lia. Qed.

Lemma val_nonneg x : 0 <= val x.
Proof. destruct x as [|[]| |[] m e]; cbn; lia. Qed.

(** ** Rounding *)

Lemma shr_1_m x : 0 <= shr_m x -> shr_m (shr_1 x) = shr_m x / 2.
Proof.
  destruct x as [[|[p|p|]|p] r s]; cbn -[Z.div]; intros; try done; try lia.
  - apply (Z.div_unique _ _ _ 1); lia.
  - apply (Z.div_unique _ _ _ 0); lia.
Qed.

Lemma iter_shr_m n x :
  0 <= shr_m x -> shr_m (SpecFloat.iter_pos shr_1 n x) = shr_m x / 2 ^ Z.pos n.
Proof.
  revert x. induction n as [n IH|n IH|]; intros x Hx; cbn [SpecFloat.iter_pos].
  - assert (H1 := shr_1_m x Hx). assert (0 <= shr_m x / 2) by (apply Z.div_pos; lia).
    rewrite IH, IH, H1; rewrite ?H1; [|done|rewrite IH, H1 by lia; apply Z.div_pos; [lia|by apply pow2_pos]].
    rewrite !Z.div_div by (try lia; by apply pow2_pos).
    f_equal. replace (Z.pos n~1) with (1 + (Z.pos n + Z.pos n)) by lia. rewrite !Z.pow_add_r by lia. lia.
  - rewrite IH, IH; [|done|rewrite IH by done; apply Z.div_pos; [lia|by apply pow2_pos]].
    rewrite Z.div_div by (try lia; by apply pow2_pos).
    f_equal. replace (Z.pos n~0) with (Z.pos n + Z.pos n) by lia. by rewrite Z.pow_add_r.
  - by rewrite shr_1_m.
Qed.

(** The mantissa after alignment: a shift to the right. *)
Lemma shr_fexp_m m e l :
  0 <= m -> e <= fexp 53 1024 (Zdigits2 m + e) ->
  exists mrs, shr_fexp 53 1024 m e l = (mrs, fexp 53 1024 (Zdigits2 m + e)) /\
    shr_m mrs = m / 2 ^ (fexp 53 1024 (Zdigits2 m + e) - e).
Proof.
  intros Hm He. unfold shr_fexp. set (g := fexp 53 1024 (Zdigits2 m + e)) in *.
  assert (Hl : shr_m (shr_record_of_loc m l) = m) by by destruct l as [|[]].
  destruct (g - e) as [|p|p] eqn:Eg; [| |lia]; cbn [shr]; eexists; (split; [f_equal; lia|]).
  - by rewrite Hl, Z.pow_0_r, Z.div_1_r.
  - by rewrite iter_shr_m; rewrite Hl.
Qed.

Lemma Zdigits2_lt m k : 0 <= k -> 0 <= m < 2 ^ k -> Zdigits2 m <= k.
Proof.
  intros Hk Hm. destruct m as [|p|p]; [done| |lia]. cbn. apply digits2_bound; lia.
Qed.

Lemma Zdigits2_ge m k : 0 <= k -> 2 ^ k <= m -> k < Zdigits2 m.
Proof.
  intros Hk Hm. pose proof (pow2_pos k Hk). destruct m as [|p|p]; [lia| |lia]. cbn.
  pose proof (digits_bounds p). destruct (Z.lt_ge_cases k (Z.pos (digits2_pos p))); [done|].
  pose proof (Z.pow_le_mono_r 2 (Z.pos (digits2_pos p)) k). lia.
Qed.

(** Rounding takes the mantissa [m] at exponent [e] to one of the two neighbours at the
    exponent of its format. *)
Lemma round_aux_spec m e l :
  let g := fexp 53 1024 (Z.pos (digits2_pos m) + e) in
  e <= g -> Z.pos (digits2_pos m) + e <= 1000 ->
  fin (binary_round_aux 53 1024 false (Z.pos m) e l) /\
  exists m2, Z.pos m / 2 ^ (g - e) <= m2 <= Z.pos m / 2 ^ (g - e) + 1 /\
    val (binary_round_aux 53 1024 false (Z.pos m) e l) = m2 * 2 ^ (g + 1074).
Proof.
  intros g He Hbig. unfold binary_round_aux.
  destruct (shr_fexp_m (Z.pos m) e l) as (mrs & Hshr & Hm1); [lia|done|]. cbn [Zdigits2] in Hshr, Hm1.
  fold g in Hshr, Hm1. rewrite Hshr. set (m1 := Z.pos m / 2 ^ (g - e)) in *.
  set (m2 := round_nearest_even _ _).
  assert (Hm2 : m1 <= m2 <= m1 + 1).
  { unfold m2, round_nearest_even. rewrite Hm1. repeat case_match; lia. }
  pose proof (digits_bounds m) as Hd. set (d := Z.pos (digits2_pos m)) in *.
  assert (Hg : g = Z.max (d + e - 53) (-1074)) by (unfold g; by rewrite fexp_max).
  assert (Hp : 0 < 2 ^ (g - e)) by (apply pow2_pos; lia).
  assert (Hm1b : 0 <= m1 < 2 ^ 53).
  { split; [apply Z.div_pos; lia|]. apply Z.div_lt_upper_bound; [done|].
    rewrite <- Z.pow_add_r by lia. eapply Z.lt_le_trans; [apply Hd|]. apply Z.pow_le_mono_r; lia. }
  assert (Hnorm : g = -1074 \/ 2 ^ 52 <= m1).
  { destruct (Z.le_gt_cases (d + e - 53) (-1074)); [left; lia|right].
    apply Z.div_le_lower_bound; [done|]. rewrite <- Z.pow_add_r by lia.
    etrans; [|apply Hd]. apply Z.pow_le_mono_r; lia. }
  destruct (Z.eq_dec m2 (2 ^ 53)) as [Hfull|Hnf].
  - (* the carry fills the mantissa *)
    destruct (shr_fexp_m m2 g loc_Exact) as (mrs2 & Hs2 & Hv2).
    { lia. }
    { rewrite Hfull. change (Zdigits2 (2 ^ 53)) with 54. rewrite fexp_max. lia. }
    rewrite Hs2. rewrite Hfull in Hv2 |- *. change (Zdigits2 (2 ^ 53)) with 54 in *.
    rewrite fexp_max in *. replace (Z.max (54 + g - 53) (-1074)) with (g + 1) in * by lia.
    replace (g + 1 - g) with 1 in Hv2 by lia. rewrite Hv2. change (2 ^ 53 / 2 ^ 1) with (Z.pos (2 ^ 52)).
    cbv iota. rewrite (proj2 (Z.leb_le _ _)) by lia. split.
    + apply fin_finite. change (Z.pos (digits2_pos (2 ^ 52))) with 53. lia.
    + exists (2 ^ 53). split; [lia|]. cbn [val]. change (Z.pos (2 ^ 52)) with (2 ^ 52).
      replace (g + 1 + 1074) with (1 + (g + 1074)) by lia. rewrite (Z.pow_add_r 2 1) by lia.
      rewrite Z.mul_assoc. f_equal.
  - assert (Hd2 : Zdigits2 m2 <= 53) by (apply Zdigits2_lt; lia).
    assert (Hs2 : shr_fexp 53 1024 m2 g loc_Exact = (Build_shr_record m2 false false, g)).
    { unfold shr_fexp. rewrite fexp_max. cbn [shr_record_of_loc].
      destruct (Z.max (Zdigits2 m2 + g - 53) (-1074) - g) eqn:E; [done|lia|done]. }
    rewrite Hs2. cbn [shr_m]. destruct m2 as [|p|p] eqn:Ep; [|..|lia].
    + split; [done|]. exists 0. cbn. lia.
    + rewrite (proj2 (Z.leb_le _ _)) by lia. split.
      * apply fin_finite. split; [lia|]. split; [exact Hd2|].
        destruct Hnorm as [Hn|Hn]; [by right|left].
        pose proof (Zdigits2_ge (Z.pos p) 52). cbn [Zdigits2] in *. lia.
      * exists (Z.pos p). split; [lia|done].
Qed.

(** The rounded value exceeds the exact one by at most one unit in the last place: a
    [2 ^ 52]-th part of it, or [2 ^ -1074].  [K] makes the exact value an integer. *)
Lemma round_upper m e l K :
  0 <= K -> 0 <= e + 1074 + K -> e <= fexp 53 1024 (Z.pos (digits2_pos m) + e) ->
  Z.pos (digits2_pos m) + e <= 1000 ->
  fin (binary_round_aux 53 1024 false (Z.pos m) e l) /\
  2 ^ 52 * (val (binary_round_aux 53 1024 false (Z.pos m) e l) * 2 ^ K)
  <= (2 ^ 52 + 1) * (Z.pos m * 2 ^ (e + 1074 + K)) + 2 ^ (52 + K).
Proof.
  intros HK HeK He Hbig. destruct (round_aux_spec m e l He Hbig) as (Hf & m2 & Hm2 & ->).
  split; [done|]. pose proof (digits_bounds m) as [Hd _]. set (d := Z.pos (digits2_pos m)) in *.
  rewrite fexp_max in *. set (g := Z.max (d + e - 53) (-1074)) in *.
  set (X := Z.pos m * 2 ^ (e + 1074 + K)).
  assert (Hp : 0 < 2 ^ (g - e)) by (apply pow2_pos; lia).
  assert (HpK : 0 < 2 ^ (e + 1074 + K)) by (by apply pow2_pos).
  assert (Hsplit : 2 ^ (g + 1074) * 2 ^ K = 2 ^ (g - e) * 2 ^ (e + 1074 + K)).
  { rewrite <- !Z.pow_add_r by lia. f_equal. lia. }
  (* one unit in the last place *)
  assert (Hulp : 2 ^ 52 * (2 ^ (g - e) * 2 ^ (e + 1074 + K)) <= X + 2 ^ (52 + K)).
  { destruct (Z.le_gt_cases (d + e - 53) (-1074)).
    - replace (2 ^ (g - e) * 2 ^ (e + 1074 + K)) with (2 ^ K)
        by (rewrite <- Z.pow_add_r by lia; f_equal; lia).
      rewrite <- Z.pow_add_r by lia. unfold X. nia.
    - assert (2 ^ 52 * 2 ^ (g - e) <= Z.pos m).
      { rewrite <- Z.pow_add_r by lia. etrans; [|exact Hd]. apply Z.pow_le_mono_r; lia. }
      assert (0 < 2 ^ (52 + K)) by (apply pow2_pos; lia). unfold X. nia. }
  assert (Hdiv : Z.pos m / 2 ^ (g - e) * 2 ^ (g - e) <= Z.pos m).
  { rewrite Z.mul_comm. by apply Z.mul_div_le. }
  rewrite <- Z.mul_assoc, Hsplit.
  assert (m2 * (2 ^ (g - e) * 2 ^ (e + 1074 + K)) <= X + 2 ^ (g - e) * 2 ^ (e + 1074 + K)).
  { unfold X. nia. }
  nia.
Qed.

Lemma binary_round_upper m e K :
  0 <= K -> 0 <= e + 1074 + K -> Z.pos (digits2_pos m) + e <= 1000 ->
  fin (binary_round 53 1024 false m e) /\
  2 ^ 52 * (val (binary_round 53 1024 false m e) * 2 ^ K)
  <= (2 ^ 52 + 1) * (Z.pos m * 2 ^ (e + 1074 + K)) + 2 ^ (52 + K).
Proof.
  intros HK HeK Hbig. unfold binary_round. set (g := fexp 53 1024 _).
  assert (Hg : g = Z.max (Z.pos (digits2_pos m) + e - 53) (-1074)) by apply fexp_max.
  destruct (Z.le_gt_cases g e) as [Hle|Hgt].
  - rewrite shl_align_le by done. pose proof (digits2_shift m (e - g) ltac:(lia)) as Hds.
    assert (0 < 2 ^ (e - g)) by (apply pow2_pos; lia).
    destruct (round_upper (Z.to_pos (Z.pos m * 2 ^ (e - g))) g loc_Exact K) as [Hf Hu]; try lia.
    { rewrite Hds. replace (Z.pos (digits2_pos m) + (e - g) + g) with (Z.pos (digits2_pos m) + e) by lia.
      fold g. lia. }
    split; [done|]. rewrite Z2Pos.id in Hu by nia.
    rewrite <- Z.mul_assoc, <- Z.pow_add_r in Hu by lia.
    replace (e - g + (g + 1074 + K)) with (e + 1074 + K) in Hu by lia.
    rewrite Z2Pos.id by nia. exact Hu.
  - rewrite shl_align_ge by lia. apply round_upper; try done. fold g. lia.
Qed.

Lemma digits_val m e B : -1074 <= e -> 0 <= B -> Z.pos m * 2 ^ (e + 1074) < 2 ^ (B + 1074) ->
  Z.pos (digits2_pos m) + e <= B.
Proof.
  intros He HB Hv. destruct (Z.le_gt_cases (Z.pos (digits2_pos m) + e) B); [done|exfalso].
  pose proof (digits_bounds m) as [Hd _].
  assert (2 ^ (B + 1074) <= 2 ^ (Z.pos (digits2_pos m) - 1) * 2 ^ (e + 1074)).
  { rewrite <- Z.pow_add_r by lia. apply Z.pow_le_mono_r; lia. }
  assert (0 < 2 ^ (e + 1074)) by (apply pow2_pos; lia). nia.
Qed.

(** ** The operations, from above *)

Lemma d_of_Z_upper k :
  0 <= k < 2 ^ 900 ->
  fin (d_of_Z k) /\ 2 ^ 52 * val (d_of_Z k) <= (2 ^ 52 + 1) * (k * one) + 2 ^ 52.
Proof.
  intros Hk. unfold d_of_Z, binary_normalize, one. destruct k as [|m|]; [cbn; lia| |lia].
  destruct (binary_round_upper m 0 0) as [Hf Hu]; try lia.
  { pose proof (digits2_bound m 900). lia. }
  split; [done|]. rewrite Z.pow_0_r, Z.mul_1_r in Hu. exact Hu.
Qed.

(** The sum of the aligned mantissas. *)
Lemma align_val m e ez :
  ez <= e -> -1074 <= ez ->
  Z.pos (fst (shl_align m e ez)) * 2 ^ (ez + 1074) = val (S754_finite false m e).
Proof.
  intros Hle Hez. rewrite shl_align_le by done. cbn [fst val].
  assert (0 < 2 ^ (e - ez)) by (apply pow2_pos; lia).
  rewrite Z2Pos.id by nia. rewrite <- Z.mul_assoc, <- Z.pow_add_r by lia. f_equal. f_equal. lia.
Qed.

Lemma normalize_upper z ez :
  -1074 <= ez -> 0 <= z -> z * 2 ^ (ez + 1074) < 2 ^ (1000 + 1074) ->
  fin (binary_normalize 53 1024 z ez false) /\
  2 ^ 52 * val (binary_normalize 53 1024 z ez false)
  <= (2 ^ 52 + 1) * (z * 2 ^ (ez + 1074)) + 2 ^ 52.
Proof.
  intros Hez Hz Hb. unfold binary_normalize. destruct z as [|m|]; [cbn; lia| |lia].
  destruct (binary_round_upper m ez 0) as [Hf Hu]; try lia.
  { by apply digits_val. }
  split; [done|]. rewrite Z.pow_0_r, Z.mul_1_r, Z.add_0_r in Hu. exact Hu.
Qed.

Lemma d_add_upper x y :
  fin x -> fin y -> val x + val y < 2 ^ (1000 + 1074) ->
  fin (d_add x y) /\ 2 ^ 52 * val (d_add x y) <= (2 ^ 52 + 1) * (val x + val y) + 2 ^ 52.
Proof.
  intros Hx Hy Hb. pose proof (val_nonneg x). pose proof (val_nonneg y).
  destruct x as [sx|[]| |[] mx ex]; try done; destruct y as [sy|[]| |[] my ey]; try done; unfold d_add.
  - destruct sx, sy; cbn; lia.
  - cbn [SFadd]. cbn [val]. cbn [val] in *. split; [done|lia].
  - cbn [SFadd]. split; [done|]. cbn [val] in *. lia.
  - apply fin_finite in Hx as (Hx & _). apply fin_finite in Hy as (Hy & _).
    cbn [SFadd cond_Zopp].
    set (ez := Z.min ex ey).
    assert (Hs : (Z.pos (fst (shl_align mx ex ez)) + Z.pos (fst (shl_align my ey ez))) * 2 ^ (ez + 1074)
                 = val (S754_finite false mx ex) + val (S754_finite false my ey)).
    { rewrite Z.mul_add_distr_r, !align_val by lia. done. }
    rewrite <- Hs in Hb |- *. apply normalize_upper; [lia|lia|done].
Qed.

Lemma d_sub_upper x y :
  fin x -> fin y -> 0 < val y <= val x -> val x < 2 ^ (1000 + 1074) ->
  fin (d_sub x y) /\ 2 ^ 52 * val (d_sub x y) <= (2 ^ 52 + 1) * (val x - val y) + 2 ^ 52.
Proof.
  intros Hx Hy Hle Hb.
  destruct x as [sx|[]| |[] mx ex]; try done; [cbn in Hle; lia|].
  destruct y as [sy|[]| |[] my ey]; try done; [cbn in Hle; lia|]. unfold d_sub.
  apply fin_finite in Hx as (Hx & _). apply fin_finite in Hy as (Hy & _).
  cbn [SFsub cond_Zopp]. set (ez := Z.min ex ey).
  assert (Hs : (Z.pos (fst (shl_align mx ex ez)) - Z.pos (fst (shl_align my ey ez))) * 2 ^ (ez + 1074)
               = val (S754_finite false mx ex) - val (S754_finite false my ey)).
  { rewrite Z.mul_sub_distr_r, !align_val by lia. done. }
  assert (0 < 2 ^ (ez + 1074)) by (apply pow2_pos; lia).
  rewrite <- Hs. apply normalize_upper; [lia|nia|lia].
Qed.

Lemma d_mul_upper x y :
  fin x -> fin y -> val x < 2 ^ (400 + 1074) -> val y < 2 ^ (400 + 1074) ->
  fin (d_mul x y) /\ 2 ^ 52 * (val (d_mul x y) * one) <= (2 ^ 52 + 1) * (val x * val y) + 2 ^ 52 * one.
Proof.
  intros Hx Hy Hbx Hby. unfold one. assert (0 < 2 ^ 1074) by (by apply pow2_pos).
  destruct x as [sx|[]| |[] mx ex]; try done; destruct y as [sy|[]| |[] my ey]; try done; unfold d_mul.
  all: try (cbn [SFmul val fin]; split; [done|]; rewrite ?Z.mul_0_l, ?Z.mul_0_r; lia).
  apply fin_finite in Hx as (Hx & Hxd & Hxn). apply fin_finite in Hy as (Hy & Hyd & Hyn).
  cbn [val] in Hbx, Hby. apply digits_val in Hbx; [|lia..]. apply digits_val in Hby; [|lia..].
  cbn [SFmul xorb].
  pose proof (digits_bounds mx) as Hdx. pose proof (digits_bounds my) as Hdy.
  set (dx := Z.pos (digits2_pos mx)) in *. set (dy := Z.pos (digits2_pos my)) in *.
  assert (Hdp : dx + dy - 1 <= Z.pos (digits2_pos (mx * my)) <= dx + dy).
  { split.
    - enough (dx + dy - 2 < Zdigits2 (Z.pos (mx * my))) by (cbn [Zdigits2] in *; lia).
      apply Zdigits2_ge; [lia|]. rewrite Pos2Z.inj_mul.
      replace (dx + dy - 2) with ((dx - 1) + (dy - 1)) by lia. rewrite Z.pow_add_r by lia. nia.
    - apply digits2_bound; [lia|]. rewrite Pos2Z.inj_mul, Z.pow_add_r by lia. nia. }
  destruct (round_upper (mx * my) (ex + ey) loc_Exact 1074) as [Hf Hu]; try lia.
  { rewrite fexp_max. lia. }
  split; [done|]. rewrite Pos2Z.inj_mul in *. cbn [val]. etrans; [exact Hu|].
  replace (ex + ey + 1074 + 1074) with ((ex + 1074) + (ey + 1074)) by lia.
  rewrite (Z.pow_add_r 2 (ex + 1074)), (Z.pow_add_r 2 52) by lia. apply Z.eq_le_incl. f_equal. f_equal. ring.
Qed.

Lemma div_core m1 e1 m2 e2 q e' l :
  SFdiv_core_binary 53 1024 (Z.pos m1) e1 (Z.pos m2) e2 = (q, e', l) ->
  let D := Z.pos (digits2_pos m1) + e1 - (Z.pos (digits2_pos m2) + e2) in
  -1000 <= D ->
  e' = Z.min (D - 53) (e1 - e2) /\ 0 < q /\ q * Z.pos m2 <= Z.pos m1 * 2 ^ (e1 - e2 - e') /\
  D <= Zdigits2 q + e' <= D + 1.
Proof.
  intros Hq D HD. unfold SFdiv_core_binary in Hq. cbn [Zdigits2] in Hq.
  pose proof (digits_bounds m1) as H1. pose proof (digits_bounds m2) as H2.
  set (d1 := Z.pos (digits2_pos m1)) in *. set (d2 := Z.pos (digits2_pos m2)) in *.
  fold D in Hq. rewrite fexp_small in Hq by lia. set (e0 := Z.min (D - 53) (e1 - e2)) in *.
  set (s := e1 - e2 - e0) in *. assert (Hs : 0 <= s) by lia.
  assert (Hm : (match s with Z0 => Z.pos m1 | Z.pos _ => Z.shiftl (Z.pos m1) s | Z.neg _ => 0 end)
               = Z.pos m1 * 2 ^ s).
  { destruct s as [|p|p]; [|rewrite Z.shiftl_mul_pow2 by lia; done|lia]. rewrite Z.pow_0_r. lia. }
  rewrite Hm in Hq. destruct (Z.div_eucl (Z.pos m1 * 2 ^ s) (Z.pos m2)) as [q' r] eqn:Ed.
  injection Hq as <- <- _.
  pose proof (Z_div_mod (Z.pos m1 * 2 ^ s) (Z.pos m2) ltac:(lia)) as Hdm. rewrite Ed in Hdm.
  destruct Hdm as [Hdm Hr].
  assert (Hps : 0 < 2 ^ s) by by apply pow2_pos.
  (* the quotient has full width *)
  assert (Hlow : 2 ^ (d1 + s - d2 - 1) <= q').
  { assert (2 ^ (d1 - 1) * 2 ^ s = 2 ^ d2 * 2 ^ (d1 + s - d2 - 1)).
    { rewrite <- !Z.pow_add_r by lia. f_equal. lia. }
    assert (0 < 2 ^ (d1 + s - d2 - 1)) by (apply pow2_pos; lia). nia. }
  assert (0 < 2 ^ (d1 + s - d2 - 1)) by (apply pow2_pos; lia).
  assert (Hup : q' < 2 ^ (d1 + s - d2 + 1)).
  { assert (2 ^ d1 * 2 ^ s = 2 ^ (d2 - 1) * 2 ^ (d1 + s - d2 + 1)).
    { rewrite <- !Z.pow_add_r by lia. f_equal. lia. }
    assert (0 < 2 ^ (d1 + s - d2 + 1)) by (apply pow2_pos; lia). nia. }
  split; [done|]. split; [lia|].
  split; [change (e1 - e2 - e0) with s; rewrite Hdm; lia|].
  pose proof (Zdigits2_ge q' (d1 + s - d2 - 1) ltac:(lia) Hlow).
  pose proof (Zdigits2_lt q' (d1 + s - d2 + 1) ltac:(lia) ltac:(lia)). lia.
Qed.

Lemma d_div_upper x y :
  fin x -> fin y -> val x < 2 ^ (400 + 1074) -> one <= val y < 2 ^ (400 + 1074) ->
  (val x = 0 \/ one <= val x) ->
  fin (d_div x y) /\
  2 ^ 52 * (val (d_div x y) * val y) <= (2 ^ 52 + 1) * (val x * one) + 2 ^ 52 * val y.
Proof.
  intros Hx Hy Hbx Hby Hx0. assert (Hone : 0 < one) by (by apply pow2_pos).
  destruct y as [sy|[]| |[] my ey]; try done; [cbn in Hby; lia|].
  destruct x as [sx|[]| |[] mx ex]; try done; unfold d_div.
  { cbn [SFdiv]. split; [done|]. cbn [val] in *. rewrite !Z.mul_0_l. lia. }
  assert (Hx1 : one <= val (S754_finite false mx ex)).
  { destruct Hx0 as [H0|]; [|done]. cbn [val] in H0. apply fin_finite in Hx as [Hx _].
    pose proof (pow2_pos (ex + 1074) ltac:(lia)). nia. }
  apply fin_finite in Hx as (Hx & Hxd & _). apply fin_finite in Hy as (Hy & Hyd & _).
  assert (Hlow : forall m e, -1074 <= e -> one <= val (S754_finite false m e) -> 1 <= Z.pos (digits2_pos m) + e).
  { intros m e He H1. cbn [val] in H1. destruct (Z.le_gt_cases 1 (Z.pos (digits2_pos m) + e)); [done|exfalso].
    pose proof (digits_bounds m) as [_ Hd]. unfold one in H1.
    assert (2 ^ Z.pos (digits2_pos m) * 2 ^ (e + 1074) <= 2 ^ 1074).
    { rewrite <- Z.pow_add_r by lia. apply Z.pow_le_mono_r; lia. }
    pose proof (pow2_pos (e + 1074) ltac:(lia)). nia. }
  pose proof (Hlow _ _ Hx Hx1) as Hlx. pose proof (Hlow _ _ Hy (proj1 Hby)) as Hly.
  cbn [val] in Hbx, Hby |- *.
  pose proof (digits_val mx ex 400 Hx ltac:(lia) Hbx) as Hux.
  pose proof (digits_val my ey 400 Hy ltac:(lia) (proj2 Hby)) as Huy.
  cbn [SFdiv xorb]. destruct (SFdiv_core_binary _ _ _ _ _ _) as [[q e'] l] eqn:Ec.
  apply div_core in Ec as (He' & Hq & Hle & Hdq); [|lia].
  destruct q as [|q|]; [lia| |lia]. cbn [Zdigits2] in Hdq.
  set (D := Z.pos (digits2_pos mx) + ex - (Z.pos (digits2_pos my) + ey)) in *.
  destruct (round_upper q e' l 1074) as [Hf Hu]; try lia.
  { rewrite fexp_max. lia. }
  split; [done|]. change (2 ^ 1074) with one in Hu. rewrite (Z.pow_add_r 2 52) in Hu by lia.
  change (2 ^ 1074) with one in Hu. set (r := val (binary_round_aux _ _ _ _ _ _)) in *.
  assert (HV : 0 < Z.pos my * 2 ^ (ey + 1074)) by (pose proof (pow2_pos (ey + 1074) ltac:(lia)); nia).
  set (Y := Z.pos my * 2 ^ (ey + 1074)) in *. set (X := Z.pos mx * 2 ^ (ex + 1074)) in *.
  assert (HqY : Z.pos q * 2 ^ (e' + 1074 + 1074) * Y <= X * one * one).
  { assert (2 ^ (e' + 1074 + 1074) * 2 ^ (ey + 1074) * 2 ^ (ex - ey - e')
            = 2 ^ (ex + 1074) * one * one).
    { unfold one. rewrite <- !Z.pow_add_r by lia. f_equal. lia. }
    pose proof (pow2_pos (e' + 1074 + 1074) ltac:(lia)). pose proof (pow2_pos (ey + 1074) ltac:(lia)).
    pose proof (pow2_pos (ex - ey - e') ltac:(lia)). unfold X, Y. nia. }
  assert (Hm : 2 ^ 52 * (r * one) * Y <= (2 ^ 52 + 1) * (X * one * one) + 2 ^ 52 * one * Y).
  { etrans; [apply Z.mul_le_mono_nonneg_r; [lia|exact Hu]|]. nia. }
  clearbody X Y r. clear -Hm Hone. apply (Z.mul_le_mono_pos_r _ _ one); [done|].
  etrans; [|etrans; [exact Hm|]]; apply Z.eq_le_incl; ring.
Qed.

(** ** Comparisons *)

Lemma compare_val x y : fin x -> fin y -> SFcompare x y = Some (Z.compare (val x) (val y)).
Proof.
  intros Hx Hy. destruct x as [sx|[]| |[] mx ex]; try done; destruct y as [sy|[]| |[] my ey]; try done.
  - cbn [val]. apply fin_finite in Hy as [Hy _]. pose proof (pow2_pos (ey + 1074) ltac:(lia)).
    cbn [SFcompare]. rewrite (proj2 (Z.compare_lt_iff _ _)) by nia. done.
  - cbn [val]. apply fin_finite in Hx as [Hx _]. pose proof (pow2_pos (ex + 1074) ltac:(lia)).
    cbn [SFcompare]. rewrite (proj2 (Z.compare_gt_iff _ _)) by nia. done.
  - assert (Hlt : forall m e m' e', fin (S754_finite false m e) -> fin (S754_finite false m' e') -> e < e' ->
      val (S754_finite false m e) < val (S754_finite false m' e')).
    { intros m e m' e' (H1 & H2 & _)%fin_finite (H3 & H4 & H5)%fin_finite Hee. cbn [val].
      pose proof (digits_bounds m). pose proof (digits_bounds m') as [Hd' _].
      replace (Z.pos (digits2_pos m')) with 53 in Hd' by lia.
      assert (Z.pos m < 2 ^ 53).
      { eapply Z.lt_le_trans; [apply (proj2 H)|]. apply Z.pow_le_mono_r; lia. }
      assert (2 ^ 53 * 2 ^ (e + 1074) <= 2 ^ 52 * 2 ^ (e' + 1074)).
      { rewrite <- !Z.pow_add_r by lia. apply Z.pow_le_mono_r; lia. }
      pose proof (pow2_pos (e + 1074) ltac:(lia)). pose proof (pow2_pos (e' + 1074) ltac:(lia)).
      change (53 - 1) with 52 in Hd'. nia. }
    cbn [SFcompare]. destruct (Z.compare_spec ex ey) as [->|Hc|Hc].
    + cbn [val]. apply fin_finite in Hx as [Hx _]. change (Pos.compare_cont Eq mx my) with (Pos.compare mx my).
      rewrite <- Zmult_compare_compat_r by (apply Z.lt_gt, pow2_pos; lia). done.
    + by rewrite (proj2 (Z.compare_lt_iff _ _)) by by apply Hlt.
    + by rewrite (proj2 (Z.compare_gt_iff _ _)) by by apply Hlt.
Qed.

Lemma d_gt_val x y : fin x -> fin y -> d_gt x y = (val y <? val x).
Proof.
  intros Hx Hy. unfold d_gt, SFltb. rewrite compare_val by done. unfold Z.ltb. by destruct (_ ?= _).
Qed.

Lemma d_ge_val x y : fin x -> fin y -> d_ge x y = (val y <=? val x).
Proof.
  intros Hx Hy. unfold d_ge, SFleb. rewrite compare_val by done. unfold Z.leb. by destruct (_ ?= _).
Qed.

(** Integers below [2 ^ 53] are exact. *)
Lemma d_of_Z_val k : 0 <= k < 2 ^ 53 -> val (d_of_Z k) = k * one.
Proof.
  intros Hk. destruct k as [|m|]; [done| |lia]. rewrite d_of_Z_pos by lia. unfold d_exact. cbn [val].
  pose proof (digits2_bound m 53 ltac:(lia) (proj2 Hk)). pose proof (pow2_pos (53 - Z.pos (digits2_pos m)) ltac:(lia)).
  rewrite Z2Pos.id by nia. rewrite <- Z.mul_assoc, <- Z.pow_add_r by lia. unfold one. f_equal. f_equal. lia.
Qed.

Lemma d_of_Z_lower k : 1 <= k < 2 ^ 900 -> one <= val (d_of_Z k).
Proof.
  intros Hk. destruct (Z.lt_ge_cases k (2 ^ 53)) as [Hs|Hs].
  { rewrite d_of_Z_val by lia. pose proof (pow2_pos 1074). unfold one. nia. }
  destruct k as [|m|]; [lia| |lia]. unfold d_of_Z, binary_normalize, binary_round.
  pose proof (Zdigits2_ge (Z.pos m) 53 ltac:(lia) Hs) as Hd. cbn [Zdigits2] in Hd.
  pose proof (digits2_bound m 900 ltac:(lia) (proj2 Hk)) as Hd'.
  pose proof (digits_bounds m) as [Hm _]. rewrite Z.add_0_r, fexp_small by lia.
  rewrite shl_align_ge by lia.
  destruct (round_aux_spec m 0 loc_Exact) as (_ & m2 & [Hm2 _] & Hv); rewrite ?Z.add_0_r, ?fexp_small by lia; try lia.
  rewrite Z.add_0_r, fexp_small in Hv, Hm2 by lia. rewrite Hv. set (d := Z.pos (digits2_pos m)) in *.
  assert (2 ^ 52 <= m2).
  { etrans; [|exact Hm2]. apply Z.div_le_lower_bound; [apply pow2_pos; lia|].
    rewrite <- Z.pow_add_r by lia. etrans; [|exact Hm]. apply Z.pow_le_mono_r; lia. }
  unfold one. etrans; [apply (Z.pow_le_mono_r 2 1074 (52 + (d - 53 + 1074))); lia|].
  rewrite Z.pow_add_r by lia. pose proof (pow2_pos (d - 53 + 1074) ltac:(lia)). nia.
Qed.

(** ** The bucket *)

Definition W : Z := 2 ^ 52.

Lemma one_big : 2 ^ 200 * W <= one.
Proof. unfold one, W. rewrite <- Z.pow_add_r by lia. apply Z.pow_le_mono_r; lia. Qed.

Lemma one_pos : 0 < one.
Proof. apply pow2_pos. lia. Qed.

Lemma range_400 : 2 ^ 300 * one < 2 ^ (400 + 1074).
Proof.
  rewrite Z.pow_add_r by lia. fold one. apply Z.mul_lt_mono_pos_r; [exact one_pos|]. apply Z.pow_lt_mono_r; lia.
Qed.

Lemma dt_range dt : 0 <= dt < 2 ^ 63 -> 0 <= dt * one <= 2 ^ 63 * one.
Proof. intros. pose proof one_pos. split; [lia|]. apply Z.mul_le_mono_nonneg_r; lia. Qed.

(** A factor of [one] on both sides. *)
Lemma cancel_one a b a' b' : a' <= b' -> a' = a * one -> b' = b * one -> a <= b.
Proof. intros H -> ->. apply (Z.mul_le_mono_pos_r _ _ one); [exact one_pos|done]. Qed.

(** A period of [dt] nanoseconds, in seconds; [A] is the value of [dt] as a double. *)
Lemma elapsed_upper dt :
  0 <= dt < 2 ^ 63 ->
  let d := d_div (d_of_Z dt) (d_of_Z 1000000000) in
  exists A, 0 <= A /\ W * A <= (W + 1) * (dt * one) + W /\
    fin d /\ W * 1000000000 * val d <= (W + 1) * A + W * 1000000000 /\ val d <= 2 ^ 70 * one.
Proof.
  intros Hdt. cbv zeta. pose proof one_big as Hbig. pose proof one_pos as Hone. pose proof (dt_range dt Hdt) as Hd1.
  destruct (d_of_Z_upper dt) as [Hfa Ha]; [lia|]. fold W in Ha.
  destruct (d_of_Z_upper 1000000000) as [Hfg _]; [lia|]. pose proof (d_of_Z_val 1000000000 ltac:(lia)) as Hvg.
  assert (HA0 : val (d_of_Z dt) = 0 \/ one <= val (d_of_Z dt)).
  { destruct (Z.eq_dec dt 0) as [->|Hn]; [by left|right]. apply d_of_Z_lower. lia. }
  exists (val (d_of_Z dt)). set (A := val (d_of_Z dt)) in *.
  assert (HA : 0 <= A) by apply val_nonneg.
  assert (HA4 : A < 2 ^ (400 + 1074)).
  { eapply Z.le_lt_trans; [|exact range_400]. unfold W in *. lia. }
  destruct (d_div_upper (d_of_Z dt) (d_of_Z 1000000000)) as [Hfb Hb];
    [done|done|done|rewrite Hvg; pose proof range_400; lia|done|].
  fold A W in Hb. rewrite Hvg in Hb. set (B := val (d_div _ _)) in *.
  assert (Hb' : W * 1000000000 * B <= (W + 1) * A + W * 1000000000)
    by (eapply cancel_one; [exact Hb|ring|ring]).
  split; [exact HA|]. split; [exact Ha|]. split; [exact Hfb|]. split; [exact Hb'|].
  clearbody A B. unfold W in *. lia.
Qed.

(** The errors of the conversion, the division and the multiplication. *)
Lemma refill_errors max D A B C :
  0 < max < 2 ^ 32 -> W * A <= (W + 1) * D + W -> W * 1000000000 * B <= (W + 1) * A + W * 1000000000 ->
  W * C <= (W + 1) * (B * max) + W ->
  W ^ 3 * 1000000000 * C <= (W + 1) ^ 3 * (max * D) + W ^ 3 * 1000000000 * (8 * max).
Proof.
  intros Hmax Ha Hb Hc.
  assert (H1 : W ^ 2 * 1000000000 * (W * C) <= W ^ 2 * 1000000000 * ((W + 1) * (B * max) + W)).
  { apply Z.mul_le_mono_nonneg_l; [|exact Hc]. unfold W. lia. }
  assert (H2 : W * (W + 1) * max * (W * 1000000000 * B)
               <= W * (W + 1) * max * ((W + 1) * A + W * 1000000000)).
  { apply Z.mul_le_mono_nonneg_l; [|exact Hb]. unfold W. lia. }
  assert (H3 : (W + 1) ^ 2 * max * (W * A) <= (W + 1) ^ 2 * max * ((W + 1) * D + W)).
  { apply Z.mul_le_mono_nonneg_l; [|exact Ha]. unfold W. lia. }
  assert (H4 : (W + 1) ^ 2 * max * W + W ^ 2 * (W + 1) * max * 1000000000 + W ^ 3 * 1000000000
               <= W ^ 3 * 1000000000 * (8 * max)) by (unfold W; lia).
  unfold W in *. lia.
Qed.

(** What a period of [dt] nanoseconds adds. *)
Lemma refill_upper max dt :
  0 < max < 2 ^ 32 -> 0 <= dt < 2 ^ 63 ->
  let p := d_mul (d_div (d_of_Z dt) (d_of_Z 1000000000)) (d_of_Z max) in
  fin p /\ val p < 2 ^ (500 + 1074) /\
  W ^ 3 * 1000000000 * val p <= (W + 1) ^ 3 * (max * dt * one) + W ^ 3 * 1000000000 * (8 * max).
Proof.
  intros Hmax Hdt. cbv zeta. pose proof one_big as Hbig. pose proof one_pos as Hone. pose proof (dt_range dt Hdt) as Hd1.
  destruct (elapsed_upper dt Hdt) as (A & HA & Ha & Hfb & Hb & HB). set (d := d_div _ _) in *.
  destruct (d_of_Z_upper max) as [Hfm _]; [lia|]. pose proof (d_of_Z_val max ltac:(lia)) as Hvm.
  destruct (d_mul_upper d (d_of_Z max)) as [Hfc Hc]; [done|done| | |].
  { eapply Z.le_lt_trans; [|exact range_400]. lia. }
  { rewrite Hvm. eapply Z.le_lt_trans; [|exact range_400]. apply Z.mul_le_mono_nonneg_r; lia. }
  fold W in Hc. rewrite Hvm in Hc. set (B := val d) in *. set (C := val (d_mul _ _)) in *.
  assert (HC : 0 <= C) by apply val_nonneg.
  assert (Hc' : W * C <= (W + 1) * (B * max) + W) by (eapply cancel_one; [exact Hc|ring|ring]).
  pose proof (refill_errors max (dt * one) A B C Hmax Ha Hb Hc') as Hmul. rewrite (Z.mul_assoc max dt one) in Hmul.
  split; [done|]. split; [|done].
  assert (max * dt * one <= 2 ^ 95 * one).
  { apply Z.mul_le_mono_nonneg_r; [lia|]. change (2 ^ 95) with (2 ^ 32 * 2 ^ 63).
    apply Z.mul_le_mono_nonneg; lia. }
  assert (Hc5 : 2 ^ (400 + 1074) < 2 ^ (500 + 1074)) by (apply Z.pow_lt_mono_r; lia).
  eapply Z.lt_trans; [|exact Hc5]. eapply Z.le_lt_trans; [|exact range_400].
  clear - Hmul H Hmax HC Hdt Hbig. clearbody C. unfold W in *. lia.
Qed.

(** The tokens are at most the size of the bucket. *)
Definition bucket_ok (max : Z) (tb : bucket) : Prop :=
  max_submit_per_sec_ tb = max /\ fin (tb_tokens_ tb) /\ val (tb_tokens_ tb) <= max * one.

Definition taken (ok : bool) : Z := if ok then one else 0.

(** One check: what is left and taken is at most what there was and the refill, and at most
    a full bucket, but for the rounding of the addition and of the subtraction. *)
Lemma check_step max now tb :
  0 < max < 2 ^ 32 -> bucket_ok max tb -> 0 <= now - tb_last_refill_ tb < 2 ^ 63 ->
  let '(ok, tb') := throttle_check now tb in
  bucket_ok max tb' /\ tb_last_refill_ tb' = now /\
  W * (val (tb_tokens_ tb') + taken ok) <= W * (max * one) + max * one + W /\
  1000000000 * W ^ 4 * (val (tb_tokens_ tb') + taken ok)
  <= 1000000000 * W ^ 4 * val (tb_tokens_ tb)
     + (W + 1) ^ 4 * (max * (now - tb_last_refill_ tb) * one)
     + 1000000000 * W ^ 3 * (3 * max * one).
Proof.
  intros Hmax (Hm & Hft & Htok) Hdt. unfold throttle_check. rewrite Hm, (proj2 (Z.eqb_neq _ _)) by lia.
  unfold elapsed_seconds. set (dt := now - tb_last_refill_ tb) in *.
  pose proof one_big as Hbig. assert (Hone : 0 < one) by (unfold W in *; lia).
  destruct (refill_upper max dt Hmax Hdt) as (Hfp & Hpb & Hp). cbv zeta in *.
  set (p := d_mul _ _) in *. pose proof (val_nonneg p) as HC. pose proof (val_nonneg (tb_tokens_ tb)) as HT.
  set (T := val (tb_tokens_ tb)) in *. set (C := val p) in *.
  assert (HMb : max * one <= 2 ^ 32 * one) by (apply Z.mul_le_mono_nonneg_r; lia).
  assert (H500 : 2 ^ 32 * one < 2 ^ (500 + 1074)).
  { rewrite Z.pow_add_r by lia. fold one. apply Z.mul_lt_mono_pos_r; [done|]. apply Z.pow_lt_mono_r; lia. }
  assert (H1000 : 2 ^ (500 + 1074) + 2 ^ (500 + 1074) <= 2 ^ (1000 + 1074)).
  { replace (2 ^ (500 + 1074) + 2 ^ (500 + 1074)) with (2 ^ (1 + (500 + 1074)))
      by (rewrite Z.pow_add_r by lia; lia). apply Z.pow_le_mono_r; lia. }
  destruct (d_add_upper (tb_tokens_ tb) p Hft Hfp) as [Hfd Hd]; [fold T C; lia|]. fold T C W in Hd.
  set (s := d_add _ p) in *. destruct (d_of_Z_upper max) as [Hfm _]; [lia|].
  destruct (d_of_Z_upper 1) as [Hf1 _]; [lia|].
  pose proof (d_of_Z_val max ltac:(lia)) as Hvm. pose proof (d_of_Z_val 1 ltac:(lia)) as Hv1.
  rewrite d_gt_val, Hvm by done.
  set (t := if max * one <? val s then d_of_Z max else s).
  assert (Ht : fin t /\ val t <= max * one /\ val t <= val s).
  { unfold t. destruct (Z.ltb_spec (max * one) (val s)); rewrite ?Hvm; split_and!; try done; lia. }
  destruct Ht as (Hft' & Htm & Hts). pose proof (val_nonneg t) as Ht0.
  rewrite d_ge_val, Hv1 by done.
  assert (Hkey : forall F, W * F <= W * val t + max * one + W -> 
    W * F <= W * (max * one) + max * one + W /\
    1000000000 * W ^ 4 * F <= 1000000000 * W ^ 4 * T + (W + 1) ^ 4 * (max * dt * one)
      + 1000000000 * W ^ 3 * (3 * max * one)).
  { intros F HF. split; [unfold W in *; lia|].
    assert (max * (2 ^ 200 * W) <= max * one) by (apply Z.mul_le_mono_nonneg_l; lia).
    clear - HF Hp Hd Hts Htok HC HT Hmax H. unfold W in *. lia. }
  destruct (Z.leb_spec (1 * one) (val t)) as [Hge|Hlt]; cbn [tb_tokens_ tb_last_refill_ max_submit_per_sec_ taken].
  - destruct (d_sub_upper t (d_of_Z 1)) as [Hfs Hs]; [done|done|rewrite Hv1; lia|lia|].
    rewrite Hv1 in Hs. fold W in Hs. set (F := val (d_sub _ _)) in *.
    assert (HF : W * (F + one) <= W * val t + max * one + W) by (unfold W in *; lia).
    split; [|by split; [|apply Hkey]]. split_and!; [done..|]. cbn [tb_tokens_]. fold F. unfold W in *. lia.
  - rewrite Z.add_0_r. split; [done|]. split; [done|]. apply Hkey. unfold W in *. lia.
Qed.

(** ** Runs *)

(** The clock does not go back; it counts nanoseconds in 63 bits. *)
Fixpoint ascending (t : Z) (times : list Z) : Prop :=
  match times with
  | [] => True
  | t' :: times => t <= t' < 2 ^ 63 /\ ascending t' times
  end.

Definition accepted (oks : list bool) : Z := Z.of_nat (length (filter (fun ok => ok = true) oks)).

Lemma accepted_cons ok oks : accepted (ok :: oks) = (if ok then 1 else 0) + accepted oks.
Proof. unfold accepted. rewrite filter_cons. destruct ok; [rewrite decide_True by done|rewrite decide_False by done];
  cbn [length]; lia. Qed.

Lemma last_cons {A} (t t' : A) times : List.last (t' :: times) t = List.last times t'.
Proof.
  revert t t'. induction times as [|t2 times IH]; intros t t'; [done|].
  change (List.last (t' :: t2 :: times) t) with (List.last (t2 :: times) t). by rewrite !IH.
Qed.

Lemma ascending_app t times1 times2 :
  ascending t (times1 ++ times2) <-> ascending t times1 /\ ascending (List.last times1 t) times2.
Proof.
  revert t. induction times1 as [|t1 times1 IH]; intros t; [cbn; tauto|]. cbn [app ascending].
  rewrite IH, last_cons. tauto.
Qed.

Lemma ascending_last t times : 0 <= t < 2 ^ 63 -> ascending t times -> t <= List.last times t < 2 ^ 63.
Proof.
  revert t. induction times as [|t1 times IH]; intros t Ht Ha; [cbn; lia|]. destruct Ha as [H1 Ha].
  rewrite last_cons. specialize (IH t1 ltac:(lia) Ha). lia.
Qed.

(** The checks of a run, added up. *)
Lemma run_bound max times tb :
  0 < max < 2 ^ 32 -> bucket_ok max tb -> 0 <= tb_last_refill_ tb < 2 ^ 63 ->
  ascending (tb_last_refill_ tb) times ->
  let '(oks, tb') := throttle_run times tb in
  bucket_ok max tb' /\ tb_last_refill_ tb' = List.last times (tb_last_refill_ tb) /\
  1000000000 * W ^ 4 * (val (tb_tokens_ tb') + accepted oks * one)
  <= 1000000000 * W ^ 4 * val (tb_tokens_ tb)
     + (W + 1) ^ 4 * (max * (List.last times (tb_last_refill_ tb) - tb_last_refill_ tb) * one)
     + 1000000000 * W ^ 3 * (3 * max * one) * Z.of_nat (length times).
Proof.
  intros Hmax. revert tb. induction times as [|t times IH]; intros tb Hb Hl Ha.
  { cbn [throttle_run List.last length]. split; [done|]. split; [done|].
    change (accepted []) with 0. rewrite Z.sub_diag, !Z.mul_0_r, !Z.mul_0_l. lia. }
  cbn [ascending] in Ha. destruct Ha as [Ht Ha]. cbn [throttle_run].
  pose proof (check_step max t tb Hmax Hb ltac:(lia)) as Hs.
  destruct (throttle_check t tb) as [ok tb1]. destruct Hs as (Hb1 & Hl1 & _ & Hs).
  specialize (IH tb1 Hb1). rewrite Hl1 in IH. specialize (IH ltac:(lia) Ha).
  destruct (throttle_run times tb1) as [oks tb2]. destruct IH as (Hb2 & Hl2 & IH).
  rewrite last_cons. split; [done|]. split; [done|].
  rewrite accepted_cons. cbn [length]. rewrite Nat2Z.inj_succ.
  assert (Hk : ((if ok then 1 else 0) + accepted oks) * one = taken ok + accepted oks * one)
    by (destruct ok; cbn [taken]; lia).
  rewrite Hk. set (k := accepted oks) in *. set (L := List.last times t) in *.
  replace (max * (L - tb_last_refill_ tb) * one)
    with (max * (L - t) * one + max * (t - tb_last_refill_ tb) * one) by ring.
  clearbody k L. clear - IH Hs. unfold W in *. lia.
Qed.

Lemma init_ok max t : 0 < max < 2 ^ 32 -> bucket_ok max (bucket_init max t).
Proof.
  intros Hm. unfold bucket_ok. cbn. destruct (d_of_Z_upper max) as [Hf _]; [lia|].
  rewrite d_of_Z_val by lia. split_and!; [done|done|lia].
Qed.

(** C32: The rate limiter keeps the configured rate, in binary64 arithmetic: in any interval
    of a session's life, of checks whose clock does not go back, at most
    [max_submit_per_sec] (a full bucket), and one for the rounding, and
    [max_submit_per_sec] times the length of the interval are allowed, as long as the
    number of checks and of seconds in the interval, each times the rate, is at most
    [2 ^ 48]. *)
Theorem throttle_rate max t0 before first rest :
  0 < max < 2 ^ 32 -> 0 <= t0 < 2 ^ 63 -> ascending t0 (before ++ first :: rest) ->
  let interval := List.last rest first - first in
  let '(_, tb) := throttle_run before (bucket_init max t0) in
  let '(oks, _) := throttle_run (first :: rest) tb in
  Z.of_nat (length rest) * max <= 2 ^ 48 -> max * interval <= 1000000000 * 2 ^ 48 ->
  1000000000 * accepted oks <= 1000000000 * (max + 1) + max * interval.
Proof.
  intros Hmax Ht0 (Ha1 & Hf & Ha2)%ascending_app interval.
  pose proof (run_bound max before (bucket_init max t0) Hmax (init_ok _ _ Hmax) Ht0 Ha1) as H1.
  destruct (throttle_run before _) as [oks1 tb]. destruct H1 as (Hb & Hl & _). cbn in Hl.
  cbn [throttle_run]. pose proof (ascending_last t0 before Ht0 Ha1) as Hl0. rewrite <- Hl in *.
  pose proof (check_step max first tb Hmax Hb ltac:(lia)) as Hs.
  destruct (throttle_check first tb) as [ok tb1]. destruct Hs as (Hb1 & Hl1 & Hs & _).
  pose proof (run_bound max rest tb1 Hmax Hb1) as H2. rewrite Hl1 in H2.
  specialize (H2 ltac:(lia) Ha2). destruct (throttle_run rest tb1) as [oks tb2].
  destruct H2 as (_ & _ & H2). fold interval in H2. intros Hn Hi. rewrite accepted_cons.
  assert (Hk : ((if ok then 1 else 0) + accepted oks) * one = taken ok + accepted oks * one)
    by (destruct ok; cbn [taken]; lia).
  set (k := (if ok then 1 else 0) + accepted oks) in *. pose proof one_big as Hbig.
  assert (Hone : 0 < one) by (unfold W in *; lia). pose proof (val_nonneg (tb_tokens_ tb2)) as HF.
  assert (Hn1 : Z.of_nat (length rest) * max * one <= 2 ^ 48 * one) by (apply Z.mul_le_mono_nonneg_r; lia).
  assert (Hi1 : max * interval * one <= 1000000000 * 2 ^ 48 * one) by (apply Z.mul_le_mono_nonneg_r; lia).
  assert (Hm1 : max * one <= 2 ^ 32 * one) by (apply Z.mul_le_mono_nonneg_r; lia).
  assert (Hi0 : 0 <= max * interval * one).
  { pose proof (ascending_last first rest ltac:(lia) Ha2). unfold interval.
    apply Z.mul_nonneg_nonneg; [apply Z.mul_nonneg_nonneg|]; lia. }
  apply (Z.mul_le_mono_pos_r _ _ one); [done|].
  set (I := interval) in *. clearbody k I. clear - Hk H2 Hs Hbig Hone HF Hn1 Hi1 Hm1 Hi0.
  set (V1 := val (tb_tokens_ tb1)) in *. set (V2 := val (tb_tokens_ tb2)) in *. set (N := Z.of_nat _) in *.
  clearbody V1 V2 N. unfold W in *. lia.
Qed.

(** Two requests per second, three requests at once and then one after 0.9 s and three
    between 1.5 s and 1.7 s: of these four, three are allowed, and at most four. *)
Lemma throttle_rate_witness :
  fst (throttle_run [0; 0; 0; 900000000] (bucket_init 2 0)) = [true; true; false; true] /\
  let '(_, tb) := throttle_run [0; 0; 0] (bucket_init 2 0) in
  let '(oks, _) := throttle_run [900000000; 1500000000; 1600000000; 1700000000] tb in
  1000000000 * accepted oks <= 1000000000 * 3 + 2 * 800000000.
Proof.
  split; [vm_compute; reflexivity|].
  pose proof (throttle_rate 2 0 [0; 0; 0] 900000000 [1500000000; 1600000000; 1700000000]
    ltac:(lia) ltac:(lia) ltac:(cbn; lia)) as H. cbv zeta in H.
  destruct (throttle_run [0; 0; 0] _) as [oks1 tb].
  destruct (throttle_run [900000000; 1500000000; 1600000000; 1700000000] tb) as [oks tb2].
  apply H; cbn; lia.
Defined.
