(* ===== verification/Session.v ===== *)
(** * Session: [SmppSession] of SmppClientHandler, one SMPP connection

    The class of [include/smpp_session.hpp] and [src/smpp_session.cpp]: its
    members as a record, one definition per member function, in the order of the
    source, over the effect monad of the prelude.  What a function asks of asio,
    of the timers and of the D-Bus services is an effect; logging is left out. *)

From S2P Require Import Prelude Pdu Throttle.
#[local] Open Scope Z_scope.
#[local] Open Scope eff_scope.

(** ** What the session relies on *)

(** The IAuth D-Bus service, as its client sees it: the answer [(ok, code)] to
    a call of [Authenticate], or [None] when the call throws.  The code is a
    [uint32_t] by the signature of the method. *)
Class IAuth := {
  Authenticate : cstring -> cstring -> cstring -> cstring -> option (bool * Z);
  Authenticate_u32 uuid sid pass ip ok code :
    Authenticate uuid sid pass ip = Some (ok, code) -> is_u32 code
}.

(** What the outside shows to one activation of the session: the
    authentication service, [system_clock] in seconds and [steady_clock] in
    nanoseconds. *)
Record env := {
  env_auth : IAuth;
  env_system_sec : Z;
  env_steady_ns : Z
}.

(** ** Data *)

Inductive SessionState := OPEN | BOUND_TX | BOUND_RX | BOUND_TRX | UNBOUND.

#[export] Instance SessionState_eq_dec : EqDecision SessionState.
Proof. solve_decision. Defined.

Definition state_name (s : SessionState) : cstring :=
  match s with
  | OPEN => str "OPEN"
  | BOUND_TX => str "BOUND_TX"
  | BOUND_RX => str "BOUND_RX"
  | BOUND_TRX => str "BOUND_TRX"
  | UNBOUND => str "UNBOUND"
  end.

(** The members that the constructor sets and nothing changes. *)
Record params := {
  uuid_ : cstring;
  client_ip_ : cstring;
  server_svc_ : cstring;
  auth_svc_ : cstring;
  el_interval_sec_ : Z;
  el_timeout_sec_ : Z;
  msg_id_prefix_ : cstring
}.

(** The members.  [socket_open_] stands for the state of [socket_], and the
    rate-limiter members are those of the bucket. *)
Record session := mk_session {
  params_ : params;
  socket_open_ : bool;
  system_id_ : cstring;
  state_ : SessionState;
  bind_time_ : Z;
  el_seq_ : Z;
  el_pending_ : bool;
  msg_seq_ : Z;
  deliver_seq_ : Z;
  tb_ : bucket;
  header_buf_ : list byte
}.

Definition set_socket_open (x : bool) (s : session) : session :=
  let '(mk_session a _ c d e f g h i j k) := s in mk_session a x c d e f g h i j k.
Definition set_system_id (x : cstring) (s : session) : session :=
  let '(mk_session a b _ d e f g h i j k) := s in mk_session a b x d e f g h i j k.
Definition set_state (x : SessionState) (s : session) : session :=
  let '(mk_session a b c _ e f g h i j k) := s in mk_session a b c x e f g h i j k.
Definition set_bind_time (x : Z) (s : session) : session :=
  let '(mk_session a b c d _ f g h i j k) := s in mk_session a b c d x f g h i j k.
Definition set_el_seq (x : Z) (s : session) : session :=
  let '(mk_session a b c d e _ g h i j k) := s in mk_session a b c d e x g h i j k.
Definition set_el_pending (x : bool) (s : session) : session :=
  let '(mk_session a b c d e f _ h i j k) := s in mk_session a b c d e f x h i j k.
Definition set_msg_seq (x : Z) (s : session) : session :=
  let '(mk_session a b c d e f g _ i j k) := s in mk_session a b c d e f g x i j k.
Definition set_deliver_seq (x : Z) (s : session) : session :=
  let '(mk_session a b c d e f g h _ j k) := s in mk_session a b c d e f g h x j k.
Definition set_tb (x : bucket) (s : session) : session :=
  let '(mk_session a b c d e f g h i _ k) := s in mk_session a b c d e f g h i x k.
Definition set_header_buf (x : list byte) (s : session) : session :=
  let '(mk_session a b c d e f g h i j _) := s in mk_session a b c d e f g h i j x.

(** What a member function asks of the outside. *)
Inductive effect :=
| AsyncReadHeader                                   (* async_read of 16 octets *)
| AsyncReadBody (hdr : Header) (len : Z)            (* async_read of the body *)
| AsyncWrite (pdu : list byte)                      (* async_write *)
| CloseSocket                                       (* socket_.close *)
| EmitSessionExited (uuid reason : cstring)         (* D-Bus signal *)
| CallAuthenticate (svc uuid sid pass ip : cstring) (reply : option (bool * Z))
| CallUpdateSessionDetails (svc uuid sid st : cstring)
| CallRouteMessage (svc src dst msg msg_id : cstring)
| ArmElTimer (sec : Z)                              (* el_timer_ expires_after, async_wait *)
| ArmElTimeout (sec : Z)                            (* el_timeout_timer_ likewise *)
| CancelElTimeout                                   (* el_timeout_timer_.cancel *)
| PostDisconnect (reason : cstring).                (* asio::post *)

(** [sdbus::Error] with its name and its message. *)
Inductive exn := SdbusError (name message : cstring).

Abbreviation SM := (M session effect exn).

(** ** Construction *)

Definition session_init (uuid client_ip server_svc auth_svc : cstring)
    (enquire_link_interval_sec enquire_link_timeout_sec max_submit_per_sec : Z)
    (steady_now : Z) : session :=
  {| params_ := {| uuid_ := uuid; client_ip_ := client_ip; server_svc_ := server_svc;
                   auth_svc_ := auth_svc; el_interval_sec_ := enquire_link_interval_sec;
                   el_timeout_sec_ := enquire_link_timeout_sec;
                   msg_id_prefix_ :=
                     if decide (8 <= length uuid)%nat then take 8 uuid else uuid |};
     socket_open_ := true;
     system_id_ := [];
     state_ := OPEN;
     bind_time_ := 0;
     el_seq_ := 0;
     el_pending_ := false;
     msg_seq_ := 0;
     deliver_seq_ := 0x20000000;
     tb_ := bucket_init max_submit_per_sec steady_now;
     header_buf_ := replicate 16 x00 |}.

(** ** Output and disconnection *)

Definition send_pdu (pdu : list byte) : SM unit := emit (AsyncWrite pdu).

(** [send_pdu(smpp::make_response(...))], the form of all its uses but one. *)
Definition send_response (command_id command_status sequence_number : Z)
    (system_id : cstring) : SM unit :=
  pdu <- edefined (make_response command_id command_status sequence_number system_id) ;;
  send_pdu pdu.

Definition do_disconnect (reason : cstring) : SM unit :=
  s <- eget ;;
  if decide (state_ s = UNBOUND) then eret () else
  emodify (set_state UNBOUND) ;;;
  emodify (set_socket_open false) ;;;
  emit CloseSocket ;;;
  emit (EmitSessionExited (uuid_ (params_ s)) reason).

Definition update_session_details : SM unit :=
  s <- eget ;;
  emit (CallUpdateSessionDetails (server_svc_ (params_ s)) (uuid_ (params_ s))
          (system_id_ s) (state_name (state_ s))).

(** ** Keepalive *)

Definition schedule_enquire_link : SM unit :=
  s <- eget ;; emit (ArmElTimer (el_interval_sec_ (params_ s))).

Definition arm_enquire_link_timeout : SM unit :=
  s <- eget ;; emit (ArmElTimeout (el_timeout_sec_ (params_ s))).

(** [ec] tells whether the wait ended with an error (it was cancelled). *)
Definition on_enquire_link_timer (ec : bool) : SM unit :=
  s <- eget ;;
  if ec || el_pending_ s then eret () else
  if decide (state_ s = UNBOUND) then eret () else
  emodify (set_el_seq (if el_seq_ s =? 0 then 0x10000000 else u32 (el_seq_ s + 1))) ;;;
  emodify (set_el_pending true) ;;;
  s <- eget ;;
  send_response ENQUIRE_LINK ESME_ROK (el_seq_ s) [] ;;;
  arm_enquire_link_timeout.

Definition handle_enquire_link_resp (hdr : Header) : SM unit :=
  s <- eget ;;
  if (sequence_number hdr =? el_seq_ s) && el_pending_ s then
    emodify (set_el_pending false) ;;;
    emit CancelElTimeout ;;;
    schedule_enquire_link
  else eret ().

Definition on_enquire_link_timeout (ec : bool) : SM unit :=
  if ec then eret () else
  s <- eget ;;
  if negb (el_pending_ s) then eret () else
  do_disconnect (str "enquire_link timeout").

(** ** PDU handlers *)

(** The bound state that a bind command asks for; other commands leave the
    state as it is (the [switch] has no default). *)
Definition bound_state (command_id : Z) (current : SessionState) : SessionState :=
  if command_id =? BIND_TRANSMITTER then BOUND_TX
  else if command_id =? BIND_RECEIVER then BOUND_RX
  else if command_id =? BIND_TRANSCEIVER then BOUND_TRX
  else current.

Definition handle_bind (e : env) (hdr : Header) (body : list byte) : SM unit :=
  s <- eget ;;
  if negb (bool_decide (state_ s = OPEN)) then
    send_response (bind_resp_id (command_id hdr)) ESME_RALYBND (sequence_number hdr) []
  else
  let '(sid, off) := read_cstr body 0 default_max_len in
  let '(pass, off) := read_cstr body off default_max_len in
  let reply :=
    @Authenticate (env_auth e) (uuid_ (params_ s)) sid pass (client_ip_ (params_ s)) in
  emit (CallAuthenticate (auth_svc_ (params_ s)) (uuid_ (params_ s)) sid pass
          (client_ip_ (params_ s)) reply) ;;;
  let '(auth_ok, err_code) := default (false, ESME_RINVSYSID) reply in
  if negb auth_ok then
    send_response (bind_resp_id (command_id hdr)) err_code (sequence_number hdr) [] ;;;
    do_disconnect (str "auth failed")
  else
  emodify (set_system_id sid) ;;;
  emodify (set_state (bound_state (command_id hdr) (state_ s))) ;;;
  emodify (set_bind_time (u64 (env_system_sec e))) ;;;
  send_response (bind_resp_id (command_id hdr)) ESME_ROK (sequence_number hdr)
    (str "smpp-server") ;;;
  update_session_details.

Definition handle_unbind (hdr : Header) : SM unit :=
  send_response UNBIND_RESP ESME_ROK (sequence_number hdr) [] ;;;
  do_disconnect (str "unbind").

Definition handle_enquire_link (hdr : Header) : SM unit :=
  send_response ENQUIRE_LINK_RESP ESME_ROK (sequence_number hdr) [].

(** [prefix] followed by the counter in eight hexadecimal digits. *)
Definition message_id (prefix : cstring) (seq : Z) : cstring := prefix ++ hex_setw 8 seq.

Definition next_message_id : SM cstring :=
  s <- eget ;;
  let seq := u32 (msg_seq_ s + 1) in
  emodify (set_msg_seq seq) ;;;
  eret (message_id (msg_id_prefix_ (params_ s)) seq).

Definition session_throttle_check (e : env) : SM bool :=
  s <- eget ;;
  let '(ok, tb) := throttle_check (env_steady_ns e) (tb_ s) in
  emodify (set_tb tb) ;;;
  eret ok.

Definition can_submit (st : SessionState) : bool :=
  match st with BOUND_TX | BOUND_TRX => true | _ => false end.

Definition handle_submit_sm (e : env) (hdr : Header) (body : list byte) : SM unit :=
  s <- eget ;;
  let status := if can_submit (state_ s) then ESME_ROK else ESME_RINVBNDSTS in
  status <- (if status =? ESME_ROK then
               allowed <- session_throttle_check e ;;
               eret (if allowed : bool then status else ESME_RTHROTTLED)
             else eret status) ;;
  let sm := if status =? ESME_ROK then parse_submit_sm body else SubmitSm_init in
  msg_id <- (if status =? ESME_ROK then next_message_id else eret []) ;;
  send_response SUBMIT_SM_RESP status (sequence_number hdr) msg_id ;;;
  if decide (msg_id = []) then eret () else
  emit (CallRouteMessage (server_svc_ (params_ s)) (src_addr sm) (dst_addr sm)
          (short_message sm) msg_id).

(** Logs only. *)
Definition handle_deliver_sm_resp (hdr : Header) : SM unit := eret ().

Definition dispatch (e : env) (hdr : Header) (body : list byte) : SM unit :=
  let id := command_id hdr in
  if (id =? BIND_TRANSMITTER) || (id =? BIND_RECEIVER) || (id =? BIND_TRANSCEIVER) then
    handle_bind e hdr body
  else if id =? UNBIND then handle_unbind hdr
  else if id =? ENQUIRE_LINK then handle_enquire_link hdr
  else if id =? SUBMIT_SM then handle_submit_sm e hdr body
  else if id =? ENQUIRE_LINK_RESP then handle_enquire_link_resp hdr
  else if id =? DELIVER_SM_RESP then handle_deliver_sm_resp hdr
  else send_response GENERIC_NACK ESME_RINVCMDID (sequence_number hdr) [].

(** ** The read loop *)

Definition read_header : SM unit := emit AsyncReadHeader.

Definition read_body (e : env) (hdr : Header) : SM unit :=
  let body_len := u32 (command_length hdr - 16) in
  if body_len =? 0 then
    dispatch e hdr [] ;;;
    read_header
  else emit (AsyncReadBody hdr body_len).

(** The completion of a read: an error with its message, or the octets. *)
Definition on_header (e : env) (r : cstring + list byte) : SM unit :=
  match r with
  | inl msg => do_disconnect (str "socket closed: " ++ msg)
  | inr buf =>
      emodify (set_header_buf buf) ;;;
      s <- eget ;;
      hdr <- edefined (decode_header (header_buf_ s)) ;;
      if command_length hdr <? 16 then do_disconnect (str "invalid PDU length")
      else read_body e hdr
  end.

Definition on_body (e : env) (hdr : Header) (r : cstring + list byte) : SM unit :=
  match r with
  | inl msg => do_disconnect (str "body read: " ++ msg)
  | inr body =>
      dispatch e hdr body ;;;
      read_header
  end.

Definition start : SM unit :=
  read_header ;;;
  s <- eget ;;
  if 0 <? el_interval_sec_ (params_ s) then schedule_enquire_link else eret ().

(** ** D-Bus methods of the session *)

Definition GetSessionInfo : SM (cstring * cstring * cstring * cstring * Z) :=
  s <- eget ;;
  eret (uuid_ (params_ s), client_ip_ (params_ s), system_id_ s, state_name (state_ s),
        bind_time_ s).

Definition Disconnect (reason : cstring) : SM unit := emit (PostDisconnect reason).

Definition next_deliver_seq : SM Z :=
  s <- eget ;;
  emodify (set_deliver_seq (u32 (deliver_seq_ s + 1))) ;;;
  eret (deliver_seq_ s).

Definition can_deliver (st : SessionState) : bool :=
  match st with BOUND_RX | BOUND_TRX => true | _ => false end.

(** [DeliverSm] runs on the D-Bus thread: the check under [state_mutex_], then
    the rest, between which the other thread may run. *)
Definition deliver_check : SM unit :=
  s <- eget ;;
  if can_deliver (state_ s) then eret ()
  else ethrow (SdbusError (str "com.telecom.smpp.Error.InvalidBindState")
                          (str "session is not BOUND_RX or BOUND_TRX")).

Definition deliver_send (src_addr dst_addr short_message : cstring) : SM Z :=
  seq <- next_deliver_seq ;;
  pdu <- edefined (make_deliver_sm seq src_addr dst_addr short_message x00 x00 x00 x00) ;;
  send_pdu pdu ;;;
  eret seq.

Definition DeliverSm (src_addr dst_addr short_message : cstring) : SM Z :=
  deliver_check ;;;
  deliver_send src_addr dst_addr short_message.

(** ** Specifications *)

(** The PDUs a run writes, in order. *)
Definition writes (es : list effect) : list (list byte) :=
  omap (fun e => match e with AsyncWrite pdu => Some pdu | _ => None end) es.

(** The response an SMSC owes to a PDU: the command and status of the one PDU
    to send, or nothing for the responses of the peer. *)
Definition expected_response (e : env) (s : session) (hdr : Header) (body : list byte)
    : option (Z * Z) :=
  let id := command_id hdr in
  if bool_decide (id ∈ [BIND_TRANSMITTER; BIND_RECEIVER; BIND_TRANSCEIVER]) then
    Some (bind_resp_id id,
          if decide (state_ s = OPEN) then
            let '(sid, off) := read_cstr body 0 default_max_len in
            let '(pass, _) := read_cstr body off default_max_len in
            match @Authenticate (env_auth e) (uuid_ (params_ s)) sid pass
                                (client_ip_ (params_ s)) with
            | Some (true, _) => ESME_ROK
            | Some (false, code) => code
            | None => ESME_RINVSYSID
            end
          else ESME_RALYBND)
  else if id =? UNBIND then Some (UNBIND_RESP, ESME_ROK)
  else if id =? ENQUIRE_LINK then Some (ENQUIRE_LINK_RESP, ESME_ROK)
  else if id =? SUBMIT_SM then
    Some (SUBMIT_SM_RESP,
          if can_submit (state_ s)
          then if fst (throttle_check (env_steady_ns e) (tb_ s)) then ESME_ROK
               else ESME_RTHROTTLED
          else ESME_RINVBNDSTS)
  else if bool_decide (id ∈ [ENQUIRE_LINK_RESP; DELIVER_SM_RESP]) then None
  else Some (GENERIC_NACK, ESME_RINVCMDID).

(** The protocol state machine: the state after one PDU. *)
Definition next_state (e : env) (s : session) (hdr : Header) (body : list byte) : SessionState :=
  let id := command_id hdr in
  if bool_decide (id ∈ [BIND_TRANSMITTER; BIND_RECEIVER; BIND_TRANSCEIVER]) then
    match state_ s with
    | OPEN =>
        let '(sid, off) := read_cstr body 0 default_max_len in
        let '(pass, _) := read_cstr body off default_max_len in
        match @Authenticate (env_auth e) (uuid_ (params_ s)) sid pass
                            (client_ip_ (params_ s)) with
        | Some (true, _) =>
            if id =? BIND_TRANSMITTER then BOUND_TX
            else if id =? BIND_RECEIVER then BOUND_RX else BOUND_TRX
        | _ => UNBOUND
        end
    | st => st
    end
  else if id =? UNBIND then UNBOUND
  else state_ s.

(** The messages a run hands to the router: addresses, text, message id. *)
Definition routes (es : list effect) : list (cstring * cstring * cstring * cstring) :=
  omap (fun e => match e with
                 | CallRouteMessage _ src dst msg mid => Some (src, dst, msg, mid)
                 | _ => None
                 end) es.

(** What the constructor guarantees of the message-id prefix. *)
Definition prefix_ok (s : session) : Prop :=
  (length (msg_id_prefix_ (params_ s)) <= 8)%nat.

(** ** Lemmas: what each function does *)

Lemma send_response_run cid sts seq sid s :
  (length sid <= 255)%nat ->
  send_response cid sts seq sid s
  = (Ret (), s, [AsyncWrite (pdu_octets cid sts seq (response_body sid))]).
Proof.
  intros H. unfold send_response. rewrite make_response_octets by lia. done.
Qed.

(** The state and the effects of a disconnection. *)
Definition disconnected (s : session) : session :=
  if decide (state_ s = UNBOUND) then s else set_socket_open false (set_state UNBOUND s).

Definition disconnect_effects (reason : cstring) (s : session) : list effect :=
  if decide (state_ s = UNBOUND) then []
  else [CloseSocket; EmitSessionExited (uuid_ (params_ s)) reason].

Lemma do_disconnect_run reason s :
  do_disconnect reason s = (Ret (), disconnected s, disconnect_effects reason s).
Proof.
  unfold do_disconnect, disconnected, disconnect_effects, ebind, eget.
  by case_decide.
Qed.

Lemma message_id_length prefix seq :
  is_u32 seq -> length (message_id prefix seq) = (length prefix + 8)%nat.
Proof.
  intros H. unfold message_id. rewrite length_app, hex_setw_length; [lia| |lia].
  change (16 ^ Z.of_nat 8) with (2 ^ 32). exact H.
Qed.

Lemma handle_unbind_run hdr s :
  handle_unbind hdr s
  = (Ret (), disconnected s,
     AsyncWrite (pdu_octets UNBIND_RESP ESME_ROK (sequence_number hdr) [])
     :: disconnect_effects (str "unbind") s).
Proof.
  unfold handle_unbind. erewrite ebind_run by (apply send_response_run; simpl; lia).
  by rewrite do_disconnect_run.
Qed.

Lemma handle_enquire_link_run hdr s :
  handle_enquire_link hdr s
  = (Ret (), s, [AsyncWrite (pdu_octets ENQUIRE_LINK_RESP ESME_ROK (sequence_number hdr) [])]).
Proof. apply send_response_run. simpl. lia. Qed.

(** A bind request: already bound, refused, or accepted. *)
Lemma handle_bind_run e hdr body s :
  let resp sts sid :=
    AsyncWrite (pdu_octets (bind_resp_id (command_id hdr)) sts (sequence_number hdr) sid) in
  let sid := fst (read_cstr body 0 default_max_len) in
  let pass := fst (read_cstr body (snd (read_cstr body 0 default_max_len)) default_max_len) in
  let reply := @Authenticate (env_auth e) (uuid_ (params_ s)) sid pass
                 (client_ip_ (params_ s)) in
  let call := CallAuthenticate (auth_svc_ (params_ s)) (uuid_ (params_ s)) sid pass
                (client_ip_ (params_ s)) reply in
  let bound := bound_state (command_id hdr) (state_ s) in
  handle_bind e hdr body s
  = if decide (state_ s = OPEN) then
      match default (false, ESME_RINVSYSID) reply with
      | (true, _) =>
          (Ret (), set_bind_time (u64 (env_system_sec e)) (set_state bound (set_system_id sid s)),
           [call; resp ESME_ROK (str "smpp-server" ++ [x00]);
            CallUpdateSessionDetails (server_svc_ (params_ s)) (uuid_ (params_ s)) sid
              (state_name bound)])
      | (false, code) =>
          (Ret (), disconnected s,
           call :: resp code [] :: disconnect_effects (str "auth failed") s)
      end
    else (Ret (), s, [resp ESME_RALYBND []]).
Proof.
  cbv zeta. unfold handle_bind. erewrite ebind_run by done.
  case_decide as Hs.
  - rewrite bool_decide_eq_true_2 by done. cbn [negb].
    destruct (read_cstr body 0 default_max_len) as [sid off]. cbn [fst snd].
    destruct (read_cstr body off default_max_len) as [pass off']. cbn [fst snd].
    erewrite ebind_run by done.
    destruct (default _ _) as [[] code]; cbn [negb].
    + unfold ebind at 1 2 3. cbn [emodify].
      erewrite ebind_run by (apply send_response_run; vm_compute; lia).
      by destruct s.
    + erewrite ebind_run by (apply send_response_run; simpl; lia).
      by rewrite do_disconnect_run.
  - rewrite bool_decide_eq_false_2 by done. cbn [negb].
    by rewrite send_response_run by (simpl; lia).
Qed.

(** A [submit_sm] request: wrong state, throttled, or accepted and routed. *)
Lemma handle_submit_sm_run e hdr body s :
  prefix_ok s ->
  let resp sts sid :=
    AsyncWrite (pdu_octets SUBMIT_SM_RESP sts (sequence_number hdr) sid) in
  let '(allowed, tb) := throttle_check (env_steady_ns e) (tb_ s) in
  let seq := u32 (msg_seq_ s + 1) in
  let mid := message_id (msg_id_prefix_ (params_ s)) seq in
  let sm := parse_submit_sm body in
  handle_submit_sm e hdr body s
  = if can_submit (state_ s) then
      if allowed then
        (Ret (), set_msg_seq seq (set_tb tb s),
         [resp ESME_ROK (mid ++ [x00]);
          CallRouteMessage (server_svc_ (params_ s)) (src_addr sm) (dst_addr sm)
            (short_message sm) mid])
      else (Ret (), set_tb tb s, [resp ESME_RTHROTTLED []])
    else (Ret (), s, [resp ESME_RINVBNDSTS []]).
Proof.
  intros Hp. unfold prefix_ok in Hp. cbv zeta.
  destruct (throttle_check _ _) as [allowed tb] eqn:Et.
  unfold handle_submit_sm. erewrite ebind_run by done.
  destruct (can_submit (state_ s)).
  - change (ESME_ROK =? ESME_ROK) with true. cbv iota.
    assert (Ht : session_throttle_check e s = (Ret allowed, set_tb tb s, [])).
    { unfold session_throttle_check, ebind, eget. rewrite Et. done. }
    erewrite ebind_run by (erewrite ebind_run by exact Ht; done).
    cbv iota beta. destruct allowed.
    + change (ESME_ROK =? ESME_ROK) with true. cbv iota.
      assert (Hl := message_id_length (msg_id_prefix_ (params_ s)) _ (u32_range (msg_seq_ s + 1))).
      set (mid := message_id _ _) in *.
      assert (Hm : next_message_id (set_tb tb s)
                   = (Ret mid, set_msg_seq (u32 (msg_seq_ s + 1)) (set_tb tb s), [])).
      { by destruct s. }
      erewrite ebind_run by exact Hm.
      assert (mid <> []) by (intros Hn; rewrite Hn in Hl; simpl in Hl; lia).
      erewrite ebind_run by (apply send_response_run; lia).
      unfold response_body. rewrite !decide_False by done. done.
    + change (ESME_RTHROTTLED =? ESME_ROK) with false. cbv iota.
      erewrite ebind_run by done.
      erewrite ebind_run by (apply send_response_run; simpl; lia). done.
  - change (ESME_RINVBNDSTS =? ESME_ROK) with false. cbv iota.
    do 2 erewrite ebind_run by done.
    erewrite ebind_run by (apply send_response_run; simpl; lia). done.
Qed.

Lemma handle_enquire_link_resp_run hdr s :
  handle_enquire_link_resp hdr s
  = if (sequence_number hdr =? el_seq_ s) && el_pending_ s then
      (Ret (), set_el_pending false s,
       [CancelElTimeout; ArmElTimer (el_interval_sec_ (params_ s))])
    else (Ret (), s, []).
Proof.
  unfold handle_enquire_link_resp. erewrite ebind_run by done.
  destruct (_ && _); [|done]. by destruct s.
Qed.

Definition next_el_seq (seq : Z) : Z := if seq =? 0 then 0x10000000 else u32 (seq + 1).

Lemma on_enquire_link_timer_run ec s :
  on_enquire_link_timer ec s
  = if ec || el_pending_ s || bool_decide (state_ s = UNBOUND) then (Ret (), s, []) else
    (Ret (), set_el_pending true (set_el_seq (next_el_seq (el_seq_ s)) s),
     [AsyncWrite (pdu_octets ENQUIRE_LINK ESME_ROK (next_el_seq (el_seq_ s)) []);
      ArmElTimeout (el_timeout_sec_ (params_ s))]).
Proof.
  unfold on_enquire_link_timer. erewrite ebind_run by done.
  destruct (ec || el_pending_ s); [done|]. cbn [orb].
  destruct (decide (state_ s = UNBOUND)) as [Hs|Hs].
  - by rewrite bool_decide_eq_true_2.
  - rewrite bool_decide_eq_false_2 by done. unfold ebind at 1 2 3. cbn [emodify eget].
    erewrite ebind_run by (apply send_response_run; simpl; lia). by destruct s.
Qed.

Lemma on_enquire_link_timeout_run ec s :
  on_enquire_link_timeout ec s
  = if negb ec && el_pending_ s
    then (Ret (), disconnected s, disconnect_effects (str "enquire_link timeout") s)
    else (Ret (), s, []).
Proof.
  unfold on_enquire_link_timeout. destruct ec; [done|]. erewrite ebind_run by done.
  destruct (el_pending_ s); [|done]. cbn [negb andb]. by rewrite do_disconnect_run.
Qed.

Lemma deliver_send_run src dst msg s :
  33 + Z.of_nat (length src + length dst + length msg) < 2 ^ 32 ->
  deliver_send src dst msg s
  = (Ret (deliver_seq_ s), set_deliver_seq (u32 (deliver_seq_ s + 1)) s,
     [AsyncWrite (pdu_octets DELIVER_SM ESME_ROK (deliver_seq_ s)
                    (deliver_sm_body src dst msg x00 x00 x00 x00))]).
Proof.
  intros H. unfold deliver_send. erewrite ebind_run by done.
  by rewrite make_deliver_sm_octets by done.
Qed.

Lemma is_bind_elem id :
  (id =? BIND_TRANSMITTER) || (id =? BIND_RECEIVER) || (id =? BIND_TRANSCEIVER)
  = bool_decide (id ∈ [BIND_TRANSMITTER; BIND_RECEIVER; BIND_TRANSCEIVER]).
Proof.
  case_bool_decide as H; rewrite !elem_of_cons, elem_of_nil in H; lia.
Qed.

Lemma bind_resp_id_u32 id :
  id ∈ [BIND_TRANSMITTER; BIND_RECEIVER; BIND_TRANSCEIVER] -> is_u32 (bind_resp_id id).
Proof. rewrite !elem_of_cons, elem_of_nil. by intros [->|[->|[->|[]]]]. Qed.

(** A response whose header fields are 32-bit integers and whose body is
    short decodes to them. *)
Lemma decode_short_pdu cid sts seq body :
  is_u32 cid -> is_u32 sts -> is_u32 seq -> (length body <= 300)%nat ->
  decode_header (pdu_octets cid sts seq body)
  = Some {| command_length := Z.of_nat (length (pdu_octets cid sts seq body));
            command_id := cid; command_status := sts; sequence_number := seq |}.
Proof.
  intros. rewrite decode_pdu_octets, length_pdu_octets by (done || lia). do 2 f_equal. lia.
Qed.

Lemma writes_disconnect reason s : writes (disconnect_effects reason s) = [].
Proof. unfold disconnect_effects. by case_decide. Qed.

(** The reply to one PDU, on the header fields. *)
Definition replies (hdr : Header) (r : option (Z * Z)) (es : list effect) : Prop :=
  match r with
  | None => writes es = []
  | Some (rid, sts) =>
      exists pdu, writes es = [pdu] /\
        decode_header pdu = Some {| command_length := Z.of_nat (length pdu); command_id := rid;
                                    command_status := sts;
                                    sequence_number := sequence_number hdr |}
  end.

Lemma replies_one hdr cid sts body es :
  writes es = [pdu_octets cid sts (sequence_number hdr) body] ->
  is_u32 cid -> is_u32 sts -> is_u32 (sequence_number hdr) -> (length body <= 300)%nat ->
  replies hdr (Some (cid, sts)) es.
Proof. intros. eexists. split; [done|]. by apply decode_short_pdu. Qed.

Lemma handle_bind_replies e hdr body s :
  command_id hdr ∈ [BIND_TRANSMITTER; BIND_RECEIVER; BIND_TRANSCEIVER] ->
  is_u32 (sequence_number hdr) ->
  exists s' es, handle_bind e hdr body s = (Ret (), s', es) /\
    replies hdr (expected_response e s hdr body) es.
Proof.
  intros Hid Hq. pose proof (handle_bind_run e hdr body s) as R. cbv zeta in R. rewrite R. clear R.
  unfold expected_response. rewrite bool_decide_eq_true_2 by done.
  pose proof (bind_resp_id_u32 _ Hid).
  case_decide.
  - destruct (read_cstr body 0 default_max_len) as [sid off]. cbn [fst snd].
    destruct (read_cstr body off default_max_len) as [pass off']. cbn [fst snd].
    destruct (Authenticate _ _ _ _) as [[[] code]|] eqn:Ea; cbn [default from_option id].
    + do 2 eexists. split; [done|].
      by apply (replies_one _ _ _ (str "smpp-server" ++ [x00])); [..|vm_compute; lia].
    + pose proof (Authenticate_u32 _ _ _ _ _ _ Ea). do 2 eexists. split; [done|].
      apply (replies_one _ _ _ []); [|done..|simpl; lia]. cbn. by rewrite writes_disconnect.
    + do 2 eexists. split; [done|].
      apply (replies_one _ _ _ []); [|done..|simpl; lia]. cbn. by rewrite writes_disconnect.
  - do 2 eexists. split; [done|]. by apply (replies_one _ _ _ []); [..|simpl; lia].
Qed.

Lemma handle_submit_sm_replies e hdr body s :
  prefix_ok s -> command_id hdr = SUBMIT_SM -> is_u32 (sequence_number hdr) ->
  exists s' es, handle_submit_sm e hdr body s = (Ret (), s', es) /\
    replies hdr (expected_response e s hdr body) es.
Proof.
  intros Hp Hid Hq. pose proof (handle_submit_sm_run e hdr body s Hp) as R. cbv zeta in R.
  unfold expected_response. rewrite Hid.
  destruct (throttle_check _ _) as [allowed tb]. rewrite R. clear R.
  rewrite bool_decide_eq_false_2 by (apply (bool_decide_unpack _); by vm_compute).
  cbn [Z.eqb SUBMIT_SM UNBIND ENQUIRE_LINK Pos.eqb fst].
  pose proof (message_id_length (msg_id_prefix_ (params_ s)) _ (u32_range (msg_seq_ s + 1))) as Hl.
  unfold prefix_ok in Hp.
  destruct (can_submit (state_ s)); [destruct allowed|]; do 2 eexists; (split; [done|]).
  - eapply replies_one; [done..|]. rewrite length_app. simpl. lia.
  - by apply (replies_one _ _ _ []); [..|simpl; lia].
  - by apply (replies_one _ _ _ []); [..|simpl; lia].
Qed.

(** One reply to one PDU. *)
Lemma dispatch_replies e hdr body s :
  is_u32 (sequence_number hdr) -> prefix_ok s ->
  exists s' es, dispatch e hdr body s = (Ret (), s', es) /\
    replies hdr (expected_response e s hdr body) es.
Proof.
  intros Hq Hp. unfold dispatch. rewrite is_bind_elem. case_bool_decide as Hb.
  { by apply handle_bind_replies. }
  unfold expected_response. rewrite bool_decide_eq_false_2 by done.
  destruct (Z.eqb_spec (command_id hdr) UNBIND) as [Hu|Hu].
  { do 2 eexists. split; [apply handle_unbind_run|].
    apply (replies_one _ _ _ []); [|done..|simpl; lia]. cbn. by rewrite writes_disconnect. }
  destruct (Z.eqb_spec (command_id hdr) ENQUIRE_LINK) as [He|He].
  { do 2 eexists. split; [apply handle_enquire_link_run|].
    by apply (replies_one _ _ _ []); [..|simpl; lia]. }
  destruct (Z.eqb_spec (command_id hdr) SUBMIT_SM) as [Hs|Hs].
  { destruct (handle_submit_sm_replies e hdr body s Hp Hs Hq) as (s' & es & ? & Hr).
    do 2 eexists. split; [done|]. unfold expected_response in Hr.
    rewrite bool_decide_eq_false_2 in Hr by done. rewrite !Hs in Hr. exact Hr. }
  destruct (Z.eqb_spec (command_id hdr) ENQUIRE_LINK_RESP) as [Hr|Hr].
  { rewrite handle_enquire_link_resp_run.
    rewrite bool_decide_eq_true_2 by (rewrite Hr; set_solver).
    destruct (_ && _); do 2 eexists; done. }
  destruct (Z.eqb_spec (command_id hdr) DELIVER_SM_RESP) as [Hd|Hd].
  { rewrite bool_decide_eq_true_2 by (rewrite Hd; set_solver). do 2 eexists; done. }
  rewrite bool_decide_eq_false_2 by set_solver.
  do 2 eexists. split; [apply send_response_run; simpl; lia|].
  by apply (replies_one _ _ _ []); [..|simpl; lia].
Qed.

(** Credentials of one ESME, for the examples. *)
Definition example_auth : IAuth.
Proof.
  refine {| Authenticate := fun _ sid pass _ =>
              if bool_decide (sid = str "esme1" /\ pass = str "pass1")
              then Some (true, ESME_ROK) else Some (false, ESME_RINVPASWD) |}.
  intros uuid sid pass ip ok code. by case_bool_decide; intros [= <- <-].
Defined.

Definition example_env : env :=
  {| env_auth := example_auth; env_system_sec := 1700000000; env_steady_ns := 0 |}.

Definition example_session : session :=
  session_init (str "0195f3a7b2c1-a3f8d901c4b72e5d") (str "127.0.0.1")
    (str "com.telecom.smpp.Server") (str "com.telecom.smpp.Auth") 60 10 0 0.

Definition example_bind_hdr : Header :=
  {| command_length := 28; command_id := BIND_TRANSCEIVER; command_status := 0;
     sequence_number := 7 |}.

Definition example_bind_body : list byte := str "esme1" ++ [x00] ++ str "pass1" ++ [x00].

Lemma on_body_run e hdr body s s' es :
  dispatch e hdr body s = (Ret (), s', es) ->
  on_body e hdr (inr body) s = (Ret (), s', es ++ [AsyncReadHeader]).
Proof. intros H. cbn [on_body]. by erewrite ebind_run by exact H. Qed.



Lemma state_disconnected s : state_ (disconnected s) = UNBOUND.
Proof. unfold disconnected. case_decide; [done|]. by destruct s. Qed.

Lemma routes_disconnect reason s : routes (disconnect_effects reason s) = [].
Proof. unfold disconnect_effects. by case_decide. Qed.

(** The bind handler, as far as state and routing go. *)
Lemma handle_bind_state e hdr body s :
  command_id hdr ∈ [BIND_TRANSMITTER; BIND_RECEIVER; BIND_TRANSCEIVER] ->
  state_ (run_state (handle_bind e hdr body s)) = next_state e s hdr body /\
  routes (run_effects (handle_bind e hdr body s)) = [].
Proof.
  intros Hid. pose proof (handle_bind_run e hdr body s) as R. cbv zeta in R. rewrite R. clear R.
  unfold next_state. rewrite bool_decide_eq_true_2 by done. case_decide as Hs.
  - rewrite Hs. destruct (read_cstr body 0 default_max_len) as [sid off]. cbn [fst snd].
    destruct (read_cstr body off default_max_len) as [pass off']. cbn [fst snd].
    destruct (Authenticate _ _ _ _) as [[[] code]|]; cbn [default from_option id run_state
      run_effects fst snd].
    + split; [|done]. rewrite !elem_of_cons, elem_of_nil in Hid.
      unfold bound_state. destruct s. cbn.
      by destruct Hid as [-> | [-> | [-> | []]]].
    + by rewrite state_disconnected; cbn; rewrite routes_disconnect.
    + by rewrite state_disconnected; cbn; rewrite routes_disconnect.
  - split; [|done]. cbn. by destruct (state_ s).
Qed.

(** The state after one PDU. *)
Lemma dispatch_next_state e hdr body s :
  prefix_ok s ->
  state_ (run_state (dispatch e hdr body s)) = next_state e s hdr body.
Proof.
  intros Hp. unfold dispatch. rewrite is_bind_elem. case_bool_decide as Hb.
  { by apply handle_bind_state. }
  unfold next_state. rewrite bool_decide_eq_false_2 by done.
  destruct (Z.eqb_spec (command_id hdr) UNBIND) as [Hu|Hu].
  { rewrite handle_unbind_run. apply state_disconnected. }
  destruct (_ =? ENQUIRE_LINK); [by rewrite handle_enquire_link_run|].
  destruct (_ =? SUBMIT_SM).
  { pose proof (handle_submit_sm_run e hdr body s Hp) as R. cbv zeta in R.
    destruct (throttle_check _ _) as [allowed tb]. rewrite R.
    by destruct (can_submit (state_ s)); [destruct allowed|]; destruct s. }
  destruct (_ =? ENQUIRE_LINK_RESP).
  { rewrite handle_enquire_link_resp_run. by case_match; destruct s. }
  destruct (_ =? DELIVER_SM_RESP); [done|]. by rewrite send_response_run by (simpl; lia).
Qed.

(** C12: The protocol state machine: once the body of a PDU has been handled the
    session is in the state that [next_state] gives.  OPEN leaves only by a bind
    request, to the state the command asks for when the authentication service
    accepts and to UNBOUND otherwise; UNBIND always ends in UNBOUND; no other PDU
    changes the state. *)
Theorem on_body_state e hdr body s :
  prefix_ok s ->
  state_ (run_state (on_body e hdr (inr body) s)) = next_state e s hdr body.
Proof.
  intros Hp. rewrite <- (dispatch_next_state e hdr body s Hp). cbn [on_body].
  unfold ebind, read_header, emit. by destruct (dispatch e hdr body s) as [[[| |] ?] ?].
Qed.

Lemma on_body_state_witness :
  state_ (run_state (on_body example_env example_bind_hdr (inr example_bind_body)
                       example_session)) = BOUND_TRX.
Proof.
  apply (on_body_state example_env example_bind_hdr example_bind_body example_session).
  vm_compute. lia.
Defined.

(** C14: A message reaches the router exactly when it is submitted by a session
    bound as transmitter or transceiver within its rate; it carries the parsed
    addresses and text, under the next message id. *)
Theorem dispatch_routes e hdr body s :
  prefix_ok s ->
  routes (run_effects (dispatch e hdr body s))
  = if (command_id hdr =? SUBMIT_SM) && can_submit (state_ s)
       && fst (throttle_check (env_steady_ns e) (tb_ s))
    then let sm := parse_submit_sm body in
         [(src_addr sm, dst_addr sm, short_message sm,
           msg_id_prefix_ (params_ s) ++ hex_setw 8 (u32 (msg_seq_ s + 1)))]
    else [].
Proof.
  intros Hp. unfold dispatch. rewrite is_bind_elem. case_bool_decide as Hb.
  { destruct (handle_bind_state e hdr body s Hb) as [_ ->].
    rewrite !elem_of_cons, elem_of_nil in Hb.
    by destruct Hb as [-> | [-> | [-> | []]]]. }
  destruct (Z.eqb_spec (command_id hdr) UNBIND) as [Hu|Hu].
  { rewrite handle_unbind_run, Hu. cbn. apply routes_disconnect. }
  destruct (Z.eqb_spec (command_id hdr) ENQUIRE_LINK) as [He|He].
  { by rewrite handle_enquire_link_run, He. }
  destruct (Z.eqb_spec (command_id hdr) SUBMIT_SM) as [Hs|Hs].
  { pose proof (handle_submit_sm_run e hdr body s Hp) as R. cbv zeta in R.
    destruct (throttle_check _ _) as [allowed tb]. rewrite R. cbn [fst andb].
    by destruct (can_submit (state_ s)); [destruct allowed|]. }
  cbn [andb]. destruct (_ =? ENQUIRE_LINK_RESP).
  { rewrite handle_enquire_link_resp_run. by case_match. }
  destruct (_ =? DELIVER_SM_RESP); [done|]. by rewrite send_response_run by (simpl; lia).
Qed.

Definition example_submit_hdr : Header :=
  {| command_length := 100; command_id := SUBMIT_SM; command_status := 0;
     sequence_number := 8 |}.

Lemma dispatch_routes_witness :
  let s := run_state (dispatch example_env example_bind_hdr example_bind_body example_session) in
  let body := deliver_sm_body (str "441234") (str "esme2") (str "Hello") x00 x00 x00 x00 in
  routes (run_effects (dispatch example_env example_submit_hdr body s))
  = [(str "441234", str "esme2", str "Hello", str "0195f3a700000001")].
Proof.
  intros s body. pose proof (dispatch_routes example_env example_submit_hdr body s) as H.
  rewrite H by (vm_compute; lia). by vm_compute.
Defined.
