(* ===== verification/SessionSystem.v ===== *)
(** * SessionSystem: a session under its event loop and its D-Bus thread

    The handler process runs [io_ctx.run()] on one thread and the D-Bus event
    loop on another.  A configuration holds the session, the operations it has
    outstanding with asio and the [DeliverSm] calls in flight on the D-Bus
    thread; an event completes one of them, and the corresponding member
    function of [Session] runs.  The theorems are invariants of every reachable
    configuration, whatever the peer, the services and the clocks do. *)

From S2P Require Import Prelude Pdu Throttle Session.
#[local] Open Scope Z_scope.

(** ** Configurations *)

Inductive read_op := RdHeader | RdBody (hdr : Header) (len : Z).

(** What is outstanding outside the object.  A wait on a timer is live until it
    is cancelled; [expires_after] and [cancel] cancel the waits on their timer.
    A cancelled wait still completes. *)
Record world := {
  w_reads : list read_op;
  w_el : list bool;         (* waits on el_timer_: live or cancelled *)
  w_to : list bool;         (* waits on el_timeout_timer_ *)
  w_posted : list cstring;  (* posted calls of do_disconnect *)
  w_trace : list effect     (* all effects so far *)
}.

Definition world_init : world :=
  {| w_reads := []; w_el := []; w_to := []; w_posted := []; w_trace := [] |}.

Definition cancel_all (ws : list bool) : list bool := (fun _ => false) <$> ws.

(** The meaning of one effect. *)
Definition interp (e : effect) (w : world) : world :=
  let '(Build_world rs el to ps tr) := w in
  let tr := tr ++ [e] in
  match e with
  | AsyncReadHeader => Build_world (rs ++ [RdHeader]) el to ps tr
  | AsyncReadBody hdr len => Build_world (rs ++ [RdBody hdr len]) el to ps tr
  | ArmElTimer _ => Build_world rs (cancel_all el ++ [true]) to ps tr
  | ArmElTimeout _ => Build_world rs el (cancel_all to ++ [true]) ps tr
  | CancelElTimeout => Build_world rs el (cancel_all to) ps tr
  | PostDisconnect reason => Build_world rs el to (ps ++ [reason]) tr
  | _ => Build_world rs el to ps tr
  end.

Record config := {
  c_sess : session;
  c_world : world;
  c_inflight : list (cstring * cstring * cstring);
  c_crashed : bool   (* an activation ended in an exception or undefined behaviour *)
}.

(** Runs a member function in a configuration. *)
Definition exec {A} (m : SM A) (inflight : list (cstring * cstring * cstring))
    (s : session) (w : world) : config :=
  let '(r, s', es) := m s in
  {| c_sess := s'; c_world := interp_all interp es w; c_inflight := inflight;
     c_crashed := match r with Ret _ => false | _ => true end |}.

(** ** Events *)

Inductive event :=
| EvHeader (r : cstring + list byte)    (* the read of a header completes *)
| EvBody (r : cstring + list byte)      (* the read of a body completes *)
| EvElTimer (i : nat) (ec : bool)       (* the i-th wait on el_timer_ completes *)
| EvElTimeout (i : nat) (ec : bool)     (* the i-th wait on el_timeout_timer_ completes *)
| EvPosted                              (* the oldest posted call runs *)
| EvDisconnect (reason : cstring)       (* D-Bus thread: Disconnect *)
| EvGetSessionInfo                      (* D-Bus thread: GetSessionInfo *)
| EvDeliverCheck (src dst msg : cstring)(* D-Bus thread: DeliverSm, the check *)
| EvDeliverSend (i : nat).              (* D-Bus thread: DeliverSm, the rest *)

Definition set_reads rs w := {| w_reads := rs; w_el := w_el w; w_to := w_to w;
  w_posted := w_posted w; w_trace := w_trace w |}.
Definition set_el ws w := {| w_reads := w_reads w; w_el := ws; w_to := w_to w;
  w_posted := w_posted w; w_trace := w_trace w |}.
Definition set_to ws w := {| w_reads := w_reads w; w_el := w_el w; w_to := ws;
  w_posted := w_posted w; w_trace := w_trace w |}.
Definition set_posted ps w := {| w_reads := w_reads w; w_el := w_el w; w_to := w_to w;
  w_posted := ps; w_trace := w_trace w |}.

(** A read completes with an error or with all the octets asked for. *)
Definition read_result_ok (n : Z) (r : cstring + list byte) : bool :=
  match r with inl _ => true | inr buf => bool_decide (Z.of_nat (length buf) = n) end.

(** A D-Bus message holds at most 128 MiB. *)
Definition dbus_max : Z := 2 ^ 27.

(** The configuration after an event, [None] when the event cannot happen.  A
    live wait completes without error; a cancelled one may complete either way,
    because its completion may already be queued when it is cancelled. *)
Definition activate (e : env) (ev : event) (c : config) : option config :=
  let s := c_sess c in
  let w := c_world c in
  let fl := c_inflight c in
  match ev with
  | EvHeader r =>
      match w_reads w with
      | RdHeader :: rs =>
          if read_result_ok 16 r then Some (exec (on_header e r) fl s (set_reads rs w)) else None
      | _ => None
      end
  | EvBody r =>
      match w_reads w with
      | RdBody hdr len :: rs =>
          if read_result_ok len r then Some (exec (on_body e hdr r) fl s (set_reads rs w)) else None
      | _ => None
      end
  | EvElTimer i ec =>
      live ← w_el w !! i;
      if live && ec then None
      else Some (exec (on_enquire_link_timer ec) fl s (set_el (delete i (w_el w)) w))
  | EvElTimeout i ec =>
      live ← w_to w !! i;
      if live && ec then None
      else Some (exec (on_enquire_link_timeout ec) fl s (set_to (delete i (w_to w)) w))
  | EvPosted =>
      match w_posted w with
      | reason :: ps => Some (exec (do_disconnect reason) fl s (set_posted ps w))
      | [] => None
      end
  | EvDisconnect reason => Some (exec (Disconnect reason) fl s w)
  | EvGetSessionInfo => Some (exec GetSessionInfo fl s w)
  | EvDeliverCheck src dst msg =>
      if bool_decide (Z.of_nat (length src + length dst + length msg) < dbus_max) then
        match deliver_check s with
        | (Ret _, _, _) => Some (exec (eret ()) (fl ++ [(src, dst, msg)]) s w)
        | _ => Some c   (* the exception goes to the caller *)
        end
      else None
  | EvDeliverSend i =>
      '(src, dst, msg) ← fl !! i;
      Some (exec (deliver_send src dst msg) (delete i fl) s w)
  end.

Definition step (c : config) (l : env * event) (c' : config) : Prop :=
  activate (fst l) (snd l) c = Some c'.

(** The configurations after the constructor and [start]. *)
Definition started (s : session) : config := exec start [] s world_init.

Definition init (c : config) : Prop :=
  exists uuid client_ip server_svc auth_svc interval timeout max_submit now,
    0 <= interval < 2 ^ 32 /\ 0 <= timeout < 2 ^ 32 /\ is_u32 max_submit /\
    c = started (session_init uuid client_ip server_svc auth_svc interval timeout max_submit now).

(** ** Observations of a trace *)

(** Reasons of the [SessionExited] signals emitted. *)
Definition exits (es : list effect) : list cstring :=
  omap (fun e => match e with EmitSessionExited _ reason => Some reason | _ => None end) es.

Definition route_ids (es : list effect) : list cstring := snd <$> routes es.

(** Sequence numbers of the [deliver_sm] PDUs written. *)
Definition deliver_seqs (es : list effect) : list Z :=
  omap (fun e => match e with
                 | AsyncWrite pdu =>
                     hdr ← decode_header pdu;
                     if command_id hdr =? DELIVER_SM then Some (sequence_number hdr) else None
                 | _ => None
                 end) es.

(** The session details reported to the server: uuid, system id, state. *)
Definition updates (es : list effect) : list (cstring * cstring * cstring) :=
  omap (fun e => match e with
                 | CallUpdateSessionDetails _ uuid sid st => Some (uuid, sid, st)
                 | _ => None
                 end) es.

Definition is_bound (st : SessionState) : Prop := st <> OPEN /\ st <> UNBOUND.

(** ** The invariants *)

(** What the session's members say about the past. *)
Record core (s : session) (w : world) : Prop := {
  core_prefix : prefix_ok s;
  core_socket : socket_open_ s = negb (bool_decide (state_ s = UNBOUND));
  core_exit : length (exits (w_trace w)) = if decide (state_ s = UNBOUND) then 1%nat else 0%nat;
  core_auth : is_bound (state_ s) -> exists svc pass code,
    CallAuthenticate svc (uuid_ (params_ s)) (system_id_ s) pass (client_ip_ (params_ s))
      (Some (true, code)) ∈ w_trace w;
  core_ids : route_ids (w_trace w)
    = (fun k => message_id (msg_id_prefix_ (params_ s)) (u32 (Z.of_nat k)))
      <$> seq 1 (length (route_ids (w_trace w)));
  core_msg_seq : msg_seq_ s = u32 (Z.of_nat (length (route_ids (w_trace w))));
  core_seqs : deliver_seqs (w_trace w)
    = (fun k => u32 (0x20000000 + Z.of_nat k)) <$> seq 0 (length (deliver_seqs (w_trace w)));
  core_deliver_seq :
    deliver_seq_ s = u32 (0x20000000 + Z.of_nat (length (deliver_seqs (w_trace w))));
  core_updates : forall uuid sid st, (uuid, sid, st) ∈ updates (w_trace w) ->
    uuid = uuid_ (params_ s) /\ sid = system_id_ s /\
    (exists b, st = state_name b /\ is_bound b /\ (state_ s = b \/ state_ s = UNBOUND)) /\
    exists svc pass code,
      CallAuthenticate svc (uuid_ (params_ s)) (system_id_ s) pass (client_ip_ (params_ s))
        (Some (true, code)) ∈ w_trace w
}.

(** The keepalive is armed: a live wait for the next [enquire_link], or for
    the answer to the one that is pending. *)
Definition keep (s : session) (w : world) : Prop :=
  0 < el_interval_sec_ (params_ s) -> state_ s <> UNBOUND ->
  if el_pending_ s then true ∈ w_to w else true ∈ w_el w.

(** At most one read is outstanding, and one is unless the session is over. *)
Definition reads_ok (s : session) (w : world) : Prop :=
  (length (w_reads w) <= 1)%nat /\ (state_ s <> UNBOUND -> w_reads w <> []).

Definition good (rs : list read_op) (s : session) (w : world) : Prop :=
  core s w /\ keep s w /\ w_reads w = rs.

(** ** Effects that the invariants do not see *)

Definition quiet (e : effect) : Prop :=
  match e with
  | AsyncWrite pdu => deliver_seqs [AsyncWrite pdu] = []
  | CallAuthenticate _ _ _ _ _ _ | CloseSocket => True
  | _ => False
  end.

Lemma w_trace_interp e w : w_trace (interp e w) = w_trace w ++ [e].
Proof. by destruct w, e. Qed.

Lemma exits_snoc es e : exits (es ++ [e]) = exits es ++ exits [e].
Proof. apply omap_app. Qed.
Lemma route_ids_snoc es e : route_ids (es ++ [e]) = route_ids es ++ route_ids [e].
Proof. unfold route_ids, routes. by rewrite omap_app, fmap_app. Qed.
Lemma deliver_seqs_snoc es e : deliver_seqs (es ++ [e]) = deliver_seqs es ++ deliver_seqs [e].
Proof. apply omap_app. Qed.

Lemma updates_snoc es e : updates (es ++ [e]) = updates es ++ updates [e].
Proof. apply omap_app. Qed.

Lemma u32_succ n : u32 (u32 n + 1) = u32 (n + 1).
Proof. unfold u32. by rewrite Zplus_mod_idemp_l. Qed.

Lemma seq_snoc (k n : nat) : seq k (n + 1) = seq k n ++ [(k + n)%nat].
Proof. by rewrite seq_app. Qed.

(** One more effect: no exit, and each counter either stands still or gives
    its value to the effect and advances. *)
Lemma core_emit s s' w e :
  core s w ->
  params_ s' = params_ s -> socket_open_ s' = socket_open_ s -> state_ s' = state_ s ->
  system_id_ s' = system_id_ s -> exits [e] = [] -> updates [e] = [] ->
  (route_ids [e] = [] /\ msg_seq_ s' = msg_seq_ s \/
   route_ids [e] = [message_id (msg_id_prefix_ (params_ s)) (u32 (msg_seq_ s + 1))] /\
   msg_seq_ s' = u32 (msg_seq_ s + 1)) ->
  (deliver_seqs [e] = [] /\ deliver_seq_ s' = deliver_seq_ s \/
   deliver_seqs [e] = [deliver_seq_ s] /\ deliver_seq_ s' = u32 (deliver_seq_ s + 1)) ->
  core s' (interp e w).
Proof.
  intros [Hp Hso Hx Ha Hi Hm Hs Hq Hup] Ep Eso Est Esid He Hue Hr Hd.
  constructor; rewrite ?w_trace_interp, ?exits_snoc, ?route_ids_snoc, ?deliver_seqs_snoc,
    ?updates_snoc, ?Ep, ?Eso, ?Est, ?Esid, ?He, ?Hue, ?app_nil_r; try done.
  - unfold prefix_ok. by rewrite Ep.
  - intros Hb. destruct (Ha Hb) as (svc & pass & code & Hin).
    exists svc, pass, code. set_solver.
  - destruct Hr as [[-> _]|[-> _]]; [by rewrite app_nil_r|].
    rewrite length_app. cbn [length]. rewrite seq_snoc, fmap_app, <- Hi, Hm, u32_succ.
    cbn. do 4 f_equal. lia.
  - destruct Hr as [[-> ->]|[-> ->]]; [by rewrite app_nil_r|].
    rewrite length_app, Hm, u32_succ. cbn [length]. f_equal. lia.
  - destruct Hd as [[-> _]|[-> _]]; [by rewrite app_nil_r|].
    rewrite length_app. cbn [length]. rewrite seq_snoc, fmap_app, <- Hs, Hq. done.
  - destruct Hd as [[-> ->]|[-> ->]]; [by rewrite app_nil_r|].
    rewrite length_app, Hq, u32_succ. cbn [length]. f_equal. lia.
  - intros uuid sid st Hin. destruct (Hup _ _ _ Hin) as (-> & -> & Hs' & sv & pass & code & Ha').
    split_and!; [done..|]. exists sv, pass, code. set_solver.
Qed.

(** An effect that changes no observation of the trace keeps [core]. *)
Lemma core_silent s w e :
  exits [e] = [] -> route_ids [e] = [] -> deliver_seqs [e] = [] -> updates [e] = [] ->
  core s w -> core s (interp e w).
Proof. intros. by apply (core_emit s); auto. Qed.

Lemma good_quiet rs s w e : quiet e -> good rs s w -> good rs s (interp e w).
Proof.
  intros Hq (Hc & Hk & Hr). split_and!.
  - by apply core_silent; destruct e.
  - intros ? ?. specialize (Hk ltac:(done) ltac:(done)). by destruct e, w.
  - by destruct e, w.
Qed.

(** Every PDU but [deliver_sm] is quiet. *)
Lemma quiet_pdu cid sts seq body : u32 cid <> DELIVER_SM -> quiet (AsyncWrite (pdu_octets cid sts seq body)).
Proof.
  intros H. unfold quiet, deliver_seqs. cbn [omap list_omap]. unfold pdu_octets.
  rewrite decode_header_octets. cbn [mbind option_bind command_id].
  by rewrite (proj2 (Z.eqb_neq _ _)).
Qed.

(** ** The transitions of the invariant *)

Lemma core_disconnect reason s w :
  core s w -> core (disconnected s) (interp_all interp (disconnect_effects reason s) w).
Proof.
  intros Hc. unfold disconnected, disconnect_effects.
  case_decide as Hu; [done|]. destruct Hc as [? ? Hx Ha Hi Hm Hs Hq Hup].
  rewrite decide_False in Hx by done. destruct s, w; simpl in *.
  constructor; simpl; rewrite <- ?app_assoc; simpl; try done.
  - unfold exits in *. rewrite omap_app. cbn. rewrite length_app, Hx. done.
  - by intros [_ []].
  - unfold route_ids, routes in *. rewrite omap_app, fmap_app, app_nil_r. done.
  - unfold route_ids, routes in *. rewrite omap_app, fmap_app, app_nil_r. done.
  - unfold deliver_seqs in *. rewrite omap_app, app_nil_r. done.
  - unfold deliver_seqs in *. rewrite omap_app, app_nil_r. done.
  - unfold updates in *. rewrite omap_app, app_nil_r. intros uuid sid st Hin.
    destruct (Hup _ _ _ Hin) as (-> & -> & (b & -> & Hb & _) & sv & pass & code & Ha').
    split_and!; [done..|by eauto|]. exists sv, pass, code. set_solver.
Qed.

Lemma reads_disconnect reason s w :
  w_reads (interp_all interp (disconnect_effects reason s) w) = w_reads w.
Proof. unfold disconnect_effects. by case_decide; destruct w. Qed.

Lemma keep_disconnected s w : keep (disconnected s) w.
Proof. intros _. by rewrite state_disconnected. Qed.

Lemma good_disconnect rs reason s w :
  core s w -> w_reads w = rs ->
  good rs (disconnected s) (interp_all interp (disconnect_effects reason s) w).
Proof.
  intros Hc Hr. split_and!; [by apply core_disconnect|apply keep_disconnected|].
  by rewrite reads_disconnect.
Qed.

Lemma disconnect_good rs reason s w :
  good rs s w -> good rs (disconnected s) (interp_all interp (disconnect_effects reason s) w).
Proof. intros (Hc & _ & Hr). by apply good_disconnect. Qed.

Lemma good_bound rs s w svc sid pass code st t :
  good rs s w -> state_ s = OPEN -> is_bound st ->
  CallAuthenticate svc (uuid_ (params_ s)) sid pass (client_ip_ (params_ s)) (Some (true, code))
    ∈ w_trace w ->
  good rs (set_bind_time t (set_state st (set_system_id sid s))) w.
Proof.
  intros (Hc & Hk & Hr) Hs [Hb1 Hb2] Hin. destruct Hc as [? Hso Hx Ha Hi Hm Hq1 Hq2 Hup].
  destruct s; simpl in *. subst. split_and!; [|by intros ? ?; apply Hk|done].
  constructor; simpl; try done; [..|].
  - rewrite bool_decide_eq_false_2 in * by done. done.
  - by rewrite decide_False in * by done.
  - eauto.
  - intros uuid sid' st' Hu. destruct (Hup _ _ _ Hu) as (_ & _ & (b & _ & [Hb _] & [?|?]) & _); done.
Qed.

(** The details of a bound session are reported to the server. *)
Lemma good_update rs s w svc :
  good rs s w -> is_bound (state_ s) ->
  good rs s (interp (CallUpdateSessionDetails svc (uuid_ (params_ s)) (system_id_ s)
                       (state_name (state_ s))) w).
Proof.
  intros (Hc & Hk & Hr) Hb. split_and!; [|by destruct w|by destruct w].
  destruct Hc as [? ? Hx Ha Hi Hm Hs Hq Hup].
  constructor; rewrite ?w_trace_interp, ?exits_snoc, ?route_ids_snoc, ?deliver_seqs_snoc,
    ?updates_snoc, ?app_nil_r; try done.
  - intros Hb'. destruct (Ha Hb') as (sv & pass & code & Hin). exists sv, pass, code. set_solver.
  - intros uuid sid st [Hin|Hin]%elem_of_app.
    + destruct (Hup _ _ _ Hin) as (-> & -> & Hs' & sv & pass & code & Ha').
      split_and!; [done..|]. exists sv, pass, code. set_solver.
    + apply list_elem_of_singleton in Hin as [= -> -> ->].
      destruct (Ha Hb) as (sv & pass & code & Ha').
      split_and!; [done..|by eauto|]. exists sv, pass, code. set_solver.
Qed.

Lemma good_set_tb rs s w tb : good rs s w -> good rs (set_tb tb s) w.
Proof. by destruct s; intros ([] & ? & ?); split_and!. Qed.

(** A message routed under the next message id. *)
Lemma good_route rs s w svc src dst msg :
  let seq := u32 (msg_seq_ s + 1) in
  good rs s w ->
  good rs (set_msg_seq seq s)
    (interp (CallRouteMessage svc src dst msg (message_id (msg_id_prefix_ (params_ s)) seq)) w).
Proof.
  intros seq (Hc & Hk & Hr). split_and!; [|by destruct s, w|by destruct w].
  apply (core_emit s); try done; try by destruct s.
  - right. by destruct s.
  - left. by destruct s.
Qed.

Lemma deliver_seqs_deliver seq body :
  is_u32 seq -> deliver_seqs [AsyncWrite (pdu_octets DELIVER_SM ESME_ROK seq body)] = [seq].
Proof.
  intros H. unfold deliver_seqs. cbn [omap list_omap]. unfold pdu_octets.
  rewrite decode_header_octets. cbn [mbind option_bind command_id sequence_number].
  by rewrite (u32_small seq).
Qed.

(** A [deliver_sm] written under the next sequence number. *)
Lemma good_deliver rs s w body :
  good rs s w ->
  good rs (set_deliver_seq (u32 (deliver_seq_ s + 1)) s)
    (interp (AsyncWrite (pdu_octets DELIVER_SM ESME_ROK (deliver_seq_ s) body)) w).
Proof.
  intros (Hc & Hk & Hr). split_and!; [|by destruct s, w|by destruct w].
  apply (core_emit s); try done; try by destruct s.
  - left. by destruct s.
  - right. split; [|by destruct s]. apply deliver_seqs_deliver.
    rewrite (core_deliver_seq _ _ Hc). apply u32_range.
Qed.

(** The answer to the pending [enquire_link]: the next one is scheduled. *)
Lemma good_el_answer rs s w sec :
  good rs s w ->
  good rs (set_el_pending false s) (interp (ArmElTimer sec) (interp CancelElTimeout w)).
Proof.
  intros (Hc & Hk & Hr). split_and!.
  - do 2 (apply core_silent; [done..|]). by destruct s, Hc.
  - intros _ _. destruct s, w. cbn. set_solver.
  - by destruct w.
Qed.

(** ** The member functions keep the invariants *)

Abbreviation keeps rs m := (triple interp (good rs) m (fun _ => good rs)).

Ltac by_quiet := repeat (apply good_quiet; [first [done | by apply quiet_pdu]|]).

Lemma handle_bind_good rs e hdr body :
  command_id hdr ∈ [BIND_TRANSMITTER; BIND_RECEIVER; BIND_TRANSCEIVER] ->
  keeps rs (handle_bind e hdr body).
Proof.
  intros Hid s w Hg. pose proof (handle_bind_run e hdr body s) as R. cbv zeta in R. rewrite R. clear R.
  assert (Hq : forall sts seq sid,
    quiet (AsyncWrite (pdu_octets (bind_resp_id (command_id hdr)) sts seq sid))).
  { intros. apply quiet_pdu. rewrite !elem_of_cons, elem_of_nil in Hid.
    by destruct Hid as [-> | [-> | [-> | []]]]. }
  case_decide as Hs; [|by apply good_quiet].
  destruct (read_cstr body 0 default_max_len) as [sid off]. cbn [fst snd].
  destruct (read_cstr body off default_max_len) as [pass off']. cbn [fst snd].
  destruct (Authenticate _ _ _ _) as [[[] code]|] eqn:Ea; cbn [default from_option id].
  - set (b := bound_state (command_id hdr) (state_ s)).
    assert (Hb : is_bound b).
    { rewrite !elem_of_cons, elem_of_nil in Hid. unfold is_bound, b, bound_state.
      by destruct Hid as [-> | [-> | [-> | []]]]. }
    pose proof (good_update rs (set_bind_time (u64 (env_system_sec e)) (set_state b (set_system_id sid s))))
      as Hu. replace (state_ _) with b in Hu by by destruct s.
    replace (system_id_ _) with sid in Hu by by destruct s.
    replace (params_ _) with (params_ s) in Hu by by destruct s.
    apply Hu; [|done]. apply good_quiet; [done|].
    eapply good_bound; [by apply good_quiet|done|done|].
    rewrite w_trace_interp, elem_of_app, elem_of_cons. right. by left.
  - apply (disconnect_good _ _ _ (interp _ (interp _ _))). by do 2 (apply good_quiet; [done|]).
  - apply (disconnect_good _ _ _ (interp _ (interp _ _))). by do 2 (apply good_quiet; [done|]).
Qed.

Lemma handle_submit_sm_good rs e hdr body : keeps rs (handle_submit_sm e hdr body).
Proof.
  intros s w Hg. pose proof (handle_submit_sm_run e hdr body s (core_prefix _ _ (proj1 Hg))) as R.
  cbv zeta in R. destruct (throttle_check _ _) as [allowed tb]. rewrite R. clear R.
  destruct (can_submit (state_ s)); [destruct allowed|].
  - pose proof (good_route rs (set_tb tb s)) as Hr. destruct s. apply Hr. by_quiet.
    exact (good_set_tb _ _ _ tb Hg).
  - by_quiet. by apply good_set_tb.
  - by by_quiet.
Qed.

Lemma dispatch_good rs e hdr body : keeps rs (dispatch e hdr body).
Proof.
  unfold dispatch. rewrite is_bind_elem. case_bool_decide as Hb; [by apply handle_bind_good|].
  destruct (_ =? UNBIND).
  { intros s w Hg. rewrite handle_unbind_run.
    apply (disconnect_good _ _ _ (interp _ _)). by by_quiet. }
  destruct (_ =? ENQUIRE_LINK).
  { intros s w Hg. rewrite handle_enquire_link_run. by by_quiet. }
  destruct (_ =? SUBMIT_SM); [apply handle_submit_sm_good|].
  destruct (_ =? ENQUIRE_LINK_RESP).
  { intros s w Hg. rewrite handle_enquire_link_resp_run. destruct (_ && _); [|done].
    by apply good_el_answer. }
  destruct (_ =? DELIVER_SM_RESP); [by intros s w|].
  intros s w Hg. rewrite send_response_run by (simpl; lia). by by_quiet.
Qed.

(** Between activations. *)
Record settled (s : session) (w : world) : Prop := {
  settled_core : core s w;
  settled_keep : keep s w;
  settled_reads : reads_ok s w
}.

(** A read started where none was outstanding. *)
Lemma settled_read s w e :
  good [] s w -> e = AsyncReadHeader \/ (exists hdr len, e = AsyncReadBody hdr len) ->
  settled s (interp e w).
Proof.
  intros (Hc & Hk & Hr) He. constructor.
  - destruct He as [->|(hdr & len & ->)]; by apply core_silent.
  - by destruct He as [->|(hdr & len & ->)]; destruct w.
  - destruct w; simpl in *; subst.
    by destruct He as [->|(hdr & len & ->)]; split; simpl; try lia.
Qed.

Lemma dispatch_then_read e hdr body :
  triple interp (good []) (dispatch e hdr body ;;; read_header)%eff (fun _ => settled).
Proof.
  eapply triple_bind; [apply dispatch_good|]. intros _ s w Hg. apply settled_read; auto.
Qed.

(** A disconnection with no read left. *)
Lemma settled_disconnect reason :
  triple interp (good []) (do_disconnect reason) (fun _ => settled).
Proof.
  intros s w Hg. rewrite do_disconnect_run.
  destruct (disconnect_good [] reason s w Hg) as (? & ? & Hr). constructor; [done..|].
  split; [rewrite Hr; simpl; lia|]. by rewrite state_disconnected.
Qed.

Lemma good_set_header_buf rs buf s w : good rs s w -> good rs (set_header_buf buf s) w.
Proof. by destruct s; intros ([] & ? & ?); split_and!. Qed.

Lemma on_header_settled e r :
  read_result_ok 16 r = true -> triple interp (good []) (on_header e r) (fun _ => settled).
Proof.
  destruct r as [msg|buf]; simpl; [intros _; apply settled_disconnect|].
  intros Hlen%bool_decide_eq_true s w Hg%(good_set_header_buf _ buf). revert s w Hg.
  destruct (decode_header_total buf) as (hdr & Hdec & _); [lia|].
  intros s w Hg. unfold ebind at 1 2. cbn [emodify eget].
  assert (Hh : header_buf_ (set_header_buf buf s) = buf) by (by destruct s).
  unfold ebind at 1. unfold edefined. rewrite Hh, Hdec.
  assert (Ht : triple interp (good [])
    (if command_length hdr <? 16 then do_disconnect (str "invalid PDU length")
     else read_body e hdr) (fun _ => settled)).
  { apply triple_if; [apply settled_disconnect|]. unfold read_body.
    apply triple_if; [apply dispatch_then_read|].
    intros s' w' Hg'. apply settled_read; eauto. }
  specialize (Ht _ _ Hg). by destruct (if _ <? 16 then _ else _) as [[[]]].
Qed.

Lemma on_body_settled e hdr r :
  triple interp (good []) (on_body e hdr r) (fun _ => settled).
Proof. destruct r; [apply settled_disconnect | apply dispatch_then_read]. Qed.

(** ** Every reachable configuration is in order *)

Definition sized (fl : list (cstring * cstring * cstring)) : Prop :=
  Forall (fun '(src, dst, msg) =>
            Z.of_nat (length src + length dst + length msg) < dbus_max) fl.

Record inv (c : config) : Prop := {
  inv_settled : settled (c_sess c) (c_world c);
  inv_crashed : c_crashed c = false;
  inv_sized : sized (c_inflight c)
}.

(** An activation that is specified by a triple. *)
Lemma exec_inv {A} (m : SM A) P fl s w :
  triple interp P m (fun _ => settled) -> P s w -> sized fl -> inv (exec m fl s w).
Proof.
  intros Hm HP Hf. specialize (Hm s w HP). unfold exec.
  by destruct (m s) as [[[a| |] s'] es].
Qed.

Lemma settled_start : triple interp (fun s w => w = world_init /\ exists uuid ip srv auth iv to mx now,
  s = session_init uuid ip srv auth iv to mx now) start (fun _ => settled).
Proof.
  intros s w (-> & uuid & ip & srv & auth & iv & to & mx & now & ->).
  unfold start, ebind, read_header, emit, eget. cbn [params_ session_init el_interval_sec_].
  assert (Hp : (length (if decide (8 <= length uuid)%nat then take 8 uuid else uuid) <= 8)%nat)
    by (case_decide; rewrite ?length_take; lia).
  assert (Hn : forall uuid sid st, (uuid, sid, st) ∉ updates []) by (intros; apply not_elem_of_nil).
  destruct (Z.ltb_spec 0 iv); (constructor; [constructor; try done; [by intros []|];
    intros ? ? ? Hu; by destruct (Hn _ _ _ Hu)| |
    split; [simpl; lia|done]]).
  - intros _ _. by apply list_elem_of_singleton.
  - simpl. intros Hiv. simpl in Hiv. lia.
Qed.

Lemma keep_delete_cancelled (ws : list bool) i :
  ws !! i = Some false -> true ∈ ws -> true ∈ delete i ws.
Proof.
  intros Hi (j & Hj)%list_elem_of_lookup. rewrite delete_take_drop.
  apply elem_of_app. destruct (decide (j < i)%nat).
  - left. apply list_elem_of_lookup. exists j. by rewrite lookup_take_lt.
  - assert (j <> i) by congruence. right. apply list_elem_of_lookup. exists (j - S i)%nat.
    rewrite lookup_drop. by replace (S i + (j - S i))%nat with j by lia.
Qed.

(** The expiry of the keepalive interval. *)
Lemma timer_settled s w i ec live :
  settled s w -> w_el w !! i = Some live -> live && ec = false ->
  match on_enquire_link_timer ec s with
  | (Ret _, s', es) => settled s' (interp_all interp es (set_el (delete i (w_el w)) w))
  | _ => False
  end.
Proof.
  intros [Hc Hk Hr] Hi Hl. rewrite on_enquire_link_timer_run.
  assert (Hc' : core s (set_el (delete i (w_el w)) w)) by by destruct w, Hc.
  destruct (ec || el_pending_ s || bool_decide (state_ s = UNBOUND)) eqn:Hb.
  - constructor; [done| |done]. intros Hiv Hu. specialize (Hk Hiv Hu).
    rewrite bool_decide_eq_false_2, orb_false_r in Hb by done.
    destruct (el_pending_ s); [done|]. rewrite orb_false_r in Hb. subst ec.
    rewrite andb_true_r in Hl. subst live. by apply keep_delete_cancelled.
  - constructor.
    + assert (Hc2 : core (set_el_pending true (set_el_seq (next_el_seq (el_seq_ s)) s))
                      (set_el (delete i (w_el w)) w)) by by destruct s, Hc'.
      apply core_silent; [done..|]. apply core_silent; [done|done| |done|done].
      apply quiet_pdu. done.
    + intros _ _. destruct s, w. cbn. set_solver.
    + by destruct s, w.
Qed.

(** The expiry of the wait for the answer. *)
Lemma timeout_settled s w i ec live :
  settled s w -> w_to w !! i = Some live -> live && ec = false ->
  match on_enquire_link_timeout ec s with
  | (Ret _, s', es) => settled s' (interp_all interp es (set_to (delete i (w_to w)) w))
  | _ => False
  end.
Proof.
  intros [Hc Hk Hr] Hi Hl. rewrite on_enquire_link_timeout_run.
  assert (Hc' : core s (set_to (delete i (w_to w)) w)) by by destruct w, Hc.
  destruct (negb ec && el_pending_ s) eqn:Hb.
  - destruct Hr as [Hr _].
    constructor; [by apply core_disconnect|apply keep_disconnected|].
    split; [by rewrite reads_disconnect|by rewrite state_disconnected].
  - constructor; [done| |done]. intros Hiv Hu. specialize (Hk Hiv Hu).
    destruct (el_pending_ s); [|done]. rewrite andb_true_r in Hb.
    apply negb_false_iff in Hb. subst ec. rewrite andb_true_r in Hl. subst live.
    by apply keep_delete_cancelled.
Qed.

Lemma inv_init c : init c -> inv c.
Proof.
  intros (uuid & ip & srv & auth & iv & to & mx & now & _ & _ & _ & ->).
  eapply exec_inv; [apply settled_start|split; [done|by repeat eexists]|by constructor].
Qed.

Lemma exec_settled {A} (m : SM A) fl s w :
  match m s with
  | (Ret _, s', es) => settled s' (interp_all interp es w)
  | _ => False
  end -> sized fl -> inv (exec m fl s w).
Proof. intros H Hf. unfold exec. by destruct (m s) as [[[a| |] s'] es]. Qed.

(** The D-Bus thread and the posted calls leave the reads alone. *)
Lemma settled_same_reads s w s' w' :
  settled s w -> core s' w' -> keep s' w' -> w_reads w' = w_reads w ->
  (state_ s' <> UNBOUND -> state_ s <> UNBOUND) -> settled s' w'.
Proof.
  intros [_ _ [Hl Hn]] ? ? Hr Hs. constructor; [done..|]. rewrite <- Hr in *. split; auto.
Qed.

Lemma posted_settled s w reason ps :
  settled s w ->
  settled (disconnected s)
    (interp_all interp (disconnect_effects reason s) (set_posted ps w)).
Proof.
  intros Hs. pose proof (settled_core _ _ Hs) as Hc.
  eapply settled_same_reads; [done| |apply keep_disconnected|by rewrite reads_disconnect|].
  - apply core_disconnect. by destruct w, Hc.
  - by rewrite state_disconnected.
Qed.

Lemma deliver_settled s w src dst msg :
  settled s w -> Z.of_nat (length src + length dst + length msg) < dbus_max ->
  match deliver_send src dst msg s with
  | (Ret _, s', es) => settled s' (interp_all interp es w)
  | _ => False
  end.
Proof.
  intros Hs Hn. unfold dbus_max in Hn. rewrite deliver_send_run by lia.
  pose proof Hs as [Hc Hk _].
  edestruct (good_deliver (w_reads w) s w) as (? & ? & Hr); [done|].
  eapply settled_same_reads; [done..|]. by destruct s.
Qed.

(** One step, whatever the event. *)
Lemma inv_step c l c' : inv c -> step c l c' -> inv c'.
Proof.
  destruct l as [e ev]. intros [Hs Hc Hf] Hst. unfold step in Hst. cbn [fst snd] in Hst.
  pose proof Hs as [Hcore Hk [Hl Hn]].
  assert (Hg : forall r rs, w_reads (c_world c) = r :: rs ->
                 good [] (c_sess c) (set_reads rs (c_world c))).
  { intros r rs Hr. rewrite Hr in Hl. destruct rs; [|simpl in Hl; lia].
    split_and!; [by destruct Hcore|done|done]. }
  destruct ev as [r|r|i ec|i ec| |reason| |src dst msg|i]; cbn [activate] in Hst.
  - destruct (w_reads _) as [|[|hdr len] rs] eqn:Hr; try done.
    destruct (read_result_ok 16 r) eqn:Hok; [|done]. injection Hst as <-.
    eapply exec_inv; [by apply on_header_settled|eauto|done].
  - destruct (w_reads _) as [|[|hdr len] rs] eqn:Hr; try done.
    destruct (read_result_ok len r) eqn:Hok; [|done]. injection Hst as <-.
    eapply exec_inv; [apply on_body_settled|eauto|done].
  - destruct (_ !! i) as [live|] eqn:Hi; [|done]. cbn in Hst.
    destruct (live && ec) eqn:Hle; [done|]. injection Hst as <-.
    apply exec_settled; [by eapply timer_settled|done].
  - destruct (_ !! i) as [live|] eqn:Hi; [|done]. cbn in Hst.
    destruct (live && ec) eqn:Hle; [done|]. injection Hst as <-.
    apply exec_settled; [by eapply timeout_settled|done].
  - destruct (w_posted _) as [|reason ps] eqn:Hp; [done|]. injection Hst as <-.
    apply exec_settled; [|done]. rewrite do_disconnect_run. by apply posted_settled.
  - injection Hst as <-. apply exec_settled; [|done]. cbn.
    eapply settled_same_reads; [done|by apply core_silent|..]; by destruct (c_world c).
  - injection Hst as <-. by apply exec_settled.
  - case_bool_decide as Hb; [|done]. unfold deliver_check, ebind, eget in Hst.
    destruct (can_deliver _); injection Hst as <-; [|done].
    apply exec_settled; [done|]. apply Forall_app. by repeat constructor.
  - destruct (_ !! i) as [[[src dst] msg]|] eqn:Hi; [|done]. injection Hst as <-.
    assert (Hsz := Hf). apply (Forall_lookup_1 _ _ _ _ Hf) in Hi.
    apply exec_settled; [by apply deliver_settled|]. by apply Forall_delete.
Qed.

Lemma reachable_inv c : reachable init step c -> inv c.
Proof. apply invariant_rule; [apply inv_init|]. intros ? ? ? _. apply inv_step. Qed.

(** ** Runs *)

Definition run_events (evs : list (env * event)) (c : config) : option config :=
  foldl (fun oc l => c ← oc; activate (fst l) (snd l) c) (Some c) evs.

Lemma run_events_None evs :
  foldl (fun (oc : option config) (l : env * event) => c ← oc; activate (fst l) (snd l) c) None evs
  = None.
Proof. by induction evs. Qed.

Lemma run_events_cons l evs c :
  run_events (l :: evs) c = (c' ← activate (fst l) (snd l) c; run_events evs c').
Proof.
  unfold run_events. cbn. destruct (activate _ _ _); [done|]. apply run_events_None.
Qed.

Lemma run_events_reachable evs c c' :
  reachable init step c -> run_events evs c = Some c' -> reachable init step c'.
Proof.
  revert c. induction evs as [|l evs IH]; intros c Hc H; [by injection H as <-|].
  rewrite run_events_cons in H. destruct (activate _ _ _) as [c1|] eqn:Ha; [|done].
  apply (IH c1); [|done]. by eapply reachable_step.
Qed.

(** A session that binds, submits two messages, is asked to deliver one, times
    out and is told to disconnect. *)
Definition example_init : config := started example_session.

Definition example_pdu (cid seq : Z) (body : list byte) : list (env * event) :=
  let pdu := pdu_octets cid 0 seq body in
  (example_env, EvHeader (inr (take 16 pdu)))
  :: (if decide (body = []) then [] else [(example_env, EvBody (inr (drop 16 pdu)))]).

Definition example_submit : list byte :=
  deliver_sm_body (str "441234") (str "esme2") (str "Hello") x00 x00 x00 x00.

Definition example_bound_events : list (env * event) :=
  example_pdu BIND_TRANSCEIVER 1 example_bind_body
  ++ example_pdu SUBMIT_SM 2 example_submit ++ example_pdu SUBMIT_SM 3 example_submit
  ++ [(example_env, EvDeliverCheck (str "esme2") (str "441234") (str "Hi"));
      (example_env, EvDeliverSend 0)].

Definition example_closed_events : list (env * event) :=
  example_bound_events
  ++ [(example_env, EvElTimer 0 false); (example_env, EvElTimeout 0 false);
      (example_env, EvDisconnect (str "too late")); (example_env, EvPosted)].

Definition example_bound : config := default example_init (run_events example_bound_events example_init).
Definition example_closed : config := default example_init (run_events example_closed_events example_init).

Lemma example_init_reachable : reachable init step example_init.
Proof. apply reachable_init. repeat eexists; done. Qed.

Lemma example_bound_reachable : reachable init step example_bound.
Proof.
  apply (run_events_reachable example_bound_events example_init).
  - apply example_init_reachable.
  - by vm_compute.
Qed.

Lemma example_closed_reachable : reachable init step example_closed.
Proof.
  apply (run_events_reachable example_closed_events example_init).
  - apply example_init_reachable.
  - by vm_compute.
Qed.

(** ** What holds in every reachable configuration *)

(** C1: The session object is safe: whatever the peer sends, whatever the
    services and the clocks answer and however the two threads interleave, no
    activation of a member function throws out of its handler or touches memory
    outside its buffers (allocation is taken to succeed). *)
Theorem session_never_crashes c : reachable init step c -> c_crashed c = false.
Proof. intros H. apply (inv_crashed _ (reachable_inv c H)). Qed.

Lemma session_never_crashes_witness : c_crashed example_closed = false.
Proof. apply (session_never_crashes example_closed), example_closed_reachable. Defined.

(** C7: Disconnection happens once: in every reachable configuration the
    [SessionExited] signal has been emitted exactly once if the session is UNBOUND
    and never otherwise, and the socket is open exactly while it is not. *)
Theorem session_exits_once c :
  reachable init step c ->
  length (exits (w_trace (c_world c)))
    = (if decide (state_ (c_sess c) = UNBOUND) then 1%nat else 0%nat) /\
  (socket_open_ (c_sess c) = true <-> state_ (c_sess c) <> UNBOUND).
Proof.
  intros [[[? Hs Hx] _ _] _ _]%reachable_inv. split; [done|]. rewrite Hs.
  case_bool_decide; naive_solver.
Qed.

Lemma session_exits_once_witness :
  length (exits (w_trace (c_world example_closed))) = 1%nat /\
  (socket_open_ (c_sess example_closed) = true <-> state_ (c_sess example_closed) <> UNBOUND).
Proof. exact (session_exits_once example_closed example_closed_reachable). Defined.

(** C8: No one is bound without authentication: a session in a bound state has
    called [Authenticate] with its own uuid and address and the system id it is
    bound under, and the service answered yes. *)
Theorem bound_is_authenticated c :
  reachable init step c -> is_bound (state_ (c_sess c)) ->
  let s := c_sess c in
  exists svc pass code,
    CallAuthenticate svc (uuid_ (params_ s)) (system_id_ s) pass (client_ip_ (params_ s))
      (Some (true, code)) ∈ w_trace (c_world c).
Proof. intros [[[] _ _] _ _]%reachable_inv. done. Qed.

Lemma bound_is_authenticated_witness :
  exists svc pass code,
    CallAuthenticate svc (str "0195f3a7b2c1-a3f8d901c4b72e5d") (str "esme1") pass
      (str "127.0.0.1") (Some (true, code)) ∈ w_trace (c_world example_bound).
Proof.
  apply (bound_is_authenticated example_bound); [apply example_bound_reachable|].
  by vm_compute.
Defined.

Lemma message_id_inj prefix a b :
  is_u32 a -> is_u32 b -> message_id prefix a = message_id prefix b -> a = b.
Proof.
  unfold message_id, is_u32. intros Ha Hb H%app_inv_head.
  rewrite <- (hex_setw_read 8 a), <- (hex_setw_read 8 b), H by lia. done.
Qed.

(** C9: Message ids are unique: a session that has routed fewer than 2^32
    messages has given each its own id, and the ids count up from 1 in hexadecimal
    after the session's prefix. *)
Theorem message_ids_unique c :
  let ids := route_ids (w_trace (c_world c)) in
  reachable init step c -> Z.of_nat (length ids) < 2 ^ 32 ->
  NoDup ids /\
  forall i mid, ids !! i = Some mid ->
    mid = msg_id_prefix_ (params_ (c_sess c)) ++ hex_setw 8 (Z.of_nat (S i)).
Proof.
  intros ids [[[_ _ _ _ Hi] _ _] _ _]%reachable_inv Hlen. fold ids in Hi. clearbody ids.
  rewrite Hi. split.
  - apply NoDup_fmap_2_strong; [|apply NoDup_seq].
    intros a b Ha%elem_of_seq Hb%elem_of_seq Heq%message_id_inj; [|apply u32_range..].
    rewrite !u32_small in Heq by (unfold is_u32; lia). lia.
  - intros i mid. rewrite list_lookup_fmap. intros (k & Hk & ->)%fmap_Some.
    apply lookup_seq in Hk as [-> ?]. unfold message_id. rewrite u32_small; [done|].
    unfold is_u32. lia.
Qed.

Lemma message_ids_unique_witness :
  NoDup (route_ids (w_trace (c_world example_bound))) /\
  forall i mid, route_ids (w_trace (c_world example_bound)) !! i = Some mid ->
    mid = str "0195f3a7" ++ hex_setw 8 (Z.of_nat (S i)).
Proof.
  apply (message_ids_unique example_bound); [apply example_bound_reachable|].
  by vm_compute.
Defined.

(** C15: The [deliver_sm] PDUs a session writes are numbered consecutively from
    0x20000000, modulo 2^32, whatever interleaving of the D-Bus calls produced
    them; the next number is the value of [deliver_seq_]. *)
Theorem deliver_sequence c :
  reachable init step c ->
  let seqs := deliver_seqs (w_trace (c_world c)) in
  (forall i q, seqs !! i = Some q -> q = u32 (0x20000000 + Z.of_nat i)) /\
  deliver_seq_ (c_sess c) = u32 (0x20000000 + Z.of_nat (length seqs)).
Proof.
  intros [[[_ _ _ _ _ _ Hs Hq _] _ _] _ _]%reachable_inv seqs. split; [|done].
  intros i q. unfold seqs. rewrite Hs, list_lookup_fmap. intros (k & Hk & ->)%fmap_Some.
  by apply lookup_seq in Hk as [-> ?].
Qed.

Lemma deliver_sequence_witness :
  (forall i q, deliver_seqs (w_trace (c_world example_bound)) !! i = Some q ->
     q = u32 (0x20000000 + Z.of_nat i)) /\
  deliver_seq_ (c_sess example_bound) = 0x20000001.
Proof. exact (deliver_sequence example_bound example_bound_reachable). Defined.

(** The events of the two timers. *)
Definition is_timer (ev : event) : Prop :=
  match ev with EvElTimer _ ec | EvElTimeout _ ec => ec = false | _ => False end.

(** The answer to an [enquire_link] did not come. *)
Lemma keepalive_timeout e c :
  inv c -> 0 < el_interval_sec_ (params_ (c_sess c)) -> state_ (c_sess c) <> UNBOUND ->
  el_pending_ (c_sess c) = true ->
  exists i c', activate e (EvElTimeout i false) c = Some c' /\ state_ (c_sess c') = UNBOUND.
Proof.
  intros [[_ Hk _] _ _] Hiv Hu Hp. specialize (Hk Hiv Hu). rewrite Hp in Hk.
  apply list_elem_of_lookup in Hk as [i Hi]. exists i. eexists.
  cbn [activate]. rewrite Hi. cbn [mbind option_bind andb]. split; [done|].
  unfold exec. rewrite on_enquire_link_timeout_run, Hp. apply state_disconnected.
Qed.

(** C10: Keepalive: with a non-zero interval, in every reachable configuration
    whose session is not over, at most two timer expiries with no PDU from the peer
    in between end the session.  The waits that must expire are always armed. *)
Theorem keepalive_ends_silent_session e c :
  reachable init step c -> 0 < el_interval_sec_ (params_ (c_sess c)) ->
  state_ (c_sess c) <> UNBOUND ->
  exists evs c', Forall is_timer evs /\ (length evs <= 2)%nat /\
    run_events ((fun ev => (e, ev)) <$> evs) c = Some c' /\ state_ (c_sess c') = UNBOUND.
Proof.
  intros Hr Hiv Hu. pose proof (reachable_inv _ Hr) as Hinv.
  destruct (el_pending_ (c_sess c)) eqn:Hp.
  - destruct (keepalive_timeout e c) as (i & c' & Ha & Hs); [done..|].
    exists [EvElTimeout i false], c'. split_and!; [by repeat constructor|simpl; lia|done|done].
  - destruct Hinv as [[_ Hk _] _ _]. specialize (Hk Hiv Hu). rewrite Hp in Hk.
    apply list_elem_of_lookup in Hk as [i Hi].
    assert (exists c1, activate e (EvElTimer i false) c = Some c1 /\
              params_ (c_sess c1) = params_ (c_sess c) /\
              state_ (c_sess c1) = state_ (c_sess c) /\ el_pending_ (c_sess c1) = true)
      as (c1 & Ha & Hpar & Hst & Hp1).
    { eexists. cbn [activate]. rewrite Hi. cbn [mbind option_bind andb]. split; [done|].
      unfold exec. rewrite on_enquire_link_timer_run, Hp, bool_decide_eq_false_2 by done.
      by destruct (c_sess c). }
    destruct (keepalive_timeout e c1) as (j & c2 & Ha2 & Hs2).
    + apply reachable_inv. by apply (reachable_step _ _ c (e, EvElTimer i false)).
    + by rewrite Hpar.
    + by rewrite Hst.
    + done.
    + exists [EvElTimer i false; EvElTimeout j false], c2.
      split_and!; [by repeat constructor|simpl; lia| |done].
      cbn [fmap list_fmap]. rewrite run_events_cons. cbn [fst snd]. rewrite Ha. done.
Qed.

Lemma keepalive_ends_silent_session_witness :
  exists evs c', Forall is_timer evs /\ (length evs <= 2)%nat /\
    run_events ((fun ev => (example_env, ev)) <$> evs) example_bound = Some c' /\
    state_ (c_sess c') = UNBOUND.
Proof.
  apply (keepalive_ends_silent_session example_env example_bound);
    [apply example_bound_reachable|by vm_compute|by vm_compute].
Defined.

(** The read loop never stops and never doubles: while the session is not
    UNBOUND exactly one asynchronous read is outstanding, and never more than one. *)
Theorem one_read_outstanding c :
  reachable init step c ->
  (length (w_reads (c_world c)) <= 1)%nat /\
  (state_ (c_sess c) <> UNBOUND -> exists r, w_reads (c_world c) = [r]).
Proof.
  intros [[_ _ [Hl Hn]] _ _]%reachable_inv. split; [done|]. intros Hu. specialize (Hn Hu).
  destruct (w_reads _) as [|r [|? ?]]; simpl in *; [done|eauto|lia].
Qed.

Lemma one_read_outstanding_witness :
  (length (w_reads (c_world example_bound)) <= 1)%nat /\
  (state_ (c_sess example_bound) <> UNBOUND -> exists r, w_reads (c_world example_bound) = [r]).
Proof. exact (one_read_outstanding example_bound example_bound_reachable). Defined.

(** ** Life cycle *)

(** The transitions of the session's state: OPEN to a bound state, any state to
    UNBOUND. *)
Definition lifecycle (a b : SessionState) : Prop :=
  a = b \/ (a = OPEN /\ is_bound b) \/ b = UNBOUND.

Lemma next_state_lifecycle e s hdr body : lifecycle (state_ s) (next_state e s hdr body).
Proof.
  unfold next_state, lifecycle, is_bound. repeat (case_match; try naive_solver).
Qed.

Lemma dispatch_lifecycle e hdr body s :
  prefix_ok s -> lifecycle (state_ s) (state_ (run_state (dispatch e hdr body s))).
Proof. intros H. rewrite dispatch_next_state by done. apply next_state_lifecycle. Qed.

(** Reading the next header does not change the state. *)
Lemma then_read_state (m : SM unit) s :
  state_ (run_state ((m ;;; read_header)%eff s)) = state_ (run_state (m s)).
Proof. unfold ebind, read_header, emit. by destruct (m s) as [[[| |] ?] ?]. Qed.

Lemma disconnect_lifecycle reason s :
  lifecycle (state_ s) (state_ (run_state (do_disconnect reason s))).
Proof. rewrite do_disconnect_run. right. right. apply state_disconnected. Qed.

Lemma on_header_lifecycle e r s :
  prefix_ok s -> lifecycle (state_ s) (state_ (run_state (on_header e r s))).
Proof.
  intros Hp. destruct r as [msg|buf]; [apply disconnect_lifecycle|].
  unfold on_header, ebind at 1 2, emodify, eget.
  assert (Hs : state_ s = state_ (set_header_buf buf s)) by by destruct s.
  assert (Hp' : prefix_ok (set_header_buf buf s)) by by destruct s.
  rewrite Hs. unfold ebind at 1, edefined. destruct (decode_header _) as [hdr|]; [|by left].
  set (m := if _ <? 16 then _ else _).
  assert (Hm : lifecycle (state_ (set_header_buf buf s))
                 (state_ (run_state (m (set_header_buf buf s))))).
  { unfold m. destruct (_ <? 16); [apply disconnect_lifecycle|]. unfold read_body.
    destruct (_ =? 0); [|by left]. rewrite then_read_state. by apply dispatch_lifecycle. }
  by destruct (m (set_header_buf buf s)) as [[? ?] ?].
Qed.

(** C13: Monotone life cycle: one step of the system leaves the state alone,
    binds an open session, or ends it; in particular UNBOUND is final and a bound
    session never changes its kind of bind. *)
Theorem session_lifecycle c l c' :
  reachable init step c -> step c l c' ->
  lifecycle (state_ (c_sess c)) (state_ (c_sess c')).
Proof.
  intros Hr Hst. pose proof (core_prefix _ _ (settled_core _ _ (inv_settled _ (reachable_inv _ Hr)))) as Hp.
  destruct l as [e ev]. unfold step in Hst. cbn [fst snd] in Hst.
  assert (Hx : forall (m : SM unit) fl w, state_ (c_sess (exec m fl (c_sess c) w))
                           = state_ (run_state (m (c_sess c)))).
  { intros. unfold exec. by destruct (m (c_sess c)) as [[? ?] ?]. }
  destruct ev as [r|r|i ec|i ec| |reason| |src dst msg|i]; cbn [activate] in Hst.
  - repeat case_match; try done. injection Hst as <-. rewrite Hx. by apply on_header_lifecycle.
  - repeat case_match; try done. injection Hst as <-. rewrite Hx.
    destruct r; [apply disconnect_lifecycle|]. cbn [on_body]. rewrite then_read_state.
    by apply dispatch_lifecycle.
  - destruct (_ !! i) as [live|]; [|done]. cbn in Hst. case_match; [done|]. injection Hst as <-.
    rewrite Hx, on_enquire_link_timer_run. left. case_match; by destruct (c_sess c).
  - destruct (_ !! i) as [live|]; [|done]. cbn in Hst. case_match; [done|]. injection Hst as <-.
    rewrite Hx, on_enquire_link_timeout_run. case_match; [|by left].
    right. right. apply state_disconnected.
  - case_match; [done|]. injection Hst as <-. rewrite Hx. apply disconnect_lifecycle.
  - injection Hst as <-. by left.
  - injection Hst as <-. by left.
  - case_bool_decide; [|done]. repeat case_match; injection Hst as <-; by left.
  - destruct (_ !! i) as [[[src dst] msg]|]; [|done]. injection Hst as <-. left. unfold exec.
    unfold deliver_send, next_deliver_seq, ebind, eget, emodify, edefined. cbn.
    by destruct (make_deliver_sm _ _ _ _ _ _ _ _); destruct (c_sess c).
Qed.

Lemma session_lifecycle_witness :
  let c := example_bound in
  let c' := default c (activate example_env (EvElTimer 0 false) c) in
  lifecycle (state_ (c_sess c)) (state_ (c_sess c')).
Proof.
  apply (session_lifecycle example_bound (example_env, EvElTimer 0 false));
    [apply example_bound_reachable|by vm_compute].
Defined.
