(* ===== verification/SessionTrace.v ===== *)
(** * SessionTrace: what one activation of a session adds

    Continues [SessionSystem]: the trace of a session only grows; [deliver_sm] PDUs are
    written by [DeliverSm] alone, one per call; the parameters never change, UNBOUND is
    final, and a posted disconnection stays posted until it runs. *)

From S2P Require Import Prelude Pdu Throttle Session SessionSystem.
#[local] Open Scope Z_scope.

(** ** The [deliver_sm] PDUs of a trace, by their bodies *)

Definition deliver_bodies (es : list effect) : list (list byte) :=
  omap (fun e => match e with
                 | AsyncWrite pdu =>
                     hdr ← decode_header pdu;
                     if command_id hdr =? DELIVER_SM then Some (drop 16 pdu) else None
                 | _ => None
                 end) es.

Lemma deliver_bodies_app es1 es2 :
  deliver_bodies (es1 ++ es2) = deliver_bodies es1 ++ deliver_bodies es2.
Proof. apply omap_app. Qed.

Lemma deliver_bodies_pdu cid sts seq body :
  u32 cid <> DELIVER_SM -> deliver_bodies [AsyncWrite (pdu_octets cid sts seq body)] = [].
Proof.
  intros H. unfold deliver_bodies. cbn [omap list_omap]. unfold pdu_octets.
  rewrite decode_header_octets. cbn [mbind option_bind command_id].
  by rewrite (proj2 (Z.eqb_neq _ _)).
Qed.

Lemma deliver_bodies_deliver seq body :
  deliver_bodies [AsyncWrite (pdu_octets DELIVER_SM ESME_ROK seq body)] = [body].
Proof.
  unfold deliver_bodies. cbn [omap list_omap]. unfold pdu_octets.
  rewrite decode_header_octets. cbn [mbind option_bind command_id].
  done.
Qed.

(** ** Code that writes no [deliver_sm] and keeps the parameters *)

Definition no_deliver {A} (m : SM A) : Prop :=
  forall s, prefix_ok s ->
    deliver_bodies (run_effects (m s)) = [] /\ params_ (run_state (m s)) = params_ s.

Lemma no_deliver_effects (m : SM unit) :
  (forall s, prefix_ok s -> exists s' es, m s = (Ret (), s', es) /\ deliver_bodies es = [] /\
     params_ s' = params_ s) -> no_deliver m.
Proof.
  intros H s Hp. by destruct (H s Hp) as (s' & es & -> & Hd & Hpar).
Qed.

Lemma disconnected_params s : params_ (disconnected s) = params_ s.
Proof. unfold disconnected. case_decide; by destruct s. Qed.

Lemma disconnect_no_bodies reason s : deliver_bodies (disconnect_effects reason s) = [].
Proof. unfold disconnect_effects. by case_decide. Qed.

Lemma no_deliver_disconnect reason : no_deliver (do_disconnect reason).
Proof.
  apply no_deliver_effects. intros s _. rewrite do_disconnect_run.
  eexists _, _. split; [done|]. by rewrite disconnect_no_bodies, disconnected_params.
Qed.

(** A response, whatever else is done with it. *)
Lemma no_deliver_cons e es : deliver_bodies [e] = [] -> deliver_bodies es = [] -> deliver_bodies (e :: es) = [].
Proof. intros He Hes. change (e :: es) with ([e] ++ es). by rewrite deliver_bodies_app, He, Hes. Qed.

Create HintDb trace.
#[local] Hint Resolve deliver_bodies_pdu disconnect_no_bodies no_deliver_cons : trace.
#[local] Hint Extern 1 (deliver_bodies [] = []) => reflexivity : trace.
#[local] Hint Extern 1 (deliver_bodies [_] = []) => reflexivity : trace.

Lemma no_deliver_bind e hdr body :
  command_id hdr ∈ [BIND_TRANSMITTER; BIND_RECEIVER; BIND_TRANSCEIVER] ->
  no_deliver (handle_bind e hdr body).
Proof.
  intros Hid. apply no_deliver_effects. intros s _.
  pose proof (handle_bind_run e hdr body s) as R. cbv zeta in R. rewrite R. clear R.
  assert (Hq : u32 (bind_resp_id (command_id hdr)) <> DELIVER_SM).
  { rewrite !elem_of_cons, elem_of_nil in Hid. by destruct Hid as [-> | [-> | [-> | []]]]. }
  case_decide; [|eexists _, _; split_and!; [done|auto with trace|done]].
  destruct (default _ _) as [[] code]; eexists _, _; (split_and!; [done|auto 6 with trace|]).
  - by destruct s.
  - apply disconnected_params.
Qed.

Lemma no_deliver_submit e hdr body : no_deliver (handle_submit_sm e hdr body).
Proof.
  apply no_deliver_effects. intros s Hp.
  pose proof (handle_submit_sm_run e hdr body s Hp) as R. cbv zeta in R.
  destruct (throttle_check _ _) as [allowed tb]. rewrite R. clear R.
  assert (Hq : u32 SUBMIT_SM_RESP <> DELIVER_SM) by done.
  destruct (can_submit (state_ s)); [destruct allowed|];
    (eexists _, _; split_and!; [done|auto 6 with trace|by destruct s]).
Qed.

Lemma no_deliver_dispatch e hdr body : no_deliver (dispatch e hdr body).
Proof.
  unfold dispatch. rewrite is_bind_elem. case_bool_decide as Hb; [by apply no_deliver_bind|].
  destruct (_ =? UNBIND).
  { apply no_deliver_effects. intros s _. rewrite handle_unbind_run. eexists _, _.
    split_and!; [done| |apply disconnected_params].
    apply no_deliver_cons; [by apply deliver_bodies_pdu|apply disconnect_no_bodies]. }
  destruct (_ =? ENQUIRE_LINK).
  { apply no_deliver_effects. intros s _. rewrite handle_enquire_link_run. eexists _, _.
    split_and!; [done|by apply deliver_bodies_pdu|done]. }
  destruct (_ =? SUBMIT_SM); [apply no_deliver_submit|].
  destruct (_ =? ENQUIRE_LINK_RESP).
  { apply no_deliver_effects. intros s _. rewrite handle_enquire_link_resp_run.
    destruct (_ && _); eexists _, _; (split_and!; [done|done|by destruct s]). }
  destruct (_ =? DELIVER_SM_RESP); [by intros s|].
  apply no_deliver_effects. intros s _. rewrite send_response_run by (simpl; lia). eexists _, _.
  split_and!; [done|by apply deliver_bodies_pdu|done].
Qed.

Lemma no_deliver_bind_seq {A B} (m : SM A) (k : A -> SM B) :
  no_deliver m -> (forall a, no_deliver (k a)) -> no_deliver (ebind m k).
Proof.
  intros Hm Hk s Hp. destruct (Hm s Hp) as [H1 H2]. unfold ebind.
  destruct (m s) as [[[a| |] s1] es1]; [|done..]. unfold run_effects, run_state in *. cbn [fst snd] in *.
  destruct (Hk a s1) as [H3 H4]; [unfold prefix_ok in *; by rewrite H2|].
  destruct (k a s1) as [[r s2] es2]. unfold run_effects, run_state in *. cbn [fst snd] in *.
  by rewrite deliver_bodies_app, H1, H3, H4.
Qed.

Lemma no_deliver_read : no_deliver read_header.
Proof. by intros s. Qed.

Lemma no_deliver_header e r : no_deliver (on_header e r).
Proof.
  destruct r as [msg|buf]; [apply no_deliver_disconnect|]. cbn [on_header].
  apply no_deliver_bind_seq; [by intros []|]. intros _.
  apply no_deliver_bind_seq; [by intros s|]. intros s0.
  apply no_deliver_bind_seq; [intros s; by destruct (decode_header _)|]. intros hdr.
  destruct (_ <? 16); [apply no_deliver_disconnect|]. unfold read_body.
  destruct (_ =? 0); [|by intros s].
  apply no_deliver_bind_seq; [apply no_deliver_dispatch|intros _; apply no_deliver_read].
Qed.

Lemma no_deliver_body e hdr r : no_deliver (on_body e hdr r).
Proof.
  destruct r as [msg|body]; [apply no_deliver_disconnect|].
  apply no_deliver_bind_seq; [apply no_deliver_dispatch|intros _; apply no_deliver_read].
Qed.

Lemma no_deliver_timer ec : no_deliver (on_enquire_link_timer ec).
Proof.
  apply no_deliver_effects. intros s _. rewrite on_enquire_link_timer_run. case_match.
  - by eexists _, _.
  - eexists _, _. split_and!; [done| |by destruct s].
    apply no_deliver_cons; [by apply deliver_bodies_pdu|done].
Qed.

Lemma no_deliver_timeout ec : no_deliver (on_enquire_link_timeout ec).
Proof.
  apply no_deliver_effects. intros s _. rewrite on_enquire_link_timeout_run. case_match.
  - eexists _, _. by rewrite disconnect_no_bodies, disconnected_params.
  - by eexists _, _.
Qed.

(** ** One step of a session *)

Abbreviation trace c := (w_trace (c_world c)).

Lemma interp_all_trace es w : w_trace (interp_all interp es w) = w_trace w ++ es.
Proof.
  revert w. induction es as [|e es IH]; intros w; [by rewrite app_nil_r|].
  cbn [interp_all foldl]. change (foldl _ ?g es) with (interp_all interp es g).
  by rewrite IH, w_trace_interp, <- app_assoc.
Qed.

Lemma exec_trace {A} (m : SM A) fl s w :
  w_trace (c_world (exec m fl s w)) = w_trace w ++ run_effects (m s).
Proof. unfold exec. destruct (m s) as [[r s'] es]. apply interp_all_trace. Qed.

(** The body of the PDU that delivers a message. *)
Definition deliver_body (m : cstring * cstring * cstring) : list byte :=
  let '(src, dst, msg) := m in deliver_sm_body src dst msg x00 x00 x00 x00.

(** What a session has delivered or has accepted for delivery. *)
Definition taken (c : config) : list (list byte) :=
  deliver_bodies (trace c) ++ (deliver_body <$> c_inflight c).

(** A check that [DeliverSm] passes takes a message on; no other event does. *)
Definition accepted (ev : event) (c : config) : list (cstring * cstring * cstring) :=
  match ev with
  | EvDeliverCheck src dst msg => if can_deliver (state_ (c_sess c)) then [(src, dst, msg)] else []
  | _ => []
  end.

Lemma taken_exec {A} (m : SM A) c w0 :
  inv c -> no_deliver m -> w_trace w0 = trace c ->
  taken (exec m (c_inflight c) (c_sess c) w0) = taken c.
Proof.
  intros Hi Hm Hw. unfold taken. rewrite exec_trace, Hw, deliver_bodies_app.
  rewrite (proj1 (Hm _ (core_prefix _ _ (settled_core _ _ (inv_settled _ Hi))))), app_nil_r.
  unfold exec. by destruct (m _) as [[? ?] ?].
Qed.

Lemma taken_send i src dst msg c :
  inv c -> c_inflight c !! i = Some (src, dst, msg) ->
  taken (exec (deliver_send src dst msg) (delete i (c_inflight c)) (c_sess c) (c_world c)) ≡ₚ taken c.
Proof.
  intros Hi Hl. pose proof (Forall_lookup_1 _ _ _ _ (inv_sized _ Hi) Hl) as Hs. cbn in Hs.
  unfold dbus_max in Hs. unfold taken. rewrite exec_trace, deliver_send_run by lia.
  unfold run_effects. cbn [snd]. rewrite deliver_bodies_app, deliver_bodies_deliver.
  replace (c_inflight (exec _ _ _ _)) with (delete i (c_inflight c))
    by (unfold exec; by destruct (deliver_send _ _ _ _) as [[? ?] ?]).
  rewrite <- app_assoc. apply Permutation_app_head.
  change (deliver_sm_body src dst msg x00 x00 x00 x00) with (deliver_body (src, dst, msg)).
  change ([deliver_body (src, dst, msg)] ++ ?l) with (deliver_body (src, dst, msg) :: l).
  rewrite <- fmap_cons. apply fmap_Permutation. symmetry. by apply delete_Permutation.
Qed.

Lemma activate_taken e ev c c' :
  inv c -> activate e ev c = Some c' ->
  taken c' ≡ₚ taken c ++ (deliver_body <$> accepted ev c).
Proof.
  intros Hi Ha. destruct ev as [r|r|i ec|i ec| |reason| |src dst msg|i]; cbn [activate accepted] in *;
    rewrite ?app_nil_r.
  - destruct (w_reads _) as [|[|hdr len] rs]; try done. destruct (read_result_ok 16 r); [|done].
    injection Ha as <-. by rewrite (taken_exec _ c _ Hi (no_deliver_header e r)).
  - destruct (w_reads _) as [|[|hdr len] rs]; try done. destruct (read_result_ok len r); [|done].
    injection Ha as <-. by rewrite (taken_exec _ c _ Hi (no_deliver_body e hdr r)).
  - destruct (_ !! i) as [live|]; [|done]. cbn in Ha. destruct (live && ec); [done|].
    injection Ha as <-. by rewrite (taken_exec _ c _ Hi (no_deliver_timer ec)).
  - destruct (_ !! i) as [live|]; [|done]. cbn in Ha. destruct (live && ec); [done|].
    injection Ha as <-. by rewrite (taken_exec _ c _ Hi (no_deliver_timeout ec)).
  - destruct (w_posted _) as [|reason ps]; [done|]. injection Ha as <-.
    by rewrite (taken_exec _ c _ Hi (no_deliver_disconnect reason)).
  - injection Ha as <-. rewrite (taken_exec _ c _ Hi); [done|by intros s|done].
  - injection Ha as <-. rewrite (taken_exec _ c _ Hi); [done|by intros s|done].
  - case_bool_decide; [|done]. unfold deliver_check, ebind, eget in Ha.
    destruct (can_deliver _); injection Ha as <-; [|by rewrite app_nil_r].
    unfold taken, exec. cbn. by rewrite fmap_app, app_assoc.
  - destruct (_ !! i) as [[[src dst] msg]|] eqn:Hl; [|done]. injection Ha as <-.
    by apply taken_send.
Qed.

(** The trace grows; an accepted [DeliverSm] call adds nothing to it. *)
Lemma activate_grows e ev c c' :
  activate e ev c = Some c' ->
  exists es, trace c' = trace c ++ es /\ (accepted ev c <> [] -> es = []).
Proof.
  intros Ha. destruct ev as [r|r|i ec|i ec| |reason| |src dst msg|i]; cbn [activate accepted] in *.
  8: { case_bool_decide; [|done]. exists []. rewrite app_nil_r.
       unfold deliver_check, ebind, eget in Ha. by destruct (can_deliver _); injection Ha as <-. }
  3,4: destruct (_ !! i) as [live|]; [|done]; cbn in Ha.
  8: destruct (_ !! i) as [[[src dst] msg]|]; [|done]; cbn in Ha.
  all: repeat case_match; try done; injection Ha as <-; rewrite exec_trace; by eexists.
Qed.

(** The parameters of a session never change. *)
Lemma exec_params {A} (m : SM A) fl c w :
  inv c -> no_deliver m -> params_ (c_sess (exec m fl (c_sess c) w)) = params_ (c_sess c).
Proof.
  intros Hi Hm. destruct (Hm _ (core_prefix _ _ (settled_core _ _ (inv_settled _ Hi)))) as [_ Hp].
  rewrite <- Hp. unfold exec. by destruct (m _) as [[? ?] ?].
Qed.

Lemma activate_params e ev c c' :
  inv c -> activate e ev c = Some c' -> params_ (c_sess c') = params_ (c_sess c).
Proof.
  intros Hi Ha. destruct ev as [r|r|i ec|i ec| |reason| |src dst msg|i]; cbn [activate] in *.
  - destruct (w_reads _) as [|[|hdr len] rs]; try done. destruct (read_result_ok 16 r); [|done].
    injection Ha as <-. apply (exec_params _ _ c _ Hi (no_deliver_header e r)).
  - destruct (w_reads _) as [|[|hdr len] rs]; try done. destruct (read_result_ok len r); [|done].
    injection Ha as <-. apply (exec_params _ _ c _ Hi (no_deliver_body e hdr r)).
  - destruct (_ !! i) as [live|]; [|done]. cbn in Ha. destruct (live && ec); [done|].
    injection Ha as <-. apply (exec_params _ _ c _ Hi (no_deliver_timer ec)).
  - destruct (_ !! i) as [live|]; [|done]. cbn in Ha. destruct (live && ec); [done|].
    injection Ha as <-. apply (exec_params _ _ c _ Hi (no_deliver_timeout ec)).
  - destruct (w_posted _) as [|reason ps]; [done|]. injection Ha as <-.
    apply (exec_params _ _ c _ Hi (no_deliver_disconnect reason)).
  - by injection Ha as <-.
  - by injection Ha as <-.
  - case_bool_decide; [|done]. repeat case_match; by injection Ha as <-.
  - destruct (_ !! i) as [[[src dst] msg]|] eqn:Hl; [|done]. injection Ha as <-.
    pose proof (Forall_lookup_1 _ _ _ _ (inv_sized _ Hi) Hl) as Hs. cbn in Hs. unfold dbus_max in Hs.
    unfold exec. rewrite deliver_send_run by lia. by destruct (c_sess c).
Qed.

(** UNBOUND is final. *)
Lemma unbound_stays e ev c c' :
  inv c -> activate e ev c = Some c' -> state_ (c_sess c) = UNBOUND -> state_ (c_sess c') = UNBOUND.
Proof.
  intros Hi Ha Hu. pose proof (inv_step c (e, ev) c' Hi Ha) as Hi'.
  pose proof (core_exit _ _ (settled_core _ _ (inv_settled _ Hi))) as Hx.
  pose proof (core_exit _ _ (settled_core _ _ (inv_settled _ Hi'))) as Hx'.
  destruct (activate_grows _ _ _ _ Ha) as (es & Htr & _). rewrite Htr in Hx'.
  unfold exits in *. rewrite omap_app, length_app in Hx'. rewrite decide_True in Hx by done.
  case_decide; [done|lia].
Qed.

(** A posted call stays posted until it runs, and ends the session. *)
Lemma interp_all_posted es w : exists ps, w_posted (interp_all interp es w) = w_posted w ++ ps.
Proof.
  revert w. induction es as [|e es IH]; intros w; [exists []; by rewrite app_nil_r|].
  cbn [interp_all foldl]. change (foldl _ ?g es) with (interp_all interp es g).
  destruct (IH (interp e w)) as [ps ->].
  assert (He : exists ps', w_posted (interp e w) = w_posted w ++ ps').
  { destruct w. destruct e; cbn; try (exists []; by rewrite app_nil_r). by eexists. }
  destruct He as [ps' ->]. exists (ps' ++ ps). by rewrite app_assoc.
Qed.

Lemma exec_posted {A} (m : SM A) fl s w r :
  r ∈ w_posted w -> r ∈ w_posted (c_world (exec m fl s w)).
Proof.
  intros Hr. unfold exec. destruct (m s) as [[o s'] es]. cbn.
  destruct (interp_all_posted es w) as [ps ->]. set_solver.
Qed.

Lemma posted_stays e ev c c' r :
  activate e ev c = Some c' -> r ∈ w_posted (c_world c) ->
  r ∈ w_posted (c_world c') \/ state_ (c_sess c') = UNBOUND.
Proof.
  intros Ha Hr. destruct ev as [x|x|i ec|i ec| |reason| |src dst msg|i]; cbn [activate] in Ha.
  5: { right. destruct (w_posted _) as [|reason ps]; [done|]. injection Ha as <-.
       unfold exec. rewrite do_disconnect_run. apply state_disconnected. }
  3,4: destruct (_ !! i) as [live|]; [|done]; cbn in Ha.
  8: destruct (_ !! i) as [[[src dst] msg]|]; [|done]; cbn in Ha.
  all: left; repeat case_match; try done; injection Ha as <-; try done; by apply exec_posted.
Qed.

(** ** A disconnection of a session that is over *)

Lemma disconnected_unbound s : state_ s = UNBOUND -> disconnected s = s.
Proof. intros H. unfold disconnected. by rewrite decide_True. Qed.
Lemma disconnect_effects_unbound reason s : state_ s = UNBOUND -> disconnect_effects reason s = [].
Proof. intros H. unfold disconnect_effects. by rewrite decide_True. Qed.
