(* ===== verification/SessionWire.v ===== *)
(** * SessionWire: the asynchronous operations of a session, its writes included

    [send_pdu] starts an [asio::async_write] and returns; the completion handler only logs.
    Here a configuration of [SessionSystem] is taken together with the number of writes that
    have not completed, and a read that was started on the closed socket can only fail.
    The file shows that a session that is over comes to rest, and that nothing in it keeps
    one write from starting before the last one has completed. *)

From S2P Require Import Prelude Pdu Throttle Session SessionSystem SessionTrace.
#[local] Open Scope Z_scope.

(** ** Configurations and steps *)

Record wire_config := {
  wr_config : config;
  wr_writes : nat   (* the writes started and not completed *)
}.

Inductive wire_event :=
| WSession (e : env) (ev : event)  (* an event of the session *)
| WWrite.                          (* a write completes, with or without an error *)

Definition is_read (e : effect) : bool :=
  match e with AsyncReadHeader | AsyncReadBody _ _ => true | _ => false end.

(** The last read was started after the socket was closed. *)
Fixpoint late_read (es : list effect) : bool :=
  match es with
  | [] => false
  | CloseSocket :: es => existsb is_read es
  | _ :: es => late_read es
  end.

(** The completion of a read of the closed socket is an error; one that was started before
    may have been queued with its octets when the socket was closed. *)
Definition read_allowed (ev : event) (c : config) : bool :=
  match ev with
  | EvHeader (inr _) | EvBody (inr _) => negb (late_read (trace c))
  | _ => true
  end.

(** The PDUs that the session has written when it went from [c] to [c']. *)
Definition new_writes (c c' : config) : list (list byte) :=
  writes (drop (length (trace c)) (trace c')).

Definition wire_activate (ev : wire_event) (w : wire_config) : option wire_config :=
  match ev with
  | WSession e ev =>
      if read_allowed ev (wr_config w) then
        c' ← activate e ev (wr_config w);
        Some {| wr_config := c';
                wr_writes := wr_writes w + length (new_writes (wr_config w) c') |}
      else None
  | WWrite =>
      match wr_writes w with
      | O => None
      | S n => Some {| wr_config := wr_config w; wr_writes := n |}
      end
  end.

Definition wire_step (w : wire_config) (ev : wire_event) (w' : wire_config) : Prop :=
  wire_activate ev w = Some w'.

(** [start] writes nothing. *)
Definition wire_init (w : wire_config) : Prop :=
  exists c, init c /\ w = {| wr_config := c; wr_writes := 0 |}.

Fixpoint wire_run (evs : list wire_event) (w : wire_config) : option wire_config :=
  match evs with
  | [] => Some w
  | ev :: evs => w' ← wire_activate ev w; wire_run evs w'
  end.

Lemma wire_run_reachable evs w w' :
  reachable wire_init wire_step w -> wire_run evs w = Some w' -> reachable wire_init wire_step w'.
Proof.
  revert w. induction evs as [|ev evs IH]; intros w Hw Hr; [by injection Hr as <-|].
  cbn [wire_run] in Hr. destruct (wire_activate ev w) as [w1|] eqn:Ha; [|done].
  apply (IH w1); [|done]. by eapply reachable_step.
Qed.

(** ** What the effects of an activation start *)

(** Effects that start an asynchronous operation. *)
Definition starts_op (e : effect) : bool :=
  match e with
  | AsyncReadHeader | AsyncReadBody _ _ | AsyncWrite _ | ArmElTimer _ | ArmElTimeout _
  | PostDisconnect _ => true
  | _ => false
  end.

Definition starts (es : list effect) : nat := length (List.filter starts_op es).

(** The operations outstanding in the event loop, writes apart. *)
Definition load (w : world) : nat :=
  length (w_reads w) + length (w_el w) + length (w_to w) + length (w_posted w).

Lemma starts_app es1 es2 : starts (es1 ++ es2) = (starts es1 + starts es2)%nat.
Proof. unfold starts. by rewrite List.filter_app, length_app. Qed.

Lemma writes_app es1 es2 : writes (es1 ++ es2) = writes es1 ++ writes es2.
Proof. apply omap_app. Qed.

Lemma writes_starts es : (length (writes es) <= starts es)%nat.
Proof. unfold starts, writes. induction es as [|[] es IH]; cbn in *; lia. Qed.

Lemma load_interp e w : (load (interp e w) + length (writes [e]) = load w + starts [e])%nat.
Proof.
  assert (Hl : forall ws, length (cancel_all ws) = length ws) by (intros; apply length_fmap).
  destruct w, e; unfold load, starts; cbn -[cancel_all]; rewrite ?length_app, ?Hl; cbn; lia.
Qed.

Lemma load_interp_all es w :
  (load (interp_all interp es w) + length (writes es) = load w + starts es)%nat.
Proof.
  revert w. induction es as [|e es IH]; intros w; [done|].
  cbn [interp_all foldl]. change (foldl _ ?g es) with (interp_all interp es g).
  change (e :: es) with ([e] ++ es). rewrite writes_app, starts_app, length_app.
  pose proof (IH (interp e w)). pose proof (load_interp e w). lia.
Qed.

Definition is_close (e : effect) : bool := match e with CloseSocket => true | _ => false end.

Lemma late_read_reads es : late_read es = true -> existsb is_read es = true.
Proof. induction es as [|[] es IH]; cbn; auto. Qed.

(** A read that follows the closing of the socket is late. *)
Lemma late_read_app es1 es2 :
  late_read (es1 ++ es2)
  = late_read es1 || late_read es2 || (existsb is_close es1 && existsb is_read es2).
Proof.
  pose proof (late_read_reads es2) as H2.
  induction es1 as [|e es1 IH]; [by rewrite orb_false_r|].
  destruct e; cbn; rewrite ?IH; try done.
  rewrite existsb_app.
  destruct (existsb is_read es1), (late_read es2), (existsb is_read es2); naive_solver.
Qed.

(** The session goes over to UNBOUND exactly when the socket is closed. *)
Definition closes (s s' : session) (es : list effect) : Prop :=
  if existsb is_close es then state_ s' = UNBOUND
  else state_ s' = UNBOUND -> state_ s = UNBOUND.

Lemma closes_disconnect reason s : closes s (disconnected s) (disconnect_effects reason s).
Proof.
  unfold closes, disconnect_effects. destruct (decide _) as [Hu|_]; [by cbn|]. apply state_disconnected.
Qed.

Lemma closes_same s s' es : existsb is_close es = false -> state_ s' = state_ s -> closes s s' es.
Proof. unfold closes. by intros -> ->. Qed.

Lemma closes_app s s' es1 es2 :
  existsb is_close es1 = false -> closes s s' es2 -> closes s s' (es1 ++ es2).
Proof. unfold closes. by rewrite existsb_app; intros ->. Qed.

Lemma closes_snoc s s' es1 es2 :
  existsb is_close es2 = false -> closes s s' es1 -> closes s s' (es1 ++ es2).
Proof. unfold closes. rewrite existsb_app. intros ->. by rewrite orb_false_r. Qed.

Lemma starts_disconnect reason s : starts (disconnect_effects reason s) = 0%nat.
Proof. unfold disconnect_effects. by case_decide. Qed.

(** The effects of a handler on a PDU: at most one operation is started. *)
Definition one_start (m : SM unit) (s : session) : Prop :=
  exists s' es, m s = (Ret (), s', es) /\ (starts es <= 1)%nat /\ closes s s' es.

Lemma one_start_response cid sts seq s : one_start (send_response cid sts seq []) s.
Proof.
  unfold one_start. rewrite send_response_run by (simpl; lia).
  eexists _, _. split_and!; [done|done|by apply closes_same].
Qed.

Lemma one_start_bind e hdr body s :
  command_id hdr ∈ [BIND_TRANSMITTER; BIND_RECEIVER; BIND_TRANSCEIVER] ->
  one_start (handle_bind e hdr body) s.
Proof.
  intros Hid. pose proof (handle_bind_run e hdr body s) as R. cbv zeta in R. unfold one_start.
  rewrite R. clear R.
  case_decide; [|eexists _, _; split_and!; [done|done|by apply closes_same]].
  destruct (default _ _) as [[] code]; eexists _, _; (split; [done|]).
  - split; [done|]. unfold closes. cbn [existsb is_close orb]. intros Hu. exfalso. revert Hu.
    rewrite !elem_of_cons, elem_of_nil in Hid. unfold bound_state.
    by destruct Hid as [-> | [-> | [-> | []]]]; destruct s.
  - change (?a :: ?b :: ?l) with ([a; b] ++ l). rewrite starts_app, starts_disconnect.
    split; [done|]. apply closes_app; [done|apply closes_disconnect].
Qed.

Lemma one_start_submit e hdr body s : prefix_ok s -> one_start (handle_submit_sm e hdr body) s.
Proof.
  intros Hp. pose proof (handle_submit_sm_run e hdr body s Hp) as R. cbv zeta in R.
  destruct (throttle_check _ _) as [allowed tb]. unfold one_start. rewrite R. clear R.
  destruct (can_submit (state_ s)); [destruct allowed|];
    (eexists _, _; split_and!; [done|done|apply closes_same; [done|by destruct s]]).
Qed.

Lemma one_start_dispatch e hdr body s : prefix_ok s -> one_start (dispatch e hdr body) s.
Proof.
  intros Hp. unfold dispatch. rewrite is_bind_elem. case_bool_decide; [by apply one_start_bind|].
  destruct (_ =? UNBIND).
  { unfold one_start; rewrite handle_unbind_run. eexists _, _. split; [done|].
    change (?a :: ?l) with ([a] ++ l). rewrite starts_app, starts_disconnect.
    split; [done|]. apply closes_app; [done|apply closes_disconnect]. }
  destruct (_ =? ENQUIRE_LINK); [apply one_start_response|].
  destruct (_ =? SUBMIT_SM); [by apply one_start_submit|].
  destruct (_ =? ENQUIRE_LINK_RESP).
  { unfold one_start; rewrite handle_enquire_link_resp_run.
    destruct (_ && _); eexists _, _; (split_and!; [done|vm_compute; lia|apply closes_same; [done|by destruct s]]). }
  destruct (_ =? DELIVER_SM_RESP); [|apply one_start_response].
  eexists _, _. split_and!; [done|vm_compute; lia|by apply closes_same].
Qed.

(** The completion of a read that succeeds: nothing is started, or a read is and with it at
    most one other operation. *)
Definition one_read (m : SM unit) (s : session) : Prop :=
  exists s' es, m s = (Ret (), s', es) /\ (length (writes es) <= 1)%nat /\ closes s s' es /\
    (starts es = 0%nat \/ existsb is_read es = true /\ (starts es <= 2)%nat).

Lemma one_read_dispatch e hdr body s :
  prefix_ok s -> one_read (dispatch e hdr body ;;; read_header)%eff s.
Proof.
  intros Hp. destruct (one_start_dispatch e hdr body s Hp) as (s' & es & Hr & Hs & Hc).
  exists s', (es ++ [AsyncReadHeader]). erewrite ebind_run by exact Hr.
  pose proof (writes_starts es). rewrite writes_app, length_app, starts_app, existsb_app.
  split_and!; [done|simpl; lia|by apply closes_snoc|]. right.
  split; [apply orb_true_r|]. vm_compute (starts [_]). lia.
Qed.

Lemma one_read_header e buf s :
  length buf = 16%nat -> prefix_ok s -> one_read (on_header e (inr buf)) s.
Proof.
  intros Hl Hp. destruct (decode_header_total buf) as (hdr & Hdec & _); [lia|].
  unfold one_read. cbn [on_header]. unfold ebind at 1 2. cbn [emodify eget].
  assert (Hh : header_buf_ (set_header_buf buf s) = buf) by (by destruct s).
  unfold ebind at 1. unfold edefined. rewrite Hh, Hdec.
  assert (Hs : state_ (set_header_buf buf s) = state_ s) by (by destruct s).
  assert (Hp' : prefix_ok (set_header_buf buf s)) by (by destruct s).
  set (s1 := set_header_buf buf s) in *.
  assert (H : one_read (if command_length hdr <? 16 then do_disconnect (str "invalid PDU length")
                        else read_body e hdr) s1).
  { destruct (_ <? 16).
    - unfold one_read; rewrite do_disconnect_run. eexists _, _. rewrite writes_disconnect.
      split_and!; [done|simpl; lia|apply closes_disconnect|]. left. apply starts_disconnect.
    - unfold read_body. destruct (_ =? 0); [by apply one_read_dispatch|].
      eexists _, _. split_and!; [done|simpl; lia|by apply closes_same|]. right. vm_compute; lia. }
  destruct H as (s' & es & -> & Hw & Hc & Hst). exists s', es. split_and!; [done|done| |done].
  unfold closes in *. by rewrite <- Hs.
Qed.

(** ** One step *)

Lemma exec_load {A} (m : SM A) fl s w :
  (load (c_world (exec m fl s w)) + length (writes (run_effects (m s)))
   = load w + starts (run_effects (m s)))%nat.
Proof. unfold exec. destruct (m s) as [[r s'] es]. apply load_interp_all. Qed.

Lemma exec_fields {A} (m : SM A) fl s w :
  c_sess (exec m fl s w) = run_state (m s) /\ c_inflight (exec m fl s w) = fl.
Proof. unfold exec. by destruct (m s) as [[r s'] es]. Qed.

(** What an activation adds to the trace: at most one write. *)
Definition one_write (c c' : config) : Prop :=
  exists es, trace c' = trace c ++ es /\ (length (writes es) <= 1)%nat /\
    closes (c_sess c) (c_sess c') es.

Lemma one_write_exec {A} (m : SM A) fl c w a s' es :
  w_trace w = trace c -> m (c_sess c) = (a, s', es) -> (length (writes es) <= 1)%nat ->
  closes (c_sess c) s' es -> one_write c (exec m fl (c_sess c) w).
Proof.
  intros Hw Hr Hl Hc. exists es. rewrite exec_trace, Hw.
  destruct (exec_fields m fl (c_sess c) w) as [-> _]. by rewrite Hr.
Qed.

Lemma one_write_read (m : SM unit) fl c w :
  w_trace w = trace c -> one_read m (c_sess c) -> one_write c (exec m fl (c_sess c) w).
Proof. intros Hw (s' & es & Hr & Hl & Hc & _). by eapply one_write_exec. Qed.

Lemma one_write_disconnect fl c w reason :
  w_trace w = trace c -> one_write c (exec (do_disconnect reason) fl (c_sess c) w).
Proof.
  intros Hw. eapply one_write_exec; [done|apply do_disconnect_run| |apply closes_disconnect].
  rewrite writes_disconnect. simpl. lia.
Qed.

Lemma one_write_step e ev c c' : inv c -> activate e ev c = Some c' -> one_write c c'.
Proof.
  intros Hi Ha. pose proof (core_prefix _ _ (settled_core _ _ (inv_settled _ Hi))) as Hp.
  destruct ev as [[r|r]|[r|r]|i ec|i ec| |reason| |src dst msg|i]; cbn [activate read_result_ok] in Ha.
  - destruct (w_reads _) as [|[|hdr len] rs]; try done. injection Ha as <-.
    by apply one_write_disconnect.
  - destruct (w_reads _) as [|[|hdr len] rs]; try done. case_bool_decide as Hl; [|done].
    injection Ha as <-. apply one_write_read; [done|]. apply one_read_header; [lia|done].
  - destruct (w_reads _) as [|[|hdr len] rs]; try done. injection Ha as <-.
    by apply one_write_disconnect.
  - destruct (w_reads _) as [|[|hdr len] rs]; try done. case_bool_decide as Hl; [|done].
    injection Ha as <-. apply one_write_read; [done|]. by apply one_read_dispatch.
  - destruct (_ !! i) as [live|]; [|done]. cbn in Ha. destruct (live && ec); [done|].
    injection Ha as <-. pose proof (on_enquire_link_timer_run ec (c_sess c)) as R.
    destruct (_ || _); (eapply one_write_exec; [done|exact R|simpl; lia|]);
      (apply closes_same; [done|by destruct (c_sess c)]).
  - destruct (_ !! i) as [live|]; [|done]. cbn in Ha. destruct (live && ec); [done|].
    injection Ha as <-. pose proof (on_enquire_link_timeout_run ec (c_sess c)) as R.
    destruct (_ && _); (eapply one_write_exec; [done|exact R| |]).
    + rewrite writes_disconnect. simpl. lia.
    + apply closes_disconnect.
    + simpl. lia.
    + by apply closes_same.
  - destruct (w_posted _) as [|reason ps]; [done|]. injection Ha as <-.
    by apply one_write_disconnect.
  - injection Ha as <-. eapply one_write_exec; [done|done|simpl; lia|by apply closes_same].
  - injection Ha as <-. eapply one_write_exec; [done|done|simpl; lia|by apply closes_same].
  - exists []. rewrite app_nil_r. case_bool_decide; [|done]. unfold deliver_check, ebind, eget in Ha.
    by destruct (can_deliver _); injection Ha as <-; (split_and!; [done|simpl; lia|apply closes_same]).
  - destruct (_ !! i) as [[[src dst] msg]|] eqn:Hl; [|done]. injection Ha as <-.
    pose proof (Forall_lookup_1 _ _ _ _ (inv_sized _ Hi) Hl) as Hs. cbn in Hs. unfold dbus_max in Hs.
    eapply one_write_exec; [done|apply deliver_send_run; lia|simpl; lia|].
    apply closes_same; [done|by destruct (c_sess c)].
Qed.

(** ** Every reachable configuration *)

(** The socket was closed exactly when the session is over. *)
Definition wire_ok (w : wire_config) : Prop :=
  inv (wr_config w) /\
  existsb is_close (trace (wr_config w)) = bool_decide (state_ (c_sess (wr_config w)) = UNBOUND).

Lemma wire_ok_init c : init c -> wire_ok {| wr_config := c; wr_writes := 0 |}.
Proof.
  intros Hc. split; [by apply inv_init|]. revert Hc.
  intros (uuid & ip & srv & auth & iv & to & mx & now & _ & _ & _ & ->). cbn [wr_config].
  unfold started. set (s := session_init _ _ _ _ _ _ _ _).
  destruct (exec_fields start [] s world_init) as [-> _]. rewrite exec_trace.
  unfold start, ebind, read_header, emit, eget. by destruct (0 <? _).
Qed.

Lemma wire_ok_step w e ev c' :
  wire_ok w -> activate e ev (wr_config w) = Some c' ->
  forall n, wire_ok {| wr_config := c'; wr_writes := n |}.
Proof.
  intros [Hi Hc] Ha n. split; [by apply (inv_step _ (e, ev) _ Hi Ha)|]. cbn.
  pose proof (unbound_stays _ _ _ _ Hi Ha) as Hst.
  destruct (one_write_step _ _ _ _ Hi Ha) as (es & -> & _ & Hcl).
  rewrite existsb_app, Hc. unfold closes in Hcl. destruct (existsb is_close es).
  - by rewrite orb_true_r, bool_decide_eq_true_2.
  - rewrite orb_false_r. apply bool_decide_ext. tauto.
Qed.

Lemma wire_inv w : reachable wire_init wire_step w -> wire_ok w.
Proof.
  apply invariant_rule.
  - intros ? (c & Hc & ->). by apply wire_ok_init.
  - intros w0 [e ev|] w1 _ Hw Hst; unfold wire_step in Hst; cbn [wire_activate] in Hst.
    + destruct (read_allowed _ _); [|done]. destruct (activate _ _ _) as [c'|] eqn:Ha; [|done].
      injection Hst as <-. by eapply wire_ok_step.
    + destruct (wr_writes w0); [done|]. by injection Hst as <-.
Qed.

Lemma new_writes_app c c' es : trace c' = trace c ++ es -> new_writes c c' = writes es.
Proof. intros Ht. unfold new_writes. by rewrite Ht, drop_app_length. Qed.

(** ** Winding down *)

(** The completion of an operation that is outstanding; the calls that other processes make
    are not. *)
Definition is_completion (ev : wire_event) : Prop :=
  match ev with
  | WWrite
  | WSession _ (EvHeader _ | EvBody _ | EvElTimer _ _ | EvElTimeout _ _ | EvPosted
                | EvDeliverSend _) => True
  | _ => False
  end.

(** Reads, waits, posted calls, writes, and the calls of [DeliverSm] that are in progress. *)
Definition outstanding (w : wire_config) : nat :=
  load (c_world (wr_config w)) + wr_writes w + length (c_inflight (wr_config w)).

(** A read that was started before the socket was closed. *)
Definition early_read (c : config) : bool :=
  negb (late_read (trace c)) && bool_decide (w_reads (c_world c) <> []).

(** What the outstanding operations may still start once the session is over: each
    [DeliverSm] a write; the early read a read, and a response or a wait. *)
Definition may_start (w : wire_config) : nat :=
  length (c_inflight (wr_config w)) + (if early_read (wr_config w) then 2 else 0).

Lemma length_delete_lookup {A} (l : list A) i x :
  l !! i = Some x -> length l = S (length (delete i l)).
Proof. intros H. apply delete_Permutation in H. by rewrite H at 1. Qed.

(** One more completion, and less to come. *)
Definition less (w w' : wire_config) : Prop :=
  (outstanding w' + may_start w' < outstanding w + may_start w)%nat.

(** A completion with no effect. *)
Lemma less_nothing {A} (m : SM A) c w0 n a s' :
  m (c_sess c) = (a, s', []) -> w_trace w0 = trace c -> load (c_world c) = S (load w0) ->
  w_reads w0 = [] \/ w_reads w0 = w_reads (c_world c) ->
  less {| wr_config := c; wr_writes := n |}
       {| wr_config := exec m (c_inflight c) (c_sess c) w0;
          wr_writes := n + length (new_writes c (exec m (c_inflight c) (c_sess c) w0)) |}.
Proof.
  intros Hm Ht Hl Hr. unfold exec. rewrite Hm. unfold less, outstanding, may_start, early_read, new_writes.
  cbn. rewrite Ht, drop_all. cbn. destruct (late_read _); cbn; [lia|].
  destruct Hr as [-> | ->]; [|lia]. rewrite bool_decide_eq_false_2 by auto. lia.
Qed.

(** A read that succeeds. *)
Lemma less_read (m : SM unit) c op rs n :
  one_read m (c_sess c) -> existsb is_close (trace c) = true -> late_read (trace c) = false ->
  w_reads (c_world c) = op :: rs ->
  let c' := exec m (c_inflight c) (c_sess c) (set_reads rs (c_world c)) in
  less {| wr_config := c; wr_writes := n |} {| wr_config := c'; wr_writes := n + length (new_writes c c') |}.
Proof.
  intros (s' & es & Hm & _ & _ & Hs) Hc Hlate Hr c'.
  pose proof (exec_load m (c_inflight c) (c_sess c) (set_reads rs (c_world c))) as Hl.
  pose proof (exec_trace m (c_inflight c) (c_sess c) (set_reads rs (c_world c))) as Ht.
  destruct (exec_fields m (c_inflight c) (c_sess c) (set_reads rs (c_world c))) as [_ Hfl].
  fold c' in Hl, Ht, Hfl. rewrite Hm in Hl, Ht. unfold run_effects in Hl, Ht. cbn [snd] in Hl, Ht.
  change (w_trace (set_reads _ _)) with (trace c) in Ht.
  assert (Hw : load (c_world c) = S (load (set_reads rs (c_world c)))) by (unfold load; by rewrite Hr).
  clearbody c'. unfold less, outstanding, may_start, early_read. cbn.
  rewrite (new_writes_app _ _ _ Ht), Hfl, Ht, Hlate, Hr, late_read_app, Hc, Hlate, Hw.
  rewrite (bool_decide_eq_true_2 (op :: rs <> [])) by done. cbn [negb andb].
  destruct Hs as [Hs|[Hrd Hs]]; [destruct (negb _ && _); lia|].
  rewrite Hrd. cbn [andb]. rewrite orb_true_r. cbn [negb andb]. lia.
Qed.

(** A delivery. *)
Lemma less_deliver c i src dst msg n :
  inv c -> c_inflight c !! i = Some (src, dst, msg) ->
  let c' := exec (deliver_send src dst msg) (delete i (c_inflight c)) (c_sess c) (c_world c) in
  less {| wr_config := c; wr_writes := n |} {| wr_config := c'; wr_writes := n + length (new_writes c c') |}.
Proof.
  intros Hi Hl c'. pose proof (Forall_lookup_1 _ _ _ _ (inv_sized _ Hi) Hl) as Hs. cbn in Hs.
  unfold dbus_max in Hs. pose proof (length_delete_lookup _ _ _ Hl) as Hd.
  unfold c', exec. rewrite deliver_send_run by lia.
  unfold less, outstanding, may_start, early_read, new_writes. cbn.
  rewrite w_trace_interp, drop_app_length, late_read_app. cbn. rewrite andb_false_r, !orb_false_r.
  destruct (c_world c) as [rs el to ps tr]. cbn. rewrite Hd. lia.
Qed.

Lemma completion_decreases w ev w' :
  wire_ok w -> state_ (c_sess (wr_config w)) = UNBOUND -> is_completion ev ->
  wire_activate ev w = Some w' -> less w w'.
Proof.
  destruct w as [c n]. intros [Hi Hc] Hu Hev Ha. cbn [wr_config wr_writes] in *. rewrite bool_decide_eq_true_2 in Hc by done.
  pose proof (core_prefix _ _ (settled_core _ _ (inv_settled _ Hi))) as Hp.
  destruct ev as [e ev|]; cbn [wire_activate wr_config wr_writes] in Ha.
  2: { destruct n as [|n]; [done|]. injection Ha as <-. unfold less, outstanding, may_start. cbn. lia. }
  destruct (settled_reads _ _ (inv_settled _ Hi)) as [Hone _].
  destruct ev as [[r|r]|[r|r]|i ec|i ec| |reason| |src dst msg|i]; try done;
    cbn [activate read_allowed read_result_ok] in Ha.
  1,3: destruct (w_reads _) as [|[|hdr len] rs] eqn:Hr; try done; injection Ha as <-;
    (eapply less_nothing; [cbn [on_header on_body]; rewrite do_disconnect_run, disconnect_effects_unbound by done; done
                          |done|unfold load; rewrite Hr; cbn; lia|]); left; destruct rs; [done|cbn in Hone; lia].
  1,2: destruct (late_read _) eqn:Hlate; [done|]; cbn [negb] in Ha;
    destruct (w_reads _) as [|[|hdr len] rs] eqn:Hr; try done; case_bool_decide; [|done];
    injection Ha as <-; eapply less_read; [|done..].
  - apply one_read_header; [lia|done].
  - by apply one_read_dispatch.
  - destruct (_ !! i) as [live|] eqn:Hl; [|done]. cbn in Ha. destruct (live && ec); [done|].
    injection Ha as <-. eapply less_nothing; [|done| |by right].
    + rewrite on_enquire_link_timer_run, (bool_decide_eq_true_2 _ Hu), orb_true_r. done.
    + unfold load. cbn. rewrite (length_delete_lookup _ _ _ Hl). lia.
  - destruct (_ !! i) as [live|] eqn:Hl; [|done]. cbn in Ha. destruct (live && ec); [done|].
    injection Ha as <-. eapply less_nothing; [|done| |by right].
    + rewrite on_enquire_link_timeout_run, disconnect_effects_unbound, disconnected_unbound by done.
      by destruct (negb ec && _).
    + unfold load. cbn. rewrite (length_delete_lookup _ _ _ Hl). lia.
  - destruct (w_posted _) as [|reason ps] eqn:Hps; [done|]. injection Ha as <-.
    eapply less_nothing; [|done| |by right].
    + rewrite do_disconnect_run, disconnect_effects_unbound by done. done.
    + unfold load. cbn. rewrite Hps. cbn. lia.
  - destruct (_ !! i) as [[[src dst] msg]|] eqn:Hl; [|done]. injection Ha as <-. by apply less_deliver.
Qed.

(** While something is outstanding some completion can happen. *)
Lemma completion_enabled w :
  (forall ev, is_completion ev -> wire_activate ev w = None) -> outstanding w = 0%nat.
Proof.
  destruct w as [[s [rs el to ps tr] fl cr] n]. intros H. unfold outstanding, load. cbn.
  destruct rs as [|[|hdr len] rs]; [|by specialize (H (WSession example_env (EvHeader (inl []))) I)
                                    |by specialize (H (WSession example_env (EvBody (inl []))) I)].
  destruct el as [|b el]; [|specialize (H (WSession example_env (EvElTimer 0 false)) I);
                            cbn in H; by rewrite andb_false_r in H].
  destruct to as [|b to]; [|specialize (H (WSession example_env (EvElTimeout 0 false)) I);
                            cbn in H; by rewrite andb_false_r in H].
  destruct ps as [|p ps]; [|by specialize (H (WSession example_env EvPosted) I)].
  destruct n as [|n]; [|by specialize (H WWrite I)].
  destruct fl as [|[[src dst] msg] fl]; [done|].
  by specialize (H (WSession example_env (EvDeliverSend 0)) I).
Qed.

Lemma wire_unbound_stays w ev w' :
  wire_ok w -> wire_activate ev w = Some w' ->
  state_ (c_sess (wr_config w)) = UNBOUND -> state_ (c_sess (wr_config w')) = UNBOUND.
Proof.
  intros [Hi _] Ha Hu. destruct ev as [e ev|]; cbn [wire_activate] in Ha.
  - destruct (read_allowed _ _); [|done]. destruct (activate _ _ _) as [c'|] eqn:Hc; [|done].
    injection Ha as <-. by apply (unbound_stays _ _ _ _ Hi Hc).
  - destruct (wr_writes w); [done|]. by injection Ha as <-.
Qed.

(** ** Pipelined requests *)

Lemma late_read_close es : existsb is_close es = false -> late_read es = false.
Proof. induction es as [|[] es IH]; cbn; auto; done. Qed.

Definition enquire_link (seq : Z) : list byte := pdu_octets ENQUIRE_LINK ESME_ROK seq [].
Definition enquire_link_resp (seq : Z) : list byte := pdu_octets ENQUIRE_LINK_RESP ESME_ROK seq [].

Lemma on_header_enquire_link e seq s :
  is_u32 seq ->
  on_header e (inr (enquire_link seq)) s
  = (Ret (), set_header_buf (enquire_link seq) s,
     [AsyncWrite (enquire_link_resp seq); AsyncReadHeader]).
Proof.
  intros Hq. cbn [on_header]. unfold ebind at 1 2. cbn [emodify eget].
  assert (Hh : forall buf, header_buf_ (set_header_buf buf s) = buf) by (by destruct s).
  unfold ebind at 1. unfold edefined, enquire_link. rewrite Hh, decode_short_pdu by (done || (simpl; lia)).
  rewrite length_pdu_octets. set (hdr := Build_Header _ _ _ _).
  change (if command_length hdr <? 16 then _ else _) with (handle_enquire_link hdr ;;; read_header)%eff.
  erewrite ebind_run by apply handle_enquire_link_run. done.
Qed.

(** The peer sends [enquire_link] requests without waiting for the responses. *)
Definition pipelined (e : env) (seqs : list Z) : list wire_event :=
  (fun seq => WSession e (EvHeader (inr (enquire_link seq)))) <$> seqs.

Lemma pipelined_step e seq w :
  wire_ok w -> is_u32 seq -> state_ (c_sess (wr_config w)) <> UNBOUND ->
  w_reads (c_world (wr_config w)) = [RdHeader] ->
  exists w', wire_activate (WSession e (EvHeader (inr (enquire_link seq)))) w = Some w' /\
    wr_writes w' = S (wr_writes w) /\ state_ (c_sess (wr_config w')) = state_ (c_sess (wr_config w)) /\
    w_reads (c_world (wr_config w')) = [RdHeader] /\
    writes (trace (wr_config w')) = writes (trace (wr_config w)) ++ [enquire_link_resp seq].
Proof.
  intros [_ Hc] Hq Hu Hr. rewrite bool_decide_eq_false_2 in Hc by done.
  assert (Hl : read_result_ok 16 (inr (enquire_link seq)) = true).
  { unfold read_result_ok, enquire_link. by rewrite length_pdu_octets. }
  assert (He : exec (on_header e (inr (enquire_link seq))) (c_inflight (wr_config w))
                 (c_sess (wr_config w)) (set_reads [] (c_world (wr_config w)))
               = {| c_sess := set_header_buf (enquire_link seq) (c_sess (wr_config w));
                    c_world := interp AsyncReadHeader (interp (AsyncWrite (enquire_link_resp seq))
                                 (set_reads [] (c_world (wr_config w))));
                    c_inflight := c_inflight (wr_config w); c_crashed := false |}).
  { unfold exec. by rewrite on_header_enquire_link. }
  eexists. cbn [wire_activate read_allowed activate]. rewrite (late_read_close _ Hc). cbn [negb].
  rewrite Hr, Hl. cbn [mbind option_bind]. split; [done|]. rewrite He. cbn [wr_writes wr_config c_sess c_world].
  destruct w as [[s [rs el to ps tr] fl cr] n]. cbn [wr_config c_world c_sess wr_writes trace] in *.
  split_and!; [|by destruct s|done|].
  - unfold new_writes. cbn. rewrite <- app_assoc, drop_app_length. cbn. lia.
  - cbn. rewrite !writes_app. cbn. by rewrite app_nil_r.
Qed.

Lemma pipelined_run e seqs w :
  wire_ok w -> Forall is_u32 seqs -> state_ (c_sess (wr_config w)) <> UNBOUND ->
  w_reads (c_world (wr_config w)) = [RdHeader] ->
  exists w', wire_run (pipelined e seqs) w = Some w' /\
    wr_writes w' = (wr_writes w + length seqs)%nat /\
    writes (trace (wr_config w')) = writes (trace (wr_config w)) ++ (enquire_link_resp <$> seqs).
Proof.
  revert w. induction seqs as [|seq seqs IH]; intros w Hw Hq Hu Hr.
  { exists w. rewrite app_nil_r. split_and!; [done|simpl; lia|done]. }
  apply Forall_cons in Hq as [Hq Hqs].
  destruct (pipelined_step e seq w Hw Hq Hu Hr) as (w1 & Ha & Hn & Hs & Hr1 & Ht).
  assert (Hw1 : wire_ok w1).
  { cbn [wire_activate] in Ha. destruct (read_allowed _ _); [|done].
    destruct (activate _ _ _) as [c'|] eqn:Hac; [|done]. injection Ha as <-. by eapply wire_ok_step. }
  destruct (IH w1 Hw1 Hqs) as (w' & Hrun & Hn' & Ht'); [by rewrite Hs|done|].
  exists w'. cbn [pipelined fmap list_fmap wire_run]. rewrite Ha. cbn [mbind option_bind].
  split_and!; [done|rewrite Hn', Hn; simpl; lia|]. rewrite Ht', Ht, <- app_assoc. done.
Qed.

(** ** Examples *)

Definition example_wire : wire_config := {| wr_config := example_init; wr_writes := 0 |}.

Lemma example_wire_reachable : reachable wire_init wire_step example_wire.
Proof.
  apply reachable_init. exists example_init. split; [|done]. repeat eexists; done.
Qed.

(** A session that is bound and has accepted a delivery when the answer to its
    [enquire_link] is overdue; its reads succeeded, no write has completed. *)
Definition example_over_events : list wire_event :=
  (fun '(e, ev) => WSession e ev) <$>
  (example_bound_events
   ++ [(example_env, EvDeliverCheck (str "esme2") (str "441234") (str "Hi"));
       (example_env, EvElTimer 0 false); (example_env, EvElTimeout 0 false)]).

Definition example_over : wire_config :=
  default example_wire (wire_run example_over_events example_wire).

Lemma example_over_reachable : reachable wire_init wire_step example_over.
Proof.
  apply (wire_run_reachable example_over_events example_wire); [apply example_wire_reachable|].
  by vm_compute.
Qed.

(** C11: A session that is over comes to rest.  From any reachable configuration whose
    session is UNBOUND, consider the completions of what is outstanding: the read (which may
    have been queued with its octets before the socket was closed), waits on timers, posted
    calls, writes, and calls of [DeliverSm] past their check.  Every run of completions has
    at most as many steps as there are operations outstanding plus those that they may still
    start (one write per delivery; for a read from before the closing, the next read and one
    response or wait), the session stays UNBOUND, and when no further completion is possible
    nothing is outstanding. *)
Theorem session_winds_down w evs w' :
  reachable wire_init wire_step w -> state_ (c_sess (wr_config w)) = UNBOUND ->
  Forall is_completion evs -> wire_run evs w = Some w' ->
  (length evs + outstanding w' <= outstanding w + may_start w)%nat /\
  state_ (c_sess (wr_config w')) = UNBOUND /\
  ((forall ev, is_completion ev -> wire_activate ev w' = None) -> outstanding w' = 0%nat).
Proof.
  intros Hr Hu Hev Hrun.
  assert (H : (length evs + outstanding w' + may_start w' <= outstanding w + may_start w)%nat /\
              state_ (c_sess (wr_config w')) = UNBOUND).
  { revert w Hr Hu Hev Hrun. induction evs as [|ev evs IH]; intros w Hr Hu Hev Hrun.
    { injection Hrun as <-. split; [simpl; lia|done]. }
    apply Forall_cons in Hev as [Hev Hevs]. cbn [wire_run] in Hrun.
    destruct (wire_activate ev w) as [w1|] eqn:Ha; [|done].
    pose proof (wire_inv _ Hr) as Hw.
    pose proof (completion_decreases _ _ _ Hw Hu Hev Ha) as Hless. unfold less in Hless.
    destruct (IH w1) as [Hb Hu']; [by eapply reachable_step|by eapply wire_unbound_stays|done..|].
    split; [simpl; lia|done]. }
  destruct H as [Hb Hu']. split_and!; [lia|done|apply completion_enabled].
Qed.

(** The overdue session has seven operations outstanding; the delivery is sent, the read that
    was queued brings one more request, and all writes complete: ten steps. *)
Definition example_rest_events : list wire_event :=
  [WSession example_env (EvDeliverSend 0);
   WSession example_env (EvHeader (inr (enquire_link 9)));
   WSession example_env (EvHeader (inl (str "Bad file descriptor")))]
  ++ repeat WWrite 7.

Definition example_rest : wire_config :=
  default example_wire (wire_run example_rest_events example_over).

Lemma session_winds_down_witness :
  (10 + outstanding example_rest <= 10)%nat /\
  state_ (c_sess (wr_config example_rest)) = UNBOUND /\
  ((forall ev, is_completion ev -> wire_activate ev example_rest = None) ->
   outstanding example_rest = 0%nat).
Proof.
  apply (session_winds_down example_over example_rest_events example_rest example_over_reachable).
  - by vm_compute.
  - repeat constructor.
  - by vm_compute.
Defined.

(** C33: Nothing keeps the writes of a session apart.  An activation starts at most one
    write; but none waits for the one before: in any reachable configuration that waits for
    a header and is not over, a peer that pipelines any number of [enquire_link] requests
    has each of them answered, in order, by a write that is started at once, so that with
    no completion in between the number of outstanding writes grows by the number of
    requests, without bound. *)
Theorem writes_not_serialised w :
  reachable wire_init wire_step w ->
  (forall ev w', wire_step w ev w' -> (wr_writes w' <= S (wr_writes w))%nat) /\
  (state_ (c_sess (wr_config w)) <> UNBOUND -> w_reads (c_world (wr_config w)) = [RdHeader] ->
   forall e seqs, Forall is_u32 seqs ->
   exists w', wire_run (pipelined e seqs) w = Some w' /\
     wr_writes w' = (wr_writes w + length seqs)%nat /\
     writes (trace (wr_config w'))
     = writes (trace (wr_config w)) ++ (enquire_link_resp <$> seqs)).
Proof.
  intros Hr. pose proof (wire_inv _ Hr) as Hw. split; [|intros; by apply pipelined_run].
  intros [e ev|] w' Hst; unfold wire_step in Hst; cbn [wire_activate] in Hst.
  - destruct (read_allowed _ _); [|done]. destruct (activate _ _ _) as [c'|] eqn:Ha; [|done].
    injection Hst as <-. destruct (one_write_step _ _ _ _ (proj1 Hw) Ha) as (es & Ht & Hl & _).
    cbn. rewrite (new_writes_app _ _ _ Ht). lia.
  - destruct (wr_writes w); [done|]. injection Hst as <-. simpl. lia.
Qed.

Lemma writes_not_serialised_witness :
  exists w', wire_run (pipelined example_env [1; 2; 3]) example_wire = Some w' /\
    wr_writes w' = 3%nat /\
    writes (trace (wr_config w')) = [enquire_link_resp 1; enquire_link_resp 2; enquire_link_resp 3].
Proof.
  apply (proj2 (writes_not_serialised example_wire example_wire_reachable)
           ltac:(by vm_compute) eq_refl example_env [1; 2; 3]).
  repeat constructor; done.
Defined.
