(* ===== verification/SessionThreads.v ===== *)
(** * SessionThreads: the two threads of a handler process, block by block

    [SessionSystem] runs a member function of the io thread without interruption.  Here the
    io thread runs it block by block, and the D-Bus thread may run between any two blocks.
    A block is what holds [state_mutex_], or one call to the outside, or one access to
    members that the io thread alone uses.  Both threads use [socket_] (a write is started
    by either, the io thread closes it), which the code does not synchronise: such a use is
    one block here, and what a data race inside asio could do is not modelled.  The theorems show that nothing is lost by
    [SessionSystem]: every interleaving has the outcome of an execution in which the
    activations of the io thread are atomic; only the order of the two threads' effects
    differs. *)

From S2P Require Import Prelude Pdu Throttle Session SessionSystem SessionTrace.
#[local] Open Scope Z_scope.
#[local] Open Scope eff_scope.

(** ** Code as a sequence of blocks *)

Inductive thread (A : Type) : Type :=
| TRet (a : A)
| TAtom {B : Type} (m : SM B) (k : B -> thread A).
Arguments TRet {A} a.
Arguments TAtom {A B} m k.

Definition atom {B} (m : SM B) : thread B := TAtom m TRet.

Fixpoint tbind {A B} (t : thread A) (k : A -> thread B) : thread B :=
  match t with
  | TRet a => k a
  | TAtom m k' => TAtom m (fun b => tbind (k' b) k)
  end.

Declare Scope thread_scope.
Delimit Scope thread_scope with thread.
Notation "x <~ t ;; k" := (tbind t (fun x => k))
  (at level 100, t at next level, right associativity) : thread_scope.
Notation "t ;~ k" := (tbind t (fun _ => k))
  (at level 100, right associativity) : thread_scope.
#[local] Open Scope thread_scope.

(** A block that reads members. *)
Definition egets {A} (f : session -> A) : SM A := s <- eget ;; eret (f s).

(** The blocks without interruption. *)
Fixpoint seq_run {A} (t : thread A) : SM A :=
  match t with
  | TRet a => eret a
  | TAtom m k => b <- m ;; seq_run (k b)
  end.

(** ** The member functions of the io thread *)

Definition t_do_disconnect (reason : cstring) : thread unit :=
  gone <~ atom (s <- eget ;;
                if decide (state_ s = UNBOUND) then eret true
                else emodify (set_state UNBOUND) ;;; eret false) ;;
  if gone : bool then TRet () else
  atom (emodify (set_socket_open false) ;;; emit CloseSocket) ;~
  pars <~ atom (egets params_) ;;
  atom (emit (EmitSessionExited (uuid_ pars) reason)).

Definition t_update_session_details : thread unit :=
  seen <~ atom (egets (fun s => (system_id_ s, state_name (state_ s)))) ;;
  pars <~ atom (egets params_) ;;
  atom (emit (CallUpdateSessionDetails (server_svc_ pars) (uuid_ pars) (fst seen) (snd seen))).

Definition t_on_enquire_link_timer (ec : bool) : thread unit :=
  pending <~ atom (egets el_pending_) ;;
  if ec || pending then TRet () else
  gone <~ atom (egets (fun s => bool_decide (state_ s = UNBOUND))) ;;
  if gone : bool then TRet () else
  atom (s <- eget ;;
        emodify (set_el_seq (if el_seq_ s =? 0 then 0x10000000 else u32 (el_seq_ s + 1)))) ;~
  atom (emodify (set_el_pending true)) ;~
  seq <~ atom (egets el_seq_) ;;
  atom (send_response ENQUIRE_LINK ESME_ROK seq []) ;~
  atom arm_enquire_link_timeout.

Definition t_handle_enquire_link_resp (hdr : Header) : thread unit :=
  ours <~ atom (egets (fun s => (sequence_number hdr =? el_seq_ s) && el_pending_ s)) ;;
  if ours : bool then
    atom (emodify (set_el_pending false)) ;~
    atom (emit CancelElTimeout) ;~
    atom schedule_enquire_link
  else TRet ().

Definition t_on_enquire_link_timeout (ec : bool) : thread unit :=
  if ec then TRet () else
  pending <~ atom (egets el_pending_) ;;
  if negb pending then TRet () else
  t_do_disconnect (str "enquire_link timeout").

Definition t_handle_bind (e : env) (hdr : Header) (body : list byte) : thread unit :=
  refused <~ atom (s <- eget ;;
                   if negb (bool_decide (state_ s = OPEN)) then
                     send_response (bind_resp_id (command_id hdr)) ESME_RALYBND
                       (sequence_number hdr) [] ;;;
                     eret true
                   else eret false) ;;
  if refused : bool then TRet () else
  let '(sid, off) := read_cstr body 0 default_max_len in
  let '(pass, off) := read_cstr body off default_max_len in
  pars <~ atom (egets params_) ;;
  let reply := @Authenticate (env_auth e) (uuid_ pars) sid pass (client_ip_ pars) in
  atom (emit (CallAuthenticate (auth_svc_ pars) (uuid_ pars) sid pass (client_ip_ pars) reply)) ;~
  let '(auth_ok, err_code) := default (false, ESME_RINVSYSID) reply in
  if negb auth_ok then
    atom (send_response (bind_resp_id (command_id hdr)) err_code (sequence_number hdr) []) ;~
    t_do_disconnect (str "auth failed")
  else
  atom (emodify (set_system_id sid) ;;;
        s <- eget ;;
        emodify (set_state (bound_state (command_id hdr) (state_ s))) ;;;
        emodify (set_bind_time (u64 (env_system_sec e)))) ;~
  atom (send_response (bind_resp_id (command_id hdr)) ESME_ROK (sequence_number hdr)
          (str "smpp-server")) ;~
  t_update_session_details.

Definition t_handle_unbind (hdr : Header) : thread unit :=
  atom (send_response UNBIND_RESP ESME_ROK (sequence_number hdr) []) ;~
  t_do_disconnect (str "unbind").

Definition t_handle_submit_sm (e : env) (hdr : Header) (body : list byte) : thread unit :=
  status <~ atom (egets (fun s => if can_submit (state_ s) then ESME_ROK else ESME_RINVBNDSTS)) ;;
  status <~ (if status =? ESME_ROK then
               allowed <~ atom (session_throttle_check e) ;;
               TRet (if allowed : bool then status else ESME_RTHROTTLED)
             else TRet status) ;;
  let sm := if status =? ESME_ROK then parse_submit_sm body else SubmitSm_init in
  msg_id <~ (if status =? ESME_ROK then atom next_message_id else TRet []) ;;
  atom (send_response SUBMIT_SM_RESP status (sequence_number hdr) msg_id) ;~
  if decide (msg_id = []) then TRet () else
  pars <~ atom (egets params_) ;;
  atom (emit (CallRouteMessage (server_svc_ pars) (src_addr sm) (dst_addr sm) (short_message sm) msg_id)).

Definition t_dispatch (e : env) (hdr : Header) (body : list byte) : thread unit :=
  let id := command_id hdr in
  if (id =? BIND_TRANSMITTER) || (id =? BIND_RECEIVER) || (id =? BIND_TRANSCEIVER) then
    t_handle_bind e hdr body
  else if id =? UNBIND then t_handle_unbind hdr
  else if id =? ENQUIRE_LINK then atom (handle_enquire_link hdr)
  else if id =? SUBMIT_SM then t_handle_submit_sm e hdr body
  else if id =? ENQUIRE_LINK_RESP then t_handle_enquire_link_resp hdr
  else if id =? DELIVER_SM_RESP then TRet ()
  else atom (send_response GENERIC_NACK ESME_RINVCMDID (sequence_number hdr) []).

Definition t_read_body (e : env) (hdr : Header) : thread unit :=
  let body_len := u32 (command_length hdr - 16) in
  if body_len =? 0 then t_dispatch e hdr [] ;~ atom read_header
  else atom (emit (AsyncReadBody hdr body_len)).

Definition t_on_header (e : env) (r : cstring + list byte) : thread unit :=
  match r with
  | inl msg => t_do_disconnect (str "socket closed: " ++ msg)
  | inr buf =>
      hdr <~ atom (emodify (set_header_buf buf) ;;;
                   s <- eget ;; edefined (decode_header (header_buf_ s))) ;;
      if command_length hdr <? 16 then t_do_disconnect (str "invalid PDU length")
      else t_read_body e hdr
  end.

Definition t_on_body (e : env) (hdr : Header) (r : cstring + list byte) : thread unit :=
  match r with
  | inl msg => t_do_disconnect (str "body read: " ++ msg)
  | inr body => t_dispatch e hdr body ;~ atom read_header
  end.

(** ** Two threads *)

(** Where the D-Bus thread is in a [DeliverSm] call that has passed its check: the sequence
    number, once it is taken, and the arguments. *)
Definition delivery : Type := option Z * (cstring * cstring * cstring).

Record tconfig := {
  t_sess : session;
  t_world : world;
  t_io : option (thread unit);   (* what is left of the activation of the io thread *)
  t_dbus : option delivery;
  t_crashed : bool
}.

(** The code that a completion starts on the io thread, as in [activate]. *)
Definition completion (e : env) (ev : event) (w : world) : option (thread unit * world) :=
  match ev with
  | EvHeader r =>
      match w_reads w with
      | RdHeader :: rs => if read_result_ok 16 r then Some (t_on_header e r, set_reads rs w) else None
      | _ => None
      end
  | EvBody r =>
      match w_reads w with
      | RdBody hdr len :: rs =>
          if read_result_ok len r then Some (t_on_body e hdr r, set_reads rs w) else None
      | _ => None
      end
  | EvElTimer i ec =>
      live ← w_el w !! i;
      if live && ec then None
      else Some (t_on_enquire_link_timer ec, set_el (delete i (w_el w)) w)
  | EvElTimeout i ec =>
      live ← w_to w !! i;
      if live && ec then None
      else Some (t_on_enquire_link_timeout ec, set_to (delete i (w_to w)) w)
  | EvPosted =>
      match w_posted w with
      | reason :: ps => Some (t_do_disconnect reason, set_posted ps w)
      | [] => None
      end
  | _ => None
  end.

Inductive tevent :=
| TIoTake (e : env) (ev : event)   (* the idle io thread takes up a completion *)
| TIoBlock                         (* the io thread runs its next block *)
| TDisconnect (reason : cstring)   (* the idle D-Bus thread runs Disconnect *)
| TGetSessionInfo                  (* ... or GetSessionInfo *)
| TDeliverCheck (src dst msg : cstring)  (* ... or the check of DeliverSm *)
| TDeliverNumber                   (* DeliverSm takes its sequence number *)
| TDeliverSend.                    (* DeliverSm starts the write and returns *)

(** A block of the io thread. *)
Definition io_block (t : thread unit) (f : tconfig) : tconfig :=
  match t with
  | TRet _ => {| t_sess := t_sess f; t_world := t_world f; t_io := None; t_dbus := t_dbus f;
                 t_crashed := t_crashed f |}
  | TAtom m k =>
      let '(r, s, es) := m (t_sess f) in
      {| t_sess := s; t_world := interp_all interp es (t_world f);
         t_io := match r with Ret b => Some (k b) | _ => None end;
         t_dbus := t_dbus f;
         t_crashed := match r with Ret _ => t_crashed f | _ => true end |}
  end.

(** A block of the D-Bus thread, after which it is at [d].  Exceptions go to the caller. *)
Definition dbus_block {A} (m : SM A) (d : A -> option delivery) (f : tconfig) : tconfig :=
  let '(r, s, es) := m (t_sess f) in
  {| t_sess := s; t_world := interp_all interp es (t_world f); t_io := t_io f;
     t_dbus := match r with Ret a => d a | _ => None end;
     t_crashed := match r with UB => true | _ => t_crashed f end |}.

Definition t_activate (ev : tevent) (f : tconfig) : option tconfig :=
  match ev with
  | TIoTake e ev =>
      match t_io f with
      | None =>
          '(t, w) ← completion e ev (t_world f);
          Some {| t_sess := t_sess f; t_world := w; t_io := Some t; t_dbus := t_dbus f;
                  t_crashed := t_crashed f |}
      | Some _ => None
      end
  | TIoBlock => t ← t_io f; Some (io_block t f)
  | TDisconnect reason =>
      match t_dbus f with
      | None => Some (dbus_block (Disconnect reason) (fun _ => None) f)
      | Some _ => None
      end
  | TGetSessionInfo =>
      match t_dbus f with
      | None => Some (dbus_block GetSessionInfo (fun _ => None) f)
      | Some _ => None
      end
  | TDeliverCheck src dst msg =>
      match t_dbus f with
      | None =>
          if bool_decide (Z.of_nat (length src + length dst + length msg) < dbus_max) then
            Some (dbus_block deliver_check (fun _ => Some (None, (src, dst, msg))) f)
          else None
      | Some _ => None
      end
  | TDeliverNumber =>
      match t_dbus f with
      | Some (None, m) => Some (dbus_block next_deliver_seq (fun n => Some (Some n, m)) f)
      | _ => None
      end
  | TDeliverSend =>
      match t_dbus f with
      | Some (Some n, (src, dst, msg)) =>
          Some (dbus_block (pdu <- edefined (make_deliver_sm n src dst msg x00 x00 x00 x00) ;;
                            send_pdu pdu) (fun _ => None) f)
      | _ => None
      end
  end.

Definition t_step (f : tconfig) (ev : tevent) (f' : tconfig) : Prop := t_activate ev f = Some f'.

Definition idle (c : config) : tconfig :=
  {| t_sess := c_sess c; t_world := c_world c; t_io := None; t_dbus := None;
     t_crashed := c_crashed c |}.

Definition t_init (f : tconfig) : Prop := exists c, init c /\ f = idle c.

(** ** The blocks, uninterrupted, are the member functions *)

Lemma seq_run_atom {B} (m : SM B) s : seq_run (atom m) s = m s.
Proof.
  unfold atom. cbn [seq_run]. unfold ebind, eret. destruct (m s) as [[[]  ] ]; rewrite ?app_nil_r; done.
Qed.

(** Uninterrupted, the first block runs and then the rest. *)
Lemma seq_run_tbind {A B} (t : thread A) (k : A -> thread B) s :
  seq_run (tbind t k) s = ebind (seq_run t) (fun a => seq_run (k a)) s.
Proof.
  revert s. induction t as [a|C m k' IH]; intros s; cbn [tbind seq_run].
  - unfold ebind, eret. by destruct (seq_run (k a) s) as [[]].
  - unfold ebind at 1 2 3. destruct (m s) as [[[c|x|] s1] es1]; [|done..].
    rewrite IH. unfold ebind at 1. destruct (seq_run (k' c) s1) as [[[a|x|] s2] es2]; [|done..].
    destruct (seq_run (k a) s2) as [[r s3] es3]. by rewrite app_assoc.
Qed.

Ltac run_blocks :=
  repeat first
    [ progress cbn [tbind seq_run atom]
    | progress unfold egets, ebind, eget, eret, emodify, emit, edefined, atom ].

Lemma t_do_disconnect_run reason s : seq_run (t_do_disconnect reason) s = do_disconnect reason s.
Proof.
  rewrite do_disconnect_run. unfold t_do_disconnect, disconnected, disconnect_effects. run_blocks.
  case_decide; [done|]. by destruct s.
Qed.


(** One block, then the rest. *)
Lemma seq_run_atom_then {A B} (m : SM B) (k : B -> thread A) s b s1 es1 :
  m s = (Ret b, s1, es1) ->
  seq_run (tbind (atom m) k) s
  = let '(r, s2, es2) := seq_run (k b) s1 in (r, s2, es1 ++ es2).
Proof. intros H. rewrite seq_run_tbind. by erewrite ebind_run by (by rewrite seq_run_atom). Qed.

Ltac block := erewrite seq_run_atom_then by
  lazymatch goal with
  | |- send_response _ _ _ _ _ = _ => apply send_response_run; vm_compute; lia
  | _ => done
  end.

Lemma t_update_run s : seq_run t_update_session_details s = update_session_details s.
Proof. done. Qed.

Lemma t_timer_run ec s : seq_run (t_on_enquire_link_timer ec) s = on_enquire_link_timer ec s.
Proof.
  rewrite on_enquire_link_timer_run. unfold t_on_enquire_link_timer. block.
  destruct (ec || el_pending_ s); [done|]. block.
  cbn [orb]. case_bool_decide; [done|]. do 4 block. by destruct s.
Qed.

Lemma t_enquire_link_resp_run hdr s :
  seq_run (t_handle_enquire_link_resp hdr) s = handle_enquire_link_resp hdr s.
Proof.
  rewrite handle_enquire_link_resp_run. unfold t_handle_enquire_link_resp. block.
  destruct (_ && _); [|done]. by destruct s.
Qed.

Lemma t_timeout_run ec s : seq_run (t_on_enquire_link_timeout ec) s = on_enquire_link_timeout ec s.
Proof.
  unfold t_on_enquire_link_timeout, on_enquire_link_timeout. destruct ec; [done|]. block.
  unfold ebind, eget. destruct (el_pending_ s); [|done]. cbn [negb].
  by rewrite t_do_disconnect_run.
Qed.

Lemma t_bind_run e hdr body s : seq_run (t_handle_bind e hdr body) s = handle_bind e hdr body s.
Proof.
  pose proof (handle_bind_run e hdr body s) as R. cbv zeta in R. rewrite R. clear R.
  unfold t_handle_bind. case_decide as Hs.
  - erewrite seq_run_atom_then.
    2: { unfold ebind, eget. by rewrite bool_decide_eq_true_2. }
    cbv iota. destruct (read_cstr body 0 default_max_len) as [sid off]. cbn [fst snd].
    destruct (read_cstr body off default_max_len) as [pass off']. cbn [fst snd].
    do 2 block. destruct (default _ _) as [[] code]; cbn [negb].
    + do 2 block. rewrite t_update_run. by destruct s.
    + block. by rewrite t_do_disconnect_run, do_disconnect_run.
  - erewrite seq_run_atom_then.
    2: { unfold ebind, eget. rewrite bool_decide_eq_false_2 by done. cbn [negb].
    by rewrite send_response_run by (simpl; lia). }
    done.
Qed.

Lemma t_submit_run e hdr body s :
  prefix_ok s -> seq_run (t_handle_submit_sm e hdr body) s = handle_submit_sm e hdr body s.
Proof.
  intros Hp. pose proof (handle_submit_sm_run e hdr body s Hp) as R. cbv zeta in R.
  destruct (throttle_check _ _) as [allowed tb] eqn:Et. rewrite R. clear R.
  unfold t_handle_submit_sm. block. destruct (can_submit (state_ s)).
  - change (ESME_ROK =? ESME_ROK) with true. cbv iota.
    rewrite seq_run_tbind. erewrite ebind_run.
    2: { erewrite seq_run_atom_then by (unfold session_throttle_check, ebind, eget; by rewrite Et).
         done. }
    cbv beta. destruct allowed.
    + change (ESME_ROK =? ESME_ROK) with true. cbv iota.
      assert (Hl := message_id_length (msg_id_prefix_ (params_ s)) _ (u32_range (msg_seq_ s + 1))).
      set (mid := message_id _ _) in *. unfold prefix_ok in Hp.
      erewrite seq_run_atom_then with (b := mid) (s1 := set_msg_seq (u32 (msg_seq_ s + 1)) (set_tb tb s)).
      2: { by destruct s. }
      assert (mid <> []) by (intros Hn; rewrite Hn in Hl; simpl in Hl; lia).
      erewrite seq_run_atom_then by (apply send_response_run; lia).
      rewrite decide_False by done. unfold response_body. rewrite decide_False by done. by destruct s.
    + change (ESME_RTHROTTLED =? ESME_ROK) with false. cbv iota. cbn [tbind]. by block.
  - do 2 (change (ESME_RINVBNDSTS =? ESME_ROK) with false; cbv iota; cbn [tbind]). by block.
Qed.

Lemma t_dispatch_run e hdr body s :
  prefix_ok s -> seq_run (t_dispatch e hdr body) s = dispatch e hdr body s.
Proof.
  intros Hp. unfold t_dispatch, dispatch.
  destruct (_ || _); [apply t_bind_run|].
  destruct (_ =? UNBIND).
  { unfold t_handle_unbind, handle_unbind. block. erewrite ebind_run by (apply send_response_run; simpl; lia).
    by rewrite t_do_disconnect_run. }
  destruct (_ =? ENQUIRE_LINK); [apply seq_run_atom|].
  destruct (_ =? SUBMIT_SM); [by apply t_submit_run|].
  destruct (_ =? ENQUIRE_LINK_RESP); [apply t_enquire_link_resp_run|].
  destruct (_ =? DELIVER_SM_RESP); [done|]. apply seq_run_atom.
Qed.

Lemma t_dispatch_then_read e hdr body s :
  prefix_ok s ->
  seq_run (t_dispatch e hdr body ;~ atom read_header) s = (dispatch e hdr body ;;; read_header) s.
Proof.
  intros Hp. rewrite seq_run_tbind. unfold ebind. by rewrite t_dispatch_run.
Qed.

(** The octets of a header, in its buffer and decoded. *)
Lemma header_block {B} buf (k : Header -> SM B) s :
  (emodify (set_header_buf buf) ;;; s <- eget ;; hdr <- edefined (decode_header (header_buf_ s)) ;; k hdr) s
  = match decode_header buf with
    | Some hdr => k hdr (set_header_buf buf s)
    | None => (UB, set_header_buf buf s, [])
    end.
Proof.
  unfold ebind, emodify, eget, edefined. replace (header_buf_ _) with buf by by destruct s.
  destruct (decode_header buf) as [hdr|]; [|done]. by destruct (k hdr _) as [[]].
Qed.

Lemma t_on_header_run e r s : prefix_ok s -> seq_run (t_on_header e r) s = on_header e r s.
Proof.
  intros Hp. destruct r as [msg|buf]; [apply t_do_disconnect_run|]. unfold t_on_header, on_header.
  rewrite header_block, seq_run_tbind.
  transitivity ((emodify (set_header_buf buf) ;;; s <- eget ;;
    hdr <- edefined (decode_header (header_buf_ s)) ;;
    seq_run (if command_length hdr <? 16 then t_do_disconnect (str "invalid PDU length")
             else t_read_body e hdr)) s).
  { unfold ebind at 1. rewrite seq_run_atom. unfold ebind, emodify, eget, edefined.
    destruct (decode_header _); [|done]. by destruct (seq_run _ _) as [[]]. }
  rewrite header_block. destruct (decode_header buf) as [hdr|]; [|done].
  destruct (_ <? 16); [apply t_do_disconnect_run|]. unfold t_read_body, read_body.
  destruct (_ =? 0); [|apply seq_run_atom]. apply t_dispatch_then_read. by destruct s.
Qed.

Lemma t_on_body_run e hdr r s : prefix_ok s -> seq_run (t_on_body e hdr r) s = on_body e hdr r s.
Proof.
  destruct r; [intros; apply t_do_disconnect_run|]. apply t_dispatch_then_read.
Qed.

(** ** What the D-Bus thread sees, and what it touches *)

(** The members that the D-Bus thread reads. *)
Definition observed (s : session) : params * cstring * SessionState * Z :=
  (params_ s, system_id_ s, state_ s, bind_time_ s).

(** The effects of the D-Bus thread: posted calls and [deliver_sm] PDUs. *)
Definition of_dbus (e : effect) : bool :=
  match e with
  | PostDisconnect _ => true
  | AsyncWrite pdu => negb (bool_decide (deliver_seqs [AsyncWrite pdu] = []))
  | _ => false
  end.

Definition io_effects (es : list effect) : list effect := filter (fun e => of_dbus e = false) es.
Definition dbus_effects (es : list effect) : list effect := filter (fun e => of_dbus e = true) es.

(** Worlds that differ in how the effects of the two threads are interleaved. *)
Record weq (w w' : world) : Prop := {
  weq_reads : w_reads w = w_reads w';
  weq_el : w_el w = w_el w';
  weq_to : w_to w = w_to w';
  weq_posted : w_posted w = w_posted w';
  weq_io : io_effects (w_trace w) = io_effects (w_trace w');
  weq_dbus : dbus_effects (w_trace w) = dbus_effects (w_trace w')
}.

#[export] Instance weq_equiv : Equivalence weq.
Proof.
  split.
  - by intros w.
  - intros w w' []. by constructor.
  - intros w1 w2 w3 [] []. constructor; congruence.
Qed.

#[export] Instance interp_weq : Proper (eq ==> weq ==> weq) interp.
Proof.
  intros e _ <- w w' [H1 H2 H3 H4 H5 H6]. unfold io_effects, dbus_effects in *.
  destruct w as [rs el to ps tr], w' as [rs' el' to' ps' tr']. cbn in *. subst.
  destruct e; constructor; cbn; unfold io_effects, dbus_effects; rewrite ?filter_app, ?H5, ?H6; done.
Qed.

#[export] Instance interp_all_weq : Proper (eq ==> weq ==> weq) (interp_all interp).
Proof.
  intros es _ <-. induction es as [|e es IH]; intros w w' Hw; [done|]. cbn.
  apply IH. by apply interp_weq.
Qed.

(** Effects of different threads commute. *)
Lemma weq_swap d e w :
  of_dbus d = true -> of_dbus e = false -> weq (interp e (interp d w)) (interp d (interp e w)).
Proof.
  intros Hd He. destruct w as [rs el to ps tr].
  constructor.
  1-4: destruct d; try done; destruct e; done.
  all: unfold io_effects, dbus_effects; rewrite !w_trace_interp, !filter_app, <- !app_assoc;
    rewrite !filter_cons, !filter_nil; repeat case_decide; first [done | congruence].
Qed.

Lemma weq_swap_all ds es w :
  Forall (fun d => of_dbus d = true) ds -> Forall (fun e => of_dbus e = false) es ->
  weq (interp_all interp es (interp_all interp ds w)) (interp_all interp ds (interp_all interp es w)).
Proof.
  intros Hds Hes. revert w. induction Hds as [|d ds Hd Hds IH]; intros w; [done|].
  change (interp_all interp (d :: ds) ?w) with (interp_all interp ds (interp d w)).
  rewrite IH. apply interp_all_weq; [done|]. clear IH. revert w.
  induction Hes as [|e es He Hes IH]; intros w; [done|].
  change (interp_all interp (e :: es) ?w) with (interp_all interp es (interp e w)).
  rewrite <- IH. apply interp_all_weq; [done|]. by apply weq_swap.
Qed.

(** A block that neither reads nor writes [deliver_seq_]. *)
Definition frame {B} (m : SM B) : Prop :=
  forall s x, m (set_deliver_seq x s)
    = let '(r, s', es) := m s in (r, set_deliver_seq x s', es).

(** Code of the io thread that returns, leaves what the D-Bus thread sees as it is and
    what the D-Bus thread uses alone. *)
Fixpoint calm {A} (t : thread A) (s : session) : Prop :=
  match t with
  | TRet _ => True
  | TAtom m k =>
      frame m /\
      match m s with
      | (Ret b, s', es) =>
          observed s' = observed s /\ Forall (fun e => of_dbus e = false) es /\ calm (k b) s'
      | _ => False
      end
  end.

(** Likewise, but one block may change what the D-Bus thread sees. *)
Fixpoint commits {A} (t : thread A) (s : session) : Prop :=
  match t with
  | TRet _ => True
  | TAtom m k =>
      frame m /\
      match m s with
      | (Ret b, s', es) =>
          Forall (fun e => of_dbus e = false) es /\
          (observed s' = observed s /\ commits (k b) s' \/ calm (k b) s')
      | _ => False
      end
  end.

Lemma calm_commits {A} (t : thread A) s : calm t s -> commits t s.
Proof.
  revert s. induction t as [a|B m k IH]; intros s; [done|]. cbn [calm commits]. intros [Hf Hm].
  split; [done|]. destruct (m s) as [[[b| |] s'] es]; [|done..].
  destruct Hm as (Ho & He & Hc). split; [done|]. left. auto.
Qed.

Lemma calm_tbind {A B} (t : thread A) (k : A -> thread B) s :
  calm t s -> (forall a s', calm (k a) s') -> calm (tbind t k) s.
Proof.
  intros Ht Hk. revert s Ht. induction t as [a|C m k' IH]; intros s; [by intros; apply Hk|].
  cbn [calm tbind]. intros [Hf Hm]. split; [done|].
  destruct (m s) as [[[b| |] s'] es]; [|done..]. destruct Hm as (Ho & He & Hc). auto.
Qed.

Lemma commits_tbind {A B} (t : thread A) (k : A -> thread B) s :
  commits t s -> (forall a s', calm (k a) s') -> commits (tbind t k) s.
Proof.
  intros Ht Hk. revert s Ht. induction t as [a|C m k' IH]; intros s.
  { intros _. by apply calm_commits, Hk. }
  cbn [commits tbind]. intros [Hf Hm]. split; [done|].
  destruct (m s) as [[[b| |] s'] es]; [|done..].
  destruct Hm as [He [[Ho Hc]|Hc]]; (split; [done|]); [left; auto|right]. by apply calm_tbind.
Qed.

Lemma observed_deliver_seq x s : observed (set_deliver_seq x s) = observed s.
Proof. by destruct s. Qed.

(** Such code runs to its end, whatever the D-Bus thread has done to [deliver_seq_]. *)
Lemma commits_run {A} (t : thread A) s :
  commits t s -> exists a s' es, Forall (fun e => of_dbus e = false) es /\
    forall x, seq_run t (set_deliver_seq x s) = (Ret a, set_deliver_seq x s', es).
Proof.
  revert s. induction t as [a|B m k IH]; intros s.
  { intros _. by exists a, s, []. }
  cbn [commits]. intros [Hf Hm]. destruct (m s) as [[[b| |] s1] es1] eqn:Em; [|done..].
  destruct Hm as [He Hc].
  destruct (IH b s1) as (a & s' & es & Hes & Hr); [destruct Hc as [[_ Hc]|Hc]; [done|by apply calm_commits]|].
  exists a, s', (es1 ++ es). split; [by apply Forall_app|]. intros x. cbn [seq_run].
  unfold ebind. by rewrite Hf, Em, Hr.
Qed.

(** ** The code of the io thread commits at most once *)

Lemma io_response cid sts seq body :
  u32 cid <> DELIVER_SM -> of_dbus (AsyncWrite (pdu_octets cid sts seq body)) = false.
Proof. intros H. cbn [of_dbus]. by rewrite bool_decide_eq_true_2 by by apply quiet_pdu. Qed.

Lemma frame_send_response cid sts seq sid : frame (send_response cid sts seq sid).
Proof. intros s x. unfold send_response, ebind, edefined, send_pdu, emit. by destruct (make_response _ _ _ _). Qed.

Lemma frame_throttle e : frame (session_throttle_check e).
Proof.
  intros s x. unfold session_throttle_check, ebind, eget, emodify, eret.
  replace (tb_ (set_deliver_seq x s)) with (tb_ s) by by destruct s.
  destruct (throttle_check _ _). by destruct s.
Qed.

Lemma frame_header buf :
  frame (emodify (set_header_buf buf) ;;; s <- eget ;; edefined (decode_header (header_buf_ s))).
Proof.
  intros s x. unfold ebind, eget, emodify, edefined. destruct s. cbn. by destruct (decode_header buf).
Qed.

Create HintDb threads.
Lemma state_deliver_seq x s : state_ (set_deliver_seq x s) = state_ s.
Proof. by destruct s. Qed.

Lemma frame_gone :
  frame (s <- eget ;; if decide (state_ s = UNBOUND) then eret true
                      else emodify (set_state UNBOUND) ;;; eret false).
Proof.
  intros s x. unfold ebind, eget. rewrite state_deliver_seq. case_decide; by destruct s.
Qed.

Lemma frame_refused cid sts seq :
  frame (s <- eget ;; if negb (bool_decide (state_ s = OPEN)) then send_response cid sts seq [] ;;; eret true
                      else eret false).
Proof.
  intros s x. unfold ebind, eget. rewrite state_deliver_seq. case_bool_decide; cbn [negb]; [done|].
  rewrite frame_send_response. by destruct (send_response _ _ _ _ s) as [[[]]].
Qed.

#[local] Hint Resolve frame_gone frame_refused : threads.
#[local] Hint Resolve frame_send_response frame_throttle frame_header io_response : threads.
#[local] Hint Extern 5 (frame _) => by (intros [] ?; unfold ebind; cbn; repeat case_match) : threads.
#[local] Hint Extern 1 (Forall _ []) => constructor : threads.
#[local] Hint Extern 1 (Forall _ (_ :: _)) => constructor : threads.
#[local] Hint Extern 2 (of_dbus _ = false) => reflexivity : threads.

Section Atoms.
Context {A B : Type} (m : SM B) (k : B -> thread A).

Lemma calm_atom s b s' es :
  frame m -> m s = (Ret b, s', es) -> observed s' = observed s ->
  Forall (fun e => of_dbus e = false) es -> calm (k b) s' -> calm (tbind (atom m) k) s.
Proof. intros Hf Hm Ho He Hk. cbn. rewrite Hm. auto. Qed.

Lemma commits_atom s b s' es :
  frame m -> m s = (Ret b, s', es) -> observed s' = observed s ->
  Forall (fun e => of_dbus e = false) es -> commits (k b) s' -> commits (tbind (atom m) k) s.
Proof. intros Hf Hm Ho He Hk. cbn. rewrite Hm. auto. Qed.

Lemma commits_here s b s' es :
  frame m -> m s = (Ret b, s', es) -> Forall (fun e => of_dbus e = false) es ->
  calm (k b) s' -> commits (tbind (atom m) k) s.
Proof. intros Hf Hm He Hk. cbn. rewrite Hm. auto. Qed.
End Atoms.

Lemma calm_last {B} (m : SM B) s b s' es :
  frame m -> m s = (Ret b, s', es) -> observed s' = observed s ->
  Forall (fun e => of_dbus e = false) es -> calm (atom m) s.
Proof. intros Hf Hm Ho He. cbn. by rewrite Hm. Qed.

Ltac run_block :=
  lazymatch goal with
  | |- send_response _ _ _ _ _ = _ => apply send_response_run; vm_compute; lia
  | _ => reflexivity
  end.
Ltac same_observed := solve [reflexivity | match goal with s : session |- _ => by destruct s end].

Ltac io_only := cbn [app]; by auto with threads.

(** A block that changes nothing for the D-Bus thread. *)
Ltac calm_block := eapply calm_atom; [by auto with threads|run_block|same_observed|io_only|].
Ltac calm_end := eapply calm_last; [by auto with threads|run_block|same_observed|io_only].
Ltac io_atom := eapply commits_atom; [by auto with threads|run_block|same_observed|io_only|].

Lemma calm_read s : calm (atom read_header) s.
Proof. calm_end. Qed.

Lemma commits_disconnect reason s : commits (t_do_disconnect reason) s.
Proof.
  unfold t_do_disconnect. destruct (decide (state_ s = UNBOUND)) as [Hu|Hu].
  - by eapply commits_here;
      [auto with threads|unfold ebind, eget; by rewrite decide_True|io_only|].
  - eapply commits_here; [auto with threads|unfold ebind, eget; by rewrite decide_False|io_only|].
    cbv iota. calm_block. calm_block. calm_end.
Qed.

Lemma commits_timer ec s : commits (t_on_enquire_link_timer ec) s.
Proof.
  unfold t_on_enquire_link_timer. io_atom. destruct (ec || el_pending_ s); [done|].
  io_atom. case_bool_decide; [done|]. io_atom. io_atom. io_atom. io_atom.
  apply calm_commits. calm_end.
Qed.

Lemma commits_timeout ec s : commits (t_on_enquire_link_timeout ec) s.
Proof.
  unfold t_on_enquire_link_timeout. destruct ec; [done|]. io_atom.
  destruct (el_pending_ s); [|done]. apply commits_disconnect.
Qed.

Lemma commits_bind e hdr body s :
  command_id hdr ∈ [BIND_TRANSMITTER; BIND_RECEIVER; BIND_TRANSCEIVER] ->
  commits (t_handle_bind e hdr body) s.
Proof.
  intros Hid. assert (Hr : u32 (bind_resp_id (command_id hdr)) <> DELIVER_SM).
  { rewrite !elem_of_cons, elem_of_nil in Hid. by destruct Hid as [-> | [-> | [-> | []]]]. }
  unfold t_handle_bind. destruct (decide (state_ s = OPEN)) as [Ho|Ho].
  - eapply commits_atom; [auto with threads|unfold ebind, eget; by rewrite bool_decide_eq_true_2|done|io_only|].
    cbv iota. destruct (read_cstr body 0 default_max_len) as [sid off].
    destruct (read_cstr body off default_max_len) as [pass off'].
    io_atom. io_atom. destruct (default _ _) as [[] code]; cbn [negb].
    + eapply commits_here; [by auto with threads|run_block|io_only|].
      calm_block. unfold t_update_session_details. calm_block. calm_block. calm_end.
    + io_atom. apply commits_disconnect.
  - eapply commits_atom; [auto with threads| |done| |].
    { unfold ebind, eget. rewrite bool_decide_eq_false_2 by done. cbn [negb].
      by rewrite send_response_run by (simpl; lia). }
    { io_only. }
    done.
Qed.

Lemma commits_submit e hdr body s : prefix_ok s -> commits (t_handle_submit_sm e hdr body) s.
Proof.
  intros Hp. unfold t_handle_submit_sm. io_atom. cbv beta.
  assert (Hq : u32 SUBMIT_SM_RESP <> DELIVER_SM) by done.
  destruct (can_submit (state_ s)).
  - change (ESME_ROK =? ESME_ROK) with true. cbv iota.
    destruct (throttle_check (env_steady_ns e) (tb_ s)) as [allowed tb] eqn:Et.
    cbn [tbind atom]. split; [by auto with threads|].
    unfold session_throttle_check, ebind at 1, eget at 1. rewrite Et. cbn [ebind emodify eret].
    split; [by auto with threads|]. left. split; [by destruct s|].
    destruct allowed.
    + change (ESME_ROK =? ESME_ROK) with true. cbv iota.
      assert (Hl := message_id_length (msg_id_prefix_ (params_ s)) _ (u32_range (msg_seq_ s + 1))).
      unfold prefix_ok in Hp.
      eapply (commits_atom _ _ _ (message_id (msg_id_prefix_ (params_ s)) (u32 (msg_seq_ s + 1))));
        [by auto with threads|by destruct s|by destruct s|io_only|].
      eapply commits_atom; [by auto with threads|apply send_response_run; lia|by destruct s|io_only|].
      case_decide; [done|]. io_atom. apply calm_commits. calm_end.
    + change (ESME_RTHROTTLED =? ESME_ROK) with false. cbv iota. cbn [tbind]. by io_atom.
  - do 2 (change (ESME_RINVBNDSTS =? ESME_ROK) with false; cbv iota; cbn [tbind]). by io_atom.
Qed.

Lemma commits_dispatch e hdr body s : prefix_ok s -> commits (t_dispatch e hdr body) s.
Proof.
  intros Hp. unfold t_dispatch. rewrite is_bind_elem. case_bool_decide; [by apply commits_bind|].
  destruct (_ =? UNBIND); [unfold t_handle_unbind; io_atom; apply commits_disconnect|].
  destruct (_ =? ENQUIRE_LINK); [apply calm_commits; calm_end|].
  destruct (_ =? SUBMIT_SM); [by apply commits_submit|].
  destruct (_ =? ENQUIRE_LINK_RESP).
  { unfold t_handle_enquire_link_resp. io_atom. destruct (_ && _); [|done].
    io_atom. io_atom. apply calm_commits. calm_end. }
  destruct (_ =? DELIVER_SM_RESP); [done|]. apply calm_commits. calm_end.
Qed.

Lemma commits_on_header e r s :
  prefix_ok s -> read_result_ok 16 r = true -> commits (t_on_header e r) s.
Proof.
  intros Hp Hr. destruct r as [msg|buf]; [apply commits_disconnect|]. cbn [t_on_header].
  apply bool_decide_eq_true in Hr. destruct (decode_header_total buf) as (hdr & Hdec & _); [lia|].
  apply (commits_atom _ _ _ hdr (set_header_buf buf s) []); [by auto with threads| |by destruct s|io_only|].
  { unfold ebind, emodify, eget, edefined. replace (header_buf_ _) with buf by by destruct s.
    by rewrite Hdec. }
  destruct (_ <? 16); [apply commits_disconnect|]. unfold t_read_body. destruct (_ =? 0).
  - apply commits_tbind; [|intros _ s'; apply calm_read]. apply commits_dispatch. by destruct s.
  - apply calm_commits. calm_end.
Qed.

Lemma commits_on_body e hdr r s : prefix_ok s -> commits (t_on_body e hdr r) s.
Proof.
  intros Hp. destruct r as [msg|body]; [apply commits_disconnect|].
  apply commits_tbind; [by apply commits_dispatch|intros _ s'; apply calm_read].
Qed.


(** ** The simulation *)

Lemma exec_ext {A} (m m' : SM A) fl s w : m s = m' s -> exec m fl s w = exec m' fl s w.
Proof. intros H. unfold exec. by rewrite H. Qed.

(** A completion runs the code that [activate] runs. *)
Lemma completion_activate e ev c t w :
  prefix_ok (c_sess c) -> completion e ev (c_world c) = Some (t, w) ->
  activate e ev c = Some (exec (seq_run t) (c_inflight c) (c_sess c) w) /\ commits t (c_sess c).
Proof.
  intros Hp Hc. destruct ev as [r|r|i ec|i ec| |reason| |src dst msg|i]; cbn [completion activate] in *;
    try done.
  - destruct (w_reads _) as [|[|] rs]; [done| |done]. destruct (read_result_ok 16 r) eqn:Hr; [|done].
    injection Hc as <- <-. split; [|by apply commits_on_header].
    f_equal. apply exec_ext. by rewrite t_on_header_run.
  - destruct (w_reads _) as [|[|hdr len] rs]; [done..|]. destruct (read_result_ok len r) eqn:Hr; [|done].
    injection Hc as <- <-. split; [|by apply commits_on_body].
    f_equal. apply exec_ext. by rewrite t_on_body_run.
  - destruct (w_el _ !! i) as [live|]; [|done]. cbn [mbind option_bind] in *. destruct (live && ec); [done|].
    injection Hc as <- <-. split; [|apply commits_timer].
    f_equal. apply exec_ext. by rewrite t_timer_run.
  - destruct (w_to _ !! i) as [live|]; [|done]. cbn [mbind option_bind] in *. destruct (live && ec); [done|].
    injection Hc as <- <-. split; [|apply commits_timeout].
    f_equal. apply exec_ext. by rewrite t_timeout_run.
  - destruct (w_posted _) as [|reason ps]; [done|].
    injection Hc as <- <-. split; [|apply commits_disconnect].
    f_equal. apply exec_ext. by rewrite t_do_disconnect_run.
Qed.

Lemma completion_weq e ev w w' t w1 :
  weq w w' -> completion e ev w = Some (t, w1) ->
  exists w1', completion e ev w' = Some (t, w1') /\ weq w1 w1'.
Proof.
  intros [H1 H2 H3 H4 H5 H6] Hc. destruct w as [rs el to ps tr], w' as [rs' el' to' ps' tr'].
  cbn in *. subst. destruct ev as [r|r|i ec|i ec| |reason| |src dst msg|i]; cbn in *; try done.
  3: destruct (el' !! i) as [live|]; [|done]; cbn in *.
  4: destruct (to' !! i) as [live|]; [|done]; cbn in *.
  all: repeat case_match; try done; injection Hc as <- <-; eexists; (split; [done|]); by constructor.
Qed.

(** The effects of the D-Bus thread do not disturb a completion. *)
Lemma completion_dbus e ev w t w1 ds :
  Forall (fun d => of_dbus d = true) ds -> completion e ev w = Some (t, w1) ->
  completion e ev (interp_all interp ds w) = Some (t, interp_all interp ds w1).
Proof.
  intros Hds. revert w w1. induction Hds as [|d ds Hd Hds IH]; intros w w1 Hc; [done|].
  cbn. apply IH. clear IH Hds. destruct w as [rs el to ps tr].
  destruct d; try done;
    (destruct ev as [r|r|i ec|i ec| |rs'| |src dst msg|i]; cbn in *; try done;
     [ ..| | ]).
  all: try (destruct (el !! i) as [live|]; [|done]; cbn in * ).
  all: try (destruct (to !! i) as [live|]; [|done]; cbn in * ).
  all: repeat case_match; simplify_eq/=; done.
Qed.

(** The sequence numbers and the calls in flight, here and in [SessionSystem]: there a
    number is taken when the PDU is written. *)
Definition numbers (d : option delivery) (nf nc : Z) (fl : list (cstring * cstring * cstring)) : Prop :=
  match d with
  | None => nf = nc /\ fl = []
  | Some (None, m) => nf = nc /\ fl = [m]
  | Some (Some n, m) => nf = u32 (n + 1) /\ nc = n /\ fl = [m]
  end.

(** Equal but for the sequence number of the next delivery. *)
Definition same_but_seq (s s' : session) : Prop := s = set_deliver_seq (deliver_seq_ s) s'.

Lemma set_deliver_seq_id s : set_deliver_seq (deliver_seq_ s) s = s.
Proof. by destruct s. Qed.
Lemma set_deliver_seq_twice x y s : set_deliver_seq x (set_deliver_seq y s) = set_deliver_seq x s.
Proof. by destruct s. Qed.
Lemma deliver_seq_set x s : deliver_seq_ (set_deliver_seq x s) = x.
Proof. by destruct s. Qed.

#[export] Instance same_but_seq_equiv : Equivalence same_but_seq.
Proof.
  unfold same_but_seq. split.
  - intros s. by rewrite set_deliver_seq_id.
  - intros s s' H. rewrite H. by rewrite set_deliver_seq_twice, set_deliver_seq_id.
  - intros s1 s2 s3 H1 H2. rewrite H2, set_deliver_seq_twice in H1. done.
Qed.

Lemma same_but_seq_set x s : same_but_seq (set_deliver_seq x s) s.
Proof. unfold same_but_seq. by rewrite deliver_seq_set. Qed.

#[export] Instance observed_proper : Proper (same_but_seq ==> eq) observed.
Proof. intros s s' ->. apply observed_deliver_seq. Qed.

Definition by_dbus (ev : tevent) : bool :=
  match ev with TIoTake _ _ | TIoBlock => false | _ => true end.

(** A block of the D-Bus thread, matched by an event of [SessionSystem] or by none. *)
Lemma dbus_move ev f f' c :
  by_dbus ev = true -> t_activate ev f = Some f' ->
  reachable init step c -> observed (t_sess f) = observed (c_sess c) ->
  numbers (t_dbus f) (deliver_seq_ (t_sess f)) (deliver_seq_ (c_sess c)) (c_inflight c) ->
  exists c' ds, reachable init step c' /\ t_io f' = t_io f /\ t_crashed f' = t_crashed f /\
    Forall (fun d => of_dbus d = true) ds /\
    same_but_seq (t_sess f') (t_sess f) /\ t_world f' = interp_all interp ds (t_world f) /\
    same_but_seq (c_sess c') (c_sess c) /\ c_world c' = interp_all interp ds (c_world c) /\
    numbers (t_dbus f') (deliver_seq_ (t_sess f')) (deliver_seq_ (c_sess c')) (c_inflight c').
Proof.
  intros Hev Ha Hr Ho Hn. pose proof (reachable_inv _ Hr) as [_ _ Hsz].
  assert (Hstep : forall ev c', activate example_env ev c = Some c' -> reachable init step c').
  { intros ev0 c' Hc. by apply (reachable_step _ _ c (example_env, ev0)). }
  destruct ev as [e ev| |reason| |src dst msg| |]; try done; cbn [t_activate] in Ha.
  - destruct (t_dbus f); [done|]. injection Ha as <-. eexists _, [PostDisconnect reason].
    split; [by apply (Hstep (EvDisconnect reason))|]. split_and!; try done. by apply Forall_singleton.
  - destruct (t_dbus f); [done|]. injection Ha as <-. by exists c, [].
  - destruct (t_dbus f); [done|]. destruct Hn as [Hn Hfl]. case_bool_decide as Hb; [|done].
    injection Ha as <-. unfold dbus_block, deliver_check, ebind, eget.
    assert (Hs : state_ (t_sess f) = state_ (c_sess c)) by by injection Ho.
    destruct (can_deliver (state_ (t_sess f))) eqn:Hcd.
    + eexists _, []. split.
      { apply (Hstep (EvDeliverCheck src dst msg)). cbn [activate]. rewrite bool_decide_eq_true_2 by done.
        unfold deliver_check, ebind, eget. rewrite <- Hs, Hcd. reflexivity. }
      cbn. rewrite Hfl. split_and!; done.
    + exists c, []. split_and!; done.
  - destruct (t_dbus f) as [[[n|] m]|]; [done| |done]. injection Ha as <-.
    destruct Hn as [Hn Hfl]. exists c, []. unfold dbus_block, next_deliver_seq, ebind, eget, emodify, eret. cbn.
    rewrite deliver_seq_set, <- Hn. split_and!; try done. apply same_but_seq_set.
  - destruct (t_dbus f) as [[[n|] [[src dst] msg]]|]; [|done..]. injection Ha as <-.
    destruct Hn as (Hn & Hnc & Hfl). rewrite Hfl in Hsz. unfold sized in Hsz. rewrite Forall_singleton in Hsz.
    cbv beta iota in Hsz. unfold dbus_max in Hsz.
    assert (Hu : is_u32 n).
    { rewrite <- Hnc, (core_deliver_seq _ _ (settled_core _ _ (inv_settled _ (reachable_inv _ Hr)))).
      apply u32_range. }
    unfold dbus_block. rewrite make_deliver_sm_octets by lia.
    pose proof (deliver_seqs_deliver n (deliver_sm_body src dst msg x00 x00 x00 x00) Hu) as Hd.
    eexists _, [AsyncWrite (pdu_octets DELIVER_SM ESME_ROK n (deliver_sm_body src dst msg x00 x00 x00 x00))].
    split. { apply (Hstep (EvDeliverSend 0)). cbn [activate]. rewrite Hfl. reflexivity. }
    unfold exec. rewrite deliver_send_run by lia. rewrite Hnc.
    set (pdu := pdu_octets _ _ _ _) in *.
    assert (Hod : of_dbus (AsyncWrite pdu) = true).
    { cbn [of_dbus]. rewrite bool_decide_eq_false_2; [done|]. by rewrite Hd. }
    clearbody pdu. cbn -[of_dbus]. rewrite deliver_seq_set.
    split_and!; try done; [by apply Forall_singleton|apply same_but_seq_set].
Qed.

(** The io thread is idle; or it is in an activation that has not yet changed what the
    D-Bus thread sees, and [SessionSystem] has not started it; or in one that changes it no
    more, and [SessionSystem] has finished it. *)
Inductive sim (f : tconfig) (c : config) : Prop :=
| sim_idle :
    t_io f = None -> same_but_seq (t_sess f) (c_sess c) -> weq (t_world f) (c_world c) -> sim f c
| sim_before e ev t0 w0 t s es :
    t_io f = Some t -> completion e ev (c_world c) = Some (t0, w0) ->
    (forall x, seq_run t0 (set_deliver_seq x (c_sess c))
               = let '(r, s', es') := seq_run t (set_deliver_seq x s) in (r, s', es ++ es')) ->
    commits t s -> observed s = observed (c_sess c) -> Forall (fun e => of_dbus e = false) es ->
    same_but_seq (t_sess f) s -> weq (t_world f) (interp_all interp es w0) -> sim f c
| sim_after t s es :
    t_io f = Some t -> calm t (t_sess f) ->
    (forall x, seq_run t (set_deliver_seq x (t_sess f)) = (Ret (), set_deliver_seq x s, es)) ->
    Forall (fun e => of_dbus e = false) es -> same_but_seq s (c_sess c) ->
    weq (interp_all interp es (t_world f)) (c_world c) -> sim f c.

Definition related (f : tconfig) (c : config) : Prop :=
  reachable init step c /\ t_crashed f = false /\
  numbers (t_dbus f) (deliver_seq_ (t_sess f)) (deliver_seq_ (c_sess c)) (c_inflight c) /\
  sim f c.

Lemma calm_run {A} (t : thread A) s :
  calm t s -> exists a s' es, Forall (fun e => of_dbus e = false) es /\ observed s' = observed s /\
    forall x, seq_run t (set_deliver_seq x s) = (Ret a, set_deliver_seq x s', es).
Proof.
  revert s. induction t as [a|B m k IH]; intros s.
  { intros _. by exists a, s, []. }
  cbn [calm]. intros [Hf Hm]. destruct (m s) as [[[b| |] s1] es1] eqn:Em; [|done..].
  destruct Hm as (Ho & He & Hc). destruct (IH b s1 Hc) as (a & s' & es & Hes & Ho' & Hr).
  exists a, s', (es1 ++ es). split; [by apply Forall_app|]. split; [congruence|]. intros x. cbn [seq_run].
  unfold ebind. by rewrite Hf, Em, Hr.
Qed.

(** The D-Bus thread sees the same in related configurations. *)
Lemma sim_observed f c : sim f c -> observed (t_sess f) = observed (c_sess c).
Proof.
  intros [Hio Hs Hw|e ev t0 w0 t s es Hio Hcm Hrun Hc Ho He Hs Hw|t s es Hio Hc Hrun He Hs Hw].
  - by rewrite Hs.
  - by rewrite Hs.
  - destruct (calm_run _ _ Hc) as (a & s' & es' & _ & Ho & Hr). rewrite <- Hs, <- Ho.
    specialize (Hrun 0). rewrite Hr in Hrun. injection Hrun as _ Hs' _.
    by rewrite <- (observed_deliver_seq 0 s'), Hs', observed_deliver_seq.
Qed.

Lemma calm_proper {A} (t : thread A) x s : calm t s -> calm t (set_deliver_seq x s).
Proof.
  revert s. induction t as [a|B m k IH]; intros s; [done|]. cbn [calm]. intros [Hf Hm].
  split; [done|]. rewrite Hf. destruct (m s) as [[[b| |] s1] es1]; [|done..].
  destruct Hm as (Ho & He & Hc). rewrite !observed_deliver_seq. auto.
Qed.

Lemma commits_proper {A} (t : thread A) x s : commits t s -> commits t (set_deliver_seq x s).
Proof.
  revert s. induction t as [a|B m k IH]; intros s; [done|]. cbn [commits]. intros [Hf Hm].
  split; [done|]. rewrite Hf. destruct (m s) as [[[b| |] s1] es1]; [|done..].
  destruct Hm as [He Hc]. rewrite !observed_deliver_seq. split; [done|].
  destruct Hc as [[Ho Hc]|Hc]; [left; auto|right]. by apply calm_proper.
Qed.

Lemma set_deliver_same x s s' : same_but_seq s s' -> set_deliver_seq x s = set_deliver_seq x s'.
Proof. intros ->. apply set_deliver_seq_twice. Qed.

(** Blocks of the D-Bus thread keep the configurations related. *)
Lemma related_dbus ev f f' c :
  by_dbus ev = true -> t_activate ev f = Some f' -> related f c -> exists c', related f' c'.
Proof.
  intros Hev Ha (Hr & Hcr & Hn & Hsim).
  destruct (dbus_move _ _ _ _ Hev Ha Hr (sim_observed _ _ Hsim) Hn)
    as (c' & ds & Hr' & Hio' & Hcr' & Hds & Hsf & Hwf & Hsc & Hwc & Hn').
  exists c'. split_and!; [done|congruence|done|]. clear Hn Hn' Ha.
  destruct Hsim as [Hio Hs Hw|e ev0 t0 w0 t s es Hio Hcm Hrun Hc Ho He Hs Hw|t s es Hio Hc Hrun He Hs Hw].
  - apply sim_idle; [congruence| |].
    + by rewrite Hsf, Hsc.
    + rewrite Hwf, Hwc. by apply interp_all_weq.
  - apply (sim_before _ _ e ev0 t0 (interp_all interp ds w0) t s es); try done; [congruence|..].
    + rewrite Hwc. by apply completion_dbus.
    + intros x. by rewrite (set_deliver_same x _ _ Hsc).
    + by rewrite Hsc.
    + by rewrite Hsf.
    + rewrite Hwf, Hw. symmetry. by apply weq_swap_all.
  - apply (sim_after _ _ t s es); try done; [congruence|..].
    + rewrite Hsf. by apply calm_proper.
    + intros x. by rewrite (set_deliver_same x _ _ Hsf).
    + by rewrite Hsc.
    + rewrite Hwf, Hwc, weq_swap_all by done. by apply interp_all_weq.
Qed.

Lemma reachable_prefix c : reachable init step c -> prefix_ok (c_sess c).
Proof. intros Hr. apply (core_prefix _ _ (settled_core _ _ (inv_settled _ (reachable_inv _ Hr)))). Qed.

(** The io thread takes up a completion. *)
Lemma related_take e ev f f' c :
  t_activate (TIoTake e ev) f = Some f' -> related f c -> exists c', related f' c'.
Proof.
  intros Ha (Hr & Hcr & Hn & Hsim). cbn [t_activate] in Ha.
  destruct (t_io f) eqn:Hio; [done|]. destruct (completion e ev (t_world f)) as [[t w]|] eqn:Hc; [|done].
  injection Ha as <-. exists c. split_and!; [done..|].
  destruct Hsim as [_ Hs Hw|e0 ev0 t0 w0 t' s es Hio'|t' s es Hio']; [|congruence..].
  destruct (completion_weq _ _ _ _ _ _ Hw Hc) as (w' & Hc' & Hw').
  destruct (completion_activate _ _ _ _ _ (reachable_prefix _ Hr) Hc') as [_ Hcm].
  apply (sim_before _ _ e ev t w' t (c_sess c) []); try done.
  intros x. by destruct (seq_run t _) as [[]].
Qed.

(** [SessionSystem] runs the activation that the io thread is in. *)
Lemma activate_whole e ev c t0 w0 s es :
  reachable init step c -> completion e ev (c_world c) = Some (t0, w0) ->
  seq_run t0 (c_sess c) = (Ret (), s, es) ->
  exists c', reachable init step c' /\ c_sess c' = s /\ c_world c' = interp_all interp es w0 /\
    c_inflight c' = c_inflight c.
Proof.
  intros Hr Hc Hrun. destruct (completion_activate _ _ _ _ _ (reachable_prefix _ Hr) Hc) as [Ha _].
  eexists. split; [by apply (reachable_step _ _ c (e, ev))|]. unfold exec. by rewrite Hrun.
Qed.

Lemma seq_run_TAtom {A B} (m : SM B) (k : B -> thread A) s b s1 es1 :
  m s = (Ret b, s1, es1) ->
  seq_run (TAtom m k) s = let '(r, s2, es2) := seq_run (k b) s1 in (r, s2, es1 ++ es2).
Proof. intros H. cbn [seq_run]. by erewrite ebind_run. Qed.

(** A block before the change. *)
Lemma related_before e ev f c t0 w0 t s es :
  related f c -> t_io f = Some t -> completion e ev (c_world c) = Some (t0, w0) ->
  (forall x, seq_run t0 (set_deliver_seq x (c_sess c))
             = let '(r, s', es') := seq_run t (set_deliver_seq x s) in (r, s', es ++ es')) ->
  commits t s -> observed s = observed (c_sess c) -> Forall (fun e => of_dbus e = false) es ->
  same_but_seq (t_sess f) s -> weq (t_world f) (interp_all interp es w0) ->
  exists c', related (io_block t f) c'.
Proof.
  intros (Hr & Hcr & Hn & _) Hio Hcm Hrun Hc Ho He Hs Hw.
  pose proof (Hrun (deliver_seq_ (c_sess c))) as Hnow. rewrite set_deliver_seq_id in Hnow.
  destruct t as [[]|B m k].
  - cbn [seq_run] in Hnow. unfold eret in Hnow. rewrite app_nil_r in Hnow.
    destruct (activate_whole _ _ _ _ _ _ _ Hr Hcm Hnow) as (c' & Hr' & Hs' & Hw' & Hfl').
    exists c'. split_and!; [done..| |].
    + by rewrite Hs', Hfl', deliver_seq_set.
    + apply sim_idle; cbn; [done| |by rewrite Hw'].
      rewrite Hs', Hs. symmetry. apply same_but_seq_set.
  - cbn [commits] in Hc. destruct Hc as [Hf Hm].
    destruct (m s) as [[[b| |] s1] es1] eqn:Em; [|done..]. destruct Hm as [He1 Hm].
    cbn [io_block]. rewrite Hs, Hf, Em. set (y := deliver_seq_ (t_sess f)) in *.
    assert (Hstep : forall x, seq_run (TAtom m k) (set_deliver_seq x s)
              = let '(r, s2, es2) := seq_run (k b) (set_deliver_seq x s1) in (r, s2, es1 ++ es2)).
    { intros x. apply seq_run_TAtom. by rewrite Hf, Em. }
    destruct Hm as [[Ho1 Hc]|Hc].
    + exists c. split_and!; cbn; [done..| |]; [by rewrite deliver_seq_set|].
      apply (sim_before _ _ e ev t0 w0 (k b) s1 (es ++ es1)); cbn; try done; [|congruence|..].
      * intros x. rewrite Hrun, Hstep. destruct (seq_run (k b) _) as [[r s2] es2]. by rewrite app_assoc.
      * by apply Forall_app.
      * apply same_but_seq_set.
      * rewrite interp_all_app. by apply interp_all_weq.
    + destruct (calm_run _ _ Hc) as ([] & s2 & es2 & He2 & Ho2 & Hr2).
      rewrite Hstep, Hr2 in Hnow.
      destruct (activate_whole _ _ _ _ _ _ _ Hr Hcm Hnow) as (c' & Hr' & Hs' & Hw' & Hfl').
      exists c'. split_and!; cbn; [done..| |].
      { by rewrite Hs', Hfl', !deliver_seq_set. }
      apply (sim_after _ _ (k b) s2 es2); cbn; try done.
      * by apply calm_proper.
      * intros x. by rewrite set_deliver_seq_twice.
      * rewrite Hs'. symmetry. apply same_but_seq_set.
      * rewrite Hw', !interp_all_app. by do 2 (apply interp_all_weq; [done|]).
Qed.

(** A block after it. *)
Lemma related_after f c t s es :
  related f c -> t_io f = Some t -> calm t (t_sess f) ->
  (forall x, seq_run t (set_deliver_seq x (t_sess f)) = (Ret (), set_deliver_seq x s, es)) ->
  Forall (fun e => of_dbus e = false) es -> same_but_seq s (c_sess c) ->
  weq (interp_all interp es (t_world f)) (c_world c) -> related (io_block t f) c.
Proof.
  intros (Hr & Hcr & Hn & _) Hio Hc Hrun He Hs Hw.
  pose proof (Hrun (deliver_seq_ (t_sess f))) as Hnow. rewrite set_deliver_seq_id in Hnow.
  destruct t as [[]|B m k].
  - cbn [seq_run] in Hnow. injection Hnow as Hs' <-.
    split_and!; [done..|]. apply sim_idle; cbn; [done| |done].
    rewrite Hs', <- Hs. apply same_but_seq_set.
  - cbn [calm] in Hc. destruct Hc as [Hf Hm].
    destruct (m (t_sess f)) as [[[b| |] s1] es1] eqn:Em; [|done..]. destruct Hm as (Ho & He1 & Hc).
    cbn [io_block]. rewrite Em.
    destruct (calm_run _ _ Hc) as ([] & s2 & es2 & He2 & Ho2 & Hr2).
    assert (Hstep : forall x, set_deliver_seq x s2 = set_deliver_seq x s /\ es1 ++ es2 = es).
    { intros x. specialize (Hrun x). rewrite (seq_run_TAtom m k _ b (set_deliver_seq x s1) es1), Hr2 in Hrun
        by by rewrite Hf, Em. by injection Hrun. }
    assert (Hy : deliver_seq_ s1 = deliver_seq_ (t_sess f)).
    { specialize (Hf (t_sess f) (deliver_seq_ (t_sess f))). rewrite set_deliver_seq_id, Em in Hf.
      injection Hf as Hf. rewrite Hf. apply deliver_seq_set. }
    split_and!; cbn; [done..| |]; [by rewrite Hy|].
    apply (sim_after _ _ (k b) s es2); cbn; try done.
    + intros x. by rewrite Hr2, (proj1 (Hstep x)).
    + by rewrite <- interp_all_app, (proj2 (Hstep 0)).
Qed.

(** Every configuration of the two threads is related to one of [SessionSystem]. *)
Lemma related_reachable f : reachable t_init t_step f -> exists c, related f c.
Proof.
  revert f. apply invariant_rule.
  - intros ? (c & Hc & ->). pose proof (reachable_init init step c Hc) as Hr. exists c.
    pose proof (reachable_inv _ Hr) as [_ Hcr _].
    assert (Hfl : c_inflight c = []) by (destruct Hc as (? & ? & ? & ? & ? & ? & ? & ? & _ & _ & _ & ->);
      unfold started, exec; by destruct (start _) as [[]]).
    split_and!; [done..|]. by apply sim_idle.
  - intros f ev f' _ (c & Hrel) Hst. unfold t_step in Hst.
    destruct (by_dbus ev) eqn:Hev; [by eapply related_dbus|].
    destruct ev as [e ev| | | | | |]; try done; [by eapply related_take|].
    cbn [t_activate] in Hst. destruct (t_io f) as [t|] eqn:Hio; [|done]. injection Hst as <-.
    pose proof Hrel as (_ & _ & _ & Hsim).
    destruct Hsim as [Hio'|e ev t0 w0 t' s es Hio'|t' s es Hio']; [congruence|..];
      (assert (t' = t) as -> by congruence).
    + by eapply related_before.
    + exists c. by eapply related_after.
Qed.

(** At any moment the effects of the io thread are a beginning of those of an execution in
    which its activations are atomic. *)
Lemma related_prefix f c :
  related f c -> exists c', reachable init step c' /\
    io_effects (w_trace (t_world f)) `prefix_of` io_effects (w_trace (c_world c')) /\
    dbus_effects (w_trace (t_world f)) = dbus_effects (w_trace (c_world c')).
Proof.
  assert (Hmore : forall es w, Forall (fun e => of_dbus e = false) es ->
    io_effects (w_trace w) `prefix_of` io_effects (w_trace (interp_all interp es w)) /\
    dbus_effects (w_trace w) = dbus_effects (w_trace (interp_all interp es w))).
  { intros es w He. rewrite interp_all_trace. unfold io_effects, dbus_effects. rewrite !filter_app. split; [by eexists|].
    replace (filter (fun e => of_dbus e = true) es) with (@nil effect); [by rewrite app_nil_r|].
    induction He as [|e es He Hes IH]; [done|]. rewrite filter_cons_False; congruence. }
  intros (Hr & _ & _ & [Hio Hs Hw|e ev t0 w0 t s es Hio Hcm Hrun Hc Ho He Hs Hw|t s es Hio Hc Hrun He Hs Hw]).
  - exists c. by rewrite (weq_io _ _ Hw), (weq_dbus _ _ Hw).
  - destruct (commits_run _ _ Hc) as ([] & s' & es' & He' & Hr').
    pose proof (Hrun (deliver_seq_ (c_sess c))) as Hnow. rewrite set_deliver_seq_id, Hr' in Hnow.
    destruct (activate_whole _ _ _ _ _ _ _ Hr Hcm Hnow) as (c' & Hrc & _ & Hw' & _).
    exists c'. split; [done|]. rewrite Hw', interp_all_app, (weq_io _ _ Hw), (weq_dbus _ _ Hw). by apply Hmore.
  - exists c. split; [done|]. rewrite <- (weq_io _ _ Hw), <- (weq_dbus _ _ Hw). by apply Hmore.
Qed.

(** ** The bind response comes before the report to the server *)

Definition bind_accepted (e : effect) : bool :=
  match e with
  | AsyncWrite pdu =>
      match decode_header pdu with
      | Some hdr =>
          bool_decide (command_id hdr ∈ [bind_resp_id BIND_TRANSMITTER; bind_resp_id BIND_RECEIVER;
                                         bind_resp_id BIND_TRANSCEIVER])
          && (command_status hdr =? ESME_ROK)
      | None => false
      end
  | _ => false
  end.

(** Every report is preceded by an accepting response. *)
Definition reported_after (es : list effect) : Prop :=
  forall pre post svc uuid sid st,
    es = pre ++ CallUpdateSessionDetails svc uuid sid st :: post ->
    exists e, e ∈ pre /\ bind_accepted e = true.

Lemma reported_none es : updates es = [] -> reported_after es.
Proof.
  intros Hu pre post svc uuid sid st ->. unfold updates in Hu. rewrite omap_app in Hu. cbn in Hu.
  by destruct (omap _ pre).
Qed.

Lemma reported_app es1 es2 : reported_after es1 -> reported_after es2 -> reported_after (es1 ++ es2).
Proof.
  intros H1 H2 pre post svc uuid sid st He. apply app_eq_app in He as (mid & [[H3 H4]|[H3 H4]]).
  - destruct mid as [|e mid]; cbn in H4.
    + destruct (H2 [] post svc uuid sid st) as (e & He & _); [by rewrite H4|]. by apply not_elem_of_nil in He.
    + injection H4 as <- ->. by eapply H1.
  - subst. destruct (H2 mid post svc uuid sid st eq_refl) as (e & He & Hb). exists e. split; [|done].
    apply elem_of_app. by right.
Qed.

Lemma reported_prefix es es' : es `prefix_of` es' -> reported_after es' -> reported_after es.
Proof.
  intros [rest ->] H pre post svc uuid sid st ->. eapply (H pre (post ++ rest)).
  by rewrite <- app_assoc.
Qed.

Lemma reported_io es : reported_after (io_effects es) -> reported_after es.
Proof.
  intros H pre post svc uuid sid st ->. unfold io_effects in H.
  destruct (H (io_effects pre) (io_effects post) svc uuid sid st) as (e & He & Hb).
  - by rewrite filter_app, filter_cons_True.
  - exists e. split; [|done]. by apply list_elem_of_filter in He as [_ He].
Qed.

Lemma reported_io_none es : updates es = [] -> reported_after (io_effects es).
Proof.
  intros Hu pre post svc uuid sid st He.
  assert (Hin : CallUpdateSessionDetails svc uuid sid st ∈ io_effects es) by (rewrite He; set_solver).
  apply list_elem_of_filter in Hin as [_ Hin]. exfalso. apply (not_elem_of_nil (uuid, sid, st)).
  rewrite <- Hu. apply list_elem_of_omap. by exists (CallUpdateSessionDetails svc uuid sid st).
Qed.

(** What an activation does. *)
Definition reports {A} (m : SM A) : Prop :=
  forall s, prefix_ok s -> reported_after (io_effects (run_effects (m s))).

Lemma reports_then_read (m : SM unit) : reports m -> reports (m ;;; read_header).
Proof.
  intros Hm s Hp. specialize (Hm s Hp). unfold ebind. destruct (m s) as [[[[]| |] s1] es]; [|done..].
  cbn. unfold io_effects in *. rewrite filter_app. by apply reported_app; [|by apply reported_io_none].
Qed.

Lemma disconnect_no_updates reason s : updates (disconnect_effects reason s) = [].
Proof. unfold disconnect_effects. by case_decide. Qed.

Lemma reports_bind e hdr body :
  command_id hdr ∈ [BIND_TRANSMITTER; BIND_RECEIVER; BIND_TRANSCEIVER] ->
  reports (handle_bind e hdr body).
Proof.
  intros Hid s _. pose proof (handle_bind_run e hdr body s) as R. cbv zeta in R. rewrite R. clear R.
  case_decide; [|by apply reported_io_none]. destruct (default _ _) as [[] code]; cbn [run_effects snd].
  - intros pre post svc uuid sid st He.
    assert (Hid' : command_id hdr = BIND_TRANSMITTER \/ command_id hdr = BIND_RECEIVER \/
                   command_id hdr = BIND_TRANSCEIVER)
      by (rewrite !elem_of_cons, elem_of_nil in Hid; destruct Hid as [?|[?|[?|[]]]]; auto).
    assert (Hq : u32 (bind_resp_id (command_id hdr)) <> DELIVER_SM)
      by (by destruct Hid' as [-> | [-> | ->]]).
    unfold io_effects in He. rewrite filter_cons_True, filter_cons_True, filter_cons_True, filter_nil in He
      by (done || by apply io_response).
    destruct pre as [|e1 [|e2 pre]]; [done..|]. injection He as _ <- _.
    eexists. split; [apply elem_of_cons; right; by apply elem_of_cons; left|]. cbn [bind_accepted].
    unfold pdu_octets. rewrite decode_header_octets. cbn.
    by destruct Hid' as [-> | [-> | ->]].
  - apply reported_io_none. apply disconnect_no_updates.
Qed.

Lemma reports_dispatch e hdr body : reports (dispatch e hdr body).
Proof.
  unfold dispatch. rewrite is_bind_elem. case_bool_decide as Hb; [by apply reports_bind|].
  intros s Hp. apply reported_io_none.
  destruct (_ =? UNBIND); [rewrite handle_unbind_run; apply disconnect_no_updates|].
  destruct (_ =? ENQUIRE_LINK); [by rewrite handle_enquire_link_run|].
  destruct (_ =? SUBMIT_SM).
  { pose proof (handle_submit_sm_run e hdr body s Hp) as R. cbv zeta in R.
    destruct (throttle_check _ _) as [allowed tb]. rewrite R. by destruct (can_submit _), allowed. }
  destruct (_ =? ENQUIRE_LINK_RESP); [rewrite handle_enquire_link_resp_run; by destruct (_ && _)|].
  destruct (_ =? DELIVER_SM_RESP); [done|]. by rewrite send_response_run by (simpl; lia).
Qed.

Lemma reports_disconnect reason : reports (do_disconnect reason).
Proof.
  intros s _. rewrite do_disconnect_run. apply reported_io_none, disconnect_no_updates.
Qed.

Lemma reports_header e r : reports (on_header e r).
Proof.
  destruct r as [msg|buf]; [apply reports_disconnect|]. intros s Hp. unfold on_header.
  rewrite header_block. destruct (decode_header buf) as [hdr|]; [|by apply reported_io_none].
  assert (Hp' : prefix_ok (set_header_buf buf s)) by by destruct s.
  destruct (_ <? 16); [by apply reports_disconnect|]. unfold read_body. destruct (_ =? 0).
  - by apply (reports_then_read _ (reports_dispatch e hdr [])).
  - by apply reported_io_none.
Qed.

Lemma reported_reachable c : reachable init step c -> reported_after (io_effects (w_trace (c_world c))).
Proof.
  revert c. apply invariant_rule.
  - intros c (uuid & ip & srv & auth & iv & to & mx & now & _ & _ & _ & ->).
    unfold started. rewrite exec_trace. apply reported_io_none. unfold start, ebind, read_header, emit, eget.
    cbn [params_ session_init el_interval_sec_]. by destruct (0 <? iv).
  - intros c [e ev] c' Hr IH Ha. unfold step in Ha. cbn [fst snd] in Ha.
    pose proof (reachable_prefix _ Hr) as Hp.
    assert (Hex : forall A (m : SM A) fl w, reports m -> w_trace w = w_trace (c_world c) ->
      reported_after (io_effects (w_trace (c_world (exec m fl (c_sess c) w))))).
    { intros A m fl w Hm Hw. rewrite exec_trace, Hw. unfold io_effects. rewrite filter_app.
      apply reported_app; [done|by apply Hm]. }
    destruct ev as [r|r|i ec|i ec| |reason| |src dst msg|i]; cbn [activate] in Ha.
    + repeat case_match; try done. injection Ha as <-. apply Hex; [apply reports_header|done].
    + repeat case_match; try done. injection Ha as <-. apply Hex; [|done].
      destruct r; [apply reports_disconnect|]. apply (reports_then_read _ (reports_dispatch _ _ _)).
    + destruct (_ !! i) as [live|]; [|done]. cbn [mbind option_bind] in Ha. destruct (live && ec); [done|].
      injection Ha as <-. apply Hex; [|done]. intros s _. rewrite on_enquire_link_timer_run.
      apply reported_io_none. by case_match.
    + destruct (_ !! i) as [live|]; [|done]. cbn [mbind option_bind] in Ha. destruct (live && ec); [done|].
      injection Ha as <-. apply Hex; [|done]. intros s _. rewrite on_enquire_link_timeout_run.
      apply reported_io_none. case_match; [apply disconnect_no_updates|done].
    + case_match; [done|]. injection Ha as <-. apply Hex; [apply reports_disconnect|done].
    + injection Ha as <-. apply Hex; [|done]. intros s _. by apply reported_io_none.
    + injection Ha as <-. apply Hex; [|done]. intros s _. by apply reported_io_none.
    + case_bool_decide; [|done]. destruct (deliver_check _) as [[[]]]; by injection Ha as <-.
    + destruct (_ !! i) as [[[src dst] msg]|] eqn:Hl; [|done]. injection Ha as <-.
      pose proof (Forall_lookup_1 _ _ _ _ (inv_sized _ (reachable_inv _ Hr)) Hl) as Hs. cbn in Hs.
      unfold dbus_max in Hs. apply Hex; [|done]. intros s _. rewrite deliver_send_run by lia.
      by apply reported_io_none.
Qed.

(** ** Runs *)

Fixpoint t_run (evs : list tevent) (f : tconfig) : option tconfig :=
  match evs with
  | [] => Some f
  | ev :: evs => f' ← t_activate ev f; t_run evs f'
  end.

Lemma t_run_reachable evs f f' :
  reachable t_init t_step f -> t_run evs f = Some f' -> reachable t_init t_step f'.
Proof.
  revert f. induction evs as [|ev evs IH]; intros f Hf Hr; [by injection Hr as <-|].
  cbn [t_run] in Hr. destruct (t_activate ev f) as [f1|] eqn:Ha; [|done].
  apply (IH f1); [|done]. by eapply reachable_step.
Qed.

(** A bind request as a receiver; the D-Bus thread delivers a message between the block
    that changes the state and the one that answers the request. *)
Definition overtaking_events : list tevent :=
  let pdu := pdu_octets BIND_RECEIVER 0 1 example_bind_body in
  [TIoTake example_env (EvHeader (inr (take 16 pdu)))] ++ replicate 3 TIoBlock
  ++ [TIoTake example_env (EvBody (inr (drop 16 pdu)))] ++ replicate 4 TIoBlock
  ++ [TDeliverCheck (str "a") (str "b") (str "c"); TDeliverNumber; TDeliverSend]
  ++ replicate 6 TIoBlock.

Definition overtaken : tconfig := default (idle example_init) (t_run overtaking_events (idle example_init)).

Lemma overtaken_reachable : reachable t_init t_step overtaken.
Proof.
  apply (t_run_reachable overtaking_events (idle example_init)).
  - apply reachable_init. exists example_init. split; [|done]. repeat eexists; done.
  - by vm_compute.
Qed.

(** ** Theorems *)

(** C3: The threads of a session are atomic: in every interleaving of the blocks of the io
    thread with those of the D-Bus thread nothing crashes, and at every moment there is a
    reachable configuration of [SessionSystem], where an activation of the io thread is not
    interrupted, in which the D-Bus methods see the same state, system id and bind time;
    when the io thread is idle, it has the same members (but for a number that [DeliverSm]
    has taken and not yet used) and the same outstanding operations, and the trace differs
    only in the interleaving of the effects of one thread with those of the other. *)
Theorem threads_atomic f :
  reachable t_init t_step f ->
  t_crashed f = false /\
  (exists c, reachable init step c /\
     run_outcome (GetSessionInfo (t_sess f)) = run_outcome (GetSessionInfo (c_sess c)) /\
     state_ (t_sess f) = state_ (c_sess c) /\
     (t_io f = None -> same_but_seq (t_sess f) (c_sess c) /\ weq (t_world f) (c_world c) /\
        (t_dbus f = None -> t_sess f = c_sess c))) /\
  (exists c, reachable init step c /\
     io_effects (w_trace (t_world f)) `prefix_of` io_effects (w_trace (c_world c)) /\
     dbus_effects (w_trace (t_world f)) = dbus_effects (w_trace (c_world c))).
Proof.
  intros (c & Hrel)%related_reachable. pose proof Hrel as (Hr & Hcr & Hn & Hsim).
  split; [done|]. split; [|by eapply related_prefix].
  exists c. pose proof (sim_observed _ _ Hsim) as Ho. injection Ho as Hp Hsid Hst Hbt.
  split; [done|]. split; [unfold GetSessionInfo, ebind, eget, eret, run_outcome; cbn; congruence|].
  split; [done|]. intros Hio. destruct Hsim as [_ Hs Hw|? ? ? ? ? ? ? Hio'|? ? ? Hio']; [|congruence..].
  split; [done|]. split; [done|]. intros Hd. rewrite Hd in Hn. destruct Hn as [Hn _].
  by rewrite Hs, Hn, set_deliver_seq_id.
Qed.

Lemma threads_atomic_witness :
  t_crashed overtaken = false /\ t_io overtaken = None /\ state_ (t_sess overtaken) = BOUND_RX /\
  exists c, reachable init step c /\ t_sess overtaken = c_sess c.
Proof.
  destruct (threads_atomic overtaken overtaken_reachable) as (Hc & (c & Hr & _ & _ & Hi) & _).
  split; [exact Hc|]. split; [by vm_compute|]. split; [by vm_compute|]. exists c. split; [exact Hr|].
  by apply Hi; vm_compute.
Defined.

(** C17: A session reports itself to the server only after it has started the write of its
    [bind_resp], in every interleaving; so a message that the server routes because of the
    report cannot overtake the response.  A [DeliverSm] call that does not wait for the report
    can: there is an execution in which a [deliver_sm] is written before the [bind_resp]. *)
Theorem delivery_after_bind_resp :
  (forall f pre post svc uuid sid st, reachable t_init t_step f ->
     w_trace (t_world f) = pre ++ CallUpdateSessionDetails svc uuid sid st :: post ->
     exists e, e ∈ pre /\ bind_accepted e = true) /\
  exists f pre e post, reachable t_init t_step f /\ t_io f = None /\ t_dbus f = None /\
    w_trace (t_world f) = pre ++ e :: post /\ deliver_seqs [e] <> [] /\
    existsb bind_accepted pre = false /\ existsb bind_accepted post = true.
Proof.
  split.
  - intros f pre post svc uuid sid st (c & Hrel)%related_reachable Htr.
    destruct (related_prefix _ _ Hrel) as (c' & Hr & Hpre & _).
    eapply reported_io; [|exact Htr]. eapply reported_prefix; [done|]. by apply reported_reachable.
  - exists overtaken, (take 4 (w_trace (t_world overtaken))).
    destruct (w_trace (t_world overtaken) !! 4%nat) as [e|] eqn:He; [|by vm_compute in He].
    exists e, (drop 5 (w_trace (t_world overtaken))). split; [apply overtaken_reachable|].
    split; [by vm_compute|]. split; [by vm_compute|]. split; [by rewrite take_drop_middle|].
    split; [|split; by vm_compute].
    assert (Hd : (d ← w_trace (t_world overtaken) !! 4%nat; Some (deliver_seqs [d])) = Some [0x20000000])
      by by vm_compute.
    rewrite He in Hd. change (Some (deliver_seqs [e]) = Some [0x20000000]) in Hd. congruence.
Qed.
