(* ===== verification/Auth.v ===== *)
(** * Auth: the authentication service

    [CredentialsStore] ([Authenticator/src/credentials_store.cpp]) and
    [AuthService] ([auth_service.cpp]).  The TOML parser is third-party code: a
    document is what [toml::parse_file] returns, as an argument of the
    definitions that call it.  [AuthService] is then shown to implement the
    interface [IAuth] that the session is verified against, and the two are put
    together. *)

From S2P Require Import Prelude Pdu Throttle Session.
#[local] Open Scope Z_scope.
#[local] Open Scope eff_scope.

(** ** TOML documents, as far as the source looks at them *)

#[warnings="-register-all"] Inductive toml :=
| TString (s : cstring)
| TArray (entries : list toml)
| TTable (fields : list (cstring * toml))   (* keys are unique in a document *)
| TOther.                                   (* numbers, booleans, dates *)

(** [node["key"]]: no node when the table lacks the key. *)
Fixpoint toml_index (fields : list (cstring * toml)) (key : cstring) : option toml :=
  match fields with
  | [] => None
  | (k, v) :: fields => if decide (k = key) then Some v else toml_index fields key
  end.

Definition as_array (n : option toml) : option (list toml) :=
  match n with Some (TArray l) => Some l | _ => None end.
Definition as_table (n : toml) : option (list (cstring * toml)) :=
  match n with TTable l => Some l | _ => None end.
(** [value<std::string>()] *)
Definition value_string (n : option toml) : option cstring :=
  match n with Some (TString s) => Some s | _ => None end.

(** ** CredentialsStore *)

Definition OK : Z := 0x00000000.
Definition store_ESME_RINVSYSID : Z := 0x0000000F.
Definition store_ESME_RINVPASWD : Z := 0x0000000E.

Record CredentialsStore := {
  path_ : cstring;
  credentials_ : gmap cstring cstring
}.

(** [toml::parse_file] throws [toml::parse_error]. *)
Inductive auth_exn := ParseError (what : cstring).

(** What the file system and the parser give for a path at the time of the call. *)
Definition parser := cstring -> auth_exn + list (cstring * toml).

Abbreviation CM := (M CredentialsStore Empty_set auth_exn).

Definition load_entry (tmp : gmap cstring cstring) (entry : toml) : gmap cstring cstring :=
  match as_table entry with
  | Some t =>
      match value_string (toml_index t (str "system_id")),
            value_string (toml_index t (str "password")) with
      | Some sid, Some pwd => <[sid := pwd]> tmp
      | _, _ => tmp
      end
  | None => tmp
  end.

Definition load_document (tbl : list (cstring * toml)) : gmap cstring cstring :=
  match as_array (toml_index tbl (str "credentials")) with
  | Some arr => foldl load_entry ∅ arr
  | None => ∅
  end.

Definition load (parse_file : parser) : CM unit :=
  st <- eget ;;
  match parse_file (path_ st) with
  | inl ex => ethrow ex
  | inr tbl =>
      emodify (fun st => {| path_ := path_ st; credentials_ := load_document tbl |})
  end.

Definition reload (parse_file : parser) : CM unit := load parse_file.

(** The constructor: the object exists only when [load] returns. *)
Definition CredentialsStore_new (parse_file : parser) (toml_path : cstring)
    : auth_exn + CredentialsStore :=
  match load parse_file {| path_ := toml_path; credentials_ := ∅ |} with
  | (Ret _, st, _) => inr st
  | (Throw ex, _, _) => inl ex
  | (UB, _, _) => inl (ParseError [])
  end.

Definition authenticate (st : CredentialsStore) (system_id password : cstring) : bool * Z :=
  match credentials_ st !! system_id with
  | None => (false, store_ESME_RINVSYSID)
  | Some pwd => if decide (pwd <> password) then (false, store_ESME_RINVPASWD) else (true, OK)
  end.

(** ** AuthService: the D-Bus methods *)

Definition AuthService_Authenticate (store : CredentialsStore)
    (uuid system_id password source_ip : cstring) : bool * Z :=
  let '(ok, code) := authenticate store system_id password in (ok, code).

(** An exception of [reload] becomes a D-Bus error reply. *)
Definition ReloadCredentials (parse_file : parser) : CM unit := reload parse_file.

(** The service as the session sees it over the bus; a call may also fail on
    the way ([up = false]). *)
#[export] Instance AuthService_IAuth (store : CredentialsStore) (up : bool) : IAuth.
Proof.
  refine {| Session.Authenticate := fun uuid sid pass ip =>
              if up then Some (AuthService_Authenticate store uuid sid pass ip) else None |}.
  unfold AuthService_Authenticate, authenticate. intros uuid sid pass ip ok code.
  destruct up; [|done].
  by destruct (credentials_ store !! sid); [case_decide|]; intros [= <- <-].
Defined.

(** ** What the document says *)

(** The valid entries of a document, in its order. *)
Definition entry_pair (entry : toml) : option (cstring * cstring) :=
  t ← as_table entry;
  sid ← value_string (toml_index t (str "system_id"));
  pwd ← value_string (toml_index t (str "password"));
  Some (sid, pwd).

Definition entries (tbl : list (cstring * toml)) : list (cstring * cstring) :=
  omap entry_pair (default [] (as_array (toml_index tbl (str "credentials")))).

(** The password on record for a system id: that of its last entry. *)
Fixpoint last_password (es : list (cstring * cstring)) (sid : cstring) : option cstring :=
  match es with
  | [] => None
  | (s, p) :: es =>
      match last_password es sid with
      | Some p' => Some p'
      | None => if decide (s = sid) then Some p else None
      end
  end.

Lemma load_entry_pair tmp entry :
  load_entry tmp entry
  = match entry_pair entry with Some (sid, pwd) => <[sid := pwd]> tmp | None => tmp end.
Proof.
  unfold load_entry, entry_pair. destruct (as_table entry) as [t|]; [|done]. cbn.
  destruct (value_string _); [|done]. cbn. by destruct (value_string _).
Qed.

Lemma load_fold arr tmp sid :
  foldl load_entry tmp arr !! sid
  = match last_password (omap entry_pair arr) sid with
    | Some p => Some p
    | None => tmp !! sid
    end.
Proof.
  revert tmp. induction arr as [|entry arr IH]; intros tmp; [done|].
  cbn [foldl]. rewrite IH, load_entry_pair. cbn [omap list_omap].
  destruct (entry_pair entry) as [[s p]|]; [|done]. cbn [last_password].
  destruct (last_password _ sid); [done|]. case_decide as Hs; [subst; by rewrite lookup_insert_eq|].
  by rewrite lookup_insert_ne.
Qed.

Lemma load_document_lookup tbl sid :
  load_document tbl !! sid = last_password (entries tbl) sid.
Proof.
  unfold load_document, entries. destruct (as_array _) as [arr|]; [|done]. cbn.
  rewrite load_fold. by destruct (last_password _ _).
Qed.

(** The verdict the document calls for. *)
Definition verdict (tbl : list (cstring * toml)) (sid pass : cstring) : bool * Z :=
  match last_password (entries tbl) sid with
  | None => (false, store_ESME_RINVSYSID)
  | Some p => if decide (p = pass) then (true, OK) else (false, store_ESME_RINVPASWD)
  end.

Lemma authenticate_document path tbl sid pass :
  authenticate {| path_ := path; credentials_ := load_document tbl |} sid pass
  = verdict tbl sid pass.
Proof.
  unfold authenticate, verdict. cbn. rewrite load_document_lookup.
  destruct (last_password _ _) as [p|]; [|done]. by repeat case_decide.
Qed.

(** Sequences of reloads and authentications of one service. *)
Inductive auth_op :=
| OpReload (parse_file : parser)
| OpAuthenticate (system_id password : cstring).

Definition auth_step (st : CredentialsStore) (op : auth_op) : CredentialsStore * option (bool * Z) :=
  match op with
  | OpReload pf => (run_state (ReloadCredentials pf st), None)
  | OpAuthenticate sid pass => (st, Some (AuthService_Authenticate st [] sid pass []))
  end.

Fixpoint auth_run (st : CredentialsStore) (ops : list auth_op) : CredentialsStore :=
  match ops with [] => st | op :: ops => auth_run (fst (auth_step st op)) ops end.

(** The document in force: that of the last load that parsed. *)
Fixpoint in_force (path : cstring) (tbl : list (cstring * toml)) (ops : list auth_op)
    : list (cstring * toml) :=
  match ops with
  | [] => tbl
  | OpReload pf :: ops =>
      in_force path (match pf path with inr tbl' => tbl' | inl _ => tbl end) ops
  | OpAuthenticate _ _ :: ops => in_force path tbl ops
  end.

Lemma auth_run_in_force path tbl ops :
  auth_run {| path_ := path; credentials_ := load_document tbl |} ops
  = {| path_ := path; credentials_ := load_document (in_force path tbl ops) |}.
Proof.
  revert tbl. induction ops as [|[pf|sid pass] ops IH]; intros tbl; [done| |apply IH].
  cbn [auth_run auth_step fst in_force]. unfold ReloadCredentials, reload, load, ebind, eget.
  cbn [path_]. by destruct (pf path) as [ex|tbl']; cbn; rewrite IH.
Qed.

(** C19: The service answers by the document in force: from construction on,
    after any sequence of reloads and calls, [Authenticate] accepts exactly the
    password of the last entry for the system id in the last document that parsed,
    answers ESME_RINVSYSID when there is no entry and ESME_RINVPASWD for any other
    password.  A reload that fails to parse changes nothing. *)
Theorem authenticate_correct parse_file path tbl ops uuid sid pass ip :
  parse_file path = inr tbl ->
  exists st, CredentialsStore_new parse_file path = inr st /\
    AuthService_Authenticate (auth_run st ops) uuid sid pass ip
    = verdict (in_force path tbl ops) sid pass.
Proof.
  intros Hp. exists {| path_ := path; credentials_ := load_document tbl |}. split.
  - unfold CredentialsStore_new, load, ebind, eget. cbn [path_]. by rewrite Hp.
  - rewrite auth_run_in_force. unfold AuthService_Authenticate.
    rewrite authenticate_document. by destruct (verdict _ _ _).
Qed.

(** Documents for the examples. *)
Definition example_entry (sid pass : cstring) : toml :=
  TTable [(str "system_id", TString sid); (str "password", TString pass)].

Definition example_doc (es : list (cstring * cstring)) : list (cstring * toml) :=
  [(str "credentials", TArray ((fun '(s, p) => example_entry s p) <$> es))].

Lemma authenticate_correct_witness :
  exists st,
    CredentialsStore_new (fun _ => inr (example_doc [(str "esme1", str "old"); (str "esme1", str "pass1")]))
      (str "credentials.toml") = inr st /\
    AuthService_Authenticate
      (auth_run st [OpAuthenticate (str "esme1") (str "old");
                    OpReload (fun _ => inl (ParseError (str "unexpected eof")))])
      [] (str "esme1") (str "pass1") [] = (true, OK).
Proof.
  apply (authenticate_correct
    (fun _ => inr (example_doc [(str "esme1", str "old"); (str "esme1", str "pass1")]))
    (str "credentials.toml") (example_doc [(str "esme1", str "old"); (str "esme1", str "pass1")])
    [OpAuthenticate (str "esme1") (str "old");
     OpReload (fun _ => inl (ParseError (str "unexpected eof")))] [] (str "esme1") (str "pass1") []).
  done.
Defined.

(** ** A bind request under this service *)

Lemma bind_fields sid pass rest :
  cstr_ok sid -> cstr_ok pass ->
  let body := sid ++ x00 :: pass ++ x00 :: rest in
  read_cstr body 0 default_max_len = (sid, S (length sid)) /\
  exists off, read_cstr body (S (length sid)) default_max_len = (pass, off).
Proof.
  intros Hs Hp body.
  destruct (read_cstr_at body 0 sid (pass ++ x00 :: rest)) as [H1 H2]; [done..|].
  split; [done|]. destruct (read_cstr_at body (S (length sid)) pass rest) as [H3 _]; [done..|].
  eauto.
Qed.

(** The state a bind request asks for. *)
Definition requested_state (id : Z) : SessionState :=
  if id =? BIND_TRANSMITTER then BOUND_TX
  else if id =? BIND_RECEIVER then BOUND_RX else BOUND_TRX.

(** C18: From the credentials file to the bind: an open session that receives a
    bind request, with the service up, is bound, in the state the request asks for
    and under its system id, exactly when the document in force lists the password
    as the last one for that system id; otherwise it is disconnected.  The status of
    the response is the verdict's code. *)
Theorem bind_by_document e hdr s tbl path sid pass rest :
  let id := command_id hdr in
  let v := verdict tbl sid pass in
  let body := sid ++ x00 :: pass ++ x00 :: rest in
  env_auth e = AuthService_IAuth {| path_ := path; credentials_ := load_document tbl |} true ->
  id ∈ [BIND_TRANSMITTER; BIND_RECEIVER; BIND_TRANSCEIVER] ->
  is_u32 (sequence_number hdr) -> prefix_ok s -> state_ s = OPEN -> cstr_ok sid -> cstr_ok pass ->
  exists s' es, on_body e hdr (inr body) s = (Ret (), s', es ++ [AsyncReadHeader]) /\
    replies hdr (Some (bind_resp_id id, snd v)) es /\
    state_ s' = (if fst v then requested_state id else UNBOUND) /\
    (fst v = true -> system_id_ s' = sid).
Proof.
  intros id v body He Hid Hq Hp Hs Hsid Hpass.
  destruct (bind_fields sid pass rest Hsid Hpass) as (H1 & off & H2). fold body in H1, H2.
  pose proof (dispatch_next_state e hdr body s Hp) as Hn.
  destruct (dispatch_replies e hdr body s Hq Hp) as (s' & es & Hd & Hr).
  exists s', es. split; [by apply on_body_run|].
  assert (Ha : @Authenticate (env_auth e) (uuid_ (params_ s)) sid pass (client_ip_ (params_ s))
               = Some v).
  { rewrite He. cbn. unfold AuthService_Authenticate. rewrite authenticate_document.
    fold v. by destruct v. }
  assert (Hok : fst v = true -> snd v = ESME_ROK).
  { unfold v, verdict. by destruct (last_password _ _); [case_decide|]. }
  unfold expected_response in Hr. unfold next_state in Hn. cbv zeta in Hr, Hn.
  rewrite bool_decide_eq_true_2 in Hr, Hn by done.
  rewrite decide_True in Hr by done. rewrite Hs in Hn. rewrite H1, H2, Ha in Hr, Hn.
  rewrite Hd in Hn. cbn [run_state fst snd] in Hn. split_and!.
  - destruct v as [[] code]; [|done]. by rewrite (Hok eq_refl).
  - rewrite Hn. by destruct v as [[] code].
  - intros Hv. unfold dispatch in Hd. rewrite is_bind_elem, bool_decide_eq_true_2 in Hd by done.
    pose proof (handle_bind_run e hdr body s) as R. cbv zeta in R. rewrite R in Hd.
    rewrite H1 in Hd. cbn [fst snd] in Hd. rewrite H2 in Hd. cbn [fst snd] in Hd.
    rewrite decide_True, Ha in Hd by done. cbn [default from_option id] in Hd.
    destruct v as [[] code]; [|done]. injection Hd as <- _. by destruct s.
Qed.

Lemma bind_by_document_witness :
  let tbl := example_doc [(str "esme1", str "pass1")] in
  let st := {| path_ := str "credentials.toml"; credentials_ := load_document tbl |} in
  let e := {| env_auth := AuthService_IAuth st true; env_system_sec := 0; env_steady_ns := 0 |} in
  exists s' es,
    on_body e example_bind_hdr (inr example_bind_body) example_session
    = (Ret (), s', es ++ [AsyncReadHeader]) /\
    replies example_bind_hdr (Some (BIND_TRANSCEIVER_RESP, OK)) es /\
    state_ s' = BOUND_TRX /\ (true = true -> system_id_ s' = str "esme1").
Proof.
  intros tbl st e.
  apply (bind_by_document e example_bind_hdr example_session tbl (str "credentials.toml")
           (str "esme1") (str "pass1") []);
    [done | apply (bool_decide_unpack _); by vm_compute | done | vm_compute; lia | done
    | apply (bool_decide_unpack _); by vm_compute | apply (bool_decide_unpack _); by vm_compute].
Defined.
