(* ===== verification/StdMap.v ===== *)
(** * StdMap: [std::map<std::string, T>]

    The ordered map of the C++ standard library, as the list of its pairs in
    iteration order: keys increase strictly in [std::string]'s [operator<], which
    compares octets as unsigned numbers.  The operations refine those of [gmap],
    and iteration is what [gmap] does not have: the order in which a loop over
    the map meets its keys. *)

From Stdlib Require Import Sorting.Sorted.
From S2P Require Import Prelude.
#[local] Open Scope Z_scope.

(** ** [operator<] on [std::string] *)

Fixpoint string_ltb (a b : cstring) : bool :=
  match a, b with
  | _, [] => false
  | [], _ :: _ => true
  | x :: a, y :: b =>
      if byte_to_Z x <? byte_to_Z y then true
      else if byte_to_Z y <? byte_to_Z x then false
      else string_ltb a b
  end.

Definition string_lt (a b : cstring) : Prop := string_ltb a b = true.

#[export] Instance string_lt_dec : RelDecision string_lt.
Proof. intros a b. unfold string_lt. apply _. Defined.

Lemma string_ltb_cons x y a b :
  string_ltb (x :: a) (y :: b) = true <->
  byte_to_Z x < byte_to_Z y \/ (x = y /\ string_ltb a b = true).
Proof.
  cbn. destruct (Z.ltb_spec (byte_to_Z x) (byte_to_Z y)) as [H|H]; [naive_solver|].
  destruct (Z.ltb_spec (byte_to_Z y) (byte_to_Z x)) as [H'|H'].
  - split; [done|]. intros [?|[-> _]]; lia.
  - assert (x = y) by (apply byte_to_Z_inj; lia). naive_solver lia.
Qed.

#[export] Instance string_lt_irrefl : Irreflexive string_lt.
Proof.
  intros a. unfold complement, string_lt. induction a as [|x a IH]; [done|].
  rewrite string_ltb_cons. intros [?|[_ ?]]; [lia|auto].
Qed.

#[export] Instance string_lt_trans : Transitive string_lt.
Proof.
  unfold string_lt. intros a b c. revert b c.
  induction a as [|x a IH]; intros [|y b] [|z c]; try done.
  rewrite !string_ltb_cons. intros [?|[-> ?]] [?|[-> ?]]; [left; lia|naive_solver..|].
  right. split; [done|]. by eapply IH.
Qed.

Lemma string_lt_total a b : string_lt a b \/ a = b \/ string_lt b a.
Proof.
  unfold string_lt. revert b. induction a as [|x a IH]; intros [|y b]; [by auto..|].
  rewrite !string_ltb_cons.
  destruct (Z.lt_trichotomy (byte_to_Z x) (byte_to_Z y)) as [?|[H|?]]; [auto| |auto].
  apply byte_to_Z_inj in H. subst. destruct (IH b) as [?|[->|?]]; auto 6.
Qed.

(** ** Operations *)

Section StdMap.
Context {T : Type}.
Implicit Types (m : list (cstring * T)) (k : cstring) (v : T).

(** [find] *)
Fixpoint map_find k m : option T :=
  match m with
  | [] => None
  | (k', v) :: m => if decide (k' = k) then Some v else map_find k m
  end.

(** [m[k] = v] *)
Fixpoint map_set k v m : list (cstring * T) :=
  match m with
  | [] => [(k, v)]
  | (k', v') :: m' =>
      if decide (k = k') then (k, v) :: m'
      else if string_ltb k k' then (k, v) :: m
      else (k', v') :: map_set k v m'
  end.

(** [erase(k)] *)
Fixpoint map_erase k m : list (cstring * T) :=
  match m with
  | [] => []
  | (k', v') :: m' => if decide (k = k') then m' else (k', v') :: map_erase k m'
  end.

(** ** The representation invariant *)

Definition sorted m : Prop := StronglySorted (fun p q => string_lt p.1 q.1) m.

Definition contents m : gmap cstring T := list_to_map m.

Lemma sorted_cons p m :
  sorted (p :: m) <-> Forall (fun q => string_lt p.1 q.1) m /\ sorted m.
Proof.
  split; [intros H; inversion H; auto|intros []; by constructor].
Qed.

Lemma map_set_Forall (P : cstring -> Prop) k v m :
  P k -> Forall (fun q => P q.1) m -> Forall (fun q => P q.1) (map_set k v m).
Proof.
  intros Hk. induction m as [|[k' v'] m IH]; intros Hm; [by repeat constructor|].
  inversion Hm; subst. cbn. case_decide; [by constructor|].
  case_match; constructor; auto.
Qed.

Lemma map_set_sorted k v m : sorted m -> sorted (map_set k v m).
Proof.
  induction m as [|[k' v'] m IH]; [by repeat constructor|].
  rewrite sorted_cons. intros [Hf Hs]. cbn. case_decide as Hk.
  { subst. rewrite sorted_cons. auto. }
  destruct (string_ltb k k') eqn:Hlt.
  - rewrite !sorted_cons. split_and!; [|done|done]. constructor; [done|].
    eapply Forall_impl; [done|]. intros q Hq. by etrans.
  - rewrite sorted_cons. split; [|auto]. apply (map_set_Forall (string_lt k')); [|done].
    destruct (string_lt_total k' k) as [?|[?|?]]; [done|congruence|].
    unfold string_lt in *. congruence.
Qed.

Lemma map_erase_Forall (P : cstring * T -> Prop) k m : Forall P m -> Forall P (map_erase k m).
Proof.
  induction 1 as [|[k' v'] m Hp Hm IH]; [constructor|]. cbn. case_decide; [done|by constructor].
Qed.

Lemma map_erase_sorted k m : sorted m -> sorted (map_erase k m).
Proof.
  induction m as [|[k' v'] m IH]; [done|]. rewrite sorted_cons. intros [Hf Hs].
  cbn. case_decide; [done|]. rewrite sorted_cons. split; [by apply map_erase_Forall|auto].
Qed.

(** ** Refinement of [gmap] *)

Lemma map_find_contents k m : map_find k m = contents m !! k.
Proof.
  unfold contents. induction m as [|[k' v] m IH]; [done|]. cbn. case_decide as Hk.
  - subst. by rewrite lookup_insert_eq.
  - by rewrite lookup_insert_ne.
Qed.

Lemma contents_set k v m : contents (map_set k v m) = <[k := v]> (contents m).
Proof.
  unfold contents. induction m as [|[k' v'] m IH]; [done|]. cbn. case_decide as Hk.
  - subst. cbn. by rewrite insert_insert_eq.
  - case_match; cbn; [done|]. rewrite IH. by rewrite insert_insert_ne.
Qed.

Lemma contents_fresh k m : Forall (fun q => string_lt k q.1) m -> contents m !! k = None.
Proof.
  intros H. apply not_elem_of_list_to_map_1. rewrite list_elem_of_fmap.
  intros (q & -> & Hq). rewrite Forall_forall in H. by apply (irreflexivity string_lt (q.1)), H.
Qed.

Lemma contents_erase k m : sorted m -> contents (map_erase k m) = delete k (contents m).
Proof.
  induction m as [|[k' v'] m IH]; [done|].
  rewrite sorted_cons. intros [Hf Hs]. cbn. case_decide as Hk.
  - subst. rewrite delete_insert_eq, delete_id; [done|]. by apply contents_fresh.
  - cbn. rewrite delete_insert_ne by done. f_equal. auto.
Qed.

Lemma sorted_keys_NoDup m : sorted m -> NoDup m.*1.
Proof.
  induction m as [|p m IH]; cbn; [constructor|].
  intros [Hf Hs]%sorted_cons. constructor; [|auto].
  rewrite list_elem_of_fmap. intros (q & Hq & Hin). rewrite Forall_forall in Hf.
  specialize (Hf q Hin). rewrite Hq in Hf. by apply (irreflexivity string_lt (q.1)).
Qed.

(** The pairs of the list are those of the map. *)
Lemma elem_of_contents k v m : sorted m -> (k, v) ∈ m <-> contents m !! k = Some v.
Proof.
  intros Hs. by apply elem_of_list_to_map, sorted_keys_NoDup.
Qed.

(** ** The first pair that satisfies a test *)

(** A loop that stops at the first pair whose value passes the test. *)
Fixpoint map_first (test : T -> bool) m : option cstring :=
  match m with
  | [] => None
  | (k, v) :: m => if test v then Some k else map_first test m
  end.

(** It finds the least key whose value passes. *)
Lemma map_first_spec test m k :
  sorted m ->
  map_first test m = Some k <->
  (exists v, contents m !! k = Some v /\ test v = true) /\
  (forall k' v', contents m !! k' = Some v' -> test v' = true -> k' = k \/ string_lt k k').
Proof.
  induction m as [|[k0 v0] m IH].
  { intros _. split; [done|]. intros [(v & Hv & _) _]. done. }
  rewrite sorted_cons. intros [Hf Hs]. cbn [map_first fst] in *.
  assert (Hc : forall k', contents ((k0, v0) :: m) !! k'
                 = if decide (k0 = k') then Some v0 else contents m !! k').
  { intros k'. unfold contents. cbn. case_decide; [subst; apply lookup_insert_eq|].
    by apply lookup_insert_ne. }
  assert (Hgt : forall k' v', contents m !! k' = Some v' -> string_lt k0 k').
  { intros k' v' Hin%elem_of_contents; [|done]. rewrite Forall_forall in Hf. by apply (Hf _ Hin). }
  setoid_rewrite Hc. destruct (test v0) eqn:Ht.
  - split.
    + intros [= <-]. split.
      * exists v0. by rewrite decide_True.
      * intros k' v' Hl _. case_decide; [auto|]. right. by eapply Hgt.
    + intros [(v & Hv & Hvt) Hmin]. f_equal.
      destruct (Hmin k0 v0) as [?|Hlt]; [by rewrite decide_True|done|done|].
      case_decide; [done|]. apply Hgt in Hv. by destruct (irreflexivity string_lt k0); etrans.
  - rewrite IH by done. split.
    + intros [(v & Hv & Hvt) Hmin]. split.
      * exists v. split; [|done]. rewrite decide_False; [done|].
        intros ->. apply Hgt in Hv. by apply (irreflexivity string_lt k).
      * intros k' v' Hl Hk'. case_decide; [simplify_eq; congruence|]. eauto.
    + intros [(v & Hv & Hvt) Hmin]. split.
      * exists v. split; [|done]. case_decide; [simplify_eq; congruence|done].
      * intros k' v' Hl Hk'. apply (Hmin k' v'); [|done]. rewrite decide_False; [done|].
        intros ->. apply Hgt in Hl. by apply (irreflexivity string_lt k').
Qed.

Lemma map_first_None test m :
  sorted m ->
  map_first test m = None <-> forall k v, contents m !! k = Some v -> test v = false.
Proof.
  intros Hs. assert (H : map_first test m = None <-> Forall (fun q => test q.2 = false) m).
  { clear Hs. induction m as [|[k v] m IH]; [by split|]. cbn. rewrite Forall_cons. cbn.
    destruct (test v); [split; [done|by intros []]|]. rewrite IH. naive_solver. }
  rewrite H, Forall_forall. split.
  - intros Hf k v Hl. apply elem_of_contents in Hl; [|done]. by apply (Hf _ Hl).
  - intros Hf [k v] Hin. apply (Hf k v). by apply elem_of_contents.
Qed.
End StdMap.

Create HintDb stdmap.
#[export] Hint Resolve map_set_sorted map_erase_sorted : stdmap.
#[global] Arguments contents : simpl never.
