(* ===== verification/Registry.v ===== *)
(** * Registry: [ConnectionRegistry] of SMPPServer

    Accepted sockets that wait for their handler process, with a limit per
    client address ([SMPPServer/src/connection_registry.cpp]).  Every method
    holds [mutex_] for its whole body, so that an execution is a sequence of
    calls.  The class keeps a counter per address beside the table; the
    specification has only the table and counts. *)

From S2P Require Import Prelude.
#[local] Open Scope Z_scope.

(** ** The class *)

Record SessionEntry := { fd : Z; client_ip : cstring }.

#[export] Instance SessionEntry_eq_dec : EqDecision SessionEntry.
Proof. solve_decision. Defined.

Record ConnectionRegistry := {
  max_per_ip_ : Z;
  sessions_ : gmap cstring SessionEntry;
  ip_counts_ : gmap cstring Z
}.

Definition registry_init (max_per_ip : Z) : ConnectionRegistry :=
  {| max_per_ip_ := max_per_ip; sessions_ := ∅; ip_counts_ := ∅ |}.

(** [ip_counts_[ip]]: a missing counter is created with value 0. *)
Definition counter (counts : gmap cstring Z) (ip : cstring) : Z := default 0 (counts !! ip).

Definition add (uuid : cstring) (f : Z) (ip : cstring) (r : ConnectionRegistry)
    : bool * ConnectionRegistry :=
  let cnt := counter (ip_counts_ r) ip in
  let counts := <[ip := cnt]> (ip_counts_ r) in
  if max_per_ip_ r <=? cnt then
    (false, {| max_per_ip_ := max_per_ip_ r; sessions_ := sessions_ r; ip_counts_ := counts |})
  else
    (true, {| max_per_ip_ := max_per_ip_ r;
              sessions_ := <[uuid := {| fd := f; client_ip := ip |}]> (sessions_ r);
              ip_counts_ := <[ip := u32 (cnt + 1)]> counts |}).

(** The part that [claim_fd] and [remove] share: the counter of the entry's
    address goes down if it can, the entry goes. *)
Definition drop_entry (uuid : cstring) (entry : SessionEntry) (r : ConnectionRegistry)
    : ConnectionRegistry :=
  let cnt := counter (ip_counts_ r) (client_ip entry) in
  {| max_per_ip_ := max_per_ip_ r;
     sessions_ := delete uuid (sessions_ r);
     ip_counts_ := <[client_ip entry := if 0 <? cnt then cnt - 1 else cnt]> (ip_counts_ r) |}.

Definition claim_fd (uuid : cstring) (r : ConnectionRegistry) : option Z * ConnectionRegistry :=
  match sessions_ r !! uuid with
  | None => (None, r)
  | Some entry => (Some (fd entry), drop_entry uuid entry r)
  end.

Definition remove (uuid : cstring) (r : ConnectionRegistry) : ConnectionRegistry :=
  match sessions_ r !! uuid with
  | None => r
  | Some entry => drop_entry uuid entry r
  end.

Definition count (ip : cstring) (r : ConnectionRegistry) : Z :=
  match ip_counts_ r !! ip with Some n => n | None => 0 end.

Definition set_max_per_ip (max : Z) (r : ConnectionRegistry) : ConnectionRegistry :=
  {| max_per_ip_ := max; sessions_ := sessions_ r; ip_counts_ := ip_counts_ r |}.

Definition max_per_ip (r : ConnectionRegistry) : Z := max_per_ip_ r.

(** ** Calls and their answers *)

Inductive reg_op :=
| OpAdd (uuid : cstring) (f : Z) (ip : cstring)
| OpClaim (uuid : cstring)
| OpRemove (uuid : cstring)
| OpCount (ip : cstring)
| OpSetMax (max : Z)
| OpMax.

Inductive reg_ret := RBool (b : bool) | RFd (o : option Z) | RNum (n : Z) | RVoid.

Definition reg_call (op : reg_op) (r : ConnectionRegistry) : reg_ret * ConnectionRegistry :=
  match op with
  | OpAdd uuid f ip => let '(b, r) := add uuid f ip r in (RBool b, r)
  | OpClaim uuid => let '(o, r) := claim_fd uuid r in (RFd o, r)
  | OpRemove uuid => (RVoid, remove uuid r)
  | OpCount ip => (RNum (count ip r), r)
  | OpSetMax max => (RVoid, set_max_per_ip max r)
  | OpMax => (RNum (max_per_ip r), r)
  end.

Fixpoint reg_run (ops : list reg_op) (r : ConnectionRegistry) : list reg_ret * ConnectionRegistry :=
  match ops with
  | [] => ([], r)
  | op :: ops =>
      let '(a, r) := reg_call op r in
      let '(l, r) := reg_run ops r in (a :: l, r)
  end.

(** ** The specification: a table and a limit *)

Abbreviation table := (gmap cstring SessionEntry).

Definition of_ip (ip : cstring) (t : table) : table := filter (fun p => client_ip p.2 = ip) t.

(** The number of waiting sockets of one address. *)
Definition waiting (ip : cstring) (t : table) : Z := Z.of_nat (size (of_ip ip t)).

Definition spec_call (op : reg_op) (max : Z) (t : table) : reg_ret * Z * table :=
  match op with
  | OpAdd uuid f ip =>
      if waiting ip t <? max
      then (RBool true, max, <[uuid := {| fd := f; client_ip := ip |}]> t)
      else (RBool false, max, t)
  | OpClaim uuid => (RFd (fd <$> t !! uuid), max, delete uuid t)
  | OpRemove uuid => (RVoid, max, delete uuid t)
  | OpCount ip => (RNum (waiting ip t), max, t)
  | OpSetMax max' => (RVoid, max', t)
  | OpMax => (RNum max, max, t)
  end.

Fixpoint spec_run (ops : list reg_op) (max : Z) (t : table) : list reg_ret * Z * table :=
  match ops with
  | [] => ([], max, t)
  | op :: ops =>
      let '(a, max, t) := spec_call op max t in
      let '(l, max, t) := spec_run ops max t in (a :: l, max, t)
  end.

(** What the callers guarantee: limits are 32-bit, and an [add] comes with a
    uuid that is not waiting already. *)
Definition op_ok (op : reg_op) (t : table) : Prop :=
  match op with
  | OpAdd uuid _ _ => t !! uuid = None
  | OpSetMax max => is_u32 max
  | _ => True
  end.

Fixpoint ops_ok (ops : list reg_op) (max : Z) (t : table) : Prop :=
  match ops with
  | [] => True
  | op :: ops =>
      op_ok op t /\ let '(_, max, t) := spec_call op max t in ops_ok ops max t
  end.

(** ** Counting *)

Lemma of_ip_insert ip uuid entry t :
  t !! uuid = None ->
  waiting ip (<[uuid := entry]> t)
  = waiting ip t + if decide (client_ip entry = ip) then 1 else 0.
Proof.
  intros Ht. unfold waiting, of_ip. case_decide as Hip.
  - rewrite map_filter_insert_True by done. rewrite map_size_insert_None; [lia|].
    rewrite map_lookup_filter_None. by left.
  - rewrite map_filter_insert_False by done. rewrite delete_id by done. lia.
Qed.

Lemma of_ip_delete ip uuid entry t :
  t !! uuid = Some entry ->
  waiting ip (delete uuid t)
  = waiting ip t - if decide (client_ip entry = ip) then 1 else 0.
Proof.
  intros Ht. pose proof (of_ip_insert ip uuid entry (delete uuid t)) as H.
  rewrite insert_delete_id in H by done. rewrite H by apply lookup_delete_eq. lia.
Qed.

Lemma waiting_nonneg ip t : 0 <= waiting ip t.
Proof. unfold waiting. lia. Qed.

(** ** Refinement *)

(** The counters agree with the table. *)
Record rel (r : ConnectionRegistry) (max : Z) (t : table) : Prop := {
  rel_max : max_per_ip_ r = max;
  rel_u32 : is_u32 max;
  rel_table : sessions_ r = t;
  rel_counts ip : counter (ip_counts_ r) ip = waiting ip t;
  rel_small ip : is_u32 (waiting ip t)
}.

Lemma counter_insert counts ip n ip' :
  counter (<[ip := n]> counts) ip' = if decide (ip = ip') then n else counter counts ip'.
Proof.
  unfold counter. case_decide; [subst; by rewrite lookup_insert_eq|].
  by rewrite lookup_insert_ne.
Qed.

Lemma drop_entry_rel r max t uuid entry :
  rel r max t -> t !! uuid = Some entry ->
  rel (drop_entry uuid entry r) max (delete uuid t).
Proof.
  intros [Hm Hu Ht Hc Hs] He. pose proof (fun ip => of_ip_delete ip uuid entry t He) as Hd.
  pose proof (fun ip => waiting_nonneg ip (delete uuid t)) as Hn.
  constructor; cbn; [done|done|by rewrite Ht| |].
  - intros ip. rewrite counter_insert, Hd, Hc. specialize (Hn ip). rewrite Hd in Hn.
    case_decide as Hip; [|rewrite Hc; lia]. rewrite Hip.
    destruct (Z.ltb_spec 0 (waiting ip t)); lia.
  - intros ip. specialize (Hn ip). specialize (Hs ip). unfold is_u32 in *. rewrite Hd in *.
    case_decide; lia.
Qed.

(** One call. *)
Lemma reg_call_refines op r max t :
  rel r max t -> op_ok op t ->
  exists r', reg_call op r = (fst (fst (spec_call op max t)), r') /\
    rel r' (snd (fst (spec_call op max t))) (snd (spec_call op max t)).
Proof.
  intros Hrel Hok. pose proof Hrel as [Hm Hu Ht Hc Hs].
  destruct op as [uuid f ip|uuid|uuid|ip|max'|]; cbn in Hok |- *.
  - unfold add. rewrite Hm, Hc. destruct (Z.leb_spec max (waiting ip t)) as [Hle|Hlt].
    + rewrite (proj2 (Z.ltb_ge _ _)) by done. eexists. split; [done|].
      constructor; cbn; try done. intros ip'. rewrite counter_insert.
      case_decide; [by subst|done].
    + rewrite (proj2 (Z.ltb_lt _ _)) by done. eexists. split; [done|].
      pose proof (waiting_nonneg ip t). unfold is_u32 in *.
      constructor; cbn; [done|done|by rewrite Ht|..]; intros ip'; rewrite of_ip_insert by done; cbn.
      * rewrite counter_insert, counter_insert, Hc.
        case_decide; [subst; rewrite u32_small; [done|unfold is_u32; lia]|lia].
      * specialize (Hs ip'). unfold is_u32. case_decide; [subst; lia|lia].
  - unfold claim_fd. rewrite Ht. destruct (t !! uuid) as [entry|] eqn:He.
    + eexists. split; [done|]. by apply drop_entry_rel.
    + exists r. rewrite delete_id by done. done.
  - unfold remove. rewrite Ht. destruct (t !! uuid) as [entry|] eqn:He.
    + eexists. split; [done|]. by apply drop_entry_rel.
    + exists r. rewrite delete_id by done. done.
  - exists r. split; [|done]. specialize (Hc ip). unfold counter in Hc. unfold count.
    by destruct (ip_counts_ r !! ip); cbn in Hc; rewrite Hc.
  - eexists. split; [done|]. by constructor.
  - exists r. split; [|done]. unfold max_per_ip. by rewrite Hm.
Qed.

Lemma rel_init max : is_u32 max -> rel (registry_init max) max ∅.
Proof.
  intros H. constructor; [done|done|done|..]; intros ip; unfold waiting, of_ip;
    by rewrite map_filter_empty.
Qed.

Lemma reg_run_refines ops r max t :
  rel r max t -> ops_ok ops max t ->
  exists r', reg_run ops r = (fst (fst (spec_run ops max t)), r') /\
    rel r' (snd (fst (spec_run ops max t))) (snd (spec_run ops max t)).
Proof.
  revert r max t. induction ops as [|op ops IH]; intros r max t Hrel Hok.
  { exists r. done. }
  cbn [ops_ok reg_run spec_run] in *. destruct Hok as [Hop Hok].
  destruct (reg_call_refines op r max t Hrel Hop) as (r1 & Hcall & Hrel1). rewrite Hcall.
  destruct (spec_call op max t) as [[a max1] t1]. cbn [fst snd] in *.
  destruct (IH r1 max1 t1 Hrel1 Hok) as (r2 & Hrun & Hrel2). rewrite Hrun.
  destruct (spec_run ops max1 t1) as [[l max2] t2]. eauto.
Qed.

(** C21: The registry refines its specification: for any sequence of calls whose
    [add]s use uuids that are not waiting, every answer is the one of a plain table
    with a limit.  In particular an [add] succeeds exactly while fewer than the
    limit of the address's sockets are waiting, [count] is the number of sockets
    that wait, and a claimed descriptor is the one that was added, once. *)
Theorem registry_refines max ops :
  is_u32 max -> ops_ok ops max ∅ ->
  fst (reg_run ops (registry_init max)) = fst (fst (spec_run ops max ∅)) /\
  sessions_ (snd (reg_run ops (registry_init max))) = snd (spec_run ops max ∅).
Proof.
  intros Hm Hok. destruct (reg_run_refines ops _ max ∅ (rel_init max Hm) Hok) as (r & Hr & []).
  rewrite Hr. done.
Qed.

Definition example_ops : list reg_op :=
  [OpAdd (str "a") 7 (str "10.0.0.1"); OpAdd (str "b") 8 (str "10.0.0.1");
   OpAdd (str "c") 9 (str "10.0.0.1"); OpCount (str "10.0.0.1"); OpClaim (str "a");
   OpClaim (str "a"); OpAdd (str "c") 9 (str "10.0.0.1")].

Lemma registry_refines_witness :
  fst (reg_run example_ops (registry_init 2))
  = [RBool true; RBool true; RBool false; RNum 2; RFd (Some 7); RFd None; RBool true] /\
  sessions_ (snd (reg_run example_ops (registry_init 2))) = snd (spec_run example_ops 2 ∅).
Proof.
  destruct (registry_refines 2 example_ops) as [H1 H2]; [done|by vm_compute|].
  split; [|done]. rewrite H1. by vm_compute.
Defined.

(** ** Any sequence of calls *)

(** Without the guarantee on uuids a counter may run ahead of the table, never
    behind it. *)
Record bounded (max : Z) (r : ConnectionRegistry) : Prop := {
  bounded_max : max_per_ip_ r = max;
  bounded_counts ip : waiting ip (sessions_ r) <= counter (ip_counts_ r) ip <= max
}.

Lemma waiting_insert_le ip uuid entry t :
  waiting ip (<[uuid := entry]> t) <= waiting ip t + if decide (client_ip entry = ip) then 1 else 0.
Proof.
  rewrite <- insert_delete_eq, of_ip_insert by apply lookup_delete_eq.
  destruct (t !! uuid) as [old|] eqn:Ho.
  - rewrite (of_ip_delete ip uuid old t Ho). repeat case_decide; lia.
  - rewrite delete_id by done. lia.
Qed.

Lemma drop_entry_bounded max r uuid entry :
  bounded max r -> sessions_ r !! uuid = Some entry -> bounded max (drop_entry uuid entry r).
Proof.
  intros [Hm Hb] He. constructor; [done|]. intros ip. cbn. rewrite counter_insert.
  pose proof (of_ip_delete ip uuid entry _ He) as Hd.
  pose proof (waiting_nonneg ip (delete uuid (sessions_ r))) as Hn.
  pose proof (Hb (client_ip entry)) as Hb'. specialize (Hb ip). rewrite Hd in Hn |- *.
  case_decide as Hip; [|lia]. rewrite Hip in *.
  destruct (Z.ltb_spec 0 (counter (ip_counts_ r) ip)); lia.
Qed.

Lemma reg_call_bounded max op r :
  is_u32 max -> (forall m, op <> OpSetMax m) -> bounded max r -> bounded max (snd (reg_call op r)).
Proof.
  intros Hu Hop Hb. pose proof Hb as [Hm Hc].
  destruct op as [uuid f ip|uuid|uuid|ip|max'|]; cbn.
  - unfold add. destruct (Z.leb_spec (max_per_ip_ r) (counter (ip_counts_ r) ip)) as [Hle|Hlt].
    + constructor; [done|]. intros ip'. cbn. rewrite counter_insert.
      case_decide; [subst; apply Hc|apply Hc].
    + constructor; [done|]. intros ip'. cbn.
      pose proof (waiting_insert_le ip' uuid {| fd := f; client_ip := ip |} (sessions_ r)) as Hw.
      pose proof (waiting_nonneg ip (sessions_ r)) as Hn. cbn in Hw.
      rewrite !counter_insert. pose proof (Hc ip) as Hi. specialize (Hc ip').
      rewrite Hm in Hlt. unfold is_u32 in Hu.
      revert Hw. case_decide; intros Hw; [subst ip'; rewrite u32_small; [lia|unfold is_u32; lia]|lia].
  - unfold claim_fd. destruct (sessions_ r !! uuid) eqn:He; [by apply drop_entry_bounded|done].
  - unfold remove. destruct (sessions_ r !! uuid) eqn:He; [by apply drop_entry_bounded|done].
  - done.
  - by destruct (Hop max').
  - done.
Qed.

(** The limit holds whatever the callers do: under any sequence of calls that
    does not change the limit, reused uuids included, no address ever has more
    sockets waiting than the limit, and the counter of an address is never below
    the number of its sockets that wait. *)
Theorem limit_always_enforced max ops ip :
  is_u32 max -> Forall (fun op => forall m, op <> OpSetMax m) ops ->
  let r := snd (reg_run ops (registry_init max)) in
  waiting ip (sessions_ r) <= count ip r <= max.
Proof.
  intros Hu Hops r. assert (Hb : bounded max r).
  { unfold r. assert (H0 : bounded max (registry_init max)).
    { constructor; [done|]. intros ip'. cbn. unfold waiting, of_ip, is_u32 in *.
      rewrite map_filter_empty. change (0 <= 0 <= max). lia. }
    clear r. revert H0. generalize (registry_init max).
    induction Hops as [|op ops Hop Hops IH]; intros r0 H0; [done|].
    cbn [reg_run]. pose proof (reg_call_bounded max op r0 Hu Hop H0) as H1.
    destruct (reg_call op r0) as [a r1]. specialize (IH r1 H1).
    by destruct (reg_run ops r1) as [l r2]. }
  destruct Hb as [_ Hb]. specialize (Hb ip). unfold counter in Hb. unfold count.
  by destruct (ip_counts_ r !! ip).
Qed.

Definition example_reuse : list reg_op :=
  [OpAdd (str "a") 7 (str "10.0.0.1"); OpAdd (str "a") 8 (str "10.0.0.1");
   OpAdd (str "b") 9 (str "10.0.0.1"); OpClaim (str "a")].

Lemma limit_always_enforced_witness :
  let r := snd (reg_run example_reuse (registry_init 2)) in
  waiting (str "10.0.0.1") (sessions_ r) <= count (str "10.0.0.1") r <= 2.
Proof.
  apply (limit_always_enforced 2 example_reuse (str "10.0.0.1")); [done|].
  by repeat constructor.
Defined.
