(* ===== verification/ServerService.v ===== *)
(** * ServerService: [SmppServerService], the server's D-Bus object

    [SMPPServer/src/smpp_server_service.cpp]: the table of sessions, a
    [std::map] in uuid order, beside the registry of waiting sockets; the
    methods of the IServer interface and the two calls of the acceptor.  The
    handlers of the sessions are reached over the bus: an argument answers the
    calls made to them. *)

From Stdlib Require Import Sorting.Sorted.
From S2P Require Import Prelude StdMap Registry.
#[local] Open Scope Z_scope.
#[local] Open Scope eff_scope.

(** ** State, effects, environment *)

Record SessionInfo := {
  info_client_ip : cstring;
  info_system_id : cstring;
  info_state : cstring
}.

Record SmppServerService := {
  registry_ : ConnectionRegistry;
  svc_sessions_ : list (cstring * SessionInfo)
}.

Definition set_registry (r : ConnectionRegistry) (s : SmppServerService) : SmppServerService :=
  {| registry_ := r; svc_sessions_ := svc_sessions_ s |}.
Definition set_sessions (m : list (cstring * SessionInfo)) (s : SmppServerService)
    : SmppServerService :=
  {| registry_ := registry_ s; svc_sessions_ := m |}.

Inductive srv_effect :=
| EmitSessionStarted (uuid client_ip : cstring)
| CallDisconnect (svc reason : cstring) (ok : bool)
| CallDeliverSm (svc src dst msg : cstring) (reply : option Z).

Inductive srv_exn := SrvError (name message : cstring).

Abbreviation VM := (M SmppServerService srv_effect srv_exn).

(** How the client handlers on the bus answer; [None] and [false] when the call
    throws (no such service, a timeout, an error reply). *)
Record clients := {
  cl_DeliverSm : cstring -> cstring -> cstring -> cstring -> option Z;
  cl_Disconnect : cstring -> cstring -> bool
}.

Definition service_init (max_per_ip : Z) : SmppServerService :=
  {| registry_ := registry_init max_per_ip; svc_sessions_ := [] |}.

Definition client_service (uuid : cstring) : cstring := str "com.telecom.smpp.Client." ++ uuid.

(** ** Calls of the acceptor *)

Definition register_session (uuid : cstring) (f : Z) (ip : cstring) : VM unit :=
  s <- eget ;;
  let '(added, r) := add uuid f ip (registry_ s) in
  emodify (set_registry r) ;;;
  if negb added then eret () else
  emodify (fun s => set_sessions
    (map_set uuid {| info_client_ip := ip; info_system_id := []; info_state := str "OPEN" |}
       (svc_sessions_ s)) s) ;;;
  emit (EmitSessionStarted uuid ip).

(** Its two critical sections: that of the registry, and that of the table with the signal
    after it. *)
Definition register_add (uuid : cstring) (f : Z) (ip : cstring) : VM bool :=
  s <- eget ;;
  let '(added, r) := add uuid f ip (registry_ s) in
  emodify (set_registry r) ;;;
  eret added.

Definition register_enter (uuid ip : cstring) : VM unit :=
  emodify (fun s => set_sessions
    (map_set uuid {| info_client_ip := ip; info_system_id := []; info_state := str "OPEN" |}
       (svc_sessions_ s)) s) ;;;
  emit (EmitSessionStarted uuid ip).

Lemma register_session_sections uuid f ip s :
  register_session uuid f ip s
  = (added <- register_add uuid f ip ;; if added then register_enter uuid ip else eret ()) s.
Proof. unfold register_session, register_add, ebind, eget. by destruct (add _ _ _ _) as [[] r]. Qed.

Definition unregister_session (uuid : cstring) : VM unit :=
  emodify (fun s => set_sessions (map_erase uuid (svc_sessions_ s)) s).

(** ** IServer *)

Definition GetSocket (uuid : cstring) : VM Z :=
  s <- eget ;;
  let '(fd_opt, r) := claim_fd uuid (registry_ s) in
  emodify (set_registry r) ;;;
  match fd_opt with
  | None => ethrow (SrvError (str "com.telecom.smpp.Error.NotFound") (str "Unknown uuid: " ++ uuid))
  | Some f => eret f
  end.

Definition UpdateSessionDetails (uuid system_id state : cstring) : VM unit :=
  s <- eget ;;
  match map_find uuid (svc_sessions_ s) with
  | Some info =>
      emodify (set_sessions
        (map_set uuid {| info_client_ip := info_client_ip info; info_system_id := system_id;
                         info_state := state |} (svc_sessions_ s)))
  | None => eret ()
  end.

Definition GetConnectionCount (ip : cstring) : VM Z :=
  s <- eget ;; eret (count ip (registry_ s)).

Definition GetAllSessions : VM (list (cstring * cstring * cstring * cstring)) :=
  s <- eget ;;
  eret ((fun '(uuid, info) => (uuid, info_client_ip info, info_system_id info, info_state info))
          <$> svc_sessions_ s).

(** The address is ignored. *)
Definition SetMaxConnectionsPerIp (ip : cstring) (max : Z) : VM unit :=
  s <- eget ;; emodify (set_registry (set_max_per_ip max (registry_ s))).

(** A call to one target; an exception is caught and logged. *)
Definition disconnect_target (cl : clients) (reason uuid : cstring) : VM unit :=
  emit (CallDisconnect (client_service uuid) reason (cl_Disconnect cl (client_service uuid) reason)).

Fixpoint disconnect_targets (cl : clients) (reason : cstring) (targets : list cstring) : VM unit :=
  match targets with
  | [] => eret ()
  | uuid :: targets => disconnect_target cl reason uuid ;;; disconnect_targets cl reason targets
  end.

Definition DisconnectAll (cl : clients) (ip reason : cstring) : VM unit :=
  s <- eget ;;
  let targets := fst <$> filter (fun p => info_client_ip p.2 = ip) (svc_sessions_ s) in
  disconnect_targets cl reason targets.

Definition can_receive (info : SessionInfo) : bool :=
  bool_decide (info_state info = str "BOUND_RX" \/ info_state info = str "BOUND_TRX").

Definition RouteMessage (cl : clients) (src_addr dst_addr short_message message_id : cstring)
    : VM cstring :=
  s <- eget ;;
  let target_uuid := default [] (map_first can_receive (svc_sessions_ s)) in
  if decide (target_uuid = []) then eret [] else
  let svc := client_service target_uuid in
  let reply := cl_DeliverSm cl svc src_addr dst_addr short_message in
  emit (CallDeliverSm svc src_addr dst_addr short_message reply) ;;;
  match reply with
  | None => eret []
  | Some seq => eret target_uuid
  end.

(** ** Executions *)

Inductive srv_op :=
| OpRegister (uuid : cstring) (f : Z) (ip : cstring)
| OpUnregister (uuid : cstring)
| OpGetSocket (uuid : cstring)
| OpUpdate (uuid system_id state : cstring)
| OpGetCount (ip : cstring)
| OpGetAll
| OpSetMaxPerIp (ip : cstring) (max : Z)
| OpDisconnectAll (ip reason : cstring)
| OpRoute (src dst msg mid : cstring).

(** The state after a call; the return values have theorems of their own. *)
Definition srv_call (cl : clients) (op : srv_op) (s : SmppServerService) : SmppServerService :=
  match op with
  | OpRegister uuid f ip => run_state (register_session uuid f ip s)
  | OpUnregister uuid => run_state (unregister_session uuid s)
  | OpGetSocket uuid => run_state (GetSocket uuid s)
  | OpUpdate uuid sid st => run_state (UpdateSessionDetails uuid sid st s)
  | OpGetCount ip => run_state (GetConnectionCount ip s)
  | OpGetAll => run_state (GetAllSessions s)
  | OpSetMaxPerIp ip max => run_state (SetMaxConnectionsPerIp ip max s)
  | OpDisconnectAll ip reason => run_state (DisconnectAll cl ip reason s)
  | OpRoute src dst msg mid => run_state (RouteMessage cl src dst msg mid s)
  end.

Definition srv_step (s : SmppServerService) (l : clients * srv_op) (s' : SmppServerService) : Prop :=
  s' = srv_call (fst l) (snd l) s.

Definition srv_init (s : SmppServerService) : Prop := exists max, s = service_init max.

(** ** The table of sessions *)

Lemma disconnect_targets_run cl reason targets s :
  disconnect_targets cl reason targets s
  = (Ret (), s, (fun uuid => CallDisconnect (client_service uuid) reason
                               (cl_Disconnect cl (client_service uuid) reason)) <$> targets).
Proof.
  induction targets as [|uuid targets IH]; [done|]. cbn [disconnect_targets].
  unfold ebind, disconnect_target, emit. by rewrite IH.
Qed.

Lemma RouteMessage_state cl src dst msg mid s :
  run_state (RouteMessage cl src dst msg mid s) = s.
Proof.
  unfold RouteMessage, ebind, eget. case_decide; [done|]. cbn.
  by destruct (cl_DeliverSm _ _ _ _ _).
Qed.

(** What each call does to the contents of the table. *)
Definition table_effect (op : srv_op) (s : SmppServerService) (t : gmap cstring SessionInfo)
    : gmap cstring SessionInfo :=
  match op with
  | OpRegister uuid f ip =>
      if fst (add uuid f ip (registry_ s))
      then <[uuid := {| info_client_ip := ip; info_system_id := []; info_state := str "OPEN" |}]> t
      else t
  | OpUnregister uuid => delete uuid t
  | OpUpdate uuid sid st =>
      alter (fun info => {| info_client_ip := info_client_ip info; info_system_id := sid;
                            info_state := st |}) uuid t
  | _ => t
  end.

Lemma srv_call_table cl op s :
  sorted (svc_sessions_ s) ->
  sorted (svc_sessions_ (srv_call cl op s)) /\
  contents (svc_sessions_ (srv_call cl op s)) = table_effect op s (contents (svc_sessions_ s)).
Proof.
  intros Hs. destruct op as [uuid f ip|uuid|uuid|uuid sid st|ip| |ip max|ip reason|src dst msg mid];
    cbn [srv_call table_effect].
  - unfold register_session, ebind, eget. destruct (add _ _ _ _) as [[] r]; cbn; [|done].
    split; [auto with stdmap|]. apply contents_set.
  - split; [cbn; auto with stdmap|]. by apply contents_erase.
  - unfold GetSocket, ebind, eget. by destruct (claim_fd _ _) as [[f|] r].
  - unfold UpdateSessionDetails, ebind, eget. rewrite map_find_contents.
    destruct (contents _ !! uuid) as [info|] eqn:He; cbn.
    + split; [auto with stdmap|]. rewrite contents_set. apply map_eq. intros k.
      destruct (decide (uuid = k)) as [->|Hk].
      * by rewrite lookup_insert_eq, lookup_alter_eq, He.
      * by rewrite lookup_insert_ne, lookup_alter_ne.
    + split; [done|]. symmetry. apply map_eq. intros k.
      destruct (decide (uuid = k)) as [->|Hk]; [by rewrite lookup_alter_eq, He|].
      by rewrite lookup_alter_ne.
  - done.
  - done.
  - done.
  - unfold DisconnectAll, ebind, eget. by rewrite disconnect_targets_run.
  - by rewrite RouteMessage_state.
Qed.

Lemma srv_sorted s : reachable srv_init srv_step s -> sorted (svc_sessions_ s).
Proof.
  apply (invariant_rule _ _ (fun s => sorted (svc_sessions_ s))).
  - intros ? [max ->]. constructor.
  - intros c [cl op] c' _ Hs ->. by apply srv_call_table.
Qed.

(** The abstract history: the table a sequence of calls should produce.  The
    registry decides which registrations are accepted. *)
Fixpoint srv_run (ops : list (clients * srv_op)) (s : SmppServerService) : SmppServerService :=
  match ops with [] => s | (cl, op) :: ops => srv_run ops (srv_call cl op s) end.

Fixpoint table_run (ops : list (clients * srv_op)) (s : SmppServerService)
    (t : gmap cstring SessionInfo) : gmap cstring SessionInfo :=
  match ops with
  | [] => t
  | (cl, op) :: ops => table_run ops (srv_call cl op s) (table_effect op s t)
  end.

Lemma srv_run_table ops s :
  sorted (svc_sessions_ s) ->
  sorted (svc_sessions_ (srv_run ops s)) /\
  contents (svc_sessions_ (srv_run ops s)) = table_run ops s (contents (svc_sessions_ s)).
Proof.
  revert s. induction ops as [|[cl op] ops IH]; intros s Hs; [done|]. cbn.
  destruct (srv_call_table cl op s Hs) as [Hs' <-]. by apply IH.
Qed.

Lemma session_rows_sorted (m : list (cstring * SessionInfo)) :
  sorted m ->
  StronglySorted (fun p q => string_lt p.1.1.1 q.1.1.1)
    ((fun '(uuid, info) => (uuid, info_client_ip info, info_system_id info, info_state info)) <$> m).
Proof.
  induction 1 as [|[k v] m Hs IH Hf]; [constructor|].
  cbn. constructor; [done|]. apply Forall_fmap. eapply Forall_impl; [done|]. by intros [k' v'].
Qed.

(** C22: The session table is a finite map: after any sequence of calls,
    [GetAllSessions] lists, once each and in increasing order of uuid, exactly the
    sessions that were accepted and not unregistered since, each with its address
    and the system id and state of its last update. *)
Theorem get_all_sessions_correct max ops :
  let s := srv_run ops (service_init max) in
  let t := table_run ops (service_init max) ∅ in
  exists l, GetAllSessions s = (Ret l, s, []) /\
    StronglySorted (fun p q => string_lt p.1.1.1 q.1.1.1) l /\
    forall uuid ip sid st,
      (uuid, ip, sid, st) ∈ l <->
      t !! uuid = Some {| info_client_ip := ip; info_system_id := sid; info_state := st |}.
Proof.
  intros s t. destruct (srv_run_table ops (service_init max)) as [Hs Ht]; [constructor|].
  fold s in Hs, Ht. change (contents (svc_sessions_ (service_init max)))
    with (∅ : gmap cstring SessionInfo) in Ht. fold t in Ht. clearbody s t.
  eexists. split; [done|]. split.
  - by apply session_rows_sorted.
  - intros uuid ip sid st. rewrite <- Ht, <- elem_of_contents, list_elem_of_fmap by done. split.
    + intros ([k []] & ? & ?). by simplify_eq/=.
    + intros Hin. by exists (uuid, {| info_client_ip := ip; info_system_id := sid; info_state := st |}).
Qed.

(** What [RouteMessage] promises. *)
Definition receiver (s : SmppServerService) (uuid : cstring) : Prop :=
  exists info, contents (svc_sessions_ s) !! uuid = Some info /\
    (info_state info = str "BOUND_RX" \/ info_state info = str "BOUND_TRX").

Definition least_receiver (s : SmppServerService) (uuid : cstring) : Prop :=
  receiver s uuid /\ forall uuid', receiver s uuid' -> uuid' = uuid \/ string_lt uuid uuid'.

Lemma map_first_receiver s uuid :
  sorted (svc_sessions_ s) ->
  map_first can_receive (svc_sessions_ s) = Some uuid <-> least_receiver s uuid.
Proof.
  intros Hs. rewrite map_first_spec by done. unfold least_receiver, receiver, can_receive.
  setoid_rewrite bool_decide_eq_true. naive_solver.
Qed.

Lemma RouteMessage_found cl src dst msg mid s uuid :
  sorted (svc_sessions_ s) -> uuid <> [] -> least_receiver s uuid ->
  let svc := client_service uuid in
  let reply := cl_DeliverSm cl svc src dst msg in
  RouteMessage cl src dst msg mid s
  = (Ret (match reply with Some _ => uuid | None => [] end), s,
     [CallDeliverSm svc src dst msg reply]).
Proof.
  intros Hs Hu Hl%(map_first_receiver s uuid Hs) svc reply.
  unfold RouteMessage, ebind, eget. rewrite Hl. cbn [default from_option id].
  rewrite decide_False by done. fold svc. fold reply. clearbody reply. by destruct reply.
Qed.

Lemma RouteMessage_none cl src dst msg mid s :
  sorted (svc_sessions_ s) -> (forall uuid, ~ receiver s uuid) ->
  RouteMessage cl src dst msg mid s = (Ret [], s, []).
Proof.
  intros Hs Hn. unfold RouteMessage, ebind, eget.
  rewrite (proj2 (map_first_None can_receive _ Hs)); [done|].
  intros k v Hk. apply not_true_iff_false. unfold can_receive. rewrite bool_decide_eq_true.
  intros Hst. apply (Hn k). by exists v.
Qed.

(** C20: Routing.  When some session is recorded as BOUND_RX or BOUND_TRX,
    [RouteMessage] makes exactly one [DeliverSm] call, to the one with the least
    uuid, with the addresses and the text as given; it returns that uuid when the
    call succeeds and the empty string when it fails, without trying another
    receiver.  When there is none it calls no one and returns the empty string. *)
Theorem route_message_correct cl src dst msg mid s :
  reachable srv_init srv_step s ->
  (forall uuid, uuid <> [] -> least_receiver s uuid ->
     let svc := str "com.telecom.smpp.Client." ++ uuid in
     let reply := cl_DeliverSm cl svc src dst msg in
     RouteMessage cl src dst msg mid s
     = (Ret (match reply with Some _ => uuid | None => [] end), s,
        [CallDeliverSm svc src dst msg reply])) /\
  ((forall uuid, ~ receiver s uuid) -> RouteMessage cl src dst msg mid s = (Ret [], s, [])).
Proof.
  intros Hs%srv_sorted. split; [|by apply RouteMessage_none].
  intros uuid Hu Hl. by apply RouteMessage_found.
Qed.

(** A server with two receivers; the handler of the first is gone. *)
Definition example_clients : clients :=
  {| cl_DeliverSm := fun svc _ _ _ =>
       if decide (svc = client_service (str "a1")) then None else Some 0x20000000;
     cl_Disconnect := fun _ _ => true |}.

Definition example_service_ops : list (clients * srv_op) :=
  (fun op => (example_clients, op)) <$>
  [OpRegister (str "b2") 7 (str "10.0.0.2"); OpRegister (str "a1") 8 (str "10.0.0.1");
   OpGetSocket (str "b2"); OpGetSocket (str "a1");
   OpUpdate (str "b2") (str "esme2") (str "BOUND_TRX");
   OpUpdate (str "a1") (str "esme1") (str "BOUND_RX")].

Lemma srv_run_reachable ops s :
  reachable srv_init srv_step s -> reachable srv_init srv_step (srv_run ops s).
Proof.
  revert s. induction ops as [|[cl op] ops IH]; intros s Hs; [done|].
  apply IH. by apply (reachable_step _ _ s (cl, op)).
Qed.

Lemma service_reachable max ops :
  reachable srv_init srv_step (srv_run ops (service_init max)).
Proof. apply srv_run_reachable, reachable_init. by exists max. Qed.

Lemma route_message_correct_witness :
  let s := srv_run example_service_ops (service_init 5) in
  run_outcome (RouteMessage example_clients (str "1") (str "2") (str "Hi") (str "id") s) = Ret [].
Proof.
  intros s. destruct (route_message_correct example_clients (str "1") (str "2") (str "Hi")
    (str "id") s (service_reachable 5 example_service_ops)) as [H _].
  rewrite (H (str "a1")); [by vm_compute|done|].
  apply map_first_receiver; [|by vm_compute]. apply srv_sorted, service_reachable.
Defined.

(** [DisconnectAll] asks every session of the address, and no other, to
    disconnect with the given reason, once each, whether or not some of the calls
    fail; it changes nothing in the server. *)
Theorem disconnect_all_correct cl ip reason s :
  sorted (svc_sessions_ s) ->
  exists targets, DisconnectAll cl ip reason s
    = (Ret (), s, (fun uuid => CallDisconnect (str "com.telecom.smpp.Client." ++ uuid) reason
                     (cl_Disconnect cl (str "com.telecom.smpp.Client." ++ uuid) reason)) <$> targets) /\
    NoDup targets /\
    forall uuid, uuid ∈ targets <->
      exists info, contents (svc_sessions_ s) !! uuid = Some info /\ info_client_ip info = ip.
Proof.
  intros Hs. eexists. split.
  { unfold DisconnectAll, ebind, eget. by rewrite disconnect_targets_run. }
  split.
  - apply (sublist_NoDup _ (svc_sessions_ s).*1); [|by apply fmap_sublist, sublist_filter].
    by apply sorted_keys_NoDup.
  - intros uuid. rewrite list_elem_of_fmap. setoid_rewrite list_elem_of_filter. split.
    + intros ([k info] & -> & Hip & Hin). exists info. by rewrite <- elem_of_contents.
    + intros (info & Hin & Hip). exists (uuid, info). by rewrite elem_of_contents.
Qed.

Lemma disconnect_all_correct_witness :
  let s := srv_run example_service_ops (service_init 5) in
  exists targets, DisconnectAll example_clients (str "10.0.0.2") (str "bye") s
    = (Ret (), s, (fun uuid => CallDisconnect (str "com.telecom.smpp.Client." ++ uuid) (str "bye")
                     (cl_Disconnect example_clients (str "com.telecom.smpp.Client." ++ uuid)
                        (str "bye"))) <$> targets) /\
    NoDup targets /\
    forall uuid, uuid ∈ targets <->
      exists info, contents (svc_sessions_ s) !! uuid = Some info /\
                   info_client_ip info = str "10.0.0.2".
Proof.
  exact (disconnect_all_correct example_clients (str "10.0.0.2") (str "bye") _
           (srv_sorted _ (service_reachable 5 example_service_ops))).
Defined.
