(* ===== verification/Dbus.v ===== *)
(** * Dbus: the D-Bus interfaces of the components

    The adaptors and proxies of [include/generated/]: an adaptor registers, per method, a
    name and the member function that implements it, with the types of its arguments and
    results; a proxy calls a method by its name and stores the results.  A message is a
    list of typed values; a call of an unknown method, or with arguments of other types, is
    answered with an error.  (What the bus does to strings is [Bus].) *)

From S2P Require Import Prelude Pdu Throttle Session Auth StdMap Registry ServerService.
#[local] Open Scope Z_scope.
#[local] Open Scope eff_scope.

(** ** Messages *)

Inductive value :=
| VString (s : cstring)                                          (* s *)
| VUint32 (z : Z)                                                (* u *)
| VUint64 (z : Z)                                                (* t *)
| VBool (b : bool)                                               (* b *)
| VFd (fd : Z)                                                   (* h *)
| VSessions (rows : list (cstring * cstring * cstring * cstring)). (* a(ssss) *)

Section Rpc.
Context {St E X : Type}.
Abbreviation C := (M St E X).

(** What [implementedAs] registers: the call, if the arguments fit. *)
Definition handler : Type := list value -> option (C (list value)).

(** [None]: the error reply of the library. *)
Fixpoint dispatch_call (adaptor : list (cstring * handler)) (method : cstring) (args : list value)
    : C (option (list value)) :=
  match adaptor with
  | [] => eret None
  | (name, h) :: adaptor =>
      if decide (name = method) then
        match h args with
        | Some call => r <- call ;; eret (Some r)
        | None => eret None
        end
      else dispatch_call adaptor method args
  end.

(** [callMethod(name).withArguments(args).storeResultsTo(result)]; [None] when the
    call throws because of an error reply or of a result of another type. *)
Definition call_method {A} (adaptor : list (cstring * handler)) (method : cstring)
    (args : list value) (result : list value -> option A) : C (option A) :=
  r <- dispatch_call adaptor method args ;;
  eret (r ≫= result).
End Rpc.
Arguments handler : clear implicits.

(** Result conversions. *)
Definition no_result (r : list value) : option unit := match r with [] => Some () | _ => None end.
Definition fd_result (r : list value) : option Z := match r with [VFd fd] => Some fd | _ => None end.
Definition u32_result (r : list value) : option Z := match r with [VUint32 z] => Some z | _ => None end.
Definition str_result (r : list value) : option cstring :=
  match r with [VString s] => Some s | _ => None end.
Definition sessions_result (r : list value) : option (list (cstring * cstring * cstring * cstring)) :=
  match r with [VSessions l] => Some l | _ => None end.

(** ** IServer *)

Section IServer.
Context (cl : clients).
Abbreviation srv_handler := (handler SmppServerService srv_effect srv_exn).

Definition IServer_adaptor : list (cstring * srv_handler) :=
  [(str "GetSocket", fun args => match args with
      | [VString uuid] => Some (fd <- GetSocket uuid ;; eret [VFd fd]) | _ => None end);
   (str "UpdateSessionDetails", fun args => match args with
      | [VString uuid; VString system_id; VString state] =>
          Some (UpdateSessionDetails uuid system_id state ;;; eret []) | _ => None end);
   (str "GetConnectionCount", fun args => match args with
      | [VString ip] => Some (n <- GetConnectionCount ip ;; eret [VUint32 n]) | _ => None end);
   (str "GetAllSessions", fun args => match args with
      | [] => Some (l <- GetAllSessions ;; eret [VSessions l]) | _ => None end);
   (str "SetMaxConnectionsPerIp", fun args => match args with
      | [VString ip; VUint32 max] => Some (SetMaxConnectionsPerIp ip max ;;; eret []) | _ => None end);
   (str "DisconnectAll", fun args => match args with
      | [VString ip; VString reason] => Some (DisconnectAll cl ip reason ;;; eret []) | _ => None end);
   (str "RouteMessage", fun args => match args with
      | [VString src; VString dst; VString msg; VString mid] =>
          Some (u <- RouteMessage cl src dst msg mid ;; eret [VString u]) | _ => None end)].

(** The proxy's methods, on the other side of the bus. *)
Definition IServer_proxy_GetSocket (uuid : cstring) :=
  call_method IServer_adaptor (str "GetSocket") [VString uuid] fd_result.
Definition IServer_proxy_UpdateSessionDetails (uuid system_id state : cstring) :=
  call_method IServer_adaptor (str "UpdateSessionDetails")
    [VString uuid; VString system_id; VString state] no_result.
Definition IServer_proxy_GetConnectionCount (ip : cstring) :=
  call_method IServer_adaptor (str "GetConnectionCount") [VString ip] u32_result.
Definition IServer_proxy_GetAllSessions :=
  call_method IServer_adaptor (str "GetAllSessions") [] sessions_result.
Definition IServer_proxy_SetMaxConnectionsPerIp (ip : cstring) (max : Z) :=
  call_method IServer_adaptor (str "SetMaxConnectionsPerIp") [VString ip; VUint32 max] no_result.
Definition IServer_proxy_DisconnectAll (ip reason : cstring) :=
  call_method IServer_adaptor (str "DisconnectAll") [VString ip; VString reason] no_result.
Definition IServer_proxy_RouteMessage (src dst msg mid : cstring) :=
  call_method IServer_adaptor (str "RouteMessage")
    [VString src; VString dst; VString msg; VString mid] str_result.
End IServer.

(** ** IClientHandler *)

Abbreviation cli_handler := (handler session effect exn).

Definition IClientHandler_adaptor : list (cstring * cli_handler) :=
  [(str "GetSessionInfo", fun args => match args with
      | [] => Some (i <- GetSessionInfo ;;
                    let '(id, ip, sid, st, t) := i in
                    eret [VString id; VString ip; VString sid; VString st; VUint64 t])
      | _ => None end);
   (str "Disconnect", fun args => match args with
      | [VString reason] => Some (Disconnect reason ;;; eret []) | _ => None end);
   (str "DeliverSm", fun args => match args with
      | [VString src; VString dst; VString msg] =>
          Some (q <- DeliverSm src dst msg ;; eret [VUint32 q]) | _ => None end)].

Definition info_result (r : list value) : option (cstring * cstring * cstring * cstring * Z) :=
  match r with
  | [VString id; VString ip; VString sid; VString st; VUint64 t] => Some (id, ip, sid, st, t)
  | _ => None
  end.

Definition IClientHandler_proxy_GetSessionInfo :=
  call_method IClientHandler_adaptor (str "GetSessionInfo") [] info_result.
Definition IClientHandler_proxy_Disconnect (reason : cstring) :=
  call_method IClientHandler_adaptor (str "Disconnect") [VString reason] no_result.
Definition IClientHandler_proxy_DeliverSm (src dst msg : cstring) :=
  call_method IClientHandler_adaptor (str "DeliverSm") [VString src; VString dst; VString msg]
    u32_result.

(** ** IAuth *)

Abbreviation auth_handler := (handler CredentialsStore Empty_set auth_exn).

(** [Authenticate] only reads the store. *)
Definition auth_method (uuid sid pass ip : cstring) : M CredentialsStore Empty_set auth_exn (bool * Z) :=
  st <- eget ;; eret (AuthService_Authenticate st uuid sid pass ip).

Definition IAuth_adaptor (parse_file : parser) : list (cstring * auth_handler) :=
  [(str "Authenticate", fun args => match args with
      | [VString uuid; VString sid; VString pass; VString ip] =>
          Some (r <- auth_method uuid sid pass ip ;; eret [VBool (fst r); VUint32 (snd r)])
      | _ => None end);
   (str "ReloadCredentials", fun args => match args with
      | [] => Some (ReloadCredentials parse_file ;;; eret []) | _ => None end)].

Definition verdict_result (r : list value) : option (bool * Z) :=
  match r with [VBool ok; VUint32 code] => Some (ok, code) | _ => None end.

Definition IAuth_proxy_Authenticate (pf : parser) (uuid sid pass ip : cstring) :=
  call_method (IAuth_adaptor pf) (str "Authenticate")
    [VString uuid; VString sid; VString pass; VString ip] verdict_result.
Definition IAuth_proxy_ReloadCredentials (pf : parser) :=
  call_method (IAuth_adaptor pf) (str "ReloadCredentials") [] no_result.

(** ** A call over the bus is the call *)

(** A direct call as the proxy reports it. *)
Definition direct {St E X A} (m : M St E X A) : M St E X (option A) := a <- m ;; eret (Some a).

(** The handler that is found runs the method and its results are read back. *)
Lemma call_method_direct {St E X A} adaptor method args result h (m : M St E X A)
    (enc : A -> list value) s :
  dispatch_call adaptor method args s = (r <- h ;; eret (Some r)) s ->
  (forall s, h s = (a <- m ;; eret (enc a)) s) -> (forall a, result (enc a) = Some a) ->
  call_method adaptor method args result s = direct m s.
Proof.
  intros Hd Hh Hr. unfold call_method, direct, ebind at 1. rewrite Hd. unfold ebind at 1. rewrite Hh.
  unfold ebind, eret. destruct (m s) as [[[a|x|] s'] es]; cbn; rewrite ?Hr, ?app_nil_r; done.
Qed.

Ltac by_call e := eapply (call_method_direct _ _ _ _ _ _ e); [reflexivity|by intros|by intros []].

(** The interfaces are transparent: every method of the three generated proxies, called
    over the corresponding adaptor, is the member function that implements it, with its
    results, its exceptions, its effects and its change of state; names, argument types and
    result types agree on both sides. *)
Theorem rpc_transparent cl pf :
  (forall uuid s, IServer_proxy_GetSocket cl uuid s = direct (GetSocket uuid) s) /\
  (forall uuid sid st s,
     IServer_proxy_UpdateSessionDetails cl uuid sid st s = direct (UpdateSessionDetails uuid sid st) s) /\
  (forall ip s, IServer_proxy_GetConnectionCount cl ip s = direct (GetConnectionCount ip) s) /\
  (forall s, IServer_proxy_GetAllSessions cl s = direct GetAllSessions s) /\
  (forall ip max s,
     IServer_proxy_SetMaxConnectionsPerIp cl ip max s = direct (SetMaxConnectionsPerIp ip max) s) /\
  (forall ip reason s, IServer_proxy_DisconnectAll cl ip reason s = direct (DisconnectAll cl ip reason) s) /\
  (forall src dst msg mid s,
     IServer_proxy_RouteMessage cl src dst msg mid s = direct (RouteMessage cl src dst msg mid) s) /\
  (forall s, IClientHandler_proxy_GetSessionInfo s = direct GetSessionInfo s) /\
  (forall reason s, IClientHandler_proxy_Disconnect reason s = direct (Disconnect reason) s) /\
  (forall src dst msg s, IClientHandler_proxy_DeliverSm src dst msg s = direct (DeliverSm src dst msg) s) /\
  (forall uuid sid pass ip s,
     IAuth_proxy_Authenticate pf uuid sid pass ip s
     = (Ret (Some (AuthService_Authenticate s uuid sid pass ip)), s, [])) /\
  (forall s, IAuth_proxy_ReloadCredentials pf s = direct (ReloadCredentials pf) s).
Proof.
  split_and!; intros.
  - by_call (fun fd => [VFd fd]).
  - by_call (fun _ : unit => @nil value).
  - by_call (fun n => [VUint32 n]).
  - by_call (fun l => [VSessions l]).
  - by_call (fun _ : unit => @nil value).
  - by_call (fun _ : unit => @nil value).
  - by_call (fun u => [VString u]).
  - eapply (call_method_direct _ _ _ _ _ _ (fun '(id, ip, sid, st, t) =>
      [VString id; VString ip; VString sid; VString st; VUint64 t])); [reflexivity|by intros|].
    by intros [[[[]]]].
  - by_call (fun _ : unit => @nil value).
  - by_call (fun q => [VUint32 q]).
  - trans (direct (auth_method uuid sid pass ip) s); [|done].
    by_call (fun r : bool * Z => [VBool (fst r); VUint32 (snd r)]).
  - by_call (fun _ : unit => @nil value).
Qed.

(** ** Signals *)

Inductive vtype := TString | TUint32 | TUint64 | TBool | TFd | TSessions.

Definition type_of (v : value) : vtype :=
  match v with
  | VString _ => TString | VUint32 _ => TUint32 | VUint64 _ => TUint64 | VBool _ => TBool
  | VFd _ => TFd | VSessions _ => TSessions
  end.

Definition ISERVER : cstring := str "com.telecom.smpp.IServer".
Definition ICLIENTHANDLER : cstring := str "com.telecom.smpp.IClientHandler".

Record signal := { sig_interface : cstring; sig_name : cstring; sig_args : list value }.

(** [registerSignal(name).onInterface(i).withParameters<...>()]. *)
Definition IServer_signals : list (cstring * cstring * list vtype) :=
  [(ISERVER, str "SessionStarted", [TString; TString])].
Definition IClientHandler_signals : list (cstring * cstring * list vtype) :=
  [(ICLIENTHANDLER, str "SessionExited", [TString; TString])].

(** [emitSignal(name).onInterface(i).withArguments(...)]. *)
Definition emitSessionStarted (session_id client_ip : cstring) : signal :=
  {| sig_interface := ISERVER; sig_name := str "SessionStarted";
     sig_args := [VString session_id; VString client_ip] |}.
Definition emitSessionExited (session_id reason : cstring) : signal :=
  {| sig_interface := ICLIENTHANDLER; sig_name := str "SessionExited";
     sig_args := [VString session_id; VString reason] |}.

(** [uponSignal(name).onInterface(i).call(handler)]: the handler's arguments, if the signal
    is the one subscribed to and has arguments of its types. *)
Definition upon_signal {A} (interface name : cstring) (args : list value -> option A) (s : signal)
    : option A :=
  if decide (sig_interface s = interface /\ sig_name s = name) then args (sig_args s) else None.

Definition two_strings (args : list value) : option (cstring * cstring) :=
  match args with [VString a; VString b] => Some (a, b) | _ => None end.

(** The arguments of [onSessionStarted] and [onSessionExited]. *)
Definition IServer_proxy_signals : signal -> option (cstring * cstring) :=
  upon_signal ISERVER (str "SessionStarted") two_strings.
Definition IClientHandler_proxy_signals : signal -> option (cstring * cstring) :=
  upon_signal ICLIENTHANDLER (str "SessionExited") two_strings.

(** The signals among the effects. *)
Definition server_signal (e : srv_effect) : option signal :=
  match e with EmitSessionStarted uuid ip => Some (emitSessionStarted uuid ip) | _ => None end.
Definition session_signal (e : effect) : option signal :=
  match e with EmitSessionExited uuid reason => Some (emitSessionExited uuid reason) | _ => None end.

(** Emitted signals have the registered signatures, and reach the handler of the proxy of
    their interface with the arguments given, and no other; a proxy of the server hears of
    exactly the sessions that the server accepts. *)
Theorem signals_received :
  (forall a b,
     (sig_interface (emitSessionStarted a b), sig_name (emitSessionStarted a b),
      type_of <$> sig_args (emitSessionStarted a b)) ∈ IServer_signals /\
     (sig_interface (emitSessionExited a b), sig_name (emitSessionExited a b),
      type_of <$> sig_args (emitSessionExited a b)) ∈ IClientHandler_signals) /\
  (forall a b,
     IServer_proxy_signals (emitSessionStarted a b) = Some (a, b) /\
     IServer_proxy_signals (emitSessionExited a b) = None /\
     IClientHandler_proxy_signals (emitSessionExited a b) = Some (a, b) /\
     IClientHandler_proxy_signals (emitSessionStarted a b) = None) /\
  (forall uuid f ip s,
     omap IServer_proxy_signals (omap server_signal (run_effects (register_session uuid f ip s)))
     = if fst (add uuid f ip (registry_ s)) then [(uuid, ip)] else []) /\
  (forall reason s,
     omap IClientHandler_proxy_signals (omap session_signal (run_effects (do_disconnect reason s)))
     = if decide (state_ s = UNBOUND) then [] else [(uuid_ (params_ s), reason)]).
Proof.
  split_and!; [intros; split; by apply list_elem_of_singleton|done|..].
  - intros uuid f ip s. unfold register_session, ebind, eget. by destruct (add _ _ _ _) as [[] r].
  - intros reason s. rewrite do_disconnect_run. unfold disconnect_effects. by case_decide.
Qed.
