(* ===== verification/Config.v ===== *)
(** * Config: the common configuration and logging library

    [Common/src/config.cpp] and [config.hpp]: the configuration record, its defaults,
    the TOML document and the environment override; [Common/src/logger.cpp]: the logger
    object and its lines; [SMPPServer/include/logger.hpp]: levels and sinks.  The TOML
    library is the class [Toml]: what [operator[]], [as_table] and [value<T>] answer.
    spdlog is a list of effects. *)

From S2P Require Import Prelude StdString.
#[local] Open Scope Z_scope.
#[local] Open Scope eff_scope.

(** ** TOML, as the configuration code sees it *)

Class Toml := {
  node : Type;
  table : Type;
  toml_at : table -> cstring -> option node;       (* tbl["key"] *)
  node_table : node -> option table;               (* as_table() *)
  value_int64 : node -> option Z;                  (* value<int64_t>() *)
  value_str : node -> option cstring               (* value<std::string>() *)
}.

(** ** The configuration record *)

Record ServerConfig := { port : Z; ip_whitelist : cstring; max_connections_per_ip : Z }.
Record SessionConfig := { enquire_link_interval_sec : Z; enquire_link_timeout_sec : Z }.
Record AuthConfig := { credentials_file : cstring }.
Record LoggingConfig := { level : cstring }.

Record Config := {
  server : ServerConfig;
  session_cfg : SessionConfig;
  auth : AuthConfig;
  logging : LoggingConfig
}.

Definition default_config : Config :=
  {| server := {| port := 2775; ip_whitelist := str "/etc/smpp-server/allowed_ips.conf";
                  max_connections_per_ip := 5 |};
     session_cfg := {| enquire_link_interval_sec := 60; enquire_link_timeout_sec := 10 |};
     auth := {| credentials_file := str "/etc/smpp-server/credentials.toml" |};
     logging := {| level := str "info" |} |}.

Definition getenv_t : Type := cstring -> option cstring.

(** [static_cast<uint16_t>] of the [unsigned long] that [std::stoul] returns. *)
Definition env_uint16 (getenv : getenv_t) (var : cstring) (fallback : Z) : std_exn + Z :=
  match getenv var with
  | Some v => match stoul v with inl ex => inl ex | inr z => inr (u16 z) end
  | None => inr fallback
  end.

Section Load.
Context {T : Toml}.

(** [if (auto v = node.value<T>()) field = static_cast<U>( *v );] *)
Definition int_field (t : table) (key : cstring) (cast : Z -> Z) (old : Z) : Z :=
  match toml_at t key ≫= value_int64 with Some v => cast v | None => old end.
Definition str_field (t : table) (key : cstring) (old : cstring) : cstring :=
  match toml_at t key ≫= value_str with Some v => v | None => old end.

Definition load_server (s : table) (c : ServerConfig) : ServerConfig :=
  {| port := int_field s (str "port") u16 (port c);
     ip_whitelist := str_field s (str "ip_whitelist") (ip_whitelist c);
     max_connections_per_ip :=
       int_field s (str "max_connections_per_ip") u32 (max_connections_per_ip c) |}.

Definition load_session (s : table) (c : SessionConfig) : SessionConfig :=
  {| enquire_link_interval_sec :=
       int_field s (str "enquire_link_interval_sec") u32 (enquire_link_interval_sec c);
     enquire_link_timeout_sec :=
       int_field s (str "enquire_link_timeout_sec") u32 (enquire_link_timeout_sec c) |}.

Definition load_auth (s : table) (c : AuthConfig) : AuthConfig :=
  {| credentials_file := str_field s (str "credentials_file") (credentials_file c) |}.

Definition load_logging (s : table) (c : LoggingConfig) : LoggingConfig :=
  {| level := str_field s (str "level") (level c) |}.

(** [if (auto s = tbl["key"].as_table()) { ... }] *)
Definition section {A} (tbl : table) (key : cstring) (f : table -> A -> A) (a : A) : A :=
  match toml_at tbl key ≫= node_table with Some s => f s a | None => a end.

Definition load_tables (tbl : table) (cfg : Config) : Config :=
  {| server := section tbl (str "server") load_server (server cfg);
     session_cfg := section tbl (str "session") load_session (session_cfg cfg);
     auth := section tbl (str "auth") load_auth (auth cfg);
     logging := section tbl (str "logging") load_logging (logging cfg) |}.

Definition set_port (p : Z) (cfg : Config) : Config :=
  {| server := {| port := p; ip_whitelist := ip_whitelist (server cfg);
                  max_connections_per_ip := max_connections_per_ip (server cfg) |};
     session_cfg := session_cfg cfg; auth := auth cfg; logging := logging cfg |}.

(** [parse_file] gives the message of a [toml::parse_error] or the document. *)
Definition load (parse_file : cstring -> cstring + table) (getenv : getenv_t) (path : cstring)
    : std_exn + Config :=
  match parse_file path with
  | inl what => inl (RuntimeError (str "Failed to parse config: " ++ what))
  | inr tbl =>
      let cfg := load_tables tbl default_config in
      match env_uint16 getenv (str "SMPP_PORT") (port (server cfg)) with
      | inl ex => inl ex
      | inr p => inr (set_port p cfg)
      end
  end.

(** ** The configuration that is in force *)

(** What the document holds at [section.key]. *)
Definition doc_int (tbl : table) (sec key : cstring) : option Z :=
  (toml_at tbl sec ≫= node_table) ≫= (fun t => toml_at t key ≫= value_int64).
Definition doc_str (tbl : table) (sec key : cstring) : option cstring :=
  (toml_at tbl sec ≫= node_table) ≫= (fun t => toml_at t key ≫= value_str).

Definition is_u16 (z : Z) : Prop := 0 <= z < 2 ^ 16.

(** The integer members are within their C++ types. *)
Definition config_typed (c : Config) : Prop :=
  is_u16 (port (server c)) /\ is_u32 (max_connections_per_ip (server c)) /\
  is_u32 (enquire_link_interval_sec (session_cfg c)) /\
  is_u32 (enquire_link_timeout_sec (session_cfg c)).

Lemma u16_range z : is_u16 (u16 z).
Proof. unfold is_u16, u16. apply Z.mod_pos_bound. lia. Qed.

Lemma section_int {A} tbl sec key (f : table -> A -> A) (get : A -> Z) cast a :
  (forall t a, get (f t a) = int_field t key cast (get a)) ->
  get (section tbl sec f a) = from_option cast (get a) (doc_int tbl sec key).
Proof.
  intros Hf. unfold section, doc_int. destruct (toml_at tbl sec ≫= node_table) as [t|]; [|done].
  rewrite Hf. unfold int_field. cbn. by destruct (toml_at t key ≫= value_int64).
Qed.

Lemma section_str {A} tbl sec key (f : table -> A -> A) (get : A -> cstring) a :
  (forall t a, get (f t a) = str_field t key (get a)) ->
  get (section tbl sec f a) = default (get a) (doc_str tbl sec key).
Proof.
  intros Hf. unfold section, doc_str. destruct (toml_at tbl sec ≫= node_table) as [t|]; [|done].
  rewrite Hf. unfold str_field. cbn. by destruct (toml_at t key ≫= value_str).
Qed.

Lemma from_option_cast (P : Z -> Prop) (cast : Z -> Z) d o :
  P d -> (forall z, P (cast z)) -> P (from_option cast d o).
Proof. intros ? ?. by destruct o; cbn. Qed.

(** The configuration that a document, the environment's port and the defaults call for. *)
Definition config_spec (tbl : table) (env_port : option Z) : Config :=
  let int sec key (cast : Z -> Z) d := from_option cast d (doc_int tbl sec key) in
  let text sec key d := default d (doc_str tbl sec key) in
  {| server :=
       {| port := match env_port with Some p => u16 p | None => int (str "server") (str "port") u16 2775 end;
          ip_whitelist := text (str "server") (str "ip_whitelist") (str "/etc/smpp-server/allowed_ips.conf");
          max_connections_per_ip := int (str "server") (str "max_connections_per_ip") u32 5 |};
     session_cfg :=
       {| enquire_link_interval_sec := int (str "session") (str "enquire_link_interval_sec") u32 60;
          enquire_link_timeout_sec := int (str "session") (str "enquire_link_timeout_sec") u32 10 |};
     auth := {| credentials_file :=
                  text (str "auth") (str "credentials_file") (str "/etc/smpp-server/credentials.toml") |};
     logging := {| level := text (str "logging") (str "level") (str "info") |} |}.

Lemma config_spec_typed tbl p : config_typed (config_spec tbl p).
Proof.
  assert (forall z, is_u32 (u32 z)) by (intros; apply u32_range). pose proof u16_range.
  unfold config_typed, config_spec. cbn. split_and!; [destruct p; [done|]|..];
    apply from_option_cast; done.
Qed.

Lemma server_spec tbl : section tbl (str "server") load_server (server default_config)
  = server (config_spec tbl None).
Proof.
  assert (E : forall c, c = {| port := port c; ip_whitelist := ip_whitelist c;
    max_connections_per_ip := max_connections_per_ip c |}) by by intros [].
  rewrite (E (section _ _ _ _)). cbn [server config_spec]. f_equal.
  - by apply (section_int _ _ _ load_server port u16 (server default_config)).
  - by apply (section_str _ _ _ load_server ip_whitelist (server default_config)).
  - by apply (section_int _ _ _ load_server max_connections_per_ip u32 (server default_config)).
Qed.

Lemma session_spec tbl : section tbl (str "session") load_session (session_cfg default_config)
  = session_cfg (config_spec tbl None).
Proof.
  assert (E : forall c, c = {| enquire_link_interval_sec := enquire_link_interval_sec c;
    enquire_link_timeout_sec := enquire_link_timeout_sec c |}) by by intros [].
  rewrite (E (section _ _ _ _)). cbn [session_cfg config_spec]. f_equal.
  - by apply (section_int _ _ _ load_session enquire_link_interval_sec u32 (session_cfg default_config)).
  - by apply (section_int _ _ _ load_session enquire_link_timeout_sec u32 (session_cfg default_config)).
Qed.

Lemma load_tables_spec tbl : load_tables tbl default_config = config_spec tbl None.
Proof.
  unfold load_tables. rewrite server_spec, session_spec.
  assert (Ea : forall c, c = {| credentials_file := credentials_file c |}) by by intros [].
  assert (El : forall c, c = {| level := level c |}) by by intros [].
  rewrite (Ea (section _ _ _ _)), (El (section _ _ _ _)).
  rewrite (section_str tbl _ (str "credentials_file") load_auth credentials_file) by done.
  by rewrite (section_str tbl _ (str "level") load_logging level) by done.
Qed.

(** C31: Loading a configuration: a document that does not parse is a [runtime_error]
    with the parser's message, a malformed SMPP_PORT an exception of [stoul]; otherwise
    every member is, in this order of precedence, the environment's, the document's or
    its default, and every integer is within its C++ type, the value of the document
    being reduced modulo the width of the member. *)
Theorem config_load_typed parse_file getenv path :
  match parse_file path, getenv (str "SMPP_PORT") ≫= (fun v => Some (stoul v)) with
  | inl what, _ =>
      load parse_file getenv path = inl (RuntimeError (str "Failed to parse config: " ++ what))
  | inr tbl, Some (inl ex) => load parse_file getenv path = inl ex
  | inr tbl, Some (inr p) =>
      load parse_file getenv path = inr (config_spec tbl (Some p)) /\
      config_typed (config_spec tbl (Some p))
  | inr tbl, None =>
      load parse_file getenv path = inr (config_spec tbl None) /\
      config_typed (config_spec tbl None)
  end.
Proof.
  unfold load. destruct (parse_file path) as [what|tbl]; [done|]. rewrite load_tables_spec.
  unfold env_uint16. destruct (getenv _) as [v|]; cbn [mbind option_bind].
  - destruct (stoul v) as [ex|p]; [done|]. split; [done|apply config_spec_typed].
  - split; [done|apply config_spec_typed].
Qed.
End Load.

(** A document type with integers, strings and tables. *)
#[warnings="-register-all"] Inductive example_node :=
| NInt (z : Z)
| NStr (s : cstring)
| NTable (fields : list (cstring * example_node)).

Fixpoint example_at (fields : list (cstring * example_node)) (key : cstring) : option example_node :=
  match fields with
  | [] => None
  | (k, v) :: fields => if decide (k = key) then Some v else example_at fields key
  end.

#[local] Instance example_toml : Toml :=
  {| node := example_node; table := list (cstring * example_node); toml_at := example_at;
     node_table := fun n => match n with NTable l => Some l | _ => None end;
     value_int64 := fun n => match n with NInt z => Some z | _ => None end;
     value_str := fun n => match n with NStr s => Some s | _ => None end |}.

Definition example_document : table (Toml := example_toml) :=
  [(str "server", NTable [(str "port", NInt 70000); (str "max_connections_per_ip", NInt (-1))]);
   (str "logging", NTable [(str "level", NStr (str "debug"))])].

(** A port of 70000 is 4464, and a limit of -1 the largest one. *)
Lemma config_load_typed_witness :
  exists cfg, load (T := example_toml) (fun _ => inr example_document) (fun _ => None) (str "smsc.toml") = inr cfg /\
    config_typed cfg /\
    port (server cfg) = 4464 /\ max_connections_per_ip (server cfg) = 4294967295 /\
    enquire_link_interval_sec (session_cfg cfg) = 60 /\ level (logging cfg) = str "debug".
Proof.
  destruct (config_load_typed (T := example_toml) (fun _ => inr example_document) (fun _ => None) (str "smsc.toml"))
    as [H1 H2].
  eexists. split; [exact H1|]. split; [exact H2|]. by vm_compute.
Defined.

(** ** Logging *)

Inductive level_enum := trace | debug | info | warn | err | critical.

Definition level_from_string (s : cstring) : level_enum :=
  if decide (s = str "trace") then trace else
  if decide (s = str "debug") then debug else
  if decide (s = str "info") then info else
  if decide (s = str "warn" \/ s = str "warning") then warn else
  if decide (s = str "error" \/ s = str "err") then err else
  if decide (s = str "critical" \/ s = str "fatal") then critical else
  info.

Inductive sink := StdoutSink | SystemdSink | RotatingFileSink (path : cstring) (max_size max_files : Z).

(** A logger and its sinks, each with its level. *)
Record spd_logger := {
  lg_name : cstring;
  lg_sinks : list (sink * level_enum);
  lg_level : level_enum
}.

Inductive log_effect :=
| DropLogger (name : cstring)
| RegisterLogger (lg : spd_logger)
| SetDefaultLogger (lg : spd_logger)
| FlushOn (l : level_enum)
| FlushEvery (seconds : Z)
| LogLine (lg : spd_logger) (l : level_enum) (msg : cstring)
| PrintStderr (msg : cstring).

(** [logger::init] of the server; [file_error] is the message of the
    [spdlog_ex] when the log file cannot be opened. *)
Definition server_logger_init (file_error : option cstring) (log_file_path : cstring)
    (lv : level_enum) : list log_effect :=
  let '(sinks, report) :=
    match file_error with
    | None => ([(StdoutSink, lv); (RotatingFileSink log_file_path (10 * 1024 * 1024) 5, lv)], [])
    | Some what =>
        ([(StdoutSink, lv)],
         [PrintStderr (str "[logger::init] file sink failed (" ++ what ++ str ") — stdout only" ++ [x0a])])
    end in
  let combined := {| lg_name := str "smpp"; lg_sinks := sinks; lg_level := lv |} in
  report ++ [SetDefaultLogger combined; FlushOn warn; FlushEvery 2].

(** *** [smpp::Logger] of Common: the static [s_logger] is the state *)

Record LogContext := { session_id : cstring; client_ip : cstring; system_id : cstring }.

Abbreviation LM := (M (option spd_logger) log_effect Empty_set).

(** [systemd]: the systemd sink can be constructed. *)
Definition Logger_init (systemd : bool) (service_name : cstring) : LM unit :=
  let sinks := if systemd then [(SystemdSink, trace)] else [(StdoutSink, trace)] in
  emit (DropLogger service_name) ;;;
  let lg := {| lg_name := service_name; lg_sinks := sinks; lg_level := trace |} in
  emodify (fun _ => Some lg) ;;;
  emit (RegisterLogger lg) ;;;
  emit (SetDefaultLogger lg).

Definition Logger_get : LM (option spd_logger) := eget.

Definition Logger_format (ctx : LogContext) (msg : cstring) : cstring :=
  str "[sid=" ++ session_id ctx ++
  str " ip=" ++ client_ip ctx ++
  str " sys=" ++ system_id ctx ++
  str "] " ++ msg.

(** [info], [warn], [error] and [debug], by their level. *)
Definition Logger_log (l : level_enum) (msg : cstring) : LM unit :=
  s_logger <- eget ;;
  match s_logger with Some lg => emit (LogLine lg l msg) | None => eret () end.

Definition Logger_log_ctx (l : level_enum) (ctx : LogContext) (msg : cstring) : LM unit :=
  s_logger <- eget ;;
  match s_logger with Some lg => emit (LogLine lg l (Logger_format ctx msg)) | None => eret () end.

(** Calls to the logger. *)
Inductive log_op :=
| LogInit (systemd : bool) (service_name : cstring)
| LogMsg (l : level_enum) (msg : cstring)
| LogCtx (l : level_enum) (ctx : LogContext) (msg : cstring).

Definition log_call (op : log_op) : LM unit :=
  match op with
  | LogInit systemd name => Logger_init systemd name
  | LogMsg l msg => Logger_log l msg
  | LogCtx l ctx msg => Logger_log_ctx l ctx msg
  end.

Fixpoint log_calls (ops : list log_op) : LM unit :=
  match ops with [] => eret () | op :: ops => log_call op ;;; log_calls ops end.

(** The lines written, with the name of the logger. *)
Definition lines (es : list log_effect) : list (cstring * level_enum * cstring) :=
  omap (fun e => match e with LogLine lg l msg => Some (lg_name lg, l, msg) | _ => None end) es.

(** The lines that a sequence of calls should write: those after the first
    initialisation, each under the last name initialised before it. *)
Fixpoint lines_spec (name : option cstring) (ops : list log_op) : list (cstring * level_enum * cstring) :=
  match ops with
  | [] => []
  | LogInit _ n :: ops => lines_spec (Some n) ops
  | LogMsg l msg :: ops =>
      option_list ((fun n => (n, l, msg)) <$> name) ++ lines_spec name ops
  | LogCtx l ctx msg :: ops =>
      option_list ((fun n => (n, l, Logger_format ctx msg)) <$> name) ++ lines_spec name ops
  end.

Lemma lines_app es1 es2 : lines (es1 ++ es2) = lines es1 ++ lines es2.
Proof. apply omap_app. Qed.

(** The logger writes each line once, in order, under the service that was initialised
    last, and none before the first initialisation. *)
Theorem logger_lines ops st :
  lines (run_effects (log_calls ops st)) = lines_spec (lg_name <$> st) ops.
Proof.
  revert st. induction ops as [|op ops IH]; intros st; [done|]. cbn [log_calls].
  assert (E : forall st' es, log_call op st = (Ret (), st', es) ->
    lines (run_effects (ebind (log_call op) (fun _ => log_calls ops) st))
    = lines es ++ lines_spec (lg_name <$> st') ops).
  { intros st' es Ho. rewrite <- IH. unfold ebind. rewrite Ho.
    destruct (log_calls ops st') as [[r s2] es2]. apply lines_app. }
  destruct op as [sd n|l msg|l ctx msg]; [by erewrite E by done|..]; destruct st as [lg|];
    by erewrite E by done.
Qed.
