(* ===== verification/IpValidator.v ===== *)
(** * IpValidator: the server's list of allowed addresses

    [SMPPServer/src/ip_validator.cpp].  The C library's [inet_pton] is a
    parameter; [std::getline] is written out here, [std::isspace] and [std::stoi] in
    [StdString].  The file is an argument: [None] when it cannot be opened. *)

From S2P Require Import Prelude StdString.
#[local] Open Scope Z_scope.
#[local] Open Scope eff_scope.

(** ** Standard-library functions *)

(** The lines [std::getline] delivers: a last line without terminator counts if
    it is not empty. *)
Fixpoint getlines (acc : cstring) (file : cstring) : list cstring :=
  match file with
  | [] => if decide (acc = []) then [] else [acc]
  | c :: file => if decide (c = x0a) then acc :: getlines [] file else getlines (acc ++ [c]) file
  end.

(** [line.find('/')] and the two [substr]s around it. *)
Fixpoint split_slash (s : cstring) : option (cstring * cstring) :=
  match s with
  | [] => None
  | c :: s => if decide (c = x2f) then Some ([], s)
              else '(a, b) ← split_slash s; Some (c :: a, b)
  end.

Definition trim (s : cstring) : cstring :=
  let s := drop_while isspace s in
  reverse (drop_while isspace (reverse s)).

(** ** The class *)

Record CidrV4 := { network : Z; mask : Z }.

Record IpValidator := {
  config_file_ : cstring;
  exact_set_ : gset cstring;
  cidrs_ : list CidrV4
}.

Section Validator.
(** [inet_pton(AF_INET, s, &addr)], with [ntohl(addr.s_addr)] as its result. *)
Context (inet_pton : cstring -> option Z).

Abbreviation VM := (M IpValidator Empty_set std_exn).

Definition parse_ipv4 (s : cstring) : option Z := inet_pton (c_str s).

Definition clear_config (v : IpValidator) : IpValidator :=
  {| config_file_ := config_file_ v; exact_set_ := ∅; cidrs_ := [] |}.

Definition push_cidr (c : CidrV4) (v : IpValidator) : IpValidator :=
  {| config_file_ := config_file_ v; exact_set_ := exact_set_ v; cidrs_ := cidrs_ v ++ [c] |}.

Definition insert_exact (s : cstring) (v : IpValidator) : IpValidator :=
  {| config_file_ := config_file_ v; exact_set_ := {[s]} ∪ exact_set_ v; cidrs_ := cidrs_ v |}.

Definition prefix_mask (prefix : Z) : Z :=
  if prefix =? 0 then 0 else u32 (Z.shiftl (2 ^ 32 - 1) (32 - prefix)).

(** The body of the loop. *)
Definition load_line (raw : cstring) : VM unit :=
  let line := trim raw in
  if decide (line = [] \/ head line = Some x23) then eret () else
  match split_slash line with
  | Some (network_str, prefix_str) =>
      match stoi prefix_str with
      | inl ex => ethrow ex
      | inr prefix =>
          if (prefix <? 0) || (32 <? prefix) then eret () else
          match parse_ipv4 network_str with
          | None => eret ()
          | Some net =>
              let m := prefix_mask prefix in
              emodify (push_cidr {| network := Z.land net m; mask := m |})
          end
      end
  | None => emodify (insert_exact line)
  end.

Fixpoint load_lines (lines : list cstring) : VM unit :=
  match lines with
  | [] => eret ()
  | line :: lines => load_line line ;;; load_lines lines
  end.

Definition load_config (file : option cstring) : VM unit :=
  emodify clear_config ;;;
  v <- eget ;;
  match file with
  | None => ethrow (RuntimeError (str "IpValidator: cannot open config file: " ++ config_file_ v))
  | Some contents => load_lines (getlines [] contents)
  end.

Definition reload (file : option cstring) : VM unit := load_config file.

Definition IpValidator_new (config_file : cstring) (file : option cstring)
    : outcome std_exn IpValidator :=
  match load_config file {| config_file_ := config_file; exact_set_ := ∅; cidrs_ := [] |} with
  | (Ret _, v, _) => Ret v
  | (Throw ex, _, _) => Throw ex
  | (UB, _, _) => UB
  end.

Fixpoint cidr_any (cs : list CidrV4) (addr : Z) : bool :=
  match cs with
  | [] => false
  | c :: cs => if Z.land addr (mask c) =? network c then true else cidr_any cs addr
  end.

Definition matches_cidr (addr : Z) (v : IpValidator) : bool := cidr_any (cidrs_ v) addr.

Definition is_allowed (ip : cstring) (v : IpValidator) : bool :=
  if decide (ip ∈ exact_set_ v) then true else
  match parse_ipv4 ip with
  | Some addr => if matches_cidr addr v then true else false
  | None => false
  end.

(** ** What the file says *)

(** The entry of a line: nothing, an exact address, a range, or a prefix that is
    not a number. *)
Inductive ip_entry := ENone | EExact (ip : cstring) | ERange (net prefix : Z) | EBad (ex : std_exn).

Definition entry_of (raw : cstring) : ip_entry :=
  let line := trim raw in
  if decide (line = [] \/ head line = Some x23) then ENone else
  match split_slash line with
  | None => EExact line
  | Some (n, p) =>
      match stoi p with
      | inl ex => EBad ex
      | inr prefix =>
          if decide (0 <= prefix <= 32) then
            match parse_ipv4 n with Some net => ERange net prefix | None => ENone end
          else ENone
      end
  end.

(** An address is in a range when the leading [prefix] bits agree. *)
Definition in_range (addr net prefix : Z) : Prop :=
  addr / 2 ^ (32 - prefix) = net / 2 ^ (32 - prefix).

Definition entry_allows (ip : cstring) (en : ip_entry) : Prop :=
  match en with
  | EExact e => e = ip
  | ERange net prefix => exists addr, parse_ipv4 ip = Some addr /\ in_range addr net prefix
  | _ => False
  end.

(** ** Masks *)

Lemma prefix_mask_land a p :
  is_u32 a -> 0 <= p <= 32 ->
  Z.land a (prefix_mask p) = a / 2 ^ (32 - p) * 2 ^ (32 - p).
Proof.
  intros Ha Hp. unfold is_u32 in Ha. unfold prefix_mask. destruct (Z.eqb_spec p 0) as [->|Hp0].
  { rewrite Z.land_0_r. rewrite (Z.div_small a) by (simpl; lia). lia. }
  assert (Hm : u32 (Z.shiftl (2 ^ 32 - 1) (32 - p)) = Z.shiftl (Z.ones p) (32 - p)).
  { apply Z.bits_inj'. intros n Hn. unfold u32.
    destruct (Z.lt_ge_cases n 32).
    - rewrite Z.mod_pow2_bits_low, !Z.shiftl_spec by lia.
      change (2 ^ 32 - 1) with (Z.ones 32). rewrite !Z.testbit_ones by lia.
      destruct (Z.leb_spec 0 (n - (32 - p))); [|done]. cbn.
      destruct (Z.ltb_spec (n - (32 - p)) 32), (Z.ltb_spec (n - (32 - p)) p); lia.
    - rewrite Z.mod_pow2_bits_high, Z.shiftl_spec, Z.testbit_ones by lia.
      destruct (Z.ltb_spec (n - (32 - p)) p); [lia|]. by rewrite andb_false_r. }
  rewrite Hm. rewrite <- (Z.shiftr_div_pow2 a), <- Z.shiftl_mul_pow2 by lia.
  apply Z.bits_inj'. intros n Hn. rewrite Z.land_spec, !Z.shiftl_spec by lia.
  destruct (Z.lt_ge_cases n (32 - p)).
  - rewrite !(Z.testbit_neg_r _ (n - (32 - p))) by lia. by rewrite andb_false_r.
  - rewrite Z.shiftr_spec, Z.testbit_ones by lia.
    replace (n - (32 - p) + (32 - p)) with n by lia.
    rewrite (proj2 (Z.leb_le 0 (n - (32 - p)))) by lia. cbn [andb].
    destruct (Z.ltb_spec (n - (32 - p)) p); [by rewrite andb_true_r|].
    rewrite andb_false_r. symmetry. apply Z.bits_above_log2; [lia|].
    destruct (decide (a = 0)) as [->|]; [simpl; lia|]. apply Z.log2_lt_pow2; [lia|].
    apply Z.lt_le_trans with (2 ^ 32); [lia|]. apply Z.pow_le_mono_r; lia.
Qed.

Lemma cidr_test addr net p :
  is_u32 addr -> is_u32 net -> 0 <= p <= 32 ->
  Z.land addr (prefix_mask p) = Z.land net (prefix_mask p) <-> in_range addr net p.
Proof.
  intros Ha Hn Hp. rewrite !prefix_mask_land by done. unfold in_range.
  assert (0 < 2 ^ (32 - p)) by (apply Z.pow_pos_nonneg; lia). split; [|by intros ->].
  intros H'. by apply Z.mul_cancel_r in H'; [|lia].
Qed.

(** ** Loading *)

Lemma load_line_run raw v :
  load_line raw v
  = match entry_of raw with
    | ENone => (Ret (), v, [])
    | EExact ip => (Ret (), insert_exact ip v, [])
    | ERange net p =>
        (Ret (), push_cidr {| network := Z.land net (prefix_mask p); mask := prefix_mask p |} v, [])
    | EBad ex => (Throw ex, v, [])
    end.
Proof.
  unfold load_line, entry_of. case_decide; [done|]. destruct (split_slash _) as [[n p]|]; [|done].
  destruct (stoi p) as [ex|prefix]; [done|]. case_decide as Hp.
  - rewrite (proj2 (Z.ltb_ge prefix 0)), (proj2 (Z.ltb_ge 32 prefix)) by lia. cbn [orb].
    by destruct (parse_ipv4 n).
  - destruct (Z.ltb_spec prefix 0); [done|]. destruct (Z.ltb_spec 32 prefix); [done|lia].
Qed.

Lemma is_allowed_iff ip v :
  is_allowed ip v = true <->
  ip ∈ exact_set_ v \/ exists addr, parse_ipv4 ip = Some addr /\
                        Exists (fun c => Z.land addr (mask c) = network c) (cidrs_ v).
Proof.
  assert (Hc : forall cs addr, cidr_any cs addr = true <->
                 Exists (fun c => Z.land addr (mask c) = network c) cs).
  { intros cs addr. induction cs as [|c cs IH]; [by rewrite Exists_nil|]. cbn.
    rewrite Exists_cons, <- IH. destruct (Z.eqb_spec (Z.land addr (mask c)) (network c)); naive_solver. }
  unfold is_allowed, matches_cidr. case_decide; [naive_solver|].
  destruct (parse_ipv4 ip) as [addr|]; [|naive_solver].
  specialize (Hc (cidrs_ v) addr). destruct (cidr_any _ _); naive_solver.
Qed.

Hypothesis inet_pton_u32 : forall s a, inet_pton s = Some a -> is_u32 a.

Lemma entry_range_u32 raw net p :
  entry_of raw = ERange net p -> is_u32 net /\ 0 <= p <= 32.
Proof.
  unfold entry_of. case_decide; [done|]. destruct (split_slash _) as [[n q]|]; [|done].
  destruct (stoi q) as [ex|prefix]; [done|]. case_decide; [|done].
  destruct (parse_ipv4 n) as [net'|] eqn:Hn; [|done]. intros [= -> ->].
  split; [by eapply inet_pton_u32|done].
Qed.

(** A good line adds what its entry allows. *)
Lemma load_line_allows raw v :
  (forall ex, entry_of raw <> EBad ex) ->
  exists v', load_line raw v = (Ret (), v', []) /\
    forall ip, is_allowed ip v' = true <->
               is_allowed ip v = true \/ entry_allows ip (entry_of raw).
Proof.
  intros Hbad. rewrite load_line_run. destruct (entry_of raw) as [|e|net p|ex] eqn:He.
  - eexists. split; [done|]. cbn. naive_solver.
  - eexists. split; [done|]. intros ip. rewrite !is_allowed_iff. cbn. set_solver.
  - destruct (entry_range_u32 _ _ _ He) as [Hn Hp]. eexists. split; [done|].
    intros ip. rewrite !is_allowed_iff. cbn [entry_allows exact_set_ cidrs_ push_cidr].
    setoid_rewrite Exists_app. setoid_rewrite Exists_cons. setoid_rewrite Exists_nil.
    cbn [mask network]. split.
    + intros [?|(addr & Ha & [?|[Hl|[]]])]; [by auto|by eauto|].
      right. exists addr. split; [done|]. apply cidr_test in Hl; [done|by eapply inet_pton_u32|done..].
    + intros [[?|(addr & ? & ?)]|(addr & Ha & Hl)]; [by auto|by eauto 6|].
      right. exists addr. split; [done|]. right. left.
      apply cidr_test; [by eapply inet_pton_u32|done..].
  - by destruct (Hbad ex).
Qed.

Definition good_lines (lines : list cstring) : Prop :=
  Forall (fun l => forall ex, entry_of l <> EBad ex) lines.

Lemma load_lines_app l1 l2 v :
  load_lines (l1 ++ l2) v = (load_lines l1 ;;; load_lines l2) v.
Proof.
  revert v. induction l1 as [|l l1 IH]; intros v.
  - cbn. unfold ebind. cbn. by destruct (load_lines l2 v) as [[? ?] ?].
  - cbn. unfold ebind. destruct (load_line l v) as [[[[]| |] v1] e1]; [|done..].
    rewrite IH. unfold ebind. destruct (load_lines l1 v1) as [[[[]| |] v2] e2]; [|done..].
    destruct (load_lines l2 v2) as [[r v3] e3]. by rewrite app_assoc.
Qed.

Lemma load_lines_allows lines v :
  good_lines lines ->
  exists v', load_lines lines v = (Ret (), v', []) /\
    forall ip, is_allowed ip v' = true <->
               is_allowed ip v = true \/ Exists (fun l => entry_allows ip (entry_of l)) lines.
Proof.
  intros Hg. revert v. induction Hg as [|l lines Hl Hg IH]; intros v.
  { exists v. split; [done|]. intros ip. rewrite Exists_nil. naive_solver. }
  destruct (load_line_allows l v Hl) as (v1 & Hr1 & Ha1).
  destruct (IH v1) as (v2 & Hr2 & Ha2). exists v2. split.
  - cbn. unfold ebind. by rewrite Hr1, Hr2.
  - intros ip. rewrite Exists_cons, Ha2, Ha1. naive_solver.
Qed.

Lemma cleared_denies v ip : is_allowed ip (clear_config v) = false.
Proof.
  apply not_true_iff_false. rewrite is_allowed_iff. cbn. setoid_rewrite Exists_nil. set_solver.
Qed.

(** C23: The whitelist means what the file says: a file without malformed prefix
    lengths loads, and then an address is allowed exactly when some line, trimmed and
    neither empty nor a comment, is that address literally, or is [network/prefix]
    with the leading prefix bits of the two IPv4 addresses equal. *)
Theorem whitelist_correct config_file contents :
  good_lines (getlines [] contents) ->
  exists v, IpValidator_new config_file (Some contents) = Ret v /\
    forall ip, is_allowed ip v = true <->
               Exists (fun l => entry_allows ip (entry_of l)) (getlines [] contents).
Proof.
  intros Hg. set (v0 := {| config_file_ := config_file; exact_set_ := ∅; cidrs_ := [] |}).
  destruct (load_lines_allows _ v0 Hg) as (v & Hr & Ha). exists v. split.
  - unfold IpValidator_new, load_config, ebind, emodify, eget. fold v0.
    change (clear_config v0) with v0. by rewrite Hr.
  - intros ip. rewrite Ha. pose proof (cleared_denies v0 ip) as Hd.
    change (clear_config v0) with v0 in Hd. rewrite Hd. naive_solver.
Qed.

(** C38: A reload that fails never lets in an address that the new file does not:
    when the file cannot be opened every address is refused from then on, and when a
    prefix length is malformed the load is abandoned there, so that exactly the
    entries before that line are in force, none of the previous ones. *)
Theorem failed_reload v file :
  (file = None ->
     exists ex v', reload file v = (Throw ex, v', []) /\ forall ip, is_allowed ip v' = false) /\
  (forall contents pre bad post ex,
     file = Some contents -> getlines [] contents = pre ++ bad :: post -> good_lines pre ->
     entry_of bad = EBad ex ->
     exists v', reload file v = (Throw ex, v', []) /\
       forall ip, is_allowed ip v' = true <-> Exists (fun l => entry_allows ip (entry_of l)) pre).
Proof.
  unfold reload, load_config, ebind, emodify, eget. split.
  - intros ->. do 2 eexists. split; [done|]. apply cleared_denies.
  - intros contents pre bad post ex -> Hl Hg Hbad. cbn zeta. rewrite Hl, load_lines_app.
    destruct (load_lines_allows pre (clear_config v) Hg) as (v' & Hr & Ha).
    unfold ebind at 1. rewrite Hr. cbn [load_lines]. unfold ebind. rewrite load_line_run, Hbad.
    exists v'. split; [done|]. intros ip. rewrite Ha, cleared_denies. naive_solver.
Qed.
End Validator.

(** ** Examples *)

(** A parser that knows a few addresses. *)
Definition example_pton (s : cstring) : option Z :=
  if decide (s = str "192.168.1.0") then Some 0xC0A80100
  else if decide (s = str "192.168.1.77") then Some 0xC0A8014D
  else if decide (s = str "192.168.2.77") then Some 0xC0A8024D
  else None.

Lemma example_pton_u32 s a : example_pton s = Some a -> is_u32 a.
Proof. unfold example_pton. by repeat case_decide; intros [= <-]. Qed.

Definition newline : cstring := [x0a].

Definition example_file : cstring :=
  str "# clients" ++ newline ++ str " ::1 " ++ newline ++ str "192.168.1.0/24" ++ newline.

Lemma whitelist_correct_witness :
  exists v, IpValidator_new example_pton (str "ips.conf") (Some example_file) = Ret v /\
    is_allowed example_pton (str "192.168.1.77") v = true /\
    is_allowed example_pton (str "::1") v = true.
Proof.
  destruct (whitelist_correct example_pton example_pton_u32 (str "ips.conf") example_file)
    as (v & Hn & Ha).
  - repeat constructor; intros ex; by vm_compute.
  - exists v. split; [done|]. split; apply Ha.
    + apply Exists_cons_tl, Exists_cons_tl, Exists_cons_hd. by exists 0xC0A8014D.
    + apply Exists_cons_tl, Exists_cons_hd. by vm_compute.
Defined.

Definition example_bad_file : cstring :=
  str "::1" ++ newline ++ str "10.0.0.0/eight" ++ newline ++ str "127.0.0.1" ++ newline.

Lemma failed_reload_witness :
  let v := {| config_file_ := str "ips.conf"; exact_set_ := {[str "10.0.0.9"]}; cidrs_ := [] |} in
  (exists ex v', reload example_pton None v = (Throw ex, v', []) /\
     forall ip, is_allowed example_pton ip v' = false) /\
  (exists v', reload example_pton (Some example_bad_file) v = (Throw InvalidArgument, v', []) /\
     forall ip, is_allowed example_pton ip v' = true <->
                Exists (fun l => entry_allows example_pton ip (entry_of example_pton l)) [str "::1"]).
Proof.
  intros v. split; [by apply (failed_reload example_pton example_pton_u32 v None)|].
  apply (failed_reload example_pton example_pton_u32 v (Some example_bad_file))
    with (contents := example_bad_file) (bad := str "10.0.0.0/eight") (post := [str "127.0.0.1"]);
    [done | by vm_compute | | by vm_compute].
  repeat constructor. intros ex. by vm_compute.
Defined.
