(* ===== verification/Acceptor.v ===== *)
(** * Acceptor: from an accepted connection to a running handler process

    [generate_session_id] ([session_id.hpp]), [build_launch_command] and
    [launch_client_handler] ([session_launcher.cpp]), [TcpServer::handle_connection]
    ([tcp_server.cpp]) and, at the other end, the argument parsing of the handler's
    [main] ([SmppClientHandler/src/main.cpp]).  The clock, the random generator, the
    socket and [std::system] are arguments. *)

From S2P Require Import Prelude StdString StdMap Registry ServerService IpValidator.
#[local] Open Scope Z_scope.
#[local] Open Scope eff_scope.

(** ** Session ids *)

(** [ts]: milliseconds as [uint64_t]; [rnd]: 64 random bits. *)
Definition generate_session_id (ts rnd : Z) : cstring :=
  hex_setw 12 (Z.land ts 0x0000FFFFFFFFFFFF) ++ str "-" ++ hex_setw 16 rnd.

(** ** The launcher *)

Definition HANDLER_BIN : cstring := str "/usr/local/bin/smpp_client_handler".

Definition build_launch_command (uuid client_ip : cstring) : cstring :=
  str "systemd-run"
  ++ str " --unit=smpp-client-" ++ uuid
  ++ str " --collect"
  ++ str " --property=User=smpp-client"
  ++ str " " ++ HANDLER_BIN
  ++ str " --uuid=" ++ uuid
  ++ str " --client-ip=" ++ client_ip.

Inductive acc_effect :=
| FromService (e : srv_effect)
| ReleaseSocket                       (* socket->release(): the fd is no longer ours to close *)
| RunSystem (cmd : cstring)           (* std::system *)
| AsyncAccept.                        (* acceptor_.async_accept with a new socket *)

Abbreviation AM := (M SmppServerService acc_effect srv_exn).

Definition lift {A} (m : M SmppServerService srv_effect srv_exn A) : AM A :=
  fun s => let '(r, s', es) := m s in (r, s', FromService <$> es).

(** [rc]: what [std::system] returns. *)
Definition launch_client_handler (rc : Z) (uuid client_ip : cstring) : AM bool :=
  let cmd := build_launch_command uuid client_ip in
  emit (RunSystem cmd) ;;;
  if negb (rc =? 0) then eret false else eret true.

(** ** TcpServer *)

(** [remote]: the peer's address, [None] when [remote_endpoint] fails. *)
Definition handle_connection (inet_pton : cstring -> option Z) (validator : IpValidator)
    (remote : option cstring) (ts rnd raw_fd rc : Z) : AM unit :=
  match remote with
  | None => eret ()
  | Some client_ip =>
      if negb (is_allowed inet_pton client_ip validator) then eret () else
      let uuid := generate_session_id ts rnd in
      lift (register_session uuid raw_fd client_ip) ;;;
      emit ReleaseSocket ;;;
      _ <- launch_client_handler rc uuid client_ip ;;
      eret ()
  end.

Definition do_accept : AM unit := emit AsyncAccept.

(** How an accept completes: with a connection and what [handle_connection] reads of
    the host for it, or with an error. *)
Inductive accept_result :=
| Accepted (remote : option cstring) (ts rnd raw_fd rc : Z)
| AcceptError (aborted : bool).

(** The completion handler that [do_accept] registers. *)
Definition on_accept (inet_pton : cstring -> option Z) (validator : IpValidator)
    (r : accept_result) : AM unit :=
  match r with
  | Accepted remote ts rnd raw_fd rc => handle_connection inet_pton validator remote ts rnd raw_fd rc
  | AcceptError _ => eret ()
  end ;;;
  do_accept.

(** The constructor's last act and the completions that follow. *)
Fixpoint accept_loop (inet_pton : cstring -> option Z) (validator : IpValidator)
    (rs : list accept_result) : AM unit :=
  match rs with
  | [] => eret ()
  | r :: rs => on_accept inet_pton validator r ;;; accept_loop inet_pton validator rs
  end.

Definition TcpServer_run (inet_pton : cstring -> option Z) (validator : IpValidator)
    (rs : list accept_result) : AM unit :=
  do_accept ;;; accept_loop inet_pton validator rs.

(** ** The handler's command line *)

Record handler_args := { arg_uuid : cstring; arg_client_ip : cstring; arg_server_svc : cstring }.

Definition default_args : handler_args :=
  {| arg_uuid := []; arg_client_ip := []; arg_server_svc := str "com.telecom.smpp.Server" |}.

Definition parse_arg (r : handler_args) (a : cstring) : handler_args :=
  match strip_prefix (str "--uuid=") a with
  | Some v => {| arg_uuid := v; arg_client_ip := arg_client_ip r; arg_server_svc := arg_server_svc r |}
  | None =>
      match strip_prefix (str "--client-ip=") a with
      | Some v => {| arg_uuid := arg_uuid r; arg_client_ip := v; arg_server_svc := arg_server_svc r |}
      | None =>
          match strip_prefix (str "--server-svc=") a with
          | Some v => {| arg_uuid := arg_uuid r; arg_client_ip := arg_client_ip r; arg_server_svc := v |}
          | None => r
          end
      end
  end.

(** The arguments after the program name; [None] when the process gives up with
    its usage message. *)
Definition parse_args (argv : list cstring) : option handler_args :=
  let r := foldl parse_arg default_args argv in
  if decide (arg_uuid r = [] \/ arg_client_ip r = []) then None else Some r.

(** ** Lemmas *)

(** The words of a command line without quoting. *)
Fixpoint words_aux (acc : cstring) (s : cstring) : list cstring :=
  match s with
  | [] => [acc]
  | c :: s => if decide (c = x20) then acc :: words_aux [] s else words_aux (acc ++ [c]) s
  end.

Definition words (s : cstring) : list cstring := words_aux [] s.

Definition no_space (s : cstring) : Prop := x20 ∉ s.

Lemma words_aux_app acc a s :
  no_space a -> words_aux acc (a ++ x20 :: s) = (acc ++ a) :: words_aux [] s.
Proof.
  unfold no_space. revert acc. induction a as [|c a IH]; intros acc Ha; cbn.
  - by rewrite app_nil_r.
  - rewrite elem_of_cons in Ha. rewrite decide_False by naive_solver.
    rewrite IH by naive_solver. by rewrite <- app_assoc.
Qed.

Lemma words_cons a s : no_space a -> words (a ++ x20 :: s) = a :: words s.
Proof. apply words_aux_app. Qed.

Lemma words_last a : no_space a -> words a = [a].
Proof.
  intros Ha. unfold words. assert (H : forall acc, words_aux acc a = [acc ++ a]); [|by rewrite H].
  unfold no_space in Ha. induction a as [|c a IH]; intros acc; cbn; [by rewrite app_nil_r|].
  rewrite elem_of_cons in Ha. rewrite decide_False by naive_solver.
  rewrite IH by naive_solver. by rewrite <- app_assoc.
Qed.

Lemma no_space_app a b : no_space (a ++ b) <-> no_space a /\ no_space b.
Proof. unfold no_space. set_solver. Qed.

(** The words of the launch command. *)
Lemma launch_words uuid ip :
  no_space uuid -> no_space ip ->
  words (build_launch_command uuid ip)
  = [str "systemd-run"; str "--unit=smpp-client-" ++ uuid; str "--collect";
     str "--property=User=smpp-client"; HANDLER_BIN; str "--uuid=" ++ uuid;
     str "--client-ip=" ++ ip].
Proof.
  intros Hu Hi. unfold build_launch_command.
  assert (Hlit : forall s, bool_decide (x20 ∉ s) = true -> no_space s)
    by (intros s H; by apply bool_decide_eq_true in H).
  change (str " --unit=smpp-client-") with (x20 :: str "--unit=smpp-client-").
  change (str " --collect") with (x20 :: str "--collect").
  change (str " --property=User=smpp-client") with (x20 :: str "--property=User=smpp-client").
  change (str " ") with [x20].
  change (str " --uuid=") with (x20 :: str "--uuid=").
  change (str " --client-ip=") with (x20 :: str "--client-ip=").
  rewrite <- !app_comm_cons, (app_assoc (str "--unit=smpp-client-")),
    (app_assoc (str "--uuid=")), app_nil_l.
  repeat (rewrite words_cons; [f_equal|rewrite ?no_space_app; try split; first [done|by apply Hlit; vm_compute]]).
  by rewrite words_last by (rewrite no_space_app; split; [by apply Hlit; vm_compute|done]).
Qed.

(** Hexadecimal digits are not spaces. *)
Lemma hex_digit_no_space d : 0 <= d < 16 -> hex_digit d <> x20.
Proof.
  intros Hd E. pose proof (hex_value_digit d Hd) as Hv. rewrite E in Hv.
  change (hex_value x20) with (-16) in Hv. lia.
Qed.

Lemma hex_digits_no_space fuel n acc :
  0 <= n -> no_space acc -> no_space (hex_digits fuel n acc).
Proof.
  revert n acc. induction fuel as [|fuel IH]; intros n acc Hn Ha; [done|]. cbn [hex_digits].
  assert (no_space (hex_digit (n mod 16) :: acc)).
  { unfold no_space. rewrite elem_of_cons. intros [E|?]; [|done].
    by apply (hex_digit_no_space (n mod 16)); [apply Z.mod_pos_bound|]. }
  destruct (n <? 16); [done|]. apply IH; [apply Z.div_pos; lia|done].
Qed.

Lemma hex_setw_no_space w n : 0 <= n -> no_space (hex_setw w n).
Proof.
  intros Hn. unfold hex_setw. apply no_space_app. split.
  - unfold no_space. intros [? ?]%elem_of_replicate. done.
  - apply hex_digits_no_space; [done|]. apply not_elem_of_nil.
Qed.

Definition is_u64 (z : Z) : Prop := 0 <= z < 2 ^ 64.

Lemma ts_48 ts : 0 <= ts -> Z.land ts 0x0000FFFFFFFFFFFF = ts mod 2 ^ 48.
Proof. intros. change 0x0000FFFFFFFFFFFF with (Z.ones 48). by apply Z.land_ones. Qed.

Lemma session_id_no_space ts rnd : 0 <= ts -> 0 <= rnd -> no_space (generate_session_id ts rnd).
Proof.
  intros Ht Hr. unfold generate_session_id. rewrite !no_space_app. split_and!.
  - apply hex_setw_no_space. apply Z.land_nonneg. auto.
  - apply (bool_decide_unpack _). by vm_compute.
  - by apply hex_setw_no_space.
Qed.

(** Session ids: an id always has 29 characters, none of them a space, and two
    ids are equal only if they were made from the same random value in the same
    millisecond (modulo 2^48 of them). *)
Theorem session_id_unique ts rnd ts' rnd' :
  is_u64 ts -> is_u64 rnd -> is_u64 ts' -> is_u64 rnd' ->
  length (generate_session_id ts rnd) = 29%nat /\ (x20 ∉ generate_session_id ts rnd) /\
  (generate_session_id ts rnd = generate_session_id ts' rnd' <->
   ts mod 2 ^ 48 = ts' mod 2 ^ 48 /\ rnd = rnd').
Proof.
  unfold is_u64. intros Ht Hr Ht' Hr'.
  assert (Hl : forall t, length (hex_setw 12 (t mod 2 ^ 48)) = 12%nat).
  { intros t. apply hex_setw_length; [|lia]. change (16 ^ Z.of_nat 12) with (2 ^ 48).
    by apply Z.mod_pos_bound. }
  assert (Hl' : forall r, 0 <= r < 2 ^ 64 -> length (hex_setw 16 r) = 16%nat).
  { intros r H. apply hex_setw_length; [|lia]. by change (16 ^ Z.of_nat 16) with (2 ^ 64). }
  split_and!.
  - unfold generate_session_id. rewrite ts_48 by lia. rewrite !length_app, Hl, Hl' by done. done.
  - apply session_id_no_space; lia.
  - unfold generate_session_id. rewrite !ts_48 by lia. split; [|by intros [-> ->]].
    intros H. apply app_inj_1 in H as [H1 H2]; [|by rewrite !Hl].
    apply app_inv_head in H2. split.
    + pose proof (Z.mod_pos_bound ts (2 ^ 48)). pose proof (Z.mod_pos_bound ts' (2 ^ 48)).
      rewrite <- (hex_setw_read 12 (ts mod 2 ^ 48)), <- (hex_setw_read 12 (ts' mod 2 ^ 48)) by lia.
      by rewrite H1.
    + rewrite <- (hex_setw_read 16 rnd), <- (hex_setw_read 16 rnd') by lia. by rewrite H2.
Qed.

Lemma session_id_unique_witness :
  length (generate_session_id 1742000001234 77) = 29%nat /\
  (x20 ∉ generate_session_id 1742000001234 77) /\
  (generate_session_id 1742000001234 77 = generate_session_id 1742000001234 78 <->
   1742000001234 mod 2 ^ 48 = 1742000001234 mod 2 ^ 48 /\ 77 = 78).
Proof. apply (session_id_unique 1742000001234 77 1742000001234 78); by vm_compute. Defined.

Lemma parse_arg_uuid r v :
  parse_arg r (str "--uuid=" ++ v)
  = {| arg_uuid := v; arg_client_ip := arg_client_ip r; arg_server_svc := arg_server_svc r |}.
Proof. unfold parse_arg. by rewrite strip_prefix_app. Qed.

Lemma parse_arg_client_ip r v :
  parse_arg r (str "--client-ip=" ++ v)
  = {| arg_uuid := arg_uuid r; arg_client_ip := v; arg_server_svc := arg_server_svc r |}.
Proof. done. Qed.

(** What the handler process gets from the command. *)
Lemma launch_args uuid ip :
  no_space uuid -> no_space ip -> uuid <> [] -> ip <> [] ->
  parse_args (drop 5 (words (build_launch_command uuid ip)))
  = Some {| arg_uuid := uuid; arg_client_ip := ip; arg_server_svc := str "com.telecom.smpp.Server" |}.
Proof.
  intros. rewrite launch_words by done. cbn [drop]. unfold parse_args. cbn [foldl].
  rewrite parse_arg_uuid, parse_arg_client_ip. cbn [arg_uuid arg_client_ip arg_server_svc].
  by rewrite decide_False by naive_solver.
Qed.

(** The registry's side of a registration. *)
Lemma register_session_accepted uuid f ip s :
  count ip (registry_ s) < max_per_ip_ (registry_ s) ->
  exists s', register_session uuid f ip s = (Ret (), s', [EmitSessionStarted uuid ip]) /\
    run_outcome (GetSocket uuid s') = Ret f.
Proof.
  intros Hc. unfold register_session. erewrite ebind_run by done. unfold add.
  change (counter (ip_counts_ (registry_ s)) ip) with (count ip (registry_ s)).
  rewrite (proj2 (Z.leb_gt _ _)) by done. eexists. split; [done|].
  unfold GetSocket. erewrite ebind_run by done. unfold claim_fd. cbn. by rewrite lookup_insert_eq.
Qed.

Lemma register_session_rejected uuid f ip s :
  max_per_ip_ (registry_ s) <= count ip (registry_ s) ->
  sessions_ (registry_ s) !! uuid = None ->
  exists s', register_session uuid f ip s = (Ret (), s', []) /\
    run_outcome (GetSocket uuid s')
    = Throw (SrvError (str "com.telecom.smpp.Error.NotFound") (str "Unknown uuid: " ++ uuid)).
Proof.
  intros Hc Hu. unfold register_session. erewrite ebind_run by done. unfold add.
  change (counter (ip_counts_ (registry_ s)) ip) with (count ip (registry_ s)).
  rewrite (proj2 (Z.leb_le _ _)) by done. eexists. split; [done|].
  unfold GetSocket. erewrite ebind_run by done. unfold claim_fd. cbn. by rewrite Hu.
Qed.

Lemma handle_connection_run pton v ip ts rnd f rc s s' es :
  is_allowed pton ip v = true ->
  register_session (generate_session_id ts rnd) f ip s = (Ret (), s', es) ->
  handle_connection pton v (Some ip) ts rnd f rc s
  = (Ret (), s', (FromService <$> es)
                 ++ [ReleaseSocket; RunSystem (build_launch_command (generate_session_id ts rnd) ip)]).
Proof.
  intros Ha Hr. unfold handle_connection. rewrite Ha. cbn [negb].
  erewrite ebind_run by (unfold lift; by rewrite Hr). erewrite ebind_run by done.
  unfold launch_client_handler. unfold ebind, emit. by destruct (rc =? 0).
Qed.

(** C24: An accepted connection reaches a handler of its own: an address that is not
    allowed changes nothing; an allowed one below its limit is registered under a new
    session id and announced, the socket is handed over, and the process that is
    launched reads from its command line the id and the address, with which [GetSocket]
    returns exactly that socket. *)
Theorem handle_connection_correct pton v ip ts rnd f rc s :
  is_u64 ts -> is_u64 rnd -> (x20 ∉ ip) -> ip <> [] ->
  let uuid := generate_session_id ts rnd in
  (is_allowed pton ip v = false ->
     handle_connection pton v (Some ip) ts rnd f rc s = (Ret (), s, [])) /\
  (is_allowed pton ip v = true -> count ip (registry_ s) < max_per_ip_ (registry_ s) ->
     exists s' cmd,
       handle_connection pton v (Some ip) ts rnd f rc s
       = (Ret (), s', [FromService (EmitSessionStarted uuid ip); ReleaseSocket; RunSystem cmd]) /\
       parse_args (drop 5 (words cmd))
       = Some {| arg_uuid := uuid; arg_client_ip := ip;
                 arg_server_svc := str "com.telecom.smpp.Server" |} /\
       run_outcome (GetSocket uuid s') = Ret f).
Proof.
  unfold is_u64. intros Ht Hr Hsp Hne. set (uuid := generate_session_id ts rnd). split; intros Ha.
  - unfold handle_connection. by rewrite Ha.
  - intros Hc. destruct (register_session_accepted uuid f ip s Hc) as (s' & Hreg & Hget).
    exists s', (build_launch_command uuid ip). split_and!; [|apply launch_args; try done|done].
    + by rewrite (handle_connection_run _ _ _ _ _ _ _ _ _ _ Ha Hreg).
    + apply session_id_no_space; lia.
    + unfold uuid, generate_session_id. by destruct (hex_setw 12 _).
Qed.

Definition example_validator : IpValidator :=
  {| config_file_ := str "ips.conf"; exact_set_ := {[str "127.0.0.1"]}; cidrs_ := [] |}.

Lemma handle_connection_correct_witness :
  let uuid := generate_session_id 1742000001234 77 in
  exists s' cmd,
    handle_connection example_pton example_validator (Some (str "127.0.0.1")) 1742000001234 77 9 0
      (service_init 5)
    = (Ret (), s', [FromService (EmitSessionStarted uuid (str "127.0.0.1")); ReleaseSocket;
                    RunSystem cmd]) /\
    parse_args (drop 5 (words cmd))
    = Some {| arg_uuid := uuid; arg_client_ip := str "127.0.0.1";
              arg_server_svc := str "com.telecom.smpp.Server" |} /\
    run_outcome (GetSocket uuid s') = Ret 9.
Proof.
  destruct (handle_connection_correct example_pton example_validator (str "127.0.0.1")
              1742000001234 77 9 0 (service_init 5)) as [_ H];
    [by vm_compute|by vm_compute|apply (bool_decide_unpack _); by vm_compute|done|].
  apply H; by vm_compute.
Defined.

(** C39: A connection over the limit is neither served nor closed: [register_session]
    refuses it without telling the acceptor, which gives up its ownership of the socket
    and launches a handler all the same; that handler's [GetSocket] fails with NotFound,
    and nothing refers to the descriptor any more. *)
Theorem over_limit_leaks pton v ip ts rnd f rc s :
  let uuid := generate_session_id ts rnd in
  is_allowed pton ip v = true ->
  max_per_ip_ (registry_ s) <= count ip (registry_ s) ->
  sessions_ (registry_ s) !! uuid = None ->
  exists s' cmd,
    handle_connection pton v (Some ip) ts rnd f rc s
    = (Ret (), s', [ReleaseSocket; RunSystem cmd]) /\
    sessions_ (registry_ s') = sessions_ (registry_ s) /\
    run_outcome (GetSocket uuid s')
    = Throw (SrvError (str "com.telecom.smpp.Error.NotFound") (str "Unknown uuid: " ++ uuid)).
Proof.
  intros uuid Ha Hc Hu. destruct (register_session_rejected uuid f ip s Hc Hu) as (s' & Hreg & Hget).
  exists s', (build_launch_command uuid ip).
  rewrite (handle_connection_run _ _ _ _ _ _ _ _ _ _ Ha Hreg). split_and!; [done| |done].
  unfold register_session in Hreg. erewrite ebind_run in Hreg by done. unfold add in Hreg.
  change (counter (ip_counts_ (registry_ s)) ip) with (count ip (registry_ s)) in Hreg.
  rewrite (proj2 (Z.leb_le _ _)) in Hreg by done. by injection Hreg as <-.
Qed.

Lemma over_limit_leaks_witness :
  let uuid := generate_session_id 1742000001234 77 in
  exists s' cmd,
    handle_connection example_pton example_validator (Some (str "127.0.0.1")) 1742000001234 77 9 0
      (service_init 0) = (Ret (), s', [ReleaseSocket; RunSystem cmd]) /\
    sessions_ (registry_ s') = sessions_ (registry_ (service_init 0)) /\
    run_outcome (GetSocket uuid s')
    = Throw (SrvError (str "com.telecom.smpp.Error.NotFound") (str "Unknown uuid: " ++ uuid)).
Proof.
  apply (over_limit_leaks example_pton example_validator (str "127.0.0.1") 1742000001234 77 9 0
           (service_init 0)); by vm_compute.
Defined.

(** ** The accept loop *)

(** The connections among the completions that the whitelist lets through, with the
    session ids they get. *)
Definition admitted (pton : cstring -> option Z) (v : IpValidator) (r : accept_result)
    : option (cstring * Z * cstring) :=
  match r with
  | Accepted (Some ip) ts rnd f _ =>
      if is_allowed pton ip v then Some (generate_session_id ts rnd, f, ip) else None
  | _ => None
  end.

(** The registrations that follow from them. *)
Definition register_all (cs : list (cstring * Z * cstring)) (s : SmppServerService) : SmppServerService :=
  foldl (fun s '(uuid, f, ip) => run_state (register_session uuid f ip s)) s cs.

Definition accepts (es : list acc_effect) : nat :=
  length (omap (fun e => match e with AsyncAccept => Some () | _ => None end) es).

Definition launches (es : list acc_effect) : list cstring :=
  omap (fun e => match e with RunSystem cmd => Some cmd | _ => None end) es.

Lemma register_session_ret uuid f ip s :
  exists s' es, register_session uuid f ip s = (Ret (), s', es).
Proof.
  unfold register_session, ebind, eget. destruct (add _ _ _ _) as [[] r]; by eexists _, _.
Qed.

Lemma on_accept_run pton v r s :
  exists es, on_accept pton v r s
    = (Ret (), register_all (option_list (admitted pton v r)) s, es ++ [AsyncAccept]) /\
    accepts es = 0%nat /\
    launches es = (fun '(uuid, _, ip) => build_launch_command uuid ip)
                    <$> option_list (admitted pton v r).
Proof.
  unfold on_accept. destruct r as [[ip|] ts rnd f rc|b]; [|by exists []..].
  cbn [admitted]. destruct (is_allowed pton ip v) eqn:Ha.
  - destruct (register_session_ret (generate_session_id ts rnd) f ip s) as (s' & es & Hr).
    rewrite (ebind_run _ _ _ _ _ _ (handle_connection_run _ _ _ _ _ _ _ _ _ _ Ha Hr)).
    change (option_list (Some ?x)) with [x]. unfold register_all. cbn [foldl]. rewrite Hr.
    eexists. split_and!; [done|..].
    + unfold accepts. rewrite omap_app. cbn.
      replace (omap _ (FromService <$> es)) with (@nil unit); [done|]. clear. by induction es.
    + unfold launches. rewrite omap_app. cbn.
      replace (omap _ (FromService <$> es)) with (@nil cstring); [done|]. clear. by induction es.
  - exists []. split; [|done]. unfold handle_connection, ebind. by rewrite Ha.
Qed.

(** C25: The accept loop: whatever the sequence of completions, errors and rejected
    addresses included, the loop returns and starts exactly one new accept for each, so
    that one is always outstanding; the server is as after calls of [register_session], in
    their order, for exactly the connections that the whitelist admits (a call for a
    connection over its limit registers nothing), and one handler has been launched for
    each of these connections. *)
Theorem accept_loop_correct pton v rs s :
  exists es,
    TcpServer_run pton v rs s = (Ret (), register_all (omap (admitted pton v) rs) s, es) /\
    accepts es = S (length rs) /\
    launches es = (fun '(uuid, _, ip) => build_launch_command uuid ip) <$> omap (admitted pton v) rs.
Proof.
  assert (H : forall rs s, exists es,
    accept_loop pton v rs s = (Ret (), register_all (omap (admitted pton v) rs) s, es) /\
    accepts es = length rs /\
    launches es = (fun '(uuid, _, ip) => build_launch_command uuid ip) <$> omap (admitted pton v) rs).
  { clear rs s. induction rs as [|r rs IH]; intros s; [by exists []|].
    destruct (on_accept_run pton v r s) as (es1 & H1 & Ha1 & Hl1).
    destruct (IH (register_all (option_list (admitted pton v r)) s)) as (es2 & H2 & Ha2 & Hl2).
    exists ((es1 ++ [AsyncAccept]) ++ es2). cbn [accept_loop]. erewrite ebind_run by exact H1.
    rewrite H2. unfold accepts, launches in *.
    rewrite !omap_app, !length_app, Ha1, Ha2, Hl1, Hl2.
    cbn [omap list_omap]. by destruct (admitted pton v r). }
  destruct (H rs s) as (es & Hr & Ha & Hl). exists (AsyncAccept :: es). unfold TcpServer_run.
  erewrite ebind_run by done. rewrite Hr. split_and!; [done| |done].
  unfold accepts in *. cbn. by rewrite Ha.
Qed.
