(* ===== verification/Process.v ===== *)
(** * Process: the three [main] functions

    [SMPPServer/src/main.cpp], [Authenticator/src/main.cpp] and
    [SmppClientHandler/src/main.cpp]: options from the environment and the command
    line, the order in which the parts are constructed, and how the process ends.  What
    the host answers (environment, files, the bus, the listening socket) is a record of
    arguments.  A [std::thread] that is destroyed while it is joinable terminates the
    process: the threads that have not been joined are the state of a [main]. *)

From S2P Require Import Prelude StdString Config Pdu Throttle Session Auth StdMap.
From S2P Require Import Registry ServerService IpValidator Acceptor.
#[local] Open Scope Z_scope.
#[local] Open Scope eff_scope.

(** ** How a process ends *)

Inductive exit_status :=
| Exited (code : Z)
| Terminated.            (* std::terminate: an uncaught exception, a joinable thread destroyed *)

Definition EXIT_SUCCESS : Z := 0.
Definition EXIT_FAILURE : Z := 1.

Inductive proc_exn :=
| StdExn (ex : std_exn)
| TomlError (ex : auth_exn)
| BusError (what : cstring)
| SystemError (what : cstring).

Inductive proc_effect :=
| PrintUsage
| InitLogger (es : list log_effect)
| ShutdownLogger
| LogFatal (ex : proc_exn)
| LogCritical (msg : cstring)
| RequestName (name : cstring)             (* createSystemBusConnection *)
| ExportObject (path : cstring)            (* createObject *)
| FinishRegistration
| CallGetSocket (svc uuid : cstring)
| InstallSighup
| SpawnDbusThread                          (* a std::thread that runs the event loop *)
| EnterEventLoop                           (* the event loop on the calling thread *)
| StopIo                                   (* io_ctx.stop() *)
| LeaveEventLoop
| Listen (port : Z)
| SpawnWorkers (n : Z)
| Serve (v : IpValidator) (svc : SmppServerService)   (* io_ctx.run() of the server *)
| StartSession (s : session)
| RunIo                                    (* io_ctx.run() of the handler *)
| JoinWorkers
| JoinDbusThread.

(** The [std::thread] objects of the [try] block that are joinable. *)
Record threads := { dbus_joinable : bool; workers_joinable : bool }.

Definition no_threads : threads := {| dbus_joinable := false; workers_joinable := false |}.

Abbreviation PM := (M threads proc_effect proc_exn).

Definition set_dbus (b : bool) : PM unit :=
  emodify (fun t => {| dbus_joinable := b; workers_joinable := workers_joinable t |}).
Definition set_workers (b : bool) : PM unit :=
  emodify (fun t => {| dbus_joinable := dbus_joinable t; workers_joinable := b |}).

(** A call that throws when the host answers with an error. *)
Definition may_throw (e : option proc_exn) : PM unit :=
  match e with Some ex => ethrow ex | None => eret () end.

(** [try { body } catch (const std::exception& ex) { handler }] where the block's
    threads are destroyed before the handler runs. *)
Definition try_main (body : PM unit) (handler : proc_exn -> exit_status * list proc_effect)
    (rest : exit_status * list proc_effect) : exit_status * list proc_effect :=
  match body no_threads with
  | (Ret _, t, es) =>
      if dbus_joinable t || workers_joinable t then (Terminated, es)
      else (fst rest, es ++ snd rest)
  | (Throw ex, t, es) =>
      if dbus_joinable t || workers_joinable t then (Terminated, es)
      else (fst (handler ex), es ++ snd (handler ex))
  | (UB, _, es) => (Terminated, es)
  end.

(** ** The server's options *)

Definition DEFAULT_PORT : Z := 2775.
Definition DEFAULT_IP_CONFIG : cstring := str "/etc/simple_smpp_server/allowed_ips.conf".
Definition DEFAULT_LOG_FILE : cstring := str "/var/log/simple_smpp_server/server.log".
Definition DEFAULT_LOG_LEVEL : cstring := str "info".
Definition DEFAULT_MAX_PER_IP : Z := 5.

Record server_options := { opt_port : Z; opt_ip_config : cstring; opt_log_level : cstring }.

Definition set_opt_port (p : Z) (o : server_options) : server_options :=
  {| opt_port := p; opt_ip_config := opt_ip_config o; opt_log_level := opt_log_level o |}.
Definition set_opt_ip_config (c : cstring) (o : server_options) : server_options :=
  {| opt_port := opt_port o; opt_ip_config := c; opt_log_level := opt_log_level o |}.
Definition set_opt_log_level (l : cstring) (o : server_options) : server_options :=
  {| opt_port := opt_port o; opt_ip_config := opt_ip_config o; opt_log_level := l |}.

(** [static_cast<uint16_t>(std::stoul(s))] *)
Definition parse_port (s : cstring) : std_exn + Z :=
  match stoul s with inl ex => inl ex | inr z => inr (u16 z) end.

Definition env_options (getenv : getenv_t) : std_exn + server_options :=
  let o := {| opt_port := DEFAULT_PORT; opt_ip_config := DEFAULT_IP_CONFIG;
              opt_log_level := default DEFAULT_LOG_LEVEL (getenv (str "SMPP_LOG_LEVEL")) |} in
  match getenv (str "SMPP_PORT") with
  | Some env => match parse_port env with inl ex => inl ex | inr p => inr (set_opt_port p o) end
  | None => inr o
  end.

(** The loop over the arguments; [None] when the usage is asked for. *)
Fixpoint parse_server_args (argv : list cstring) (o : server_options)
    : std_exn + option server_options :=
  match argv with
  | [] => inr (Some o)
  | arg :: argv =>
      match strip_prefix (str "--port=") arg with
      | Some v =>
          match parse_port v with
          | inl ex => inl ex
          | inr p => parse_server_args argv (set_opt_port p o)
          end
      | None =>
          match strip_prefix (str "--ip-config=") arg with
          | Some v => parse_server_args argv (set_opt_ip_config v o)
          | None =>
              match strip_prefix (str "--log-level=") arg with
              | Some v => parse_server_args argv (set_opt_log_level v o)
              | None =>
                  if decide (arg = str "--help" \/ arg = str "-h") then inr None
                  else parse_server_args argv o
              end
          end
      end
  end.

Definition server_options_of (getenv : getenv_t) (argv : list cstring)
    : std_exn + option server_options :=
  match env_options getenv with inl ex => inl ex | inr o => parse_server_args argv o end.

(** ** The server process *)

(** What the host answers; [None] for success. *)
Record server_host := {
  h_getenv : getenv_t;
  h_file : cstring -> option cstring;          (* the contents of a file *)
  h_log_file : option cstring;                 (* why the log file cannot be opened *)
  h_request_name : cstring -> option cstring;  (* why the bus refuses a name *)
  h_listen : Z -> option cstring;              (* why the port cannot be bound *)
  h_concurrency : Z;                           (* hardware_concurrency() *)
  h_run : option proc_exn                      (* what a handler throws out of io_ctx.run() *)
}.

Definition SERVER_SERVICE_NAME : cstring := str "com.telecom.smpp.Server".
Definition SERVER_OBJ_PATH : cstring := str "/com/telecom/smpp/server".

Section ServerMain.
Context (inet_pton : cstring -> option Z) (h : server_host).

Definition new_validator (o : server_options) : PM IpValidator :=
  match IpValidator_new inet_pton (opt_ip_config o) (h_file h (opt_ip_config o)) with
  | Ret v => eret v
  | Throw ex => ethrow (StdExn ex)
  | UB => edefined None
  end.

(** The [try] block. *)
Definition server_body (o : server_options) : PM unit :=
  let svc := service_init DEFAULT_MAX_PER_IP in
  v <- new_validator o ;;
  emit (RequestName SERVER_SERVICE_NAME) ;;;
  may_throw (BusError <$> h_request_name h SERVER_SERVICE_NAME) ;;;
  emit (ExportObject SERVER_OBJ_PATH) ;;;
  emit FinishRegistration ;;;
  emit SpawnDbusThread ;;; set_dbus true ;;;
  emit (Listen (opt_port o)) ;;;
  may_throw (SystemError <$> h_listen h (opt_port o)) ;;;
  let n := Z.max 2 (h_concurrency h) in
  emit (SpawnWorkers (n - 1)) ;;; set_workers true ;;;
  emit (Serve v svc) ;;;
  may_throw (h_run h) ;;;
  emit JoinWorkers ;;; set_workers false ;;;
  emit JoinDbusThread ;;; set_dbus false.

Definition server_main (argv : list cstring) : exit_status * list proc_effect :=
  match server_options_of (h_getenv h) argv with
  | inl _ => (Terminated, [])     (* thrown outside of the try block *)
  | inr None => (Exited EXIT_SUCCESS, [PrintUsage])
  | inr (Some o) =>
      let log := InitLogger (server_logger_init (h_log_file h) DEFAULT_LOG_FILE
                               (level_from_string (opt_log_level o))) in
      let '(code, es) :=
        try_main (server_body o)
          (fun ex => (Exited EXIT_FAILURE, [LogFatal ex; ShutdownLogger]))
          (Exited EXIT_SUCCESS, [ShutdownLogger]) in
      (code, log :: es)
  end.
End ServerMain.

(** The completion handler of the signal set. *)
Definition on_signal (ec : bool) : list proc_effect :=
  if negb ec then [StopIo; LeaveEventLoop] else [].

(** ** The options *)

(** The value of the last argument that starts with a prefix. *)
Fixpoint last_value (p : cstring) (argv : list cstring) : option cstring :=
  match argv with
  | [] => None
  | a :: argv =>
      match last_value p argv with Some v => Some v | None => strip_prefix p a end
  end.

Definition is_help (a : cstring) : Prop := a = str "--help" \/ a = str "-h".

(** The last port, where every one is converted. *)
Definition port_of (argv : list cstring) : option cstring := last_value (str "--port=") argv.

Definition bad_port (a : cstring) : Prop :=
  exists v ex, a = str "--port=" ++ v /\ stoul v = inl ex.

(** Two prefixes that differ before the end of both exclude each other. *)
Fixpoint diverge (p q : cstring) : bool :=
  match p, q with
  | x :: p, y :: q => if decide (x = y) then diverge p q else true
  | _, _ => false
  end.

Lemma diverge_strip p q v : diverge p q = true -> strip_prefix p (q ++ v) = None.
Proof.
  revert q. induction p as [|x p IH]; intros [|y q] H; try done. cbn in *. case_decide; [|done].
  by apply IH.
Qed.

(** What one argument does. *)
Definition server_arg (a : cstring) (o : server_options) : std_exn + option server_options :=
  parse_server_args [a] o.

Lemma parse_server_args_cons a argv o :
  parse_server_args (a :: argv) o
  = match server_arg a o with
    | inl ex => inl ex
    | inr None => inr None
    | inr (Some o') => parse_server_args argv o'
    end.
Proof. unfold server_arg. cbn [parse_server_args]. by repeat case_match. Qed.

(** The options that the arguments set. *)
Definition args_spec (argv : list cstring) (o : server_options) : server_options :=
  {| opt_port := match port_of argv ≫= (fun v => Some (stoul v)) with
                 | Some (inr z) => u16 z
                 | _ => opt_port o
                 end;
     opt_ip_config := default (opt_ip_config o) (last_value (str "--ip-config=") argv);
     opt_log_level := default (opt_log_level o) (last_value (str "--log-level=") argv) |}.

(** An argument that neither asks for the usage nor holds a malformed port. *)
Definition plain_arg (a : cstring) : Prop := ~ is_help a /\ ~ bad_port a.

Lemma server_arg_plain a o : plain_arg a -> server_arg a o = inr (Some (args_spec [a] o)).
Proof.
  intros [Hh Hb]. unfold server_arg, args_spec, port_of. cbn [parse_server_args last_value].
  destruct (strip_prefix (str "--port=") a) as [v|] eqn:Ep; cbn [mbind option_bind].
  - apply strip_prefix_Some in Ep as ->. rewrite !diverge_strip by done.
    unfold parse_port. destruct (stoul v) as [ex|z] eqn:Es; [|done].
    destruct Hb. by exists v, ex.
  - destruct (strip_prefix (str "--ip-config=") a) as [v|] eqn:Ei.
    { apply strip_prefix_Some in Ei as ->. by rewrite !diverge_strip. }
    destruct (strip_prefix (str "--log-level=") a) as [v|] eqn:El; [done|].
    rewrite decide_False by done. by destruct o.
Qed.

Lemma last_value_elem p argv v : last_value p argv = Some v -> (p ++ v) ∈ argv.
Proof.
  induction argv as [|b argv IH]; [done|]. cbn [last_value]. rewrite elem_of_cons.
  destruct (last_value p argv); intros E; [right; by apply IH|].
  left. by apply strip_prefix_Some in E.
Qed.

Lemma args_spec_cons a argv o :
  Forall plain_arg (a :: argv) -> args_spec (a :: argv) o = args_spec argv (args_spec [a] o).
Proof.
  intros [_ Hf]%Forall_cons. unfold args_spec, port_of. cbn [last_value]. f_equal.
  - destruct (last_value (str "--port=") argv) as [v|] eqn:El; [|done]. cbn [mbind option_bind].
    destruct (stoul v) as [ex|z] eqn:Es; [|done]. exfalso.
    apply last_value_elem in El. rewrite Forall_forall in Hf.
    destruct (Hf _ El) as [_ Hb]. apply Hb. by exists v, ex.
  - by destruct (last_value _ argv).
  - by destruct (last_value _ argv).
Qed.

Lemma args_spec_nil o : args_spec [] o = o.
Proof. by destruct o. Qed.

Lemma parse_server_args_app l1 l2 o :
  Forall plain_arg l1 ->
  parse_server_args (l1 ++ l2) o = parse_server_args l2 (args_spec l1 o).
Proof.
  revert o. induction l1 as [|a l1 IH]; intros o Hf; [by rewrite args_spec_nil|].
  rewrite <- app_comm_cons, parse_server_args_cons.
  rewrite (server_arg_plain _ _ (Forall_inv Hf)), (args_spec_cons a l1) by done.
  apply IH. by inversion Hf.
Qed.

(** The options before the command line is read. *)
Definition env_spec (getenv : getenv_t) (env_port : option Z) : server_options :=
  {| opt_port := from_option u16 2775 env_port;
     opt_ip_config := str "/etc/simple_smpp_server/allowed_ips.conf";
     opt_log_level := default (str "info") (getenv (str "SMPP_LOG_LEVEL")) |}.

Lemma env_options_spec getenv :
  env_options getenv
  = match getenv (str "SMPP_PORT") ≫= (fun v => Some (stoul v)) with
    | Some (inl ex) => inl ex
    | Some (inr z) => inr (env_spec getenv (Some z))
    | None => inr (env_spec getenv None)
    end.
Proof.
  unfold env_options, parse_port. destruct (getenv (str "SMPP_PORT")) as [v|]; cbn [mbind option_bind]; [|done].
  by destruct (stoul v).
Qed.

Lemma opt_port_u16 argv o : is_u16 (opt_port o) -> is_u16 (opt_port (args_spec argv o)).
Proof.
  intros H. unfold args_spec. cbn. destruct (port_of argv) as [v|]; cbn; [|done].
  destruct (stoul v); [done|apply u16_range].
Qed.

(** C30: The server's options.  With a well-formed SMPP_PORT, or none: a command line of
    plain arguments sets the port, the whitelist and the log level each to the last value
    given, else to the environment's (port, level), else to its default, and the port is
    within 16 bits; [--help] or [-h] after plain arguments ends the parsing with the usage;
    a [--port=] that is no number, or SMPP_PORT when it is none, is an exception. *)
Theorem server_options_correct getenv argv :
  match getenv (str "SMPP_PORT") ≫= (fun v => Some (stoul v)) with
  | Some (inl ex) => server_options_of getenv argv = inl ex
  | env =>
      let base := env_spec getenv (env ≫= (fun r => match r with inr z => Some z | inl _ => None end)) in
      (Forall plain_arg argv ->
         server_options_of getenv argv = inr (Some (args_spec argv base)) /\
         is_u16 (opt_port (args_spec argv base))) /\
      (forall l1 a l2, argv = l1 ++ a :: l2 -> Forall plain_arg l1 ->
         (is_help a -> server_options_of getenv argv = inr None) /\
         (forall v ex, a = str "--port=" ++ v -> stoul v = inl ex ->
            server_options_of getenv argv = inl ex))
  end.
Proof.
  assert (Hb : forall p, is_u16 (opt_port (env_spec getenv p))).
  { intros [p|]; [apply u16_range|by vm_compute]. }
  assert (H : forall p, env_options getenv = inr (env_spec getenv p) ->
    (Forall plain_arg argv ->
       server_options_of getenv argv = inr (Some (args_spec argv (env_spec getenv p))) /\
       is_u16 (opt_port (args_spec argv (env_spec getenv p)))) /\
    (forall l1 a l2, argv = l1 ++ a :: l2 -> Forall plain_arg l1 ->
       (is_help a -> server_options_of getenv argv = inr None) /\
       (forall v ex, a = str "--port=" ++ v -> stoul v = inl ex ->
          server_options_of getenv argv = inl ex))).
  { intros p He. unfold server_options_of. rewrite He. split.
    - intros Hf. split; [|by apply opt_port_u16]. rewrite <- (app_nil_r argv) at 1.
      by rewrite parse_server_args_app.
    - intros l1 a l2 -> Hf. rewrite parse_server_args_app by done. split.
      + by intros [-> | ->].
      + intros v ex -> Hv. cbn [parse_server_args]. rewrite strip_prefix_app. unfold parse_port.
        by rewrite Hv. }
  pose proof (env_options_spec getenv) as He.
  destruct (getenv (str "SMPP_PORT")) as [v|]; cbn [mbind option_bind] in *.
  - destruct (stoul v) as [ex|z]; [|by apply H]. unfold server_options_of. by rewrite He.
  - by apply H.
Qed.

Lemma server_options_correct_witness :
  let argv := [str "--port=8080"; str "--log-level=debug"; str "--verbose"; str "--port=65537x"] in
  server_options_of (fun _ => None) argv
  = inr (Some {| opt_port := 1; opt_ip_config := str "/etc/simple_smpp_server/allowed_ips.conf";
                 opt_log_level := str "debug" |}).
Proof.
  intros argv. destruct (server_options_correct (fun _ => None) argv) as [H _].
  destruct H as [H _]; [|exact H]. unfold argv.
  repeat (apply Forall_cons; split; [|]); [..|apply Forall_nil; done];
    (split; [intros [E|E]; discriminate E|]); intros (v & ex & E & Hs);
    try discriminate E; injection E as <-; vm_compute in Hs; discriminate Hs.
Defined.

(** ** The server process *)

Lemma load_lines_defined pton ls v : run_outcome (load_lines pton ls v) <> UB.
Proof.
  revert v. induction ls as [|l ls IH]; intros v; [done|]. cbn [load_lines]. unfold ebind.
  assert (Hl : run_outcome (load_line pton l v) <> UB).
  { unfold load_line. repeat case_match; done. }
  destruct (load_line pton l v) as [[[[]|ex|] v1] es]; [|done..].
  specialize (IH v1). by destruct (load_lines pton ls v1) as [[? ?] ?].
Qed.

Lemma IpValidator_new_defined pton c file : IpValidator_new pton c file <> UB.
Proof.
  unfold IpValidator_new, load_config, ebind, emodify, eget. destruct file as [f|]; cbn; [|done].
  pose proof (load_lines_defined pton (getlines [] f)
    {| config_file_ := c; exact_set_ := ∅; cidrs_ := [] |}) as H.
  unfold clear_config. cbn. by destruct (load_lines _ _ _) as [[[| |] ?] ?].
Qed.

(** The effects of the set-up, up to the listening socket. *)
Definition server_setup (o : server_options) : list proc_effect :=
  [RequestName SERVER_SERVICE_NAME; ExportObject SERVER_OBJ_PATH; FinishRegistration;
   SpawnDbusThread; Listen (opt_port o)].

Definition server_log (h : server_host) (o : server_options) : proc_effect :=
  InitLogger (server_logger_init (h_log_file h) DEFAULT_LOG_FILE
                (level_from_string (opt_log_level o))).

(** C29: How the server process starts and ends.  A malformed port terminates it before
    anything is set up, [--help] ends it with success.  An unreadable or malformed whitelist
    and a bus that refuses the server's name are reported and end it with failure before it
    listens.  Otherwise it exports its object, starts the D-Bus thread and listens; then a
    port that cannot be bound, and an exception out of the event loop, terminate it without
    a report, because the joinable D-Bus thread is destroyed on the way to the handler.  A
    served process starts from the whitelist of the file and an empty table with the limit
    of five, on at least two threads, and ends with success after it has joined them. *)
Theorem server_main_correct pton h argv :
  match server_options_of (h_getenv h) argv with
  | inl _ => server_main pton h argv = (Terminated, [])
  | inr None => server_main pton h argv = (Exited 0, [PrintUsage])
  | inr (Some o) =>
      match IpValidator_new pton (opt_ip_config o) (h_file h (opt_ip_config o)),
            h_request_name h SERVER_SERVICE_NAME, h_listen h (opt_port o), h_run h with
      | UB, _, _, _ => False
      | Throw ex, _, _, _ =>
          server_main pton h argv
          = (Exited 1, [server_log h o; LogFatal (StdExn ex); ShutdownLogger])
      | Ret _, Some what, _, _ =>
          server_main pton h argv
          = (Exited 1, [server_log h o; RequestName SERVER_SERVICE_NAME; LogFatal (BusError what);
                        ShutdownLogger])
      | Ret _, None, Some what, _ =>
          server_main pton h argv = (Terminated, server_log h o :: server_setup o)
      | Ret v, None, None, Some ex =>
          exists n, 1 <= n /\
          server_main pton h argv
          = (Terminated, server_log h o :: server_setup o
                         ++ [SpawnWorkers n; Serve v (service_init 5)])
      | Ret v, None, None, None =>
          exists n, 1 <= n /\
          server_main pton h argv
          = (Exited 0, server_log h o :: server_setup o
                       ++ [SpawnWorkers n; Serve v (service_init 5); JoinWorkers; JoinDbusThread;
                           ShutdownLogger])
      end
  end.
Proof.
  unfold server_main. destruct (server_options_of _ _) as [ex|[o|]]; [done| |done].
  pose proof (IpValidator_new_defined pton (opt_ip_config o) (h_file h (opt_ip_config o))) as Hd.
  unfold try_main, server_body, new_validator.
  destruct (IpValidator_new _ _ _) as [v|ex|]; [|done..].
  destruct (h_request_name h _) as [what|]; [done|].
  assert (Hw : 1 <= Z.max 2 (h_concurrency h) - 1) by lia.
  destruct (h_listen h (opt_port o)) as [what|]; [done|].
  destruct (h_run h) as [ex|]; by exists (Z.max 2 (h_concurrency h) - 1).
Qed.

(** ** The authenticator process *)

Definition DEFAULT_CREDENTIALS : cstring := str "/etc/smpp-server/credentials.toml".
Definition AUTH_SERVICE_NAME : cstring := str "com.telecom.smpp.Auth".
Definition AUTH_OBJ_PATH : cstring := str "/com/telecom/smpp/auth".

(** The loop over the arguments. *)
Fixpoint parse_auth_args (argv : list cstring) (creds_path : cstring) : cstring :=
  match argv with
  | [] => creds_path
  | arg :: argv =>
      match strip_prefix (str "--credentials=") arg with
      | Some v => parse_auth_args argv v
      | None => parse_auth_args argv creds_path
      end
  end.

Definition auth_creds_path (getenv : getenv_t) (argv : list cstring) : cstring :=
  parse_auth_args argv (default DEFAULT_CREDENTIALS (getenv (str "SMPP_CREDENTIALS"))).

Record auth_host := {
  a_getenv : getenv_t;
  a_parse : parser;
  a_request_name : cstring -> option cstring
}.

(** The [try] block returns the store that the event loop serves. *)
Definition auth_body (h : auth_host) (creds_path : cstring) : PM unit :=
  match CredentialsStore_new (a_parse h) creds_path with
  | inl ex => ethrow (TomlError ex)
  | inr _ => eret ()
  end ;;;
  emit InstallSighup ;;;
  emit (RequestName AUTH_SERVICE_NAME) ;;;
  may_throw (BusError <$> a_request_name h AUTH_SERVICE_NAME) ;;;
  emit (ExportObject AUTH_OBJ_PATH) ;;;
  emit FinishRegistration ;;;
  emit EnterEventLoop.

Definition auth_main (h : auth_host) (argv : list cstring) : exit_status * list proc_effect :=
  try_main (auth_body h (auth_creds_path (a_getenv h) argv))
    (fun ex => (Exited EXIT_FAILURE, [LogFatal ex]))
    (Exited EXIT_SUCCESS, []).

(** [sighup_handler]: the global store, if there is one, is reloaded.  An exception
    that leaves a signal handler is undefined behaviour. *)
Definition sighup_handler (parse_file : parser) (g_store : option CredentialsStore)
    : outcome Empty_set (option CredentialsStore) :=
  match g_store with
  | None => Ret None
  | Some st =>
      match Auth.reload parse_file st with
      | (Ret _, st', _) => Ret (Some st')
      | _ => UB
      end
  end.

(** The credentials file is re-read on SIGHUP as by [ReloadCredentials] when it
    parses; when it does not, the D-Bus method reports the error and keeps the old
    credentials, while the exception leaves the signal handler, which is undefined
    behaviour. *)
Theorem sighup_reload parse_file st :
  match parse_file (path_ st) with
  | inr tbl =>
      let st' := {| path_ := path_ st; credentials_ := load_document tbl |} in
      sighup_handler parse_file (Some st) = Ret (Some st') /\
      ReloadCredentials parse_file st = (Ret (), st', [])
  | inl ex =>
      sighup_handler parse_file (Some st) = UB /\
      ReloadCredentials parse_file st = (Throw ex, st, [])
  end.
Proof.
  unfold sighup_handler, ReloadCredentials, Auth.reload, Auth.load, ebind, eget.
  by destruct (parse_file (path_ st)) as [ex|tbl].
Qed.

(** The credentials file: the last argument, else the environment's, else the default. *)
Lemma auth_creds_path_spec getenv argv :
  auth_creds_path getenv argv
  = default (default DEFAULT_CREDENTIALS (getenv (str "SMPP_CREDENTIALS")))
      (last_value (str "--credentials=") argv).
Proof.
  unfold auth_creds_path. generalize (default DEFAULT_CREDENTIALS (getenv (str "SMPP_CREDENTIALS"))).
  induction argv as [|a argv IH]; intros d; [done|]. cbn [parse_auth_args last_value].
  destruct (strip_prefix (str "--credentials=") a) as [v|]; rewrite IH; by destruct (last_value _ argv).
Qed.

(** ** The handler process *)

Record handler_host := {
  c_request_name : cstring -> option cstring;
  c_get_socket : cstring -> cstring -> cstring + Z;   (* the server's reply to GetSocket *)
  c_steady_now : Z;
  c_run : option proc_exn
}.

Definition handler_body (h : handler_host) (a : handler_args) : PM unit :=
  let svc_name := str "com.telecom.smpp.Client." ++ arg_uuid a in
  emit (RequestName svc_name) ;;;
  may_throw (BusError <$> c_request_name h svc_name) ;;;
  emit (ExportObject (str "/com/telecom/smpp/client")) ;;;
  emit (CallGetSocket (arg_server_svc a) (arg_uuid a)) ;;;
  match c_get_socket h (arg_server_svc a) (arg_uuid a) with
  | inl what => ethrow (BusError what)
  | inr fd => eret ()
  end ;;;
  let session := session_init (arg_uuid a) (arg_client_ip a) (arg_server_svc a)
                   (str "com.telecom.smpp.Auth") 60 10 0 (c_steady_now h) in
  emit FinishRegistration ;;;
  emit SpawnDbusThread ;;; set_dbus true ;;;
  emit (StartSession session) ;;;
  emit RunIo ;;;
  may_throw (c_run h) ;;;
  emit LeaveEventLoop ;;;
  emit JoinDbusThread ;;; set_dbus false.

Definition handler_main (h : handler_host) (argv : list cstring) : exit_status * list proc_effect :=
  match parse_args argv with
  | None => (Exited EXIT_FAILURE,
             [LogCritical (str "Usage: smpp_client_handler --uuid=UUID --client-ip=IP")])
  | Some a =>
      try_main (handler_body h a)
        (fun ex => (Exited EXIT_FAILURE, [LogFatal ex]))
        (Exited EXIT_SUCCESS, [])
  end.

(** *** Bus names *)

(** An element of a bus name that begins with a digit. *)
Definition digit_element (name : cstring) : Prop :=
  exists pre c post, name = pre ++ x2e :: c :: post /\ isdigit c = true.

(** The D-Bus specification: "only elements that are part of a unique connection name
    may begin with a digit"; unique names begin with a colon. *)
Definition refuses_digit_elements (request_name : cstring -> option cstring) : Prop :=
  forall name, head name <> Some x3a -> digit_element name -> is_Some (request_name name).

Lemma hex_digit_isdigit d : 0 <= d < 10 -> isdigit (hex_digit d) = true.
Proof.
  intros Hd. apply isdigit_spec. unfold hex_digit. rewrite (proj2 (Z.ltb_lt d 10)) by lia.
  rewrite byte_to_of, Z.mod_small by lia. lia.
Qed.

(** The leading digit of a fixed-width number. *)
Lemma hex_setw_head w n :
  0 <= n < 10 * 16 ^ Z.of_nat w -> (w < 16)%nat ->
  exists c rest, hex_setw (S w) n = c :: rest /\ isdigit c = true.
Proof.
  intros Hn Hw. assert (Hp : 0 < 16 ^ Z.of_nat w) by (apply Z.pow_pos_nonneg; lia).
  assert (Hn' : 0 <= n < 16 ^ Z.of_nat (S w)) by (rewrite Nat2Z.inj_succ, Z.pow_succ_r by lia; lia).
  assert (H64 : 16 ^ Z.of_nat (S w) <= 2 ^ 64).
  { change (2 ^ 64) with (16 ^ 16). apply Z.pow_le_mono_r; lia. }
  pose proof (hex_setw_length (S w) n Hn' ltac:(lia)) as Hl.
  pose proof (hex_setw_read (S w) n ltac:(lia)) as Hr.
  pose proof (hex_setw_hex (S w) n) as Hh.
  destruct (hex_setw (S w) n) as [|c rest]; [done|]. exists c, rest. split; [done|].
  apply Forall_cons in Hh as [(d & Hd & ->) Hrest]. apply hex_digit_isdigit.
  change (hex_digit d :: rest) with ([hex_digit d] ++ rest) in Hr. rewrite hex_read_app in Hr.
  unfold hex_read at 1 in Hr. simpl in Hr. rewrite hex_value_digit in Hr by done.
  pose proof (hex_read_nonneg rest Hrest). cbn in Hl. injection Hl as Hl. rewrite Hl in Hr.
  split; [lia|]. nia.
Qed.

Lemma session_name_digit ts rnd :
  0 <= ts -> ts mod 2 ^ 48 < 10 * 16 ^ 11 ->
  digit_element (client_service (generate_session_id ts rnd)).
Proof.
  intros Ht Hd. unfold generate_session_id. rewrite ts_48 by done.
  pose proof (Z.mod_pos_bound ts (2 ^ 48) ltac:(lia)).
  destruct (hex_setw_head 11 (ts mod 2 ^ 48) ltac:(simpl; lia) ltac:(lia)) as (c & rest & -> & Hc).
  unfold client_service. exists (str "com.telecom.smpp.Client"), c. eexists. split; [|done].
  rewrite <- !app_comm_cons. exact eq_refl.
Qed.

(** C35: No handler of an accepted connection ever starts on a bus that follows the D-Bus
    specification: the session id begins with the hexadecimal digits of the time, which up
    to the year 7544 is a decimal digit, so that the name com.telecom.smpp.Client.<id> is
    refused and the process that [handle_connection] launches exits with failure before it
    asks for its socket. *)
Theorem handler_name_refused h ts rnd ip :
  is_u64 ts -> is_u64 rnd -> (x20 ∉ ip) -> ip <> [] ->
  ts mod 2 ^ 48 < 0xA00000000000 ->
  refuses_digit_elements (c_request_name h) ->
  let uuid := generate_session_id ts rnd in
  exists what,
    handler_main h (drop 5 (words (build_launch_command uuid ip)))
    = (Exited 1, [RequestName (client_service uuid); LogFatal (BusError what)]).
Proof.
  intros Ht Hr Hsp Hne Hd Hbus uuid. unfold is_u64 in Ht, Hr.
  destruct (Hbus (client_service uuid)) as [what Hw]; [done|by apply session_name_digit; [lia|]|].
  exists what. unfold handler_main. rewrite launch_args; [|apply session_id_no_space; lia|done| |done].
  - unfold try_main, handler_body. cbn [arg_uuid].
    fold (client_service uuid). unfold ebind, emit, may_throw. by rewrite Hw.
  - unfold uuid, generate_session_id. by destruct (hex_setw 12 _).
Qed.

(** A bus that checks the elements of the names it is asked for. *)
Fixpoint starts_digit_after_dot (dot : bool) (name : cstring) : bool :=
  match name with
  | [] => false
  | c :: name => (dot && isdigit c) || starts_digit_after_dot (bool_decide (c = x2e)) name
  end.

Definition example_bus (name : cstring) : option cstring :=
  if starts_digit_after_dot false name then Some (str "Invalid argument") else None.

Lemma example_bus_refuses : refuses_digit_elements example_bus.
Proof.
  intros name _ (pre & c & post & -> & Hc). unfold example_bus.
  assert (H : forall b, starts_digit_after_dot b (pre ++ x2e :: c :: post) = true); [|by rewrite H].
  induction pre as [|x pre IH]; intros b; cbn [app starts_digit_after_dot].
  - rewrite Hc, bool_decide_eq_true_2 by done. cbn. apply orb_true_r.
  - rewrite IH. apply orb_true_r.
Qed.

Definition example_handler_host : handler_host :=
  {| c_request_name := example_bus; c_get_socket := fun _ _ => inr 9; c_steady_now := 0;
     c_run := None |}.

Lemma handler_name_refused_witness :
  let uuid := generate_session_id 1742000001234 77 in
  exists what,
    handler_main example_handler_host (drop 5 (words (build_launch_command uuid (str "127.0.0.1"))))
    = (Exited 1, [RequestName (client_service uuid); LogFatal (BusError what)]).
Proof.
  apply (handler_name_refused example_handler_host 1742000001234 77 (str "127.0.0.1"));
    [by vm_compute|by vm_compute|apply (bool_decide_unpack _); by vm_compute|done|by vm_compute
    |apply example_bus_refuses].
Defined.

(** ** Message ids of different sessions *)

(** The interval of 2^16 milliseconds, modulo 2^48, in which a session was accepted. *)
Definition accept_window (ts : Z) : Z := (ts / 2 ^ 16) mod 2 ^ 32.

(** The prefix of the message ids: the time without its last sixteen bits. *)
Lemma session_prefix ts rnd ip srv auth iv to mx now :
  is_u64 ts -> is_u64 rnd ->
  msg_id_prefix_ (params_ (session_init (generate_session_id ts rnd) ip srv auth iv to mx now))
  = hex_setw 8 ((ts / 2 ^ 16) mod 2 ^ 32).
Proof.
  unfold is_u64. intros Ht Hr. cbn [params_ session_init msg_id_prefix_].
  unfold generate_session_id. rewrite ts_48 by lia.
  pose proof (Z.mod_pos_bound ts (2 ^ 48) ltac:(lia)) as Hm.
  rewrite (hex_setw_split 8 4) by (try lia; exact Hm).
  change (16 ^ Z.of_nat 4) with (2 ^ 16).
  assert (Hd : ts mod 2 ^ 48 / 2 ^ 16 = (ts / 2 ^ 16) mod 2 ^ 32).
  { change (2 ^ 48) with (2 ^ 16 * 2 ^ 32). rewrite Z.rem_mul_r by lia.
    rewrite (Z.mul_comm (2 ^ 16) (_ mod _)), Z.div_add by lia.
    rewrite (Z.div_small (ts mod 2 ^ 16)); [lia|]. by apply Z.mod_pos_bound. }
  rewrite Hd. pose proof (Z.mod_pos_bound (ts / 2 ^ 16) (2 ^ 32) ltac:(lia)).
  assert (Hl : length (hex_setw 8 ((ts / 2 ^ 16) mod 2 ^ 32)) = 8%nat).
  { apply hex_setw_length; [|lia]. change (16 ^ Z.of_nat 8) with (2 ^ 32). lia. }
  rewrite decide_True by (rewrite !length_app, Hl; lia).
  by rewrite <- app_assoc, take_app_le, take_ge by lia.
Qed.

(** C37: Message ids are unique within a session only: the first messages of two sessions
    get the same id exactly when the sessions were accepted in the same interval of 2^16
    milliseconds (modulo 2^48), whatever their random parts are; and then so do the second
    ones, and so on. *)
Theorem first_ids_collide ts rnd ts' rnd' ip ip' srv auth iv to mx now now' :
  is_u64 ts -> is_u64 rnd -> is_u64 ts' -> is_u64 rnd' ->
  let s := session_init (generate_session_id ts rnd) ip srv auth iv to mx now in
  let s' := session_init (generate_session_id ts' rnd') ip' srv auth iv to mx now' in
  (run_outcome (next_message_id s) = run_outcome (next_message_id s') <->
   accept_window ts = accept_window ts') /\
  (run_outcome (next_message_id s) = run_outcome (next_message_id s') ->
   forall k, run_outcome (next_message_id (set_msg_seq k s))
             = run_outcome (next_message_id (set_msg_seq k s'))).
Proof.
  intros Ht Hr Ht' Hr' s s'.
  assert (Hid : forall k x, run_outcome (next_message_id (set_msg_seq k x))
    = Ret (message_id (msg_id_prefix_ (params_ x)) (u32 (k + 1)))) by by intros k [].
  assert (Hs : s = set_msg_seq 0 s) by done. assert (Hs' : s' = set_msg_seq 0 s') by done.
  pose proof (session_prefix ts rnd ip srv auth iv to mx now Ht Hr) as Hp.
  pose proof (session_prefix ts' rnd' ip' srv auth iv to mx now' Ht' Hr') as Hp'.
  fold s in Hp. fold s' in Hp'. clearbody s s'.
  assert (Hiff : run_outcome (next_message_id s) = run_outcome (next_message_id s') <->
                 msg_id_prefix_ (params_ s) = msg_id_prefix_ (params_ s')).
  { rewrite Hs, Hs', !Hid, <- Hs, <- Hs'. split; [|by intros ->].
    intros [= E]. unfold message_id in E. by apply app_inv_tail in E. }
  rewrite Hiff. split.
  - rewrite Hp, Hp'. unfold accept_window. split; [|by intros ->]. intros E.
    pose proof (Z.mod_pos_bound (ts / 2 ^ 16) (2 ^ 32) ltac:(lia)).
    pose proof (Z.mod_pos_bound (ts' / 2 ^ 16) (2 ^ 32) ltac:(lia)).
    rewrite <- (hex_setw_read 8 ((ts / 2 ^ 16) mod 2 ^ 32)), E, hex_setw_read by lia. done.
  - intros E k. by rewrite !Hid, E.
Qed.

Lemma first_ids_collide_witness :
  let s rnd := session_init (generate_session_id 1742000001234 rnd) (str "10.0.0.1")
                 (str "com.telecom.smpp.Server") (str "com.telecom.smpp.Auth") 60 10 0 0 in
  run_outcome (next_message_id (s 77)) = run_outcome (next_message_id (s 78)).
Proof.
  apply (first_ids_collide 1742000001234 77 1742000001234 78 (str "10.0.0.1") (str "10.0.0.1")
           (str "com.telecom.smpp.Server") (str "com.telecom.smpp.Auth") 60 10 0 0 0);
    by vm_compute.
Defined.
