(* ===== verification/ServerInfo.v ===== *)
(** * ServerInfo: build information and the service manager of the server

    [SMPPServer/include/app_info.hpp] with [src/app_info.cpp], and
    [src/smpp_service_manager.cpp].  The constants of the build come from a generated
    header and are a parameter; the service manager is a placeholder in the source, which
    logs and reports success. *)

From S2P Require Import Prelude IpValidator.
#[local] Open Scope Z_scope.

Module AppInfo.

(** config.h, generated by CMake. *)
Class config_h := {
  PROJECT_NAME : cstring;
  VERSION_STRING : cstring;
  FULL_VERSION_STRING : cstring;
  VERSION_MAJOR : Z;
  VERSION_MINOR : Z;
  VERSION_PATCH : Z;
  PROJECT_DESCRIPTION : cstring;
  PROJECT_HOMEPAGE_URL : cstring;
  COMPILER : cstring;
  CXX_STANDARD : cstring;
  BUILD_TYPE : cstring
}.

Section Build.
Context {cfg : config_h}.

Definition name : cstring := PROJECT_NAME.
Definition version : cstring := VERSION_STRING.
Definition full_version : cstring := FULL_VERSION_STRING.
Definition version_major : Z := VERSION_MAJOR.
Definition version_minor : Z := VERSION_MINOR.
Definition version_patch : Z := VERSION_PATCH.
Definition description : cstring := PROJECT_DESCRIPTION.
Definition homepage : cstring := PROJECT_HOMEPAGE_URL.
Definition compiler : cstring := COMPILER.
Definition cxx_standard : cstring := CXX_STANDARD.
Definition build_type : cstring := BUILD_TYPE.
Definition is_prerelease : bool := VERSION_MAJOR =? 0.
Definition is_stable : bool := 1 <=? VERSION_MAJOR.

Definition info_string : cstring :=
  PROJECT_NAME ++ str " " ++ FULL_VERSION_STRING ++ [x0a]
  ++ str "Description: " ++ PROJECT_DESCRIPTION ++ [x0a]
  ++ str "Homepage: " ++ PROJECT_HOMEPAGE_URL ++ [x0a]
  ++ str "Compiler: " ++ COMPILER ++ str " (C++" ++ CXX_STANDARD ++ str ")" ++ [x0a]
  ++ str "Build Type: " ++ BUILD_TYPE.

(** What is written to [std::cout]. *)
Definition print_info : cstring := info_string ++ [x0a].

(** A build is a pre-release or stable, never both. *)
Lemma release_kind : 0 <= VERSION_MAJOR -> is_prerelease = negb is_stable.
Proof. intros. unfold is_prerelease, is_stable. lia. Qed.

Definition no_newline (s : cstring) : Prop := x0a ∉ s.

Lemma getlines_line acc l rest :
  no_newline l -> getlines acc (l ++ x0a :: rest) = (acc ++ l) :: getlines [] rest.
Proof.
  unfold no_newline. revert acc. induction l as [|c l IH]; intros acc Hl; cbn.
  - by rewrite app_nil_r.
  - rewrite elem_of_cons in Hl. rewrite decide_False by naive_solver.
    rewrite IH by naive_solver. by rewrite <- app_assoc.
Qed.

Lemma no_newline_app a b : no_newline a -> no_newline b -> no_newline (a ++ b).
Proof. unfold no_newline. set_solver. Qed.

Lemma no_newline_lit s : bool_decide (x0a ∉ s) = true -> no_newline s.
Proof. by intros H%bool_decide_eq_true. Qed.

(** The printed information is the five lines it is made of. *)
Theorem print_info_lines :
  Forall no_newline [PROJECT_NAME; FULL_VERSION_STRING; PROJECT_DESCRIPTION; PROJECT_HOMEPAGE_URL;
                     COMPILER; CXX_STANDARD; BUILD_TYPE] ->
  getlines [] print_info
  = [PROJECT_NAME ++ str " " ++ FULL_VERSION_STRING;
     str "Description: " ++ PROJECT_DESCRIPTION;
     str "Homepage: " ++ PROJECT_HOMEPAGE_URL;
     str "Compiler: " ++ COMPILER ++ str " (C++" ++ CXX_STANDARD ++ str ")";
     str "Build Type: " ++ BUILD_TYPE].
Proof.
  rewrite !Forall_cons. intros (H1 & H2 & H3 & H4 & H5 & H6 & H7 & _).
  unfold print_info, info_string.
  replace (_ ++ [x0a]) with
    ((PROJECT_NAME ++ str " " ++ FULL_VERSION_STRING) ++ x0a ::
     (str "Description: " ++ PROJECT_DESCRIPTION) ++ x0a ::
     (str "Homepage: " ++ PROJECT_HOMEPAGE_URL) ++ x0a ::
     (str "Compiler: " ++ COMPILER ++ str " (C++" ++ CXX_STANDARD ++ str ")") ++ x0a ::
     (str "Build Type: " ++ BUILD_TYPE) ++ [x0a]) by (by rewrite <- !app_assoc).
  repeat (rewrite getlines_line;
    [f_equal|repeat apply no_newline_app; first [done|apply no_newline_lit; by vm_compute]]).
Qed.
End Build.
End AppInfo.

Module ServiceManager.

(** Phase 1 of the source: log, and report success. *)
Definition start_authenticator (session_id client_ip : cstring) : bool := true.
Definition stop_authenticator (session_id : cstring) : bool := true.

End ServiceManager.
