(* ===== verification/Network.v ===== *)
(** * Network: the server and all its handler processes as one system

    The server process ([ServerService]) and the handler processes ([SessionSystem]), one
    per accepted connection, composed over the bus: the acceptor registers a connection and
    launches its handler; the handler claims its socket and starts its session; the calls
    that a session makes travel to the server, whose [RouteMessage] in turn calls
    [DeliverSm] of a handler.  The server has two threads: the accept loop, whose
    [register_session] goes through two mutexes one after the other, and the event loop of
    its D-Bus connection, which runs one method at a time; a method that calls handlers
    decides under the mutex whom to call, and makes its calls one by one after that.  The
    theorems hold in every interleaving of the processes and of these threads. *)

From S2P Require Import Prelude StdString Bus Pdu Throttle Session SessionSystem SessionTrace.
From S2P Require Import StdMap Registry ServerService.
#[local] Open Scope Z_scope.

(** ** Configurations *)

(** A call on its way to the server. *)
Inductive srv_msg :=
| MUpdate (uuid system_id state : cstring)
| MRoute (src dst msg mid : cstring).

(** A call of the server to the handler of a uuid. *)
Inductive handler_call :=
| CDeliver (uuid : cstring) (m : cstring * cstring * cstring)
| CDisconnect (uuid reason : cstring).

Record net := {
  n_srv : SmppServerService;
  n_registering : option (cstring * cstring);  (* in the registry, not yet in the table *)
  n_todo : list handler_call;          (* what the method that is running has yet to call *)
  n_launched : gmap cstring cstring;   (* handlers launched, not yet started: uuid, address *)
  n_procs : gmap cstring config;       (* handlers with a session, by uuid *)
  n_exited : gset cstring;             (* of these, those whose process has ended *)
  n_calls : list srv_msg               (* calls to the server, in flight *)
}.

Definition with_srv srv n := {| n_srv := srv; n_registering := n_registering n;
  n_todo := n_todo n; n_launched := n_launched n; n_procs := n_procs n; n_exited := n_exited n;
  n_calls := n_calls n |}.
Definition with_registering r n := {| n_srv := n_srv n; n_registering := r;
  n_todo := n_todo n; n_launched := n_launched n; n_procs := n_procs n; n_exited := n_exited n;
  n_calls := n_calls n |}.
Definition with_todo todo n := {| n_srv := n_srv n; n_registering := n_registering n;
  n_todo := todo; n_launched := n_launched n; n_procs := n_procs n; n_exited := n_exited n;
  n_calls := n_calls n |}.
Definition with_launched launched n := {| n_srv := n_srv n; n_registering := n_registering n;
  n_todo := n_todo n; n_launched := launched; n_procs := n_procs n; n_exited := n_exited n;
  n_calls := n_calls n |}.
Definition with_procs procs n := {| n_srv := n_srv n; n_registering := n_registering n;
  n_todo := n_todo n; n_launched := n_launched n; n_procs := procs; n_exited := n_exited n;
  n_calls := n_calls n |}.
Definition with_exited exited n := {| n_srv := n_srv n; n_registering := n_registering n;
  n_todo := n_todo n; n_launched := n_launched n; n_procs := n_procs n; n_exited := exited;
  n_calls := n_calls n |}.
Definition with_calls calls n := {| n_srv := n_srv n; n_registering := n_registering n;
  n_todo := n_todo n; n_launched := n_launched n; n_procs := n_procs n; n_exited := n_exited n;
  n_calls := calls |}.

Definition net_init (max_per_ip : Z) : net :=
  {| n_srv := service_init max_per_ip; n_registering := None; n_todo := []; n_launched := ∅;
     n_procs := ∅; n_exited := ∅; n_calls := [] |}.

Definition no_clients : clients :=
  {| cl_DeliverSm := fun _ _ _ _ => None; cl_Disconnect := fun _ _ => false |}.

Section Network.
Context {B : Bus}.

(** The call that an effect of a session puts on the bus. *)
Definition bus_call (e : effect) : option srv_msg :=
  match e with
  | CallUpdateSessionDetails _ uuid sid st =>
      match bus_args [uuid; sid; st] with
      | Some [uuid; sid; st] => Some (MUpdate uuid sid st)
      | _ => None
      end
  | CallRouteMessage _ src dst msg mid =>
      match bus_args [src; dst; msg; mid] with
      | Some [src; dst; msg; mid] => Some (MRoute src dst msg mid)
      | _ => None
      end
  | _ => None
  end.

(** The calls among the effects of a server method, by the uuid of the handler that owns
    the service name. *)
Definition handler_calls (es : list srv_effect) : list handler_call :=
  omap (fun e => match e with
                 | CallDeliverSm svc src dst msg _ =>
                     uuid ← strip_prefix (client_service []) svc; Some (CDeliver uuid (src, dst, msg))
                 | CallDisconnect svc reason _ =>
                     uuid ← strip_prefix (client_service []) svc; Some (CDisconnect uuid reason)
                 | EmitSessionStarted _ _ => None
                 end) es.

Definition target (call : handler_call) : cstring :=
  match call with CDeliver uuid _ | CDisconnect uuid _ => uuid end.

(** The method that a call runs in the handler, with the arguments as the bus hands them
    over; [DeliverSm] up to its check. *)
Definition call_event (call : handler_call) : option event :=
  match call with
  | CDeliver _ (src, dst, msg) =>
      match bus_args [src; dst; msg] with
      | Some [src; dst; msg] => Some (EvDeliverCheck src dst msg)
      | _ => None
      end
  | CDisconnect _ reason => EvDisconnect <$> bus_string reason
  end.

(** Nobody owns the name of a handler that is not there or has exited. *)
Definition make_call (e : env) (call : handler_call) (n : net) : gmap cstring config :=
  if decide (target call ∈ n_exited n) then n_procs n else
  default (n_procs n)
    (ev ← call_event call; c ← n_procs n !! target call; c' ← activate e ev c;
     Some (<[target call := c']> (n_procs n))).

(** ** Events *)

Inductive net_event :=
| NConnect (uuid : cstring) (f : Z) (ip : cstring)   (* a connection enters the registry *)
| NEnter                                             (* ... and the table *)
| NHandler (uuid : cstring) (now : Z)                (* its handler process starts *)
| NSession (uuid : cstring) (e : env) (ev : event)   (* an event of its session *)
| NServe (i : nat) (cl : clients)                    (* the server takes a call *)
| NAdmin (op : srv_op)                               (* ... of the administrator *)
| NDisconnectAll (cl : clients) (ip reason : cstring)  (* ... DisconnectAll *)
| NCall (e : env)                                    (* the method calls the next handler *)
| NExit (uuid : cstring).                            (* a handler process ends or is killed *)

(** [DeliverSm] is called by the server. *)
Definition is_internal (ev : event) : bool :=
  match ev with EvDeliverCheck _ _ _ => true | _ => false end.

Definition is_admin (op : srv_op) : bool :=
  match op with OpGetCount _ | OpGetAll | OpSetMaxPerIp _ _ => true | _ => false end.

(** The session of a handler, with the arguments of its [main]. *)
Definition handler_session (uuid ip : cstring) (now : Z) : config :=
  started (session_init uuid ip (str "com.telecom.smpp.Server") (str "com.telecom.smpp.Auth")
             60 10 0 now).

(** A new connection gets an id of its own, without a zero octet.  The accept loop takes
    the next connection when it is done with the last. *)
Definition fresh_uuid (uuid : cstring) (n : net) : bool :=
  bool_decide ((x00 ∉ uuid) /\ n_registering n = None /\ n_launched n !! uuid = None /\
               n_procs n !! uuid = None /\ contents (svc_sessions_ (n_srv n)) !! uuid = None).

(** What the session with [c] has put on the bus when it became [c']. *)
Definition new_calls (c c' : config) : list srv_msg :=
  omap bus_call (drop (length (trace c)) (trace c')).

(** The D-Bus thread of the server is in a method. *)
Definition busy (n : net) : bool := match n_todo n with [] => false | _ => true end.

(** A method that calls handlers: what it has to do when it has released the mutex. *)
Definition begin_calls {A} (r : outcome srv_exn A * SmppServerService * list srv_effect) (n : net) : net :=
  with_srv (run_state r) (with_todo (handler_calls (run_effects r)) n).

Definition serve (cl : clients) (m : srv_msg) (n : net) : net :=
  match m with
  | MUpdate uuid sid st => with_srv (run_state (UpdateSessionDetails uuid sid st (n_srv n))) n
  | MRoute src dst msg mid => begin_calls (RouteMessage cl src dst msg mid (n_srv n)) n
  end.

Definition net_activate (ev : net_event) (n : net) : option net :=
  match ev with
  | NConnect uuid f ip =>
      if fresh_uuid uuid n then
        let '(added, srv, _) := register_add uuid f ip (n_srv n) in
        Some (with_srv srv
               match added with
               | Ret true => with_registering (Some (uuid, ip)) n
               | _ => with_launched (<[uuid := ip]> (n_launched n)) n
               end)
      else None
  | NEnter =>
      '(uuid, ip) ← n_registering n;
      Some (with_registering None (with_launched (<[uuid := ip]> (n_launched n))
             (with_srv (run_state (register_enter uuid ip (n_srv n))) n)))
  | NHandler uuid now =>
      if busy n then None else
      ip ← n_launched n !! uuid;
      let '(r, srv, _) := GetSocket uuid (n_srv n) in
      Some (with_srv srv (with_launched (delete uuid (n_launched n))
             match r with
             | Ret _ => with_procs (<[uuid := handler_session uuid ip now]> (n_procs n)) n
             | _ => n
             end))
  | NSession uuid e ev =>
      if is_internal ev || bool_decide (uuid ∈ n_exited n) then None else
      c ← n_procs n !! uuid;
      c' ← activate e ev c;
      Some (with_procs (<[uuid := c']> (n_procs n)) (with_calls (n_calls n ++ new_calls c c') n))
  | NServe i cl =>
      if busy n then None else
      m ← n_calls n !! i;
      Some (serve cl m (with_calls (delete i (n_calls n)) n))
  | NAdmin op =>
      if busy n || negb (is_admin op) then None else
      Some (with_srv (srv_call no_clients op (n_srv n)) n)
  | NDisconnectAll cl ip reason =>
      if busy n then None else
      Some (begin_calls (DisconnectAll cl ip reason (n_srv n)) n)
  | NCall e =>
      match n_todo n with
      | call :: todo => Some (with_todo todo (with_procs (make_call e call n) n))
      | [] => None
      end
  | NExit uuid =>
      _ ← n_procs n !! uuid;
      Some (with_exited ({[uuid]} ∪ n_exited n) n)
  end.

Definition net_step (n : net) (ev : net_event) (n' : net) : Prop := net_activate ev n = Some n'.
Definition net_start (n : net) : Prop := exists max, n = net_init max.

(** ** Projections to the components *)

(** A process of the network is a session of its own, under its uuid. *)
Definition proc_ok (uuid : cstring) (c : config) : Prop :=
  reachable init step c /\ uuid_ (params_ (c_sess c)) = uuid.

Lemma handler_session_ok uuid ip now : proc_ok uuid (handler_session uuid ip now).
Proof.
  split; [|done]. apply reachable_init. repeat eexists; try done; lia.
Qed.

(** ** Sums over the processes *)

Section Total.
Context {A : Type} (f : config -> list A).

Definition total (procs : gmap cstring config) : list A := map_to_list procs ≫= (fun p => f p.2).

Lemma total_fresh procs k c : procs !! k = None -> total (<[k := c]> procs) ≡ₚ f c ++ total procs.
Proof. intros Hk. unfold total. by rewrite map_to_list_insert. Qed.

(** Replacing one process. *)
Lemma total_update procs k c :
  procs !! k = Some c ->
  exists rest, total procs ≡ₚ f c ++ rest /\ forall c', total (<[k := c']> procs) ≡ₚ f c' ++ rest.
Proof.
  intros Hk. exists (total (delete k procs)). split.
  - rewrite <- (insert_id procs k c Hk) at 1. rewrite <- insert_delete_eq.
    apply total_fresh, lookup_delete_eq.
  - intros c'. rewrite <- insert_delete_eq. apply total_fresh, lookup_delete_eq.
Qed.

Lemma elem_of_total procs x : x ∈ total procs <-> exists k c, procs !! k = Some c /\ x ∈ f c.
Proof.
  unfold total. rewrite list_elem_of_bind. split.
  - intros ([k c] & Hx & Hin%elem_of_map_to_list). eauto.
  - intros (k & c & Hk & Hx). exists (k, c). by rewrite elem_of_map_to_list.
Qed.
End Total.

(** ** The invariant *)

(** The messages that a session has handed to the router. *)
Definition routed (c : config) : list (cstring * cstring * cstring) :=
  (fun '(src, dst, msg, _) => (src, dst, msg)) <$> routes (trace c).

(** Addresses and text as they arrive at the other end of the bus. *)
Definition bus3 (m : cstring * cstring * cstring) : option (cstring * cstring * cstring) :=
  let '(src, dst, msg) := m in
  match bus_args [src; dst; msg] with
  | Some [src; dst; msg] => Some (src, dst, msg)
  | _ => None
  end.

Definition route_msg (m : srv_msg) : option (cstring * cstring * cstring) :=
  match m with MRoute src dst msg _ => Some (src, dst, msg) | MUpdate _ _ _ => None end.

(** The session of the uuid has reported these details. *)
Definition recorded (procs : gmap cstring config) (uuid sid st : cstring) : Prop :=
  exists c sid0, procs !! uuid = Some c /\ bus_string sid0 = Some sid /\
    (uuid, sid0, st) ∈ updates (trace c).

Definition call_ok (procs : gmap cstring config) (m : srv_msg) : Prop :=
  match m with
  | MUpdate uuid sid st => recorded procs uuid sid st
  | MRoute src dst msg _ => bus3 (src, dst, msg) = Some (src, dst, msg)
  end.

(** The messages on their way to the server, or from it to a handler. *)
Definition call_msg (call : handler_call) : option (cstring * cstring * cstring) :=
  match call with CDeliver _ m => Some m | CDisconnect _ _ => None end.

Definition in_flight (calls : list srv_msg) (todo : list handler_call)
    : list (cstring * cstring * cstring) := omap route_msg calls ++ omap call_msg todo.

(** A message is sent on as it came over the bus, to a session that is recorded as a
    receiver. *)
Definition receives (st : cstring) : Prop := st = str "BOUND_RX" \/ st = str "BOUND_TRX".

Definition todo_ok (procs : gmap cstring config) (call : handler_call) : Prop :=
  match call with
  | CDeliver uuid m => bus3 m = Some m /\ exists sid st, receives st /\ recorded procs uuid sid st
  | CDisconnect _ _ => True
  end.

(** The messages of the network: accepted or delivered, and on their way. *)
Definition msgs_ok (procs : gmap cstring config) (ms : list (cstring * cstring * cstring)) : Prop :=
  total taken procs ++ (deliver_body <$> ms) ⊆+ deliver_body <$> omap bus3 (total routed procs).

(** The entries of the table are those of new connections, or reported. *)
Definition table_ok (srv : SmppServerService) (procs : gmap cstring config) : Prop :=
  forall uuid info, contents (svc_sessions_ srv) !! uuid = Some info ->
    (info_state info = str "OPEN" /\ info_system_id info = []) \/
    recorded procs uuid (info_system_id info) (info_state info).

Record net_inv (n : net) : Prop := {
  ni_sorted : sorted (svc_sessions_ (n_srv n));
  ni_procs : forall uuid c, n_procs n !! uuid = Some c -> proc_ok uuid c;
  ni_registering : forall uuid ip, n_registering n = Some (uuid, ip) ->
    (x00 ∉ uuid) /\ n_launched n !! uuid = None /\ n_procs n !! uuid = None;
  ni_launched : forall uuid ip, n_launched n !! uuid = Some ip ->
    (x00 ∉ uuid) /\ n_procs n !! uuid = None;
  ni_keys : forall uuid c, n_procs n !! uuid = Some c -> x00 ∉ uuid;
  ni_table : table_ok (n_srv n) (n_procs n);
  ni_calls : Forall (call_ok (n_procs n)) (n_calls n);
  ni_todo : Forall (todo_ok (n_procs n)) (n_todo n);
  ni_msgs : msgs_ok (n_procs n) (in_flight (n_calls n) (n_todo n))
}.

(** *** Facts about the bus *)

Lemma bus3_Some src dst msg m :
  bus3 (src, dst, msg) = Some m <->
  exists s d t, m = (s, d, t) /\ bus_string src = Some s /\ bus_string dst = Some d /\
                bus_string msg = Some t.
Proof.
  unfold bus3, bus_args. cbn. destruct (bus_string src), (bus_string dst), (bus_string msg); naive_solver.
Qed.

Lemma bus3_again m m' : bus3 m = Some m' -> bus3 m' = Some m'.
Proof.
  destruct m as [[src dst] msg]. rewrite bus3_Some. intros (s & d & t & -> & Hs & Hd & Ht).
  apply bus3_Some. exists s, d, t. split_and!; [done|..]; by eapply bus_string_again.
Qed.

(** The routed messages among the calls of a trace. *)
Lemma calls_routes es :
  omap route_msg (omap bus_call es)
  ⊆+ omap bus3 ((fun '(src, dst, msg, _) => (src, dst, msg)) <$> routes es).
Proof.
  induction es as [|e es IH]; [done|].
  destruct e; cbn [omap list_omap bus_call routes fmap list_fmap]; try exact IH.
  - by destruct (bus_args _) as [[|? [|? [|? [|]]]]|].
  - unfold bus3 at 1. unfold bus_args. cbn.
    destruct (bus_string src); [|exact IH]. destruct (bus_string dst); [|exact IH].
    destruct (bus_string msg); [|exact IH]. cbn. destruct (bus_string msg_id); cbn.
    + by apply submseteq_skip.
    + by apply submseteq_cons.
Qed.

Lemma call_route_ok (es : list effect) src dst msg mid :
  MRoute src dst msg mid ∈ omap bus_call es -> bus3 (src, dst, msg) = Some (src, dst, msg).
Proof.
  intros (e & _ & He)%list_elem_of_omap. destruct e; cbn [bus_call] in He; try done.
  - by destruct (bus_args _) as [[|? [|? [|? [|]]]]|].
  - unfold bus_args in He. cbn in He.
    destruct (bus_string src0) eqn:E1, (bus_string dst0) eqn:E2, (bus_string msg0) eqn:E3,
      (bus_string msg_id); cbn in He; simplify_eq.
    apply bus3_Some. eexists _, _, _. split_and!; [done|by eapply bus_string_again..].
Qed.

Lemma state_name_no_nul b : x00 ∉ state_name b.
Proof. apply (bool_decide_unpack _). by destruct b; vm_compute. Qed.

(** A report of a session, as it arrives. *)
Lemma call_update_ok uuid0 c uuid sid st :
  proc_ok uuid0 c -> (x00 ∉ uuid0) -> MUpdate uuid sid st ∈ omap bus_call (trace c) ->
  uuid = uuid0 /\ exists sid0, bus_string sid0 = Some sid /\ (uuid0, sid0, st) ∈ updates (trace c).
Proof.
  intros [Hr Hu] Hn (e & He & Hb)%list_elem_of_omap.
  destruct e as [| | | | | |svc u s t|svc src dst msg mid| | | |]; cbn [bus_call] in Hb; try done.
  2: { by destruct (bus_args _) as [[|? [|? [|? [|? [|]]]]]|]. }
  assert (Hin : (u, s, t) ∈ updates (trace c)).
  { apply list_elem_of_omap. by exists (CallUpdateSessionDetails svc u s t). }
  destruct (core_updates _ _ (settled_core _ _ (inv_settled _ (reachable_inv _ Hr))) _ _ _ Hin)
    as (-> & -> & (b & -> & _) & _).
  rewrite Hu in *. unfold bus_args in Hb. cbn in Hb.
  destruct (bus_string uuid0) as [u'|] eqn:E1; [|done].
  destruct (bus_string (system_id_ (c_sess c))) as [s'|] eqn:E2; [|done].
  destruct (bus_string (state_name b)) as [t'|] eqn:E3; [|done]. cbn in Hb. simplify_eq.
  apply bus_string_no_nul in E1 as ->; [|done].
  apply bus_string_no_nul in E3 as ->; [|apply state_name_no_nul]. eauto.
Qed.

(** *** Replacing a process by one with a longer trace *)

Lemma updates_grow es1 es2 x : x ∈ updates es1 -> x ∈ updates (es1 ++ es2).
Proof. unfold updates. rewrite omap_app. set_solver. Qed.

Lemma recorded_mono procs procs' uuid sid st :
  (forall k c, procs !! k = Some c -> exists c' es, procs' !! k = Some c' /\ trace c' = trace c ++ es) ->
  recorded procs uuid sid st -> recorded procs' uuid sid st.
Proof.
  intros Hm (c & sid0 & Hc & Hb & Hu). destruct (Hm _ _ Hc) as (c' & es & Hc' & Ht).
  exists c', sid0. rewrite Ht. split_and!; [done..|]. by apply updates_grow.
Qed.

Definition grown (procs procs' : gmap cstring config) : Prop :=
  forall k c, procs !! k = Some c -> exists c' es, procs' !! k = Some c' /\ trace c' = trace c ++ es.

Lemma grown_refl procs : grown procs procs.
Proof. intros k c Hk. exists c, []. by rewrite app_nil_r. Qed.

Lemma grown_insert procs k c c' es :
  procs !! k = Some c -> trace c' = trace c ++ es -> grown procs (<[k := c']> procs).
Proof.
  intros Hk Ht j d Hj. destruct (decide (k = j)) as [->|Hkj].
  - rewrite Hk in Hj. injection Hj as <-. exists c', es. by rewrite lookup_insert_eq.
  - exists d, []. by rewrite lookup_insert_ne, app_nil_r.
Qed.

Lemma grown_fresh procs k c : procs !! k = None -> grown procs (<[k := c]> procs).
Proof.
  intros Hk j d Hj. exists d, []. rewrite app_nil_r, lookup_insert_ne by congruence. done.
Qed.

Lemma calls_grown procs procs' ms :
  grown procs procs' -> Forall (call_ok procs) ms -> Forall (call_ok procs') ms.
Proof.
  intros Hg Hf. eapply Forall_impl; [exact Hf|]. intros [uuid sid st|src dst msg mid]; [|done].
  by apply recorded_mono.
Qed.

Lemma table_grown srv procs procs' : grown procs procs' -> table_ok srv procs -> table_ok srv procs'.
Proof. intros Hg Ht uuid info Hi. destruct (Ht _ _ Hi); [by left|right; by eapply recorded_mono]. Qed.

Lemma todo_grown procs procs' todo :
  grown procs procs' -> Forall (todo_ok procs) todo -> Forall (todo_ok procs') todo.
Proof.
  intros Hg Hf. eapply Forall_impl; [exact Hf|]. intros [uuid m|uuid reason]; [|done].
  intros (Hm & sid & st & Hst & Hr). split; [done|]. exists sid, st. split; [done|]. by eapply recorded_mono.
Qed.

(** A recorded receiver has reported itself. *)
Lemma receiver_recorded srv procs uuid :
  table_ok srv procs -> receiver srv uuid -> exists sid st, receives st /\ recorded procs uuid sid st.
Proof.
  intros Ht (info & Hi & Hst). exists (info_system_id info), (info_state info). split; [exact Hst|].
  destruct (Ht _ _ Hi) as [[Ho _]|Hr]; [|done]. rewrite Ho in Hst. by destruct Hst.
Qed.

(** Only registrations and reports touch the table. *)
Lemma table_ok_call cl op srv procs :
  sorted (svc_sessions_ srv) -> table_ok srv procs ->
  match op with OpUpdate uuid sid st => recorded procs uuid sid st | _ => True end ->
  table_ok (srv_call cl op srv) procs.
Proof.
  intros Hs Ht Hop uuid info Hi.
  destruct (srv_call_table cl op srv Hs) as [_ He]. rewrite He in Hi. clear He.
  destruct op as [u f ip|u|u|u sid st|ip| |ip max|ip reason|src dst msg mid]; cbn [table_effect] in Hi;
    try by apply Ht.
  - destruct (fst _); [|by apply Ht]. apply lookup_insert_Some in Hi as [[<- <-]|[_ Hi]]; [by left|].
    by apply Ht.
  - apply lookup_delete_Some in Hi as [_ Hi]. by apply Ht.
  - destruct (decide (u = uuid)) as [->|Hne].
    + rewrite lookup_alter_eq in Hi. apply fmap_Some in Hi as (i & _ & ->). by right.
    + rewrite lookup_alter_ne in Hi by done. by apply Ht.
Qed.

(** *** The messages *)

Lemma routed_grows c c' es :
  trace c' = trace c ++ es ->
  routed c' = routed c ++ ((fun '(src, dst, msg, _) => (src, dst, msg)) <$> routes es).
Proof. intros Ht. unfold routed. rewrite Ht. unfold routes. by rewrite omap_app, fmap_app. Qed.

Lemma msgs_sub procs ms ms' : ms' ⊆+ ms -> msgs_ok procs ms -> msgs_ok procs ms'.
Proof. unfold msgs_ok. intros Hs Hm. etrans; [|exact Hm]. by apply submseteq_skips_l, fmap_submseteq. Qed.

#[local] Instance msgs_proper procs : Proper ((≡ₚ) ==> iff) (msgs_ok procs).
Proof. intros ms ms' Hp. split; apply msgs_sub; by rewrite Hp. Qed.

Lemma msgs_session procs ms uuid c c' es :
  procs !! uuid = Some c -> taken c' ≡ₚ taken c -> trace c' = trace c ++ es ->
  msgs_ok procs ms -> msgs_ok (<[uuid := c']> procs) (ms ++ omap route_msg (omap bus_call es)).
Proof.
  unfold msgs_ok. intros Hk Ht Htr Hm.
  destruct (total_update taken procs uuid c Hk) as (r1 & H1 & H1').
  destruct (total_update routed procs uuid c Hk) as (r2 & H2 & H2').
  rewrite H1', H2', Ht, (routed_grows c c' es Htr). rewrite H1, H2 in Hm.
  rewrite fmap_app, (app_assoc _ (deliver_body <$> _)), <- (app_assoc (routed c)).
  rewrite (Permutation_app_comm (_ <$> routes es)), app_assoc, !omap_app, !fmap_app.
  rewrite !omap_app, !fmap_app in Hm. apply submseteq_app; [done|].
  by apply fmap_submseteq, calls_routes.
Qed.

Lemma msgs_fresh procs ms uuid c :
  procs !! uuid = None -> taken c = [] -> routed c = [] ->
  msgs_ok procs ms -> msgs_ok (<[uuid := c]> procs) ms.
Proof. unfold msgs_ok. intros Hk Ht Hr Hm. by rewrite !total_fresh, Ht, Hr by done. Qed.

(** A message is handed to a receiver, or not. *)
Lemma msgs_deliver procs ms uuid c c' m :
  procs !! uuid = Some c -> taken c' ⊆+ taken c ++ [deliver_body m] -> trace c' = trace c ->
  msgs_ok procs (m :: ms) -> msgs_ok (<[uuid := c']> procs) ms.
Proof.
  unfold msgs_ok. intros Hk Ht Htr Hm.
  destruct (total_update taken procs uuid c Hk) as (r1 & H1 & H1').
  destruct (total_update routed procs uuid c Hk) as (r2 & H2 & H2').
  rewrite H1', H2', (routed_grows c c' []) by (by rewrite app_nil_r). rewrite app_nil_r, <- H2.
  rewrite fmap_cons, H1 in Hm. etrans; [|exact Hm].
  rewrite <- !app_assoc. etrans; [apply submseteq_skips_r; exact Ht|].
  rewrite <- app_assoc. apply submseteq_skips_l. cbn [app].
  by rewrite Permutation_middle.
Qed.

Lemma in_flight_app calls calls' todo :
  in_flight (calls ++ calls') todo ≡ₚ in_flight calls todo ++ omap route_msg calls'.
Proof. unfold in_flight. rewrite omap_app, <- !app_assoc. by rewrite (Permutation_app_comm (omap route_msg calls')). Qed.

(** [RouteMessage] calls at most one handler, with the message it was given. *)
Lemma route_calls cl src dst msg mid srv :
  sorted (svc_sessions_ srv) ->
  handler_calls (run_effects (RouteMessage cl src dst msg mid srv)) = [] \/
  exists uuid, least_receiver srv uuid /\
    handler_calls (run_effects (RouteMessage cl src dst msg mid srv)) = [CDeliver uuid (src, dst, msg)].
Proof.
  intros Hs. unfold RouteMessage, ebind, eget. case_decide as Hd; [by left|]. right.
  destruct (map_first can_receive _) as [u|] eqn:Hu; [|done]. cbn [default from_option id] in *. exists u.
  apply (map_first_receiver _ _ Hs) in Hu. split; [done|].
  destruct (cl_DeliverSm _ _ _ _ _); cbn -[strip_prefix str];
    change (client_service u) with (client_service [] ++ u); by rewrite strip_prefix_app.
Qed.

Lemma disconnect_calls cl reason targets :
  handler_calls ((fun uuid => CallDisconnect (client_service uuid) reason
                    (cl_Disconnect cl (client_service uuid) reason)) <$> targets)
  = (fun uuid => CDisconnect uuid reason) <$> targets.
Proof.
  induction targets as [|uuid targets IH]; [done|]. unfold handler_calls in *.
  cbn [fmap list_fmap omap list_omap]. change (client_service uuid) with (client_service [] ++ uuid).
  rewrite strip_prefix_app. cbn [mbind option_bind]. by f_equal.
Qed.

Lemma DisconnectAll_state cl ip reason s : run_state (DisconnectAll cl ip reason s) = s.
Proof. unfold DisconnectAll, ebind, eget. by rewrite disconnect_targets_run. Qed.

Lemma DisconnectAll_run cl ip reason s :
  exists targets, DisconnectAll cl ip reason s
    = (Ret (), s, (fun uuid => CallDisconnect (client_service uuid) reason
                     (cl_Disconnect cl (client_service uuid) reason)) <$> targets).
Proof. eexists. unfold DisconnectAll, ebind, eget. by rewrite disconnect_targets_run. Qed.

Lemma deliver_check_run e src dst msg c c' :
  inv c -> activate e (EvDeliverCheck src dst msg) c = Some c' ->
  taken c' ⊆+ taken c ++ [deliver_body (src, dst, msg)] /\ trace c' = trace c.
Proof.
  intros Hi Ha. split.
  - rewrite (activate_taken _ _ _ _ Hi Ha). apply submseteq_skips_l. unfold accepted.
    destruct (can_deliver _); [done|apply submseteq_nil_l].
  - cbn [activate] in Ha. case_bool_decide; [|done].
    unfold deliver_check, ebind, eget in Ha. by destruct (can_deliver _); injection Ha as <-.
Qed.

(** A call reaches its handler or changes nothing. *)
Lemma make_call_cases e call n :
  make_call e call n = n_procs n \/
  exists ev c c', call_event call = Some ev /\ n_procs n !! target call = Some c /\
    (target call ∉ n_exited n) /\ activate e ev c = Some c' /\
    make_call e call n = <[target call := c']> (n_procs n).
Proof.
  unfold make_call. case_decide; [by left|]. destruct (call_event call) as [ev|]; [|by left].
  cbn [mbind option_bind]. destruct (n_procs n !! target call) as [c|]; [|by left].
  cbn [mbind option_bind]. destruct (activate e ev c) as [c'|] eqn:Ha; [|by left].
  right. by exists ev, c, c'.
Qed.

(** *** The steps *)

Lemma register_add_run uuid f ip s :
  register_add uuid f ip s
  = (Ret (add uuid f ip (registry_ s)).1, set_registry (add uuid f ip (registry_ s)).2 s, []).
Proof. unfold register_add, ebind, eget. by destruct (add _ _ _ _). Qed.

(** The steps by what has happened. *)
Inductive net_case (n : net) : net_event -> net -> Prop :=
| case_added uuid f ip r :
    fresh_uuid uuid n = true -> add uuid f ip (registry_ (n_srv n)) = (true, r) ->
    net_case n (NConnect uuid f ip)
      (with_srv (set_registry r (n_srv n)) (with_registering (Some (uuid, ip)) n))
| case_refused uuid f ip r :
    fresh_uuid uuid n = true -> add uuid f ip (registry_ (n_srv n)) = (false, r) ->
    net_case n (NConnect uuid f ip)
      (with_srv (set_registry r (n_srv n)) (with_launched (<[uuid := ip]> (n_launched n)) n))
| case_entered uuid ip :
    n_registering n = Some (uuid, ip) ->
    net_case n NEnter
      (with_registering None (with_launched (<[uuid := ip]> (n_launched n))
        (with_srv (run_state (register_enter uuid ip (n_srv n))) n)))
| case_claimed uuid now ip fd srv es :
    n_launched n !! uuid = Some ip -> GetSocket uuid (n_srv n) = (Ret fd, srv, es) ->
    net_case n (NHandler uuid now)
      (with_srv srv (with_launched (delete uuid (n_launched n))
        (with_procs (<[uuid := handler_session uuid ip now]> (n_procs n)) n)))
| case_not_claimed uuid now ip r srv es :
    n_launched n !! uuid = Some ip -> GetSocket uuid (n_srv n) = (r, srv, es) ->
    (forall fd, r <> Ret fd) ->
    net_case n (NHandler uuid now) (with_srv srv (with_launched (delete uuid (n_launched n)) n))
| case_session uuid e ev c c' es :
    is_internal ev = false -> uuid ∉ n_exited n -> n_procs n !! uuid = Some c ->
    activate e ev c = Some c' -> trace c' = trace c ++ es ->
    net_case n (NSession uuid e ev)
      (with_procs (<[uuid := c']> (n_procs n)) (with_calls (n_calls n ++ omap bus_call es) n))
| case_updated i cl uuid sid st :
    n_calls n !! i = Some (MUpdate uuid sid st) -> busy n = false ->
    net_case n (NServe i cl)
      (with_srv (run_state (UpdateSessionDetails uuid sid st (n_srv n)))
        (with_calls (delete i (n_calls n)) n))
| case_routed i cl src dst msg mid :
    n_calls n !! i = Some (MRoute src dst msg mid) -> busy n = false ->
    net_case n (NServe i cl)
      (with_todo (handler_calls (run_effects (RouteMessage cl src dst msg mid (n_srv n))))
        (with_calls (delete i (n_calls n)) n))
| case_admin op :
    is_admin op = true -> busy n = false ->
    net_case n (NAdmin op) (with_srv (srv_call no_clients op (n_srv n)) n)
| case_disconnect_all cl ip reason :
    busy n = false ->
    net_case n (NDisconnectAll cl ip reason)
      (with_todo (handler_calls (run_effects (DisconnectAll cl ip reason (n_srv n)))) n)
| case_called e call todo ev c c' :
    n_todo n = call :: todo -> call_event call = Some ev -> n_procs n !! target call = Some c ->
    target call ∉ n_exited n -> activate e ev c = Some c' ->
    net_case n (NCall e) (with_todo todo (with_procs (<[target call := c']> (n_procs n)) n))
| case_call_failed e call todo :
    n_todo n = call :: todo -> make_call e call n = n_procs n ->
    net_case n (NCall e) (with_todo todo n)
| case_exited uuid c :
    n_procs n !! uuid = Some c ->
    net_case n (NExit uuid) (with_exited ({[uuid]} ∪ n_exited n) n).

Lemma net_step_case n ev n' : net_step n ev n' -> net_case n ev n'.
Proof.
  intros Hst. unfold net_step in Hst.
  destruct ev as [u f ip| |u now|u e ev|i cl|op|cl ip reason|e|u]; cbn [net_activate] in Hst.
  - destruct (fresh_uuid u n) eqn:Hf; [|done]. rewrite register_add_run in Hst.
    destruct (add _ _ _ _) as [[] r] eqn:Ha; injection Hst as <-; by econstructor.
  - destruct (n_registering n) as [[u ip]|] eqn:Hr; [|done]. cbn [mbind option_bind] in Hst.
    injection Hst as <-. by constructor.
  - destruct (busy n); [done|]. destruct (n_launched n !! u) as [ip|] eqn:Hl; [|done].
    cbn [mbind option_bind] in Hst. destruct (GetSocket u (n_srv n)) as [[r srv] es] eqn:Hg.
    destruct r as [fd| |]; injection Hst as <-; by econstructor.
  - destruct (is_internal ev) eqn:Hi; [done|]. cbn [orb] in Hst. case_bool_decide as Hx; [done|].
    destruct (n_procs n !! u) as [c|] eqn:Hu; [|done]. cbn [mbind option_bind] in Hst.
    destruct (activate e ev c) as [c'|] eqn:Ha; [|done]. injection Hst as <-.
    destruct (activate_grows _ _ _ _ Ha) as (es & Htr & _).
    unfold new_calls. rewrite Htr, drop_app_length. by econstructor.
  - destruct (busy n) eqn:Hb; [done|]. destruct (n_calls n !! i) as [m|] eqn:Hi; [|done].
    cbn [mbind option_bind] in Hst. injection Hst as <-. destruct m as [u sid st|src dst msg mid]; cbn [serve]; [by apply (case_updated n i cl)|].
    unfold begin_calls. rewrite RouteMessage_state. by eapply (case_routed n i cl).
  - destruct (busy n) eqn:Hb; [done|]. destruct (is_admin op) eqn:Ha; [|done]. injection Hst as <-. by constructor.
  - destruct (busy n) eqn:Hb; [done|]. injection Hst as <-. unfold begin_calls. 
    rewrite DisconnectAll_state. by apply (case_disconnect_all n).
  - destruct (n_todo n) as [|call todo] eqn:Ht; [done|]. injection Hst as <-.
    destruct (make_call_cases e call n) as [Hm|(ev & c & c' & Hev & Hc & Hx & Ha & ->)];
      [rewrite Hm; by apply (case_call_failed n e call)|by econstructor].
  - destruct (n_procs n !! u) as [c|] eqn:Hc; [|done]. cbn [mbind option_bind] in Hst.
    injection Hst as <-. by econstructor.
Qed.

(** One process moves on. *)
Lemma inv_proc n uuid c e ev c' es todo :
  net_inv n -> n_procs n !! uuid = Some c -> activate e ev c = Some c' -> trace c' = trace c ++ es ->
  Forall (todo_ok (n_procs n)) todo ->
  msgs_ok (<[uuid := c']> (n_procs n)) (in_flight (n_calls n ++ omap bus_call es) todo) ->
  net_inv (with_todo todo (with_procs (<[uuid := c']> (n_procs n))
             (with_calls (n_calls n ++ omap bus_call es) n))).
Proof.
  intros [Hs Hprocs Hg Hl Hk Ht Hc Htd Hm] Hu Ha Htr Htodo Hmsgs.
  destruct (Hprocs _ _ Hu) as [Hr Hid].
  assert (Hok : proc_ok uuid c').
  { split; [by apply (reachable_step _ _ c (e, ev))|].
    by rewrite (activate_params _ _ _ _ (reachable_inv _ Hr) Ha). }
  assert (Hgr : grown (n_procs n) (<[uuid := c']> (n_procs n))) by by eapply grown_insert.
  constructor; cbn; try done.
  - intros k d [[<- <-]|[_ Hd]]%lookup_insert_Some; [done|by apply Hprocs].
  - intros k ip Hip. destruct (Hg _ _ Hip) as (? & ? & ?). split_and!; [done..|].
    rewrite lookup_insert_ne by congruence. done.
  - intros k ip Hip. destruct (Hl _ _ Hip) as [? Hn']. split; [done|].
    rewrite lookup_insert_ne by congruence. done.
  - intros k d [[<- <-]|[_ Hd]]%lookup_insert_Some; by eapply Hk.
  - by eapply table_grown.
  - apply Forall_app. split; [by eapply calls_grown|]. apply Forall_forall.
    intros [u sid st|src dst msg mid] Hin; [|by eapply call_route_ok].
    destruct (call_update_ok uuid c' u sid st Hok (Hk _ _ Hu)) as (-> & sid0 & Hb & Hup).
    { rewrite Htr, omap_app. set_solver. }
    exists c', sid0. by rewrite lookup_insert_eq.
  - by eapply todo_grown.
Qed.

Lemma inv_session n uuid e ev c c' es :
  net_inv n -> is_internal ev = false -> n_procs n !! uuid = Some c -> activate e ev c = Some c' ->
  trace c' = trace c ++ es ->
  net_inv (with_procs (<[uuid := c']> (n_procs n)) (with_calls (n_calls n ++ omap bus_call es) n)).
Proof.
  intros Hn Hint Hu Ha Htr.
  apply (inv_proc n uuid c e ev c' es (n_todo n)); try done; [by apply (ni_todo _ Hn)|].
  rewrite in_flight_app. eapply msgs_session; [done| |done|by apply (ni_msgs _ Hn)].
  rewrite (activate_taken _ _ _ _ (reachable_inv _ (proj1 (ni_procs _ Hn _ _ Hu))) Ha).
  destruct ev; try done; cbn; by rewrite app_nil_r.
Qed.

(** The call has been made, or could not be. *)
Lemma todo_tail call todo n :
  net_inv n -> n_todo n = call :: todo -> net_inv (with_todo todo n).
Proof.
  intros [Hs Hprocs Hg Hl Hk Ht Hc Htd Hm] Hn. rewrite Hn in *. constructor; try done.
  - by inversion Htd.
  - eapply msgs_sub; [|exact Hm]. apply submseteq_skips_l. cbn.
    destruct (call_msg call); [by apply submseteq_cons|done].
Qed.

Lemma inv_call n e call todo ev c c' :
  net_inv n -> n_todo n = call :: todo -> call_event call = Some ev ->
  n_procs n !! target call = Some c -> activate e ev c = Some c' ->
  net_inv (with_todo todo (with_procs (<[target call := c']> (n_procs n)) n)).
Proof.
  intros Hn Htd Hev Hc Ha. pose proof (todo_tail _ _ _ Hn Htd) as Htail.
  pose proof (reachable_inv _ (proj1 (ni_procs _ Hn _ _ Hc))) as Hinv.
  assert (Hes : exists es, trace c' = trace c ++ es /\ omap bus_call es = [] /\
    match call_msg call with
    | Some m => taken c' ⊆+ taken c ++ [deliver_body m] /\ es = []
    | None => taken c' ≡ₚ taken c
    end).
  { destruct call as [uuid [[src dst] msg]|uuid reason]; cbn [call_event call_msg] in *.
    - pose proof (ni_todo _ Hn) as Hok. rewrite Htd in Hok. apply Forall_cons in Hok as [Hok _].
      destruct Hok as [Hok _]. unfold bus3 in Hok. destruct (bus_args [src; dst; msg]) as [[|s [|d [|t [|]]]]|]; try done.
      injection Hok as -> -> ->. injection Hev as <-.
      destruct (deliver_check_run _ _ _ _ _ _ Hinv Ha) as [Htk Htr]. exists []. by rewrite app_nil_r.
    - destruct (bus_string reason) as [r|]; [|done]. injection Hev as <-.
      pose proof (activate_taken _ _ _ _ Hinv Ha) as Htk. cbn in Htk. rewrite app_nil_r in Htk.
      cbn [activate] in Ha. injection Ha as <-. eexists. split; [apply exec_trace|]. by split. }
  destruct Hes as (es & Htr & Hb & Hmsg).
  pose proof (inv_proc _ _ _ _ _ _ _ todo Hn Hc Ha Htr (ni_todo _ Htail)) as H.
  rewrite Hb, app_nil_r in H. apply H. pose proof (ni_msgs _ Hn) as Hm. rewrite Htd in Hm.
  destruct (call_msg call) as [m|] eqn:Hcm.
  - destruct Hmsg as [Htk ->]. rewrite app_nil_r in Htr. eapply msgs_deliver; [done|done|done|].
    eapply msgs_sub; [|exact Hm]. unfold in_flight. cbn [omap list_omap]. rewrite Hcm.
    by rewrite Permutation_middle.
  - assert (Hm' : msgs_ok (n_procs n) (in_flight (n_calls n) todo)) by apply (ni_msgs _ Htail).
    pose proof (msgs_session _ _ _ _ _ _ Hc Hmsg Htr Hm') as H'. by rewrite Hb, app_nil_r in H'.
Qed.

(** Only the server moves. *)
Lemma inv_srv n srv :
  net_inv n -> sorted (svc_sessions_ srv) -> table_ok srv (n_procs n) -> net_inv (with_srv srv n).
Proof. by intros []. Qed.

Lemma inv_srv_call n cl op :
  net_inv n -> match op with OpUpdate uuid sid st => recorded (n_procs n) uuid sid st | _ => True end ->
  net_inv (with_srv (srv_call cl op (n_srv n)) n).
Proof.
  intros Hn Hop. apply inv_srv; [done|apply srv_call_table, (ni_sorted _ Hn)|].
  apply table_ok_call; [apply (ni_sorted _ Hn)|apply (ni_table _ Hn)|done].
Qed.

Lemma inv_claimed n uuid now ip srv (claimed : bool) :
  net_inv n -> n_launched n !! uuid = Some ip -> srv = run_state (GetSocket uuid (n_srv n)) ->
  net_inv (with_srv srv (with_launched (delete uuid (n_launched n))
    (if claimed then with_procs (<[uuid := handler_session uuid ip now]> (n_procs n)) n else n))).
Proof.
  intros Hn Hip ->. pose proof (inv_srv_call n no_clients (OpGetSocket uuid) Hn I) as Hsrv.
  destruct Hsrv as [Hs Hprocs Hg Hl Hk Ht Hc Htd Hm]. cbn [srv_call with_srv] in *. cbn in Hl, Hprocs, Hg, Hk, Hm, Hc, Htd.
  destruct (Hl _ _ Hip) as [Hnul Hnone].
  assert (Hl' : forall k ip', delete uuid (n_launched n) !! k = Some ip' ->
    k <> uuid /\ (x00 ∉ k) /\ n_procs n !! k = None).
  { intros k ip' [Hne Hk']%lookup_delete_Some. split; [done|]. by eapply Hl. }
  destruct claimed; [|constructor; cbn; try done;
    [intros k ip' Hk'; destruct (Hg _ _ Hk') as (? & ? & ?); rewrite lookup_delete_ne by congruence; done
    |intros k ip' Hk'; by apply Hl' in Hk' as [_ ?]]].
  pose proof (grown_fresh _ _ (handler_session uuid ip now) Hnone) as Hgr.
  constructor; cbn; try done.
  - intros k d [[<- <-]|[_ Hd]]%lookup_insert_Some; [apply handler_session_ok|by apply Hprocs].
  - intros k ip' Hk'. destruct (Hg _ _ Hk') as (? & ? & ?). rewrite lookup_insert_ne by congruence.
    split_and!; [done| |done]. by rewrite lookup_delete_ne by congruence.
  - intros k ip' Hk'. apply Hl' in Hk' as (Hne & ? & ?). split; [done|]. by rewrite lookup_insert_ne.
  - intros k d [[<- <-]|[_ Hd]]%lookup_insert_Some; [done|by eapply Hk].
  - by eapply table_grown.
  - by eapply calls_grown.
  - by eapply todo_grown.
  - by apply msgs_fresh.
Qed.

Lemma inv_serve n i cl m :
  net_inv n -> n_calls n !! i = Some m -> busy n = false ->
  net_inv (serve cl m (with_calls (delete i (n_calls n)) n)).
Proof.
  intros Hn Hi Hb.
  pose proof (Forall_lookup_1 _ _ _ _ (ni_calls _ Hn) Hi) as Hcall.
  pose proof (Forall_delete _ _ i (ni_calls _ Hn)) as Hc'.
  pose proof (delete_Permutation _ _ _ Hi) as Hperm. set (rest := delete i (n_calls n)) in *.
  assert (Hm' : msgs_ok (n_procs n) (omap route_msg [m] ++ omap route_msg rest)).
  { eapply msgs_sub; [|apply (ni_msgs _ Hn)]. unfold in_flight. rewrite Hperm.
    rewrite <- omap_app. by apply submseteq_inserts_r. }
  assert (Hrest : net_inv (with_calls rest n)).
  { destruct Hn. constructor; try done. unfold busy in Hb. cbn. destruct (n_todo n); [|done].
    unfold in_flight. rewrite app_nil_r. eapply msgs_sub; [|exact Hm']. by apply submseteq_inserts_l. }
  destruct m as [uuid sid st|src dst msg mid]; cbn [serve].
  - by apply (inv_srv_call _ no_clients (OpUpdate uuid sid st)).
  - unfold begin_calls. rewrite RouteMessage_state. apply inv_srv; [|apply Hrest..].
    destruct (route_calls cl src dst msg mid (n_srv n) (ni_sorted _ Hn)) as [Hr|(uuid & [Hl _] & Hr)]; cbn [n_srv with_calls];
      rewrite Hr; destruct Hrest; constructor; cbn; try done.
    + unfold in_flight. rewrite app_nil_r. eapply msgs_sub; [|exact Hm']. by apply submseteq_inserts_l.
    + constructor; [|done]. split; [done|]. by apply (receiver_recorded (n_srv n)).
    + unfold in_flight. cbn. by rewrite Permutation_app_comm.
Qed.

Lemma fresh_uuid_spec uuid n :
  fresh_uuid uuid n = true ->
  (x00 ∉ uuid) /\ n_registering n = None /\ n_launched n !! uuid = None /\
  n_procs n !! uuid = None /\ contents (svc_sessions_ (n_srv n)) !! uuid = None.
Proof. apply bool_decide_eq_true. Qed.

Lemma inv_added n uuid ip r (added : bool) :
  net_inv n -> fresh_uuid uuid n = true ->
  net_inv (with_srv (set_registry r (n_srv n))
    (if added then with_registering (Some (uuid, ip)) n
     else with_launched (<[uuid := ip]> (n_launched n)) n)).
Proof.
  intros [Hs Hprocs Hg Hla Hk Ht Hc Htd Hm] (Hnul & Hreg & Hl & Hp & _)%fresh_uuid_spec.
  destruct added; constructor; cbn; try done.
  - by intros k ip' [= <- <-].
  - by rewrite Hreg.
  - intros k ip' [[<- <-]|[_ Hk']]%lookup_insert_Some; [done|by eapply Hla].
Qed.

Lemma inv_entered n uuid ip :
  net_inv n -> n_registering n = Some (uuid, ip) ->
  net_inv (with_registering None (with_launched (<[uuid := ip]> (n_launched n))
             (with_srv (run_state (register_enter uuid ip (n_srv n))) n))).
Proof.
  intros Hn Hr. destruct (ni_registering _ Hn _ _ Hr) as (Hnul & _ & Hp).
  destruct Hn as [Hs Hprocs Hg Hla Hk Ht Hc Htd Hm]. constructor; cbn; try done.
  - auto with stdmap.
  - intros k ip' [[<- <-]|[_ Hk']]%lookup_insert_Some; [done|by eapply Hla].
  - intros k info. cbn. rewrite contents_set. intros [[<- <-]|[_ Hi]]%lookup_insert_Some; [by left|by apply Ht].
Qed.

Lemma inv_disconnect_all n cl ip reason :
  net_inv n -> busy n = false ->
  net_inv (with_todo (handler_calls (run_effects (DisconnectAll cl ip reason (n_srv n)))) n).
Proof.
  intros Hn Hb. destruct (DisconnectAll_run cl ip reason (n_srv n)) as [targets ->].
  unfold run_effects. cbn [snd]. rewrite disconnect_calls.
  unfold busy in Hb. destruct Hn as [Hs Hprocs Hg Hla Hk Ht Hc Htd Hm]. destruct (n_todo n); [|done].
  constructor; cbn; try done.
  - by apply Forall_fmap, Forall_true.
  - unfold in_flight in *. rewrite app_nil_r in Hm. cbn.
    replace (omap call_msg _) with (@nil (cstring * cstring * cstring)); [by rewrite app_nil_r|].
    by induction targets.
Qed.

Lemma net_inv_step n ev n' : net_inv n -> net_step n ev n' -> net_inv n'.
Proof.
  intros Hn [uuid f ip r Hf _|uuid f ip r Hf _|uuid ip Hr|uuid now ip fd srv es Hl Hg
    |uuid now ip r srv es Hl Hg _|uuid e ev0 c c' es Hi _ Hc Ha Htr|i cl uuid sid st Hi Hb
    |i cl src dst msg mid Hi Hb|op Ha Hb|cl ip reason Hb|e call todo ev0 c c' Ht Hev Hc _ Ha
    |e call todo Ht _|uuid c Hc]%net_step_case.
  - by apply (inv_added n uuid ip r true).
  - by apply (inv_added n uuid ip r false).
  - by apply inv_entered.
  - apply (inv_claimed n uuid now ip srv true); [done..|]. by rewrite Hg.
  - apply (inv_claimed n uuid now ip srv false); [done..|]. by rewrite Hg.
  - by eapply inv_session.
  - by apply (inv_serve n i cl (MUpdate uuid sid st)).
  - pose proof (inv_serve n i cl _ Hn Hi Hb) as H. cbn [serve] in H. unfold begin_calls in H.
    by rewrite RouteMessage_state in H.
  - apply inv_srv_call; [done|]. by destruct op.
  - by apply inv_disconnect_all.
  - by eapply inv_call.
  - by eapply todo_tail.
  - by destruct Hn.
Qed.

Lemma net_inv_reachable n : reachable net_start net_step n -> net_inv n.
Proof.
  apply invariant_rule; [|by eauto using net_inv_step]. intros ? [max ->]. constructor; cbn; try done; by constructor.
Qed.

(** *** What a step does to one process *)

(** A process stays as it was, or takes a step of its own. *)
Lemma proc_moves n ev n' uuid c :
  net_inv n -> net_step n ev n' -> n_procs n !! uuid = Some c ->
  exists c', n_procs n' !! uuid = Some c' /\ (c' = c \/ exists e ev', activate e ev' c = Some c').
Proof.
  intros Hn Hst Hc.
  assert (Hone : forall k d d' e ev', n_procs n !! k = Some d -> activate e ev' d = Some d' ->
    exists c', <[k := d']> (n_procs n) !! uuid = Some c' /\ (c' = c \/ exists e ev', activate e ev' c = Some c')).
  { intros k d d' e ev' Hk Ha. destruct (decide (k = uuid)) as [->|Hne].
    - exists d'. rewrite lookup_insert_eq. split; [done|]. right. exists e, ev'. congruence.
    - exists c. rewrite lookup_insert_ne by done. auto. }
  destruct (net_step_case _ _ _ Hst) as [| | |uuid' now ip fd srv es Hl _| |uuid' e ev c0 c' es _ _ Hc0 Ha _
    | | | | |e call todo ev c0 c' _ _ Hc0 _ Ha| |]; cbn; eauto.
  exists c. destruct (ni_launched _ Hn _ _ Hl) as [_ Hp]. rewrite lookup_insert_ne by congruence. auto.
Qed.

Lemma exited_grows n ev n' : net_step n ev n' -> n_exited n ⊆ n_exited n'.
Proof. intros []%net_step_case; cbn; set_solver. Qed.

(** Executions from a given network. *)
Lemma net_inv_from n n' : net_inv n -> reachable (eq n) net_step n' -> net_inv n'.
Proof. intros Hn. apply invariant_rule; [by intros ? <-|by eauto using net_inv_step]. Qed.

(** A handler whose session is over, or whose process has ended. *)
Definition gone (n : net) (uuid : cstring) : Prop :=
  uuid ∈ n_exited n \/
  exists c, n_procs n !! uuid = Some c /\ state_ (c_sess c) = UNBOUND.

Lemma gone_stays n ev n' uuid : net_inv n -> net_step n ev n' -> gone n uuid -> gone n' uuid.
Proof.
  intros Hn Hst [Hx|(c & Hc & Hu)]; [left; by apply (exited_grows _ _ _ Hst)|].
  destruct (proc_moves _ _ _ _ _ Hn Hst Hc) as (c' & Hc' & [->|(e & ev' & Ha)]);
    [right; by exists c|]. right. exists c'. split; [done|]. eapply unbound_stays; [|exact Ha|done].
  apply reachable_inv, (ni_procs _ Hn _ _ Hc).
Qed.

(** ** What holds in every reachable network *)

(** The [deliver_sm] bodies that a session has written. *)
Definition delivered (c : config) : list (list byte) := deliver_bodies (trace c).

Lemma delivered_taken procs : total delivered procs ⊆+ total taken procs.
Proof.
  unfold total. induction (map_to_list procs) as [|[k c] l IH]; [done|]. cbn.
  apply submseteq_app; [|exact IH]. unfold taken, delivered. by apply submseteq_inserts_r.
Qed.

Lemma bus3_c_str src dst msg m :
  bus3 (src, dst, msg) = Some m -> m = (c_str src, c_str dst, c_str msg).
Proof.
  rewrite bus3_Some. intros (s & d & t & -> & Hs & Hd & Ht).
  by rewrite (bus_string_c_str _ _ Hs), (bus_string_c_str _ _ Hd), (bus_string_c_str _ _ Ht).
Qed.

(** C2: No message is forged or duplicated: in every reachable network, the [deliver_sm]
    PDUs that all handlers have written are, counted with multiplicity, among the messages
    that all sessions have handed to the router, as the bus carries them; in particular the
    body of each is made of the addresses and the text of one submitted message, each cut
    at its first zero octet. *)
Theorem no_forged_delivery n :
  reachable net_start net_step n ->
  total delivered (n_procs n) ⊆+ deliver_body <$> omap bus3 (total routed (n_procs n)) /\
  forall uuid c body, n_procs n !! uuid = Some c -> body ∈ delivered c ->
    exists uuid' c' src dst msg, n_procs n !! uuid' = Some c' /\ (src, dst, msg) ∈ routed c' /\
      body = deliver_body (c_str src, c_str dst, c_str msg).
Proof.
  intros Hn%net_inv_reachable. pose proof (ni_msgs _ Hn) as Hm.
  assert (Hsub : total delivered (n_procs n) ⊆+ deliver_body <$> omap bus3 (total routed (n_procs n))).
  { etrans; [apply delivered_taken|]. etrans; [|exact Hm]. by apply submseteq_inserts_r. }
  split; [done|]. intros uuid c body Hu Hb.
  assert (Hin : body ∈ total delivered (n_procs n)) by (apply elem_of_total; eauto).
  apply (elem_of_submseteq _ _ _ Hin) in Hsub. apply list_elem_of_fmap in Hsub as (m & -> & Hm').
  apply list_elem_of_omap in Hm' as ([[src dst] msg] & Hr & Hbus).
  apply elem_of_total in Hr as (uuid' & c' & Hu' & Hr). rewrite (bus3_c_str _ _ _ _ Hbus).
  eauto 10.
Qed.

(** C6: The server's table agrees with the handlers: every entry is that of a connection
    that has not reported yet, or of a session that was authenticated under the recorded
    system id and was bound in the recorded way, and is still bound so or is over. *)
Theorem table_agrees n uuid info :
  reachable net_start net_step n -> contents (svc_sessions_ (n_srv n)) !! uuid = Some info ->
  (info_state info = str "OPEN" /\ info_system_id info = []) \/
  exists c b, n_procs n !! uuid = Some c /\ info_state info = state_name b /\ is_bound b /\
    (state_ (c_sess c) = b \/ state_ (c_sess c) = UNBOUND) /\
    bus_string (system_id_ (c_sess c)) = Some (info_system_id info) /\
    exists svc pass code,
      CallAuthenticate svc uuid (system_id_ (c_sess c)) pass (client_ip_ (params_ (c_sess c)))
        (Some (true, code)) ∈ trace c.
Proof.
  intros Hn%net_inv_reachable Hi. destruct (ni_table _ Hn _ _ Hi) as [?|Hrec]; [by left|right].
  destruct Hrec as (c & sid0 & Hc & Hb & Hup). destruct (ni_procs _ Hn _ _ Hc) as [Hr Hid].
  destruct (core_updates _ _ (settled_core _ _ (inv_settled _ (reachable_inv _ Hr))) _ _ _ Hup)
    as (_ & -> & (b & Hst & Hbd & Hs) & Ha).
  rewrite Hid in Ha. eauto 10.
Qed.

End Network.

(** ** An example *)

Fixpoint net_run `{B : Bus} (evs : list net_event) (n : net) : option net :=
  match evs with
  | [] => Some n
  | ev :: evs => n' ← net_activate ev n; net_run evs n'
  end.

Lemma net_run_reachable `{B : Bus} {init : net -> Prop} evs n n' :
  reachable init net_step n -> net_run evs n = Some n' -> reachable init net_step n'.
Proof.
  revert n. induction evs as [|ev evs IH]; intros n Hn Hr; [by injection Hr as <-|].
  cbn [net_run] in Hr. destruct (net_activate ev n) as [n1|] eqn:Ha; [|done].
  apply (IH n1); [|done]. by eapply reachable_step.
Qed.

Definition on_session (uuid : cstring) (evs : list (env * event)) : list net_event :=
  (fun '(e, ev) => NSession uuid e ev) <$> evs.

(** The network after a run. *)
Definition after (evs : list net_event) (n : net) : net := default n (net_run (B := ascii_bus) evs n).

Definition runs (evs : list net_event) (n : net) : bool :=
  match net_run (B := ascii_bus) evs n with Some _ => true | None => false end.

Lemma after_run evs n :
  runs evs n = true ->
  net_run (B := ascii_bus) evs n = Some (after evs n).
Proof. unfold runs, after. by destruct (net_run evs n). Qed.

Lemma after_reachable {init : net -> Prop} evs n :
  reachable init (net_step (B := ascii_bus)) n ->
  runs evs n = true ->
  reachable init (net_step (B := ascii_bus)) (after evs n).
Proof. intros Hn Hr. eapply net_run_reachable; [exact Hn|]. by apply after_run. Qed.

(** Two clients connect and bind; the second submits a message, which the server routes
    to the first. *)
Definition example_bound_net : net :=
  after ([NConnect (str "a1") 7 (str "10.0.0.1"); NEnter;
          NConnect (str "b2") 8 (str "10.0.0.2"); NEnter;
          NHandler (str "a1") 0; NHandler (str "b2") 0]
         ++ on_session (str "a1") (example_pdu BIND_RECEIVER 1 example_bind_body)
         ++ on_session (str "b2") (example_pdu BIND_TRANSMITTER 1 example_bind_body)
         ++ [NServe 0 no_clients; NServe 0 no_clients]) (net_init 5).

Definition example_submitted : net :=
  after (on_session (str "b2") (example_pdu SUBMIT_SM 2 example_submit)) example_bound_net.

Definition example_routed : net := after [NServe 0 no_clients] example_submitted.

Definition example_net : net :=
  after [NCall example_env; NSession (str "a1") example_env (EvDeliverSend 0)] example_routed.

(** The receiver leaves, and a second message is submitted. *)
Definition example_gone : net :=
  after (on_session (str "a1") (example_pdu UNBIND 2 [])
         ++ on_session (str "b2") (example_pdu SUBMIT_SM 3 example_submit)) example_net.

Lemma example_bound_net_reachable : reachable net_start (net_step (B := ascii_bus)) example_bound_net.
Proof. apply after_reachable; [|by vm_compute]. apply reachable_init. by exists 5. Qed.

Lemma example_submitted_reachable : reachable net_start (net_step (B := ascii_bus)) example_submitted.
Proof. apply after_reachable; [apply example_bound_net_reachable|by vm_compute]. Qed.

Lemma example_net_reachable : reachable net_start (net_step (B := ascii_bus)) example_net.
Proof.
  apply after_reachable; [|by vm_compute]. apply after_reachable; [|by vm_compute].
  apply example_submitted_reachable.
Qed.

Lemma example_gone_reachable : reachable net_start (net_step (B := ascii_bus)) example_gone.
Proof. apply after_reachable; [apply example_net_reachable|by vm_compute]. Qed.

Lemma no_forged_delivery_witness :
  total delivered (n_procs example_net)
    ⊆+ deliver_body <$> omap (bus3 (B := ascii_bus)) (total routed (n_procs example_net)) /\
  total delivered (n_procs example_net) = [deliver_body (str "441234", str "esme2", str "Hello")].
Proof.
  split; [|by vm_compute].
  exact (proj1 (no_forged_delivery (B := ascii_bus) example_net example_net_reachable)).
Defined.

Definition example_info : SessionInfo :=
  {| info_client_ip := str "10.0.0.1"; info_system_id := str "esme1"; info_state := str "BOUND_RX" |}.

Lemma table_agrees_witness :
  (info_state example_info = str "OPEN" /\ info_system_id example_info = []) \/
  exists c b, n_procs example_gone !! str "a1" = Some c /\ info_state example_info = state_name b /\
    is_bound b /\ (state_ (c_sess c) = b \/ state_ (c_sess c) = UNBOUND) /\
    bus_string (Bus := ascii_bus) (system_id_ (c_sess c)) = Some (str "esme1") /\
    exists svc pass code,
      CallAuthenticate svc (str "a1") (system_id_ (c_sess c)) pass (client_ip_ (params_ (c_sess c)))
        (Some (true, code)) ∈ trace c.
Proof.
  apply (table_agrees (B := ascii_bus) example_gone (str "a1") example_info);
    [apply example_gone_reachable|by vm_compute].
Defined.

