(* ===== verification/NetworkRouting.v ===== *)
(** * NetworkRouting: what becomes of a message that the server routes

    [Network] shows that nothing is delivered that was not submitted.  Here is the other
    direction: from the moment at which the server takes a [RouteMessage] call, in every
    interleaving, the message is on its way to the least receiver, or with it, unless that
    receiver goes; and when it has gone, its entry in the table blocks routing. *)

From S2P Require Import Prelude StdString Bus Pdu Throttle Session SessionSystem SessionTrace.
From S2P Require Import StdMap Registry ServerService Network.
#[local] Open Scope Z_scope.

Section Routing.
Context {B : Bus}.

(** ** The call that [RouteMessage] makes *)

Lemma route_target cl src dst msg mid srv uuid :
  sorted (svc_sessions_ srv) -> uuid <> [] -> least_receiver srv uuid ->
  handler_calls (run_effects (RouteMessage cl src dst msg mid srv)) = [CDeliver uuid (src, dst, msg)].
Proof.
  intros Hs Hne Hl. rewrite (RouteMessage_found cl src dst msg mid _ uuid Hs Hne Hl).
  unfold run_effects. cbn [snd handler_calls omap list_omap].
  change (client_service uuid) with (client_service [] ++ uuid). by rewrite strip_prefix_app.
Qed.

(** The server takes the call of a message. *)
Lemma serve_route n i cl src dst msg mid uuid :
  net_inv n -> busy n = false -> uuid <> [] -> least_receiver (n_srv n) uuid ->
  n_calls n !! i = Some (MRoute src dst msg mid) ->
  net_activate (NServe i cl) n
  = Some (with_todo [CDeliver uuid (src, dst, msg)] (with_calls (delete i (n_calls n)) n)).
Proof.
  intros Hn Hb Hne Hl Hi. cbn [net_activate]. rewrite Hb, Hi. cbn [mbind option_bind serve].
  unfold begin_calls. rewrite RouteMessage_state.
  by rewrite (route_target _ _ _ _ _ _ uuid (ni_sorted _ Hn) Hne Hl).
Qed.

(** ** A receiver that has gone *)

(** A message for it goes nowhere. *)
Lemma deliver_gone e n uuid m : gone n uuid -> make_call e (CDeliver uuid m) n = n_procs n.
Proof.
  intros Hg. unfold make_call. cbn [target]. case_decide as Hx; [done|].
  destruct Hg as [?|(c & Hc & Hu)]; [done|].
  destruct m as [[src dst] msg]. cbn [call_event].
  destruct (bus_args _) as [[|s [|d [|t [|]]]]|]; try done. cbn [mbind option_bind]. rewrite Hc.
  cbn [mbind option_bind activate]. destruct (bool_decide _); [|done].
  unfold deliver_check, ebind, eget. rewrite Hu. cbn. by apply insert_id.
Qed.

(** No step of the network takes an entry out of the table. *)
Lemma table_persists n ev n' uuid :
  net_inv n -> net_step n ev n' -> is_Some (contents (svc_sessions_ (n_srv n)) !! uuid) ->
  is_Some (contents (svc_sessions_ (n_srv n')) !! uuid).
Proof.
  intros Hn Hst Hs.
  assert (Hcall : forall cl op, match op with OpUnregister _ => False | _ => True end ->
    is_Some (contents (svc_sessions_ (srv_call cl op (n_srv n))) !! uuid)).
  { intros cl op Hop. destruct (srv_call_table cl op _ (ni_sorted _ Hn)) as [_ ->].
    destruct op as [u f ip|u|u|u sid st|ip| |ip max|ip reason|src dst msg mid]; try done; cbn.
    - destruct (fst _); [|done]. rewrite lookup_insert. case_decide; [by eexists|done].
    - rewrite lookup_alter. case_decide; [subst; by apply fmap_is_Some|done]. }
  destruct (net_step_case _ _ _ Hst) as [| |u ip _|u now ip fd srv es _ Hg|u now ip r srv es _ Hg _|
    |i cl u sid st _ _| |op Ha _| | | |]; cbn; try done.
  - rewrite contents_set, lookup_insert. case_decide; [by eexists|done].
  - specialize (Hcall no_clients (OpGetSocket u) I). cbn [srv_call] in Hcall. by rewrite Hg in Hcall.
  - specialize (Hcall no_clients (OpGetSocket u) I). cbn [srv_call] in Hcall. by rewrite Hg in Hcall.
  - by apply (Hcall no_clients (OpUpdate u sid st)).
  - apply Hcall. by destruct op.
Qed.

(** C36: A receiver that has gone blocks routing: while it is the least receiver recorded,
    every message that the server routes is sent to it alone, whatever other receivers there
    are, and is dropped: in every execution from there, whenever the call is made, it changes
    nothing; the receiver stays gone, and its entry in the table.  Gone is a handler whose
    session is over or whose process has ended. *)
Theorem gone_receiver_blocks n uuid i cl src dst msg mid :
  reachable net_start net_step n -> busy n = false -> uuid <> [] -> least_receiver (n_srv n) uuid ->
  gone n uuid -> n_calls n !! i = Some (MRoute src dst msg mid) ->
  exists n1, net_step n (NServe i cl) n1 /\
    n1 = with_todo [CDeliver uuid (src, dst, msg)] (with_calls (delete i (n_calls n)) n) /\
    forall n2 e, reachable (eq n1) net_step n2 ->
      (n_todo n2 = [CDeliver uuid (src, dst, msg)] ->
       net_activate (NCall e) n2 = Some (with_todo [] n2)) /\
      gone n2 uuid /\ is_Some (contents (svc_sessions_ (n_srv n2)) !! uuid).
Proof.
  intros Hn%net_inv_reachable Hb Hne Hl Hg Hi.
  pose proof (serve_route n i cl _ _ _ _ uuid Hn Hb Hne Hl Hi) as Hst.
  eexists. split; [exact Hst|]. split; [done|]. intros n2 e Hr.
  pose proof (net_inv_step _ _ _ Hn Hst) as Hn1.
  assert (Hg2 : net_inv n2 /\ gone n2 uuid /\ is_Some (contents (svc_sessions_ (n_srv n2)) !! uuid)).
  { revert Hr. apply (invariant_rule _ _ (fun n2 => net_inv n2 /\ gone n2 uuid /\
      is_Some (contents (svc_sessions_ (n_srv n2)) !! uuid))).
    - intros ? <-. destruct Hl as [(info & Hinfo & _) _]. split_and!; [done|done|by exists info].
    - intros a ev b _ (Ha & Hga & Hta) Hab.
      split_and!; [by eapply net_inv_step|by eapply gone_stays|by eapply table_persists]. }
  destruct Hg2 as (_ & Hg2 & Ht2). split; [|done]. intros Htd. cbn [net_activate]. rewrite Htd.
  by rewrite deliver_gone.
Qed.

(** ** A receiver that is there *)

(** The session of a pending delivery is bound to receive, or has gone. *)
Lemma pending_receiver n uuid m todo :
  net_inv n -> n_todo n = CDeliver uuid m :: todo -> ~ gone n uuid ->
  exists c, n_procs n !! uuid = Some c /\ (uuid ∉ n_exited n) /\ can_deliver (state_ (c_sess c)) = true.
Proof.
  intros Hn Htd Hg. pose proof (ni_todo _ Hn) as Hok. rewrite Htd in Hok.
  apply Forall_cons in Hok as [(_ & sid & st & Hst & c & sid0 & Hc & _ & Hup) _].
  exists c. split; [done|]. split; [intros Hx; apply Hg; by left|].
  destruct (core_updates _ _ (settled_core _ _ (inv_settled _ (reachable_inv _
    (proj1 (ni_procs _ Hn _ _ Hc))))) _ _ _ Hup) as (_ & _ & (b & -> & _ & [Hs|Hs]) & _).
  - rewrite Hs. by destruct b; destruct Hst.
  - exfalso. apply Hg. right. by exists c.
Qed.

Definition fits (m : cstring * cstring * cstring) : Prop :=
  let '(src, dst, msg) := m in Z.of_nat (length src + length dst + length msg) < dbus_max.

(** It takes the message on. *)
Lemma deliver_there e n uuid m todo :
  net_inv n -> n_todo n = CDeliver uuid m :: todo -> ~ gone n uuid -> fits m ->
  exists c c', n_procs n !! uuid = Some c /\
    make_call e (CDeliver uuid m) n = <[uuid := c']> (n_procs n) /\
    taken c' ≡ₚ deliver_body m :: taken c.
Proof.
  intros Hn Htd Hg Hf. destruct (pending_receiver _ _ _ _ Hn Htd Hg) as (c & Hc & Hx & Hd).
  pose proof (reachable_inv _ (proj1 (ni_procs _ Hn _ _ Hc))) as Hi.
  pose proof (ni_todo _ Hn) as Hok. rewrite Htd in Hok. apply Forall_cons in Hok as [[Hok _] _].
  destruct m as [[src dst] msg]. unfold bus3 in Hok. unfold fits in Hf.
  assert (Ha : exists c', activate e (EvDeliverCheck src dst msg) c = Some c').
  { cbn [activate]. rewrite bool_decide_eq_true_2 by done. destruct (deliver_check _) as [[[] ?] ?]; eauto. }
  destruct Ha as [c' Ha]. exists c, c'. split; [done|]. split.
  - unfold make_call. cbn [target call_event]. rewrite decide_False by done.
    destruct (bus_args [src; dst; msg]) as [[|s [|d [|t [|]]]]|]; try done. injection Hok as -> -> ->.
    cbn [mbind option_bind]. rewrite Hc. cbn [mbind option_bind]. by rewrite Ha.
  - rewrite (activate_taken _ _ _ _ Hi Ha). cbn [accepted]. rewrite Hd. cbn [fmap list_fmap].
    by rewrite <- Permutation_cons_append.
Qed.

(** What a session has taken on stays with it. *)
Lemma taken_stays n ev n' uuid c :
  net_inv n -> net_step n ev n' -> n_procs n !! uuid = Some c ->
  exists c', n_procs n' !! uuid = Some c' /\ taken c ⊆+ taken c'.
Proof.
  intros Hn Hst Hc. destruct (proc_moves _ _ _ _ _ Hn Hst Hc) as (c' & Hc' & Hm). exists c'. split; [done|].
  destruct Hm as [->|(e & ev' & Ha)]; [done|].
  rewrite (activate_taken _ _ _ _ (reachable_inv _ (proj1 (ni_procs _ Hn _ _ Hc))) Ha).
  by apply submseteq_inserts_r.
Qed.

(** The calls of a method are made one by one, and no other method begins before. *)
Lemma pending_step n ev n' call todo :
  n_todo n = call :: todo -> net_step n ev n' ->
  n_todo n' = call :: todo \/ exists e, n' = with_todo todo (with_procs (make_call e call n) n).
Proof.
  intros Htd Hst.
  assert (Hb : busy n <> false) by (unfold busy; by rewrite Htd).
  destruct (net_step_case _ _ _ Hst); cbn; auto; try done; right;
    unfold net_step in Hst; cbn [net_activate] in Hst; rewrite Htd in Hst;
    eexists; symmetry; by apply (inj Some).
Qed.

(** Where a message for the handler of [uuid] can be: the handler has gone; the call is to be
    made; the session has taken it on, beside what it had before. *)
Definition fate (uuid : cstring) (m : cstring * cstring * cstring) (before : list (list byte)) (n : net)
    : Prop :=
  gone n uuid \/
  exists c, n_procs n !! uuid = Some c /\
    (n_todo n = [CDeliver uuid m] /\ before ⊆+ taken c \/ deliver_body m :: before ⊆+ taken c).

Lemma fate_step uuid m before n ev n' :
  fits m -> net_inv n -> fate uuid m before n -> net_step n ev n' -> fate uuid m before n'.
Proof.
  intros Hf Hn [Hg|(c & Hc & H)] Hst; [left; by eapply gone_stays|].
  destruct (taken_stays _ _ _ _ _ Hn Hst Hc) as (c' & Hc' & Htk).
  destruct H as [[Htd Hb]|H].
  2: { right. exists c'. split; [done|]. right. by etrans. }
  destruct (decide (uuid ∈ n_exited n)) as [Hx|Hx]; [left; left; by apply (exited_grows _ _ _ Hst)|].
  destruct (decide (state_ (c_sess c) = UNBOUND)) as [Hu|Hu].
  { left. eapply gone_stays; [done..|]. right. by exists c. }
  assert (Hg : ~ gone n uuid) by (intros [?|(? & ? & ?)]; congruence).
  destruct (pending_step _ _ _ _ _ Htd Hst) as [Htd'|(e & ->)]; right.
  - exists c'. split; [done|]. left. split; [done|by etrans].
  - destruct (deliver_there e _ _ _ _ Hn Htd Hg Hf) as (d & d' & Hd & Hm & Hp). rewrite Hc in Hd. injection Hd as <-.
    exists d'. cbn. rewrite Hm, lookup_insert_eq. split; [done|]. right. rewrite Hp. by apply submseteq_skip.
Qed.

(** What is left to do can be done: the call of the server, and the second half of
    [DeliverSm]. *)
Lemma call_enabled n e :
  busy n = true -> exists n', net_step n (NCall e) n' /\ (length (n_todo n') < length (n_todo n))%nat.
Proof.
  unfold busy, net_step. cbn [net_activate]. destruct (n_todo n) as [|call todo]; [done|].
  intros _. eexists. split; [done|]. cbn. lia.
Qed.

Lemma send_enabled n e uuid c k :
  ~ gone n uuid -> n_procs n !! uuid = Some c -> (k < length (c_inflight c))%nat ->
  exists n' c', net_step n (NSession uuid e (EvDeliverSend k)) n' /\ n_procs n' !! uuid = Some c' /\
    (length (c_inflight c') < length (c_inflight c))%nat.
Proof.
  intros Hg Hc Hk. destruct (lookup_lt_is_Some_2 _ _ Hk) as [[[src dst] msg] Hm].
  unfold net_step. cbn [net_activate is_internal orb].
  rewrite bool_decide_eq_false_2 by (intros ?; apply Hg; by left). rewrite Hc. cbn [mbind option_bind activate].
  rewrite Hm. cbn [mbind option_bind]. eexists _, _. split; [done|]. cbn [n_procs with_procs].
  rewrite lookup_insert_eq. split; [done|].
  replace (c_inflight (exec _ _ _ _)) with (delete k (c_inflight c))
    by (unfold exec; by destruct (deliver_send _ _ _ _) as [[? ?] ?]).
  rewrite length_delete by done. lia.
Qed.

(** What is promised of a message for the handler of [uuid], whose session had taken on
    [before]: the call is still to be made or the session has taken the message on, beside
    all of [before]; once the server has made its call and the session is done with its
    deliveries, the [deliver_sm] PDU is written; both have always a step that brings them
    closer to that. *)
Definition assured (uuid : cstring) (m : cstring * cstring * cstring) (before : list (list byte)) (n : net)
    : Prop :=
  exists c, n_procs n !! uuid = Some c /\
    (n_todo n = [CDeliver uuid m] \/ deliver_body m :: before ⊆+ taken c) /\
    (busy n = false -> c_inflight c = [] -> deliver_body m :: before ⊆+ delivered c) /\
    (forall e, busy n = true -> exists n', net_step n (NCall e) n' /\
       (length (n_todo n') < length (n_todo n))%nat) /\
    (forall e k, (k < length (c_inflight c))%nat -> exists n' c',
       net_step n (NSession uuid e (EvDeliverSend k)) n' /\ n_procs n' !! uuid = Some c' /\
       (length (c_inflight c') < length (c_inflight c))%nat).

Lemma fate_assured uuid m before n : fate uuid m before n -> ~ gone n uuid -> assured uuid m before n.
Proof.
  intros [?|(c & Hc & Hw)] Hg; [done|]. exists c. split; [done|]. split; [tauto|].
  split; [|split; [by intros; apply call_enabled|by intros; eapply send_enabled]].
  intros Hb Hfl. destruct Hw as [[Htd _]|Hw]; [unfold busy in Hb; by rewrite Htd in Hb|].
  unfold taken in Hw. by rewrite Hfl, app_nil_r in Hw.
Qed.

(** No message is lost while its receiver is there: from the moment at which the server takes
    a message, in every execution, it is assured to the least receiver, unless that goes. *)
Lemma route_assured n uuid i cl src dst msg mid :
  net_inv n -> busy n = false -> uuid <> [] -> least_receiver (n_srv n) uuid ->
  n_calls n !! i = Some (MRoute src dst msg mid) -> fits (src, dst, msg) ->
  exists c n1, n_procs n !! uuid = Some c /\ net_step n (NServe i cl) n1 /\
  forall n2, reachable (eq n1) net_step n2 -> ~ gone n2 uuid -> assured uuid (src, dst, msg) (taken c) n2.
Proof.
  intros Hn Hb Hne Hl Hi Hf. pose proof (serve_route n i cl _ _ _ _ uuid Hn Hb Hne Hl Hi) as Hst.
  destruct (receiver_recorded _ _ _ (ni_table _ Hn) (proj1 Hl)) as (? & ? & _ & c & ? & Hc & _).
  exists c. eexists. split; [done|]. split; [exact Hst|]. intros n2 Hr. apply fate_assured.
  pose proof (net_inv_step _ _ _ Hn Hst) as Hn1.
  assert (H : net_inv n2 /\ fate uuid (src, dst, msg) (taken c) n2); [|apply H].
  revert Hr. apply (invariant_rule _ _ (fun n2 => net_inv n2 /\ fate _ _ _ n2)).
  - intros ? <-. split; [done|]. right. exists c. split; [done|]. by left.
  - intros n3 ev n4 _ [Hn3 Hf3] H34. split; [by eapply net_inv_step|by eapply fate_step].
Qed.

End Routing.

(** ** Examples *)

(** The state of the session of a handler. *)
Definition handler_state (n : net) (uuid : cstring) : option SessionState :=
  (state_ ∘ c_sess) <$> n_procs n !! uuid.

Lemma handler_state_gone n uuid : handler_state n uuid = Some UNBOUND -> gone n uuid.
Proof.
  unfold handler_state. intros H. right. apply fmap_Some in H as (c & Hc & Hs). by exists c.
Qed.

Lemma handler_state_there n uuid st :
  handler_state n uuid = Some st -> st <> UNBOUND -> (uuid ∉ n_exited n) -> ~ gone n uuid.
Proof.
  unfold handler_state. intros H Hst Hx [?|(c & Hc & Hs)]; [done|]. rewrite Hc in H. cbn in H. congruence.
Qed.

Lemma step_after ev n n' : net_step (B := ascii_bus) n ev n' -> n' = after [ev] n.
Proof. unfold net_step, after. cbn [net_run]. by intros ->. Qed.

Lemma example_least n uuid :
  reachable net_start (net_step (B := ascii_bus)) n ->
  map_first can_receive (svc_sessions_ (n_srv n)) = Some uuid -> least_receiver (n_srv n) uuid.
Proof.
  intros Hr. apply map_first_receiver. exact (ni_sorted _ (net_inv_reachable (B := ascii_bus) _ Hr)).
Qed.

Lemma gone_receiver_blocks_witness :
  gone example_gone (str "a1") /\
  exists n1, net_step (B := ascii_bus) example_gone (NServe 0 no_clients) n1 /\
    net_activate (B := ascii_bus) (NCall example_env) n1 = Some (with_todo [] n1).
Proof.
  assert (Hg : gone example_gone (str "a1")) by (apply handler_state_gone; by vm_compute).
  split; [exact Hg|].
  destruct (gone_receiver_blocks (B := ascii_bus) example_gone (str "a1") 0 no_clients
              (str "441234") (str "esme2") (str "Hello") (str "b200000002")) as (n1 & Hst & -> & Hb);
    [apply example_gone_reachable|by vm_compute|discriminate| |exact Hg|by vm_compute|].
  - apply (example_least example_gone); [apply example_gone_reachable|by vm_compute].
  - eexists. split; [exact Hst|]. apply (Hb _ example_env); [by apply reachable_init|reflexivity].
Defined.
