(* ===== verification/NetworkAdmin.v ===== *)
(** * NetworkAdmin: [DisconnectAll] in the network

    The addresses that the server records are those of the sessions, so that the
    administrator's [DisconnectAll] reaches the sessions of an address and no others. *)

From S2P Require Import Prelude StdString Bus Pdu Throttle Session SessionSystem SessionTrace.
From S2P Require Import StdMap Registry ServerService Network NetworkRouting.
#[local] Open Scope Z_scope.

Section Admin.
Context {B : Bus}.

(** ** Addresses *)

Definition waiting_sockets (n : net) : gmap cstring SessionEntry := sessions_ (registry_ (n_srv n)).

(** The address in the table. *)
Definition table_ip (n : net) (uuid : cstring) : option cstring :=
  info_client_ip <$> contents (svc_sessions_ (n_srv n)) !! uuid.

Definition session_ip (c : config) : cstring := client_ip_ (params_ (c_sess c)).

Record addr_inv (n : net) : Prop := {
  ai_waiting : forall uuid entry, waiting_sockets n !! uuid = Some entry ->
    table_ip n uuid = Some (client_ip entry) \/ n_registering n = Some (uuid, client_ip entry);
  ai_registering : forall uuid ip, n_registering n = Some (uuid, ip) -> table_ip n uuid = None;
  ai_launched : forall uuid ip entry, n_launched n !! uuid = Some ip ->
    waiting_sockets n !! uuid = Some entry -> client_ip entry = ip;
  ai_procs : forall uuid c, n_procs n !! uuid = Some c -> table_ip n uuid = Some (session_ip c)
}.

(** *** What the calls of the server do to the two tables *)

Lemma table_ip_call cl op srv uuid :
  sorted (svc_sessions_ srv) ->
  match op with OpRegister _ _ _ | OpUnregister _ => False | _ => True end ->
  info_client_ip <$> contents (svc_sessions_ (srv_call cl op srv)) !! uuid
  = info_client_ip <$> contents (svc_sessions_ srv) !! uuid.
Proof.
  intros Hs Hop. destruct (srv_call_table cl op srv Hs) as [_ ->].
  destruct op as [u f ip|u|u|u sid st|ip| |ip max|ip reason|src dst msg mid]; try done; cbn.
  rewrite lookup_alter. case_decide; [subst|done]. by destruct (_ !! uuid).
Qed.

Lemma waiting_call cl op srv :
  match op with OpRegister _ _ _ | OpGetSocket _ => False | _ => True end ->
  sessions_ (registry_ (srv_call cl op srv)) = sessions_ (registry_ srv).
Proof.
  intros Hop. destruct op as [u f ip|u|u|u sid st|ip| |ip max|ip reason|src dst msg mid]; try done;
    cbn [srv_call].
  - unfold UpdateSessionDetails, ebind, eget. by destruct (map_find _ _).
  - unfold DisconnectAll, ebind, eget. by rewrite disconnect_targets_run.
  - by rewrite RouteMessage_state.
Qed.

(** *** The steps *)

(** A step that leaves the server's addresses, the launched handlers and the parameters of
    the sessions as they are. *)
Lemma addr_same n n' :
  addr_inv n -> waiting_sockets n' = waiting_sockets n -> (forall uuid, table_ip n' uuid = table_ip n uuid) ->
  n_registering n' = n_registering n -> n_launched n' = n_launched n ->
  (forall uuid c', n_procs n' !! uuid = Some c' ->
     exists c, n_procs n !! uuid = Some c /\ session_ip c' = session_ip c) ->
  addr_inv n'.
Proof.
  intros [Hw Hg Hl Hp] Ew Et Er El Ep. constructor; rewrite ?Ew, ?Er, ?El.
  - intros uuid entry. rewrite Et. apply Hw.
  - intros uuid ip. rewrite Et. apply Hg.
  - apply Hl.
  - intros uuid c' (c & Hc & ->)%Ep. rewrite Et. by apply Hp.
Qed.

Lemma session_ip_activate uuid e ev c c' :
  proc_ok uuid c -> activate e ev c = Some c' -> session_ip c' = session_ip c.
Proof.
  intros [Hr _] Ha. unfold session_ip. by rewrite (activate_params _ _ _ _ (reachable_inv _ Hr) Ha).
Qed.

Lemma addr_proc n n' uuid e ev c c' :
  net_inv n -> addr_inv n -> n_procs n !! uuid = Some c -> activate e ev c = Some c' ->
  n_srv n' = n_srv n -> n_registering n' = n_registering n -> n_launched n' = n_launched n ->
  n_procs n' = <[uuid := c']> (n_procs n) -> addr_inv n'.
Proof.
  intros Hn Ha Hc Hact Es Er El Ep. apply (addr_same n); unfold waiting_sockets, table_ip; rewrite ?Es; try done.
  rewrite Ep. intros k d [[<- <-]|[_ Hd]]%lookup_insert_Some; [|by exists d].
  exists c. split; [done|]. by eapply session_ip_activate, Hact; apply (ni_procs _ Hn).
Qed.

(** What [add] does to the sockets. *)
Lemma add_sockets uuid f ip r added r' :
  add uuid f ip r = (added, r') ->
  sessions_ r' = if added then <[uuid := {| fd := f; client_ip := ip |}]> (sessions_ r) else sessions_ r.
Proof. unfold add. destruct (max_per_ip_ _ <=? _); by intros [= <- <-]. Qed.

Lemma addr_fresh n uuid :
  addr_inv n -> fresh_uuid uuid n = true -> waiting_sockets n !! uuid = None.
Proof.
  intros Ha (_ & Hr & _ & _ & Ht)%fresh_uuid_spec.
  destruct (waiting_sockets n !! uuid) as [entry|] eqn:He; [|done].
  destruct (ai_waiting _ Ha _ _ He) as [Hi|Hi]; [|congruence]. unfold table_ip in Hi. by rewrite Ht in Hi.
Qed.

Lemma addr_added n uuid f ip r :
  addr_inv n -> fresh_uuid uuid n = true -> add uuid f ip (registry_ (n_srv n)) = (true, r) ->
  addr_inv (with_srv (set_registry r (n_srv n)) (with_registering (Some (uuid, ip)) n)).
Proof.
  intros Ha Hf Hadd. pose proof (addr_fresh _ _ Ha Hf) as Hnone.
  apply add_sockets in Hadd. apply fresh_uuid_spec in Hf as (_ & Hr & Hl0 & _ & Ht0).
  destruct Ha as [Hw Hg Hl Hp]. unfold waiting_sockets, table_ip in *.
  constructor; unfold waiting_sockets, table_ip; cbn; [| |rewrite Hadd|done].
  - rewrite Hadd. intros k entry [[<- <-]|[Hne He]]%lookup_insert_Some; [by right|].
    destruct (Hw _ _ He); [by left|congruence].
  - intros k ip' [= <- <-]. by rewrite Ht0.
  - intros k ip' entry Hk. rewrite lookup_insert_ne by congruence. by apply Hl.
Qed.

Lemma addr_refused n uuid f ip r :
  addr_inv n -> fresh_uuid uuid n = true -> add uuid f ip (registry_ (n_srv n)) = (false, r) ->
  addr_inv (with_srv (set_registry r (n_srv n)) (with_launched (<[uuid := ip]> (n_launched n)) n)).
Proof.
  intros Ha Hf Hadd. pose proof (addr_fresh _ _ Ha Hf) as Hnone. apply add_sockets in Hadd.
  destruct Ha as [Hw Hg Hl Hp]. unfold waiting_sockets, table_ip in *.
  constructor; unfold waiting_sockets, table_ip; cbn; rewrite ?Hadd; [done|done| |done].
  intros k ip' entry [[<- <-]|[_ Hk]]%lookup_insert_Some He; [congruence|by eapply Hl].
Qed.

Lemma addr_entered n uuid ip :
  net_inv n -> addr_inv n -> n_registering n = Some (uuid, ip) ->
  addr_inv (with_registering None (with_launched (<[uuid := ip]> (n_launched n))
    (with_srv (run_state (register_enter uuid ip (n_srv n))) n))).
Proof.
  intros Hn [Hw Hg Hl Hp] Hr. pose proof (Hg _ _ Hr) as Hnone. destruct (ni_registering _ Hn _ _ Hr) as (_ & _ & Hp0).
  constructor; unfold waiting_sockets, table_ip in *; cbn in *.
  - intros k entry He. left. rewrite contents_set. destruct (Hw _ _ He) as [Hi|Hi].
    + rewrite lookup_insert_ne; [done|]. intros <-. by rewrite Hnone in Hi.
    + rewrite Hr in Hi. injection Hi as <- Hip. by rewrite lookup_insert_eq, Hip.
  - done.
  - intros k ip' entry [[<- <-]|[_ Hk]]%lookup_insert_Some He; [|by eapply Hl].
    destruct (Hw _ _ He) as [Hi|Hi]; [by rewrite Hnone in Hi|]. rewrite Hr in Hi. by injection Hi.
  - intros k c Hc. rewrite contents_set, lookup_insert_ne by congruence. by apply Hp.
Qed.

Lemma addr_claimed n uuid ip now fd srv es :
  net_inv n -> addr_inv n -> n_launched n !! uuid = Some ip ->
  GetSocket uuid (n_srv n) = (Ret fd, srv, es) ->
  addr_inv (with_srv srv (with_launched (delete uuid (n_launched n))
    (with_procs (<[uuid := handler_session uuid ip now]> (n_procs n)) n))).
Proof.
  intros Hn [Hw Hrg Hl Hp] Hip Hg. unfold GetSocket, claim_fd, ebind, eget in Hg.
  unfold waiting_sockets, table_ip in *.
  destruct (sessions_ _ !! uuid) as [entry|] eqn:He; cbn in Hg; [|done]. injection Hg as <- <- <-.
  pose proof (Hl _ _ _ Hip He) as Hei. constructor; unfold waiting_sockets, table_ip; cbn.
  - intros k en [_ Hk]%lookup_delete_Some. by apply Hw.
  - done.
  - intros k ip' en [_ Hk]%lookup_delete_Some [_ Hen]%lookup_delete_Some. by eapply Hl.
  - intros k c [[<- <-]|[_ Hc]]%lookup_insert_Some; [|by apply Hp].
    destruct (Hw _ _ He) as [->|Hr]; [by rewrite Hei|].
    destruct (ni_registering _ Hn _ _ Hr) as (_ & Hl0 & _). congruence.
Qed.

Lemma addr_not_claimed n uuid srv r es :
  addr_inv n -> GetSocket uuid (n_srv n) = (r, srv, es) -> (forall fd, r <> Ret fd) ->
  addr_inv (with_srv srv (with_launched (delete uuid (n_launched n)) n)).
Proof.
  intros [Hw Hrg Hl Hp] Hg Hr. unfold GetSocket, claim_fd, ebind, eget in Hg.
  unfold waiting_sockets, table_ip in *.
  destruct (sessions_ _ !! uuid) as [entry|] eqn:He; cbn in Hg; injection Hg as <- <- <-; [by destruct (Hr (fd entry))|].
  constructor; unfold waiting_sockets, table_ip; cbn; [done|done| |done].
  intros k ip' en [_ Hk]%lookup_delete_Some. by apply Hl.
Qed.

Lemma addr_srv_call n cl op :
  net_inv n -> addr_inv n ->
  match op with OpRegister _ _ _ | OpUnregister _ | OpGetSocket _ => False | _ => True end ->
  addr_inv (with_srv (srv_call cl op (n_srv n)) n).
Proof.
  intros Hn Ha Hop. apply (addr_same n); try done; cbn; [| |by eauto].
  - apply waiting_call. by destruct op.
  - intros k. apply table_ip_call; [apply (ni_sorted _ Hn)|by destruct op].
Qed.

Lemma addr_step n ev n' : net_inv n -> addr_inv n -> net_step n ev n' -> addr_inv n'.
Proof.
  intros Hn Ha [uuid f ip r Hf Hadd|uuid f ip r Hf Hadd|uuid ip Hr|uuid now ip fd srv es Hl Hg
    |uuid now ip r srv es Hl Hg Hnr|uuid e ev0 c c' es Hi _ Hc Hact Htr|i cl uuid sid st Hi Hb
    |i cl src dst msg mid Hi Hb|op Hop Hb|cl ip reason Hb|e call todo ev0 c c' Ht Hev Hc _ Hact
    |e call todo Ht _|uuid c Hc]%net_step_case.
  - by eapply addr_added.
  - by eapply addr_refused.
  - by apply addr_entered.
  - by eapply addr_claimed.
  - by eapply addr_not_claimed.
  - by eapply (addr_proc n).
  - by destruct (addr_srv_call n no_clients (OpUpdate uuid sid st) Hn Ha I).
  - by destruct Ha.
  - apply addr_srv_call; [done..|]. by destruct op.
  - by destruct Ha.
  - by eapply (addr_proc n).
  - by destruct Ha.
  - by destruct Ha.
Qed.

Lemma addr_reachable n : reachable net_start net_step n -> net_inv n /\ addr_inv n.
Proof.
  apply (invariant_rule _ _ (fun n => net_inv n /\ addr_inv n)).
  - intros ? [max ->]. split; [apply net_inv_reachable, reachable_init; by exists max|]. by constructor.
  - intros n0 ev n1 _ [Hn Ha] Hst. split; [by eapply net_inv_step|by eapply addr_step].
Qed.

(** ** The calls of [DisconnectAll] *)

(** The call is posted to the io thread of the handler; or the handler has gone. *)
Definition asked (r : cstring) (n : net) (uuid : cstring) : Prop :=
  gone n uuid \/ exists c, n_procs n !! uuid = Some c /\ r ∈ w_posted (c_world c).

Lemma asked_stays r n ev n' uuid : net_inv n -> net_step n ev n' -> asked r n uuid -> asked r n' uuid.
Proof.
  intros Hn Hst [Hg|(c & Hc & Hr)]; [left; by eapply gone_stays|].
  destruct (proc_moves _ _ _ _ _ Hn Hst Hc) as (c' & Hc' & [->|(e & ev' & Ha)]); [right; by exists c|].
  destruct (posted_stays _ _ _ _ _ Ha Hr) as [Hr'|Hu]; [right; by exists c'|left; right; by exists c'].
Qed.

Lemma disconnect_posts e n uuid c reason r todo :
  bus_string reason = Some r -> n_procs n !! uuid = Some c ->
  asked r (with_todo todo (with_procs (make_call e (CDisconnect uuid reason) n) n)) uuid.
Proof.
  intros Hb Hc. unfold make_call. cbn [target call_event]. case_decide as Hx; [left; by left|].
  rewrite Hb. cbn [fmap option_fmap option_map mbind option_bind]. rewrite Hc. cbn [mbind option_bind activate].
  right. eexists. cbn [n_procs with_todo with_procs default from_option id]. rewrite lookup_insert_eq.
  split; [done|]. unfold exec. cbn. destruct (c_world c). cbn. set_solver.
Qed.

(** The posted call ends the session when the io thread runs it. *)
Lemma posted_ends n uuid c r e :
  n_procs n !! uuid = Some c -> r ∈ w_posted (c_world c) -> ~ gone n uuid ->
  exists n', net_step n (NSession uuid e EvPosted) n' /\ gone n' uuid.
Proof.
  intros Hc Hr Hg. unfold net_step. cbn [net_activate is_internal orb].
  rewrite bool_decide_eq_false_2 by (intros ?; apply Hg; by left). rewrite Hc. cbn [mbind option_bind activate].
  destruct (w_posted (c_world c)) as [|reason ps]; [by apply not_elem_of_nil in Hr|]. cbn [mbind option_bind].
  eexists. split; [done|]. right. eexists. cbn [n_procs with_procs]. rewrite lookup_insert_eq. split; [done|].
  unfold exec. rewrite do_disconnect_run. apply state_disconnected.
Qed.

(** While the calls are being made: each target is still to be called, or has been asked. *)
Definition being_asked (reason r : cstring) (n : net) (uuid : cstring) : Prop :=
  asked r n uuid \/ CDisconnect uuid reason ∈ n_todo n /\ is_Some (n_procs n !! uuid).

Lemma being_asked_step reason r n ev n' uuid :
  bus_string reason = Some r -> net_inv n -> net_step n ev n' ->
  being_asked reason r n uuid -> being_asked reason r n' uuid.
Proof.
  intros Hb Hn Hst [Ha|[Hin [c Hc]]]; [left; by eapply asked_stays|].
  destruct (proc_moves _ _ _ _ _ Hn Hst Hc) as (c' & Hc' & _).
  destruct (n_todo n) as [|call todo] eqn:Htd; [by apply not_elem_of_nil in Hin|].
  destruct (pending_step _ _ _ _ _ Htd Hst) as [Htd'|(e & ->)].
  { right. rewrite Htd'. split; [done|by exists c']. }
  apply elem_of_cons in Hin as [<-|Hin]; [left; by eapply disconnect_posts|].
  right. cbn. split; [done|by exists c'].
Qed.

(** The targets are the sessions of the address. *)
Lemma disconnect_all_step n cl ip reason :
  net_inv n -> addr_inv n -> busy n = false ->
  exists targets,
    net_step n (NDisconnectAll cl ip reason) (with_todo ((fun uuid => CDisconnect uuid reason) <$> targets) n) /\
    NoDup targets /\ forall uuid c, n_procs n !! uuid = Some c -> uuid ∈ targets <-> session_ip c = ip.
Proof.
  intros Hn Ha Hb. destruct (disconnect_all_correct cl ip reason _ (ni_sorted _ Hn)) as (targets & Hrun & Hnd & Htg).
  exists targets. split; [|split; [done|]].
  - unfold net_step. cbn [net_activate]. rewrite Hb, Hrun. unfold begin_calls, run_state, run_effects. cbn [fst snd].
    change (str "com.telecom.smpp.Client." ++ ?u) with (client_service u).
    by rewrite disconnect_calls.
  - intros uuid c Hc. rewrite Htg. pose proof (ai_procs _ Ha _ _ Hc) as Hip. unfold table_ip in Hip.
    destruct (contents _ !! uuid) as [info|]; [|done]. injection Hip as Hip. split.
    + intros (? & [= <-] & <-). done.
    + intros <-. eauto.
Qed.

(** C16: [DisconnectAll] reaches every session of the address and no other: the server
    decides, under its mutex, to call the handlers of exactly the sessions that are with
    clients of the address, once each.  In every execution from there it can go on until it has called them
    all; then each of these handlers has gone, or has the call with the given reason posted
    to its io thread, which ends the session as soon as it runs. *)
Theorem disconnect_all_reaches n cl ip reason r :
  reachable net_start net_step n -> busy n = false -> bus_string reason = Some r ->
  exists targets n1, net_step n (NDisconnectAll cl ip reason) n1 /\
    n1 = with_todo ((fun uuid => CDisconnect uuid reason) <$> targets) n /\ NoDup targets /\
    (forall uuid c, n_procs n !! uuid = Some c -> uuid ∈ targets <-> session_ip c = ip) /\
    forall n2, reachable (eq n1) net_step n2 ->
      (forall e, busy n2 = true -> exists n3, net_step n2 (NCall e) n3 /\
         (length (n_todo n3) < length (n_todo n2))%nat) /\
      (forall uuid c, busy n2 = false -> n_procs n !! uuid = Some c -> session_ip c = ip -> ~ gone n2 uuid ->
         exists c2, n_procs n2 !! uuid = Some c2 /\ r ∈ w_posted (c_world c2) /\
           forall e, exists n3, net_step n2 (NSession uuid e EvPosted) n3 /\ gone n3 uuid).
Proof.
  intros [Hn Ha]%addr_reachable Hb Hr. destruct (disconnect_all_step n cl ip reason Hn Ha Hb) as (targets & Hst & Hnd & Htg).
  exists targets. eexists. split; [exact Hst|]. split; [done|]. split; [done|]. split; [done|].
  intros n2 H2. split; [intros; by apply call_enabled|]. intros uuid c Hb2 Hc Hip Hg.
  assert (H : net_inv n2 /\ being_asked reason r n2 uuid).
  { revert H2. apply (invariant_rule _ _ (fun n2 => net_inv n2 /\ being_asked reason r n2 uuid)).
    - intros ? <-. split; [by eapply net_inv_step|]. right. cbn. split; [|by exists c].
      apply list_elem_of_fmap. exists uuid. split; [done|]. by apply (Htg _ c).
    - intros x ev y _ [Hx Hq] Hxy. split; [by eapply net_inv_step|by eapply being_asked_step]. }
  destruct H as [_ [[?|(c2 & Hc2 & Hp)]|[Hin _]]]; [done| |].
  - exists c2. split; [done|]. split; [done|]. intros e. by eapply posted_ends.
  - unfold busy in Hb2. destruct (n_todo n2); [by apply not_elem_of_nil in Hin|done].
Qed.
End Admin.

(** The administrator disconnects the clients of one address. *)
Definition example_asking : net :=
  after [NDisconnectAll no_clients (str "10.0.0.1") (str "maintenance")] example_net.
Definition example_disconnecting : net := after [NCall example_env] example_asking.

Lemma disconnect_all_reaches_witness :
  exists c2, n_procs example_disconnecting !! str "a1" = Some c2 /\
    str "maintenance" ∈ w_posted (c_world c2).
Proof.
  destruct (disconnect_all_reaches (B := ascii_bus) example_net no_clients (str "10.0.0.1")
              (str "maintenance") (str "maintenance") example_net_reachable)
    as (targets & n1 & Hst & _ & _ & _ & H); [by vm_compute|by vm_compute|].
  assert (Hn1 : n1 = example_asking)
    by (by apply (step_after (NDisconnectAll no_clients (str "10.0.0.1") (str "maintenance")) example_net)).
  assert (Hr : reachable (eq n1) (net_step (B := ascii_bus)) example_disconnecting).
  { subst n1. apply after_reachable; [by apply reachable_init|by vm_compute]. }
  destruct (H _ Hr) as [_ Hd].
  assert (Hi : session_ip <$> n_procs example_net !! str "a1" = Some (str "10.0.0.1")) by by vm_compute.
  destruct (n_procs example_net !! str "a1") as [c|] eqn:Hc; [|discriminate Hi]. injection Hi as Hi.
  destruct (Hd (str "a1") c) as (c2 & Hc2 & Hp & _); [by vm_compute|exact Hc|exact Hi| |].
  - apply (handler_state_there _ _ BOUND_RX); [by vm_compute|discriminate|].
    apply (bool_decide_unpack _). by vm_compute.
  - exists c2. split; [exact Hc2|exact Hp].
Defined.
