(* ===== verification/System.v ===== *)
(** * System: a message from one ESME to another

    A [submit_sm] PDU that the session of one client reads, followed through the whole
    system of [Network] to the [deliver_sm] PDU that the session of another client writes. *)

From S2P Require Import Prelude StdString Bus Pdu Throttle Session SessionSystem SessionTrace.
From S2P Require Import StdMap Registry ServerService Network NetworkRouting.
#[local] Open Scope Z_scope.

(** The sender's side: a well-formed submission that is accepted. *)
Lemma submit_accepted e hdr sm a :
  command_id hdr = SUBMIT_SM -> prefix_ok a -> can_submit (state_ a) = true ->
  fst (throttle_check (env_steady_ns e) (tb_ a)) = true -> submit_sm_ok sm ->
  let mid := message_id (msg_id_prefix_ (params_ a)) (u32 (msg_seq_ a + 1)) in
  exists a', on_body e hdr (inr (encode_submit_sm sm)) a
    = (Ret (), a',
       [AsyncWrite (pdu_octets SUBMIT_SM_RESP ESME_ROK (sequence_number hdr) (mid ++ [x00]));
        CallRouteMessage (server_svc_ (params_ a)) (src_addr sm) (dst_addr sm) (short_message sm) mid;
        AsyncReadHeader]).
Proof.
  intros Hid Hp Hc Ht Hsm mid.
  pose proof (handle_submit_sm_run e hdr (encode_submit_sm sm) a Hp) as R. cbv zeta in R.
  destruct (throttle_check _ _) as [allowed tb]. cbn in Ht. subst allowed.
  rewrite Hc, parse_encode_submit_sm in R by done. eexists.
  apply (on_body_run e hdr (encode_submit_sm sm) a _ [_; _]).
  unfold dispatch. rewrite Hid. exact R.
Qed.

Section System.
Context {B : Bus}.

(** ** The call to the server *)

(** It stays in flight until the server takes it. *)
Lemma call_stays n ev n' x :
  net_step n ev n' -> x ∈ n_calls n ->
  x ∈ n_calls n' \/ exists i cl, ev = NServe i cl /\ n_calls n !! i = Some x.
Proof.
  intros Hst Hin.
  assert (Hdel : forall i cl m, n_calls n !! i = Some m ->
    x ∈ delete i (n_calls n) \/ exists i' cl', NServe i cl = NServe i' cl' /\ n_calls n !! i' = Some x).
  { intros i cl m Hi. pose proof (delete_Permutation _ _ _ Hi) as Hp. rewrite Hp in Hin.
    apply elem_of_cons in Hin as [->|?]; [right; eauto|by left]. }
  destruct (net_step_case _ _ _ Hst); cbn; try (left; done); [left; set_solver|by eapply Hdel..].
Qed.

Lemma reachable_from n n' : reachable net_start net_step n -> reachable (eq n) net_step n' ->
  reachable net_start net_step n'.
Proof. intros Hn. apply invariant_rule; [by intros ? <-|]. intros c l c' _ Hc. by apply reachable_step. Qed.

(** The session reads the PDU, answers it and calls the server. *)
Lemma submit_step n a ca e hdr rs sm :
  net_inv n -> n_procs n !! a = Some ca -> (a ∉ n_exited n) ->
  w_reads (c_world ca) = RdBody hdr (Z.of_nat (length (encode_submit_sm sm))) :: rs ->
  command_id hdr = SUBMIT_SM -> can_submit (state_ (c_sess ca)) = true ->
  fst (throttle_check (env_steady_ns e) (tb_ (c_sess ca))) = true -> submit_sm_ok sm ->
  Forall plain [src_addr sm; dst_addr sm; short_message sm; msg_id_prefix_ (params_ (c_sess ca))] ->
  let mid := message_id (msg_id_prefix_ (params_ (c_sess ca))) (u32 (msg_seq_ (c_sess ca) + 1)) in
  exists n1 ca1, net_step n (NSession a e (EvBody (inr (encode_submit_sm sm)))) n1 /\
    n_procs n1 !! a = Some ca1 /\
    trace ca1 = trace ca ++
      [AsyncWrite (pdu_octets SUBMIT_SM_RESP ESME_ROK (sequence_number hdr) (mid ++ [x00]));
       CallRouteMessage (server_svc_ (params_ (c_sess ca))) (src_addr sm) (dst_addr sm) (short_message sm) mid;
       AsyncReadHeader] /\
    n_calls n1 = n_calls n ++ [MRoute (src_addr sm) (dst_addr sm) (short_message sm) mid].
Proof.
  intros Hn Hca Hx Hrd Hid Hc Ht Hsm Hpl mid.
  pose proof (reachable_inv _ (proj1 (ni_procs _ Hn _ _ Hca))) as Hi.
  pose proof (core_prefix _ _ (settled_core _ _ (inv_settled _ Hi))) as Hp.
  destruct (submit_accepted e hdr sm (c_sess ca) Hid Hp Hc Ht Hsm) as (a' & Ha). fold mid in Ha.
  unfold net_step. cbn [net_activate is_internal orb]. rewrite bool_decide_eq_false_2, Hca by done.
  cbn [mbind option_bind activate]. rewrite Hrd. unfold read_result_ok. rewrite bool_decide_eq_true_2 by done.
  cbn [mbind option_bind]. set (ca1 := exec _ _ _ _).
  assert (Htr : trace ca1 = trace ca ++ run_effects (on_body e hdr (inr (encode_submit_sm sm)) (c_sess ca)))
    by (unfold ca1; by rewrite exec_trace).
  rewrite Ha in Htr. unfold run_effects in Htr. cbn [snd] in Htr.
  eexists _, ca1. split; [done|]. cbn [n_procs n_calls with_procs with_calls]. rewrite lookup_insert_eq.
  split; [done|]. split; [exact Htr|]. f_equal. unfold new_calls. rewrite Htr, drop_app_length.
  cbn [omap list_omap bus_call].
  rewrite bus_args_plain; [done|]. rewrite !Forall_cons in Hpl. destruct Hpl as (? & ? & ? & Hpre & _).
  repeat constructor; try done. apply plain_app. split; [done|]. apply hex_plain, hex_setw_hex.
Qed.

(** C5: End to end: when the session of a client that is bound as transmitter or transceiver
    reads a well-formed [submit_sm] with ASCII addresses and text within its rate, it answers
    ESME_ROK with a new message id and calls the server; the call stays in flight until the
    server takes it, whatever else happens; and when it is taken while some session is
    recorded as a receiver, then, in every execution from there, unless the handler of the
    least of them has gone, the message is on its way to that handler or with its session,
    which writes it as a [deliver_sm] PDU when it is done with its deliveries; the body of
    that PDU has the addresses and the text submitted. *)
Theorem submission_is_delivered n a ca e hdr rs sm :
  reachable net_start net_step n -> n_procs n !! a = Some ca -> (a ∉ n_exited n) ->
  w_reads (c_world ca) = RdBody hdr (Z.of_nat (length (encode_submit_sm sm))) :: rs ->
  command_id hdr = SUBMIT_SM -> can_submit (state_ (c_sess ca)) = true ->
  fst (throttle_check (env_steady_ns e) (tb_ (c_sess ca))) = true -> submit_sm_ok sm ->
  Forall plain [src_addr sm; dst_addr sm; short_message sm; msg_id_prefix_ (params_ (c_sess ca))] ->
  let mid := message_id (msg_id_prefix_ (params_ (c_sess ca))) (u32 (msg_seq_ (c_sess ca) + 1)) in
  let m := (src_addr sm, dst_addr sm, short_message sm) in
  let call := MRoute (src_addr sm) (dst_addr sm) (short_message sm) mid in
  exists n1 ca1, net_step n (NSession a e (EvBody (inr (encode_submit_sm sm)))) n1 /\
    n_procs n1 !! a = Some ca1 /\
    trace ca1 = trace ca ++
      [AsyncWrite (pdu_octets SUBMIT_SM_RESP ESME_ROK (sequence_number hdr) (mid ++ [x00]));
       CallRouteMessage (server_svc_ (params_ (c_sess ca))) (src_addr sm) (dst_addr sm) (short_message sm) mid;
       AsyncReadHeader] /\
    call ∈ n_calls n1 /\
    forall n2, reachable (eq n1) net_step n2 -> call ∈ n_calls n2 ->
      (forall ev n3, net_step n2 ev n3 ->
         call ∈ n_calls n3 \/ exists i cl, ev = NServe i cl /\ n_calls n2 !! i = Some call) /\
      forall i cl uuid, n_calls n2 !! i = Some call -> busy n2 = false -> uuid <> [] ->
        least_receiver (n_srv n2) uuid ->
        exists c n3, n_procs n2 !! uuid = Some c /\ net_step n2 (NServe i cl) n3 /\
          (forall n4, reachable (eq n3) net_step n4 -> ~ gone n4 uuid -> assured uuid m (taken c) n4) /\
          let out := parse_submit_sm (deliver_body m) in
          src_addr out = src_addr sm /\ dst_addr out = dst_addr sm /\ short_message out = short_message sm.
Proof.
  intros Hr Hca Hx Hrd Hid Hc Ht Hsm Hpl mid m call. pose proof (net_inv_reachable _ Hr) as Hn.
  destruct (submit_step n a ca e hdr rs sm Hn Hca Hx Hrd Hid Hc Ht Hsm Hpl) as (n1 & ca1 & Hst & Hca1 & Htr & Hcalls).
  exists n1, ca1. split; [exact Hst|]. split; [exact Hca1|]. split; [exact Htr|].
  split; [rewrite Hcalls; set_solver|]. intros n2 H12 Hin. split; [intros ev n3 H23; by apply (call_stays n2)|].
  intros i cl uuid Hi Hb Hne Hl.
  pose proof Hsm as (_ & [Hs1 Hs2] & [Hd1 Hd2] & _ & _ & Hlen). unfold default_max_len in *.
  assert (Hn2 : net_inv n2) by (eapply net_inv_from; [|exact H12]; by eapply net_inv_step).
  destruct (route_assured n2 uuid i cl _ _ _ _ Hn2 Hb Hne Hl Hi) as (c & n3 & Hc2 & H23 & H).
  { unfold fits, dbus_max. lia. }
  exists c, n3. split; [exact Hc2|]. split; [exact H23|]. split; [exact H|].
  unfold m, deliver_body.
  by destruct (parse_deliver_sm_body (src_addr sm) (dst_addr sm) (short_message sm) x00 x00 x00 x00)
    as (? & ? & ? & _).
Qed.
End System.

(** ** An example *)

Definition example_sm : SubmitSm :=
  {| service_type := []; src_ton := x01; src_npi := x01; src_addr := str "441234";
     dst_ton := x01; dst_npi := x01; dst_addr := str "445678"; esm_class := x00;
     protocol_id := x00; priority_flag := x00; schedule_delivery_time := []; validity_period := [];
     registered_delivery := x00; replace_if_present := x00; data_coding := x00;
     sm_default_msg_id := x00; short_message := str "Hello" |}.

Definition example_hdr : Header :=
  {| command_length := 16 + Z.of_nat (length (encode_submit_sm example_sm)); command_id := SUBMIT_SM;
     command_status := 0; sequence_number := 2 |}.

(** The transmitter has read the header of a [submit_sm]; its body, and what follows. *)
Definition example_reading : net :=
  after [NSession (str "b2") example_env (EvHeader (inr (take 16
           (pdu_octets SUBMIT_SM 0 2 (encode_submit_sm example_sm)))))] example_bound_net.

Definition example_body : net_event :=
  NSession (str "b2") example_env (EvBody (inr (encode_submit_sm example_sm))).
Definition example_called : net := after [example_body] example_reading.
Definition example_taken : net := after [NServe 0 no_clients] example_called.
Definition example_delivered : net :=
  after [NCall example_env; NSession (str "a1") example_env (EvDeliverSend 0)] example_taken.

Lemma submission_is_delivered_witness :
  exists c, n_procs example_delivered !! str "a1" = Some c /\
    [deliver_body (str "441234", str "445678", str "Hello")] ⊆+ delivered c.
Proof.
  assert (Hrd : reachable net_start (net_step (B := ascii_bus)) example_reading)
    by (apply after_reachable; [apply example_bound_net_reachable|by vm_compute]).
  assert (Hca : exists ca, n_procs example_reading !! str "b2" = Some ca /\
    w_reads (c_world ca) = [RdBody example_hdr (Z.of_nat (length (encode_submit_sm example_sm)))] /\
    can_submit (state_ (c_sess ca)) = true /\
    fst (throttle_check (env_steady_ns example_env) (tb_ (c_sess ca))) = true /\
    message_id (msg_id_prefix_ (params_ (c_sess ca))) (u32 (msg_seq_ (c_sess ca) + 1)) = str "b200000001" /\
    msg_id_prefix_ (params_ (c_sess ca)) = str "b2").
  { destruct (n_procs example_reading !! str "b2") as [ca|] eqn:Hca; [|vm_compute in Hca; discriminate Hca].
    vm_compute in Hca. injection Hca as <-. eexists. split; [reflexivity|]. vm_compute. auto 10. }
  destruct Hca as (ca & Hca & Hw & Hc & Ht & Hmid & Hpre).
  destruct (submission_is_delivered (B := ascii_bus) example_reading (str "b2") ca example_env example_hdr []
              example_sm) as (n1 & ca1 & Hst & _ & _ & Hin & H);
    [exact Hrd|exact Hca|apply (bool_decide_unpack _); by vm_compute|exact Hw|reflexivity|exact Hc|exact Ht
    |apply (bool_decide_unpack _); by vm_compute
    |rewrite Hpre; apply (bool_decide_unpack _); by vm_compute|].
  rewrite Hmid in *. destruct (H n1) as [_ H1]; [by apply reachable_init|exact Hin|].
  assert (Hn1 : n1 = example_called) by (by apply (step_after example_body example_reading)).
  subst n1. destruct (H1 0%nat no_clients (str "a1")) as (c & n3 & Hc0 & Hst3 & H3 & _);
    [by vm_compute|by vm_compute|discriminate| |].
  { apply (example_least example_called); [|by vm_compute].
    eapply reachable_step; [exact Hrd|exact Hst]. }
  assert (Hn3 : n3 = example_taken) by (by apply (step_after (NServe 0 no_clients) example_called)).
  assert (Hr : reachable (eq n3) (net_step (B := ascii_bus)) example_delivered).
  { subst n3. apply after_reachable; [by apply reachable_init|by vm_compute]. }
  destruct (H3 example_delivered Hr) as (c4 & Hc4 & _ & Hd & _).
  { apply (handler_state_there _ _ BOUND_RX); [by vm_compute|discriminate|].
    apply (bool_decide_unpack _). by vm_compute. }
  exists c4. split; [exact Hc4|]. etrans; [|apply Hd].
  - apply submseteq_skip, submseteq_nil_l.
  - by vm_compute.
  - assert (Hfl : c_inflight <$> n_procs example_delivered !! str "a1" = Some []) by by vm_compute.
    rewrite Hc4 in Hfl. by injection Hfl.
Defined.
