(* ===== verification/Framer.v ===== *)
(** * Framer: [SmppPduFramer] of SMPPServer

    Reassembly of PDUs from the chunks of a TCP stream
    ([SMPPServer/src/smpp_pdu_framer.cpp]).  [size_t] has 64 bits. *)

From S2P Require Import Prelude Pdu.
#[local] Open Scope Z_scope.
#[local] Open Scope cpp_scope.

(** ** The class *)

Inductive State := WAITING_HEADER | WAITING_BODY | PDU_COMPLETE.

#[export] Instance State_eq_dec : EqDecision State.
Proof. solve_decision. Defined.

Record SmppPduFramer := {
  framer_state_ : State;
  full_pdu_ : list byte;
  command_length_ : Z;
  command_id_ : Z;
  command_status_ : Z;
  sequence_number_ : Z
}.

(** The in-class initialisers, and [reset()]. *)
Definition framer_init : SmppPduFramer :=
  {| framer_state_ := WAITING_HEADER; full_pdu_ := []; command_length_ := 0; command_id_ := 0;
     command_status_ := 0; sequence_number_ := 0 |}.

Definition reset (f : SmppPduFramer) : SmppPduFramer :=
  {| framer_state_ := WAITING_HEADER; full_pdu_ := []; command_length_ := 0; command_id_ := 0;
     command_status_ := 0; sequence_number_ := 0 |}.

Definition set_framer_state (s : State) (f : SmppPduFramer) : SmppPduFramer :=
  {| framer_state_ := s; full_pdu_ := full_pdu_ f; command_length_ := command_length_ f;
     command_id_ := command_id_ f; command_status_ := command_status_ f;
     sequence_number_ := sequence_number_ f |}.

Definition append_pdu (data : list byte) (f : SmppPduFramer) : SmppPduFramer :=
  {| framer_state_ := framer_state_ f; full_pdu_ := full_pdu_ f ++ data;
     command_length_ := command_length_ f; command_id_ := command_id_ f;
     command_status_ := command_status_ f; sequence_number_ := sequence_number_ f |}.

(** Big-endian, at an offset of the buffer; [None] outside of it. *)
Definition be32_to_host (buf : list byte) (off : nat) : option Z :=
  match drop off buf with
  | b0 :: b1 :: b2 :: b3 :: _ =>
      Some (Z.lor (Z.lor (Z.lor (byte_to_Z b0 <<u32 24) (byte_to_Z b1 <<u32 16))
                         (byte_to_Z b2 <<u32 8)) (byte_to_Z b3))
  | _ => None
  end.

(** [None]: a read outside of the buffer. *)
Definition parse_header (f : SmppPduFramer) : option SmppPduFramer :=
  if (length (full_pdu_ f) <? 16)%nat then Some f else
  len ← be32_to_host (full_pdu_ f) 0;
  cid ← be32_to_host (full_pdu_ f) 4;
  sts ← be32_to_host (full_pdu_ f) 8;
  seq ← be32_to_host (full_pdu_ f) 12;
  Some {| framer_state_ := framer_state_ f; full_pdu_ := full_pdu_ f; command_length_ := len;
          command_id_ := cid; command_status_ := sts; sequence_number_ := seq |}.

Definition bytes_needed (f : SmppPduFramer) : Z :=
  let size := Z.of_nat (length (full_pdu_ f)) in
  match framer_state_ f with
  | WAITING_HEADER => 16 -u64 size
  | WAITING_BODY => command_length_ f -u64 size
  | PDU_COMPLETE => 0
  end.

(** The result and the object after the call. *)
Definition feed_bytes (data : list byte) (f : SmppPduFramer) : option (bool * SmppPduFramer) :=
  if decide (data = []) then Some (false, f) else
  let to_read := bytes_needed f in
  let can_read := Z.min (Z.of_nat (length data)) to_read in
  let f := append_pdu (take (Z.to_nat can_read) data) f in
  match framer_state_ f with
  | WAITING_HEADER =>
      if (16 <=? length (full_pdu_ f))%nat then
        f ← parse_header f;
        if 16 <=? command_length_ f then Some (false, set_framer_state WAITING_BODY f)
        else Some (false, f)
      else Some (false, f)
  | WAITING_BODY =>
      if command_length_ f <=? Z.of_nat (length (full_pdu_ f))
      then Some (true, set_framer_state PDU_COMPLETE f)
      else Some (false, f)
  | PDU_COMPLETE => Some (false, f)
  end.

(** Chunks fed one after the other: the results and the object at the end. *)
Fixpoint feed_all (chunks : list (list byte)) (f : SmppPduFramer) : option (list bool * SmppPduFramer) :=
  match chunks with
  | [] => Some ([], f)
  | c :: chunks =>
      '(b, f) ← feed_bytes c f;
      '(bs, f) ← feed_all chunks f;
      Some (b :: bs, f)
  end.

(** ** The invariant *)

(** The four fields are those of the header in the buffer. *)
Definition header_is (f : SmppPduFramer) (h : Header) : Prop :=
  command_length_ f = command_length h /\ command_id_ f = command_id h /\
  command_status_ f = command_status h /\ sequence_number_ f = sequence_number h.

Definition wf (f : SmppPduFramer) : Prop :=
  let size := length (full_pdu_ f) in
  match framer_state_ f with
  | WAITING_HEADER =>
      (size < 16)%nat \/
      (size = 16%nat /\ exists h, decode_header (full_pdu_ f) = Some h /\ header_is f h /\
                             0 <= command_length h < 16)
  | WAITING_BODY =>
      (16 <= size)%nat /\ exists h, decode_header (full_pdu_ f) = Some h /\ header_is f h /\
        Z.of_nat size <= command_length h < 2 ^ 32
  | PDU_COMPLETE =>
      exists h, decode_header (full_pdu_ f) = Some h /\ header_is f h /\
        command_length h = Z.of_nat size /\ 16 <= command_length h < 2 ^ 32
  end.

Lemma be32_read_u32 buf off : be32_to_host buf off = read_u32 buf off.
Proof.
  unfold be32_to_host, read_u32.
  rewrite <- (Nat.add_0_r off) at 2. rewrite <- !lookup_drop.
  by destruct (drop off buf) as [|b0 [|b1 [|b2 [|b3 ?]]]].
Qed.

Lemma parse_header_run f :
  length (full_pdu_ f) = 16%nat ->
  exists h f', decode_header (full_pdu_ f) = Some h /\ is_u32 (command_length h) /\
    parse_header f = Some f' /\ header_is f' h /\
    full_pdu_ f' = full_pdu_ f /\ framer_state_ f' = framer_state_ f.
Proof.
  intros Hl. destruct (decode_header_total (full_pdu_ f)) as (h & Hd & Hu & _); [lia|].
  exists h. unfold parse_header. rewrite Hl. cbn [Nat.ltb Nat.leb]. rewrite !be32_read_u32.
  unfold decode_header in Hd |- *.
  destruct (read_u32 _ 0) as [len|]; [cbn in Hd |- *|done].
  destruct (read_u32 _ 4) as [cid|]; [cbn in Hd |- *|done].
  destruct (read_u32 _ 8) as [sts|]; [cbn in Hd |- *|done].
  destruct (read_u32 _ 12) as [seq|]; [cbn in Hd |- *|done]. injection Hd as <-.
  eexists. split_and!; done.
Qed.

(** What is still missing, as the invariant has it. *)
Definition missing (f : SmppPduFramer) : nat :=
  match framer_state_ f with
  | WAITING_HEADER => 16 - length (full_pdu_ f)
  | WAITING_BODY => Z.to_nat (command_length_ f) - length (full_pdu_ f)
  | PDU_COMPLETE => 0
  end.

Lemma bytes_needed_missing f : wf f -> bytes_needed f = Z.of_nat (missing f).
Proof.
  unfold wf, bytes_needed, missing, u64. destruct (framer_state_ f).
  - intros [?|[? _]]; rewrite Z.mod_small; lia.
  - intros (? & h & _ & (-> & _) & ?). rewrite Z.mod_small; lia.
  - done.
Qed.

(** A header that is complete stays in the buffer. *)
Lemma decode_header_app buf rest h :
  decode_header buf = Some h -> decode_header (buf ++ rest) = Some h.
Proof.
  assert (Hr : forall p v, read_u32 buf p = Some v -> read_u32 (buf ++ rest) p = Some v).
  { intros p v. unfold read_u32.
    destruct (buf !! p) as [b0|] eqn:H0; [|done]. rewrite (lookup_app_l_Some _ _ _ _ H0).
    destruct (buf !! (p + 1)%nat) as [b1|] eqn:H1; [|done]. rewrite (lookup_app_l_Some _ _ _ _ H1).
    destruct (buf !! (p + 2)%nat) as [b2|] eqn:H2; [|done]. rewrite (lookup_app_l_Some _ _ _ _ H2).
    destruct (buf !! (p + 3)%nat) as [b3|] eqn:H3; [|done]. rewrite (lookup_app_l_Some _ _ _ _ H3).
    done. }
  unfold decode_header.
  destruct (read_u32 buf 0) as [len|] eqn:H0; [rewrite (Hr _ _ H0)|done]. cbn.
  destruct (read_u32 buf 4) as [cid|] eqn:H1; [rewrite (Hr _ _ H1)|done]. cbn.
  destruct (read_u32 buf 8) as [sts|] eqn:H2; [rewrite (Hr _ _ H2)|done]. cbn.
  by destruct (read_u32 buf 12) as [seq|] eqn:H3; [rewrite (Hr _ _ H3)|done].
Qed.

(** ** One chunk *)

(** The state after the buffer has grown. *)
Lemma feed_header data f :
  framer_state_ f = WAITING_HEADER -> (length (full_pdu_ f) < 16)%nat -> data <> [] ->
  let buf := full_pdu_ f ++ take (16 - length (full_pdu_ f)) data in
  exists f', feed_bytes data f = Some (false, f') /\ wf f' /\ full_pdu_ f' = buf /\
    framer_state_ f' = (if decide (length buf = 16%nat) then
                          match decode_header buf with
                          | Some h => if 16 <=? command_length h then WAITING_BODY else WAITING_HEADER
                          | None => WAITING_HEADER
                          end
                        else WAITING_HEADER).
Proof.
  intros Hs Hl Hd buf. assert (Hwf : wf f) by (unfold wf; rewrite Hs; auto).
  unfold feed_bytes. rewrite decide_False by done. rewrite bytes_needed_missing by done.
  unfold missing. rewrite Hs.
  assert (Ht : take (Z.to_nat (Z.min (Z.of_nat (length data)) (Z.of_nat (16 - length (full_pdu_ f))))) data
               = take (16 - length (full_pdu_ f)) data).
  { destruct (Nat.le_gt_cases (length data) (16 - length (full_pdu_ f))).
    - rewrite !take_ge by lia. done.
    - f_equal. lia. }
  rewrite Ht. set (g := append_pdu _ f). assert (Hg : full_pdu_ g = buf) by done.
  assert (Hgs : framer_state_ g = WAITING_HEADER) by done.
  assert (Hlen : (length buf <= 16)%nat) by (unfold buf; rewrite length_app, length_take; lia).
  rewrite Hgs, Hg. clearbody g. case_decide as H16.
  - rewrite H16. cbn [Nat.leb].
    destruct (parse_header_run g) as (h & g' & Hdec & Hu & -> & Hh & Hp & Hst); [by rewrite Hg|].
    rewrite Hg in Hdec, Hp. rewrite Hdec. cbn [mbind option_bind].
    pose proof Hh as (Hcl & _). rewrite Hcl. unfold is_u32 in Hu.
    destruct (Z.leb_spec 16 (command_length h)).
    + eexists. split; [done|]. split_and!; [|done|done].
      unfold wf. cbn. rewrite Hp, H16. split; [lia|]. exists h. split_and!; [done|done|lia|lia].
    + eexists. split; [done|]. split_and!; [|done|congruence].
      unfold wf. rewrite Hst, Hgs, Hp, H16. right. split; [done|]. exists h. split_and!; [done|done|lia|lia].
  - rewrite (proj2 (Nat.leb_gt 16 (length buf))) by lia. eexists. split; [done|].
    split_and!; [|done|done]. unfold wf. rewrite Hgs, Hg. left. lia.
Qed.

Lemma feed_body data f h :
  framer_state_ f = WAITING_BODY -> wf f -> decode_header (full_pdu_ f) = Some h -> data <> [] ->
  let buf := full_pdu_ f ++ take (Z.to_nat (command_length h) - length (full_pdu_ f)) data in
  let full := bool_decide (command_length h = Z.of_nat (length buf)) in
  exists f', feed_bytes data f = Some (full, f') /\ wf f' /\ full_pdu_ f' = buf /\
    framer_state_ f' = (if full then PDU_COMPLETE else WAITING_BODY).
Proof.
  intros Hs Hwf Hdec Hd buf full. pose proof Hwf as Hw. unfold wf in Hw. rewrite Hs in Hw.
  destruct Hw as (Hl & h' & Hdec' & Hh & Hr). rewrite Hdec in Hdec'. injection Hdec' as <-.
  unfold feed_bytes. rewrite decide_False by auto. rewrite bytes_needed_missing by auto.
  unfold missing. rewrite Hs. pose proof Hh as (Hcl & _). rewrite Hcl.
  set (n := (Z.to_nat (command_length h) - length (full_pdu_ f))%nat) in *.
  assert (Ht : take (Z.to_nat (Z.min (Z.of_nat (length data)) (Z.of_nat n))) data = take n data).
  { destruct (Nat.le_gt_cases (length data) n).
    - rewrite !take_ge by lia. auto.
    - f_equal. lia. }
  rewrite Ht. cbn [append_pdu framer_state_ full_pdu_ command_length_]. rewrite Hs, Hcl.
  fold buf. assert (Hb : (length (full_pdu_ f) <= length buf)%nat /\ Z.of_nat (length buf) <= command_length h).
  { unfold buf. rewrite length_app, length_take. lia. }
  assert (Hdec2 : decode_header buf = Some h) by by apply decode_header_app.
  unfold full. case_bool_decide as Hfull.
  - rewrite (proj2 (Z.leb_le _ _)) by lia. eexists. split; [done|]. split_and!; [|by auto..].
    exists h. unfold header_is in *. cbn. fold buf. split_and!; auto; try naive_solver; lia.
  - rewrite (proj2 (Z.leb_gt _ _)) by lia. eexists. split; [done|]. split_and!; [|by auto..].
    unfold wf. cbn. rewrite Hs. fold buf. split; [lia|]. exists h. unfold header_is in *. cbn.
    split_and!; auto; try naive_solver; lia.
Qed.

(** ** A caller that feeds what is needed *)

(** Every chunk is non-empty and no longer than [bytes_needed()] at its turn. *)
Fixpoint fits (chunks : list (list byte)) (f : SmppPduFramer) : Prop :=
  match chunks with
  | [] => True
  | c :: chunks =>
      c <> [] /\ Z.of_nat (length c) <= bytes_needed f /\
      match feed_bytes c f with Some (_, f) => fits chunks f | None => False end
  end.

(** In the middle of a PDU: what is in the buffer is a proper prefix of it. *)
Definition midway (pdu : list byte) (h : Header) (f : SmppPduFramer) (rest : list byte) : Prop :=
  wf f /\ full_pdu_ f ++ rest = pdu /\
  match framer_state_ f with
  | WAITING_HEADER => (length (full_pdu_ f) < 16)%nat
  | WAITING_BODY => decode_header (full_pdu_ f) = Some h
  | PDU_COMPLETE => False
  end.

(** One chunk that fits, with more to come or not. *)
Lemma feed_midway pdu h f c rest :
  decode_header pdu = Some h -> command_length h = Z.of_nat (length pdu) ->
  16 < command_length h < 2 ^ 32 ->
  c <> [] -> Z.of_nat (length c) <= bytes_needed f -> midway pdu h f (c ++ rest) ->
  exists f', feed_bytes c f = Some (bool_decide (rest = []), f') /\
    if decide (rest = []) then wf f' /\ full_pdu_ f' = pdu /\ framer_state_ f' = PDU_COMPLETE
    else midway pdu h f' rest.
Proof.
  intros Hdec Hcl Hr Hc Hn (Hwf & Hp & Hst). rewrite bytes_needed_missing in Hn by done.
  assert (Hlp : length pdu = (length (full_pdu_ f) + length c + length rest)%nat)
    by (rewrite <- Hp, !length_app; lia).
  assert (Hrest : rest = [] <-> length rest = 0%nat) by (by destruct rest).
  rewrite app_assoc in Hp. unfold missing in Hn. destruct (framer_state_ f) eqn:Hs; [| |done].
  - destruct (feed_header c f Hs Hst Hc) as (f' & Hf & Hwf' & Hb & Hs').
    rewrite take_ge in Hb, Hs' by lia. rewrite bool_decide_eq_false_2 by (rewrite Hrest; lia).
    exists f'. split; [done|]. rewrite decide_False by (rewrite Hrest; lia).
    split_and!; [done|by rewrite Hb|]. rewrite Hs', Hb. clear Hs'.
    case_decide as H16; rewrite length_app in H16.
    + destruct (decode_header_total (full_pdu_ f ++ c)) as (h' & Hd' & _); [rewrite length_app; lia|].
      rewrite Hd'. pose proof (decode_header_app _ rest _ Hd') as Hd''. rewrite Hp, Hdec in Hd''.
      injection Hd'' as <-. rewrite (proj2 (Z.leb_le _ _)) by lia. done.
    + rewrite length_app. lia.
  - destruct (feed_body c f h Hs Hwf Hst Hc) as (f' & Hf & Hwf' & Hb & Hs').
    assert (Hch : command_length_ f = command_length h).
    { unfold wf in Hwf. rewrite Hs in Hwf. destruct Hwf as (_ & h' & Hd & (-> & _) & _). congruence. }
    rewrite Hch in Hn. rewrite take_ge in Hb, Hs', Hf by lia.
    rewrite length_app in Hs', Hf. exists f'.
    destruct (decide (rest = [])) as [He|He]; pose proof He as Hl; rewrite Hrest in Hl.
    + rewrite bool_decide_eq_true_2 in Hs', Hf by lia. rewrite bool_decide_eq_true_2 by done.
      subst rest. rewrite app_nil_r in Hp. by rewrite Hb.
    + rewrite bool_decide_eq_false_2 in Hs', Hf by lia. rewrite bool_decide_eq_false_2 by done.
      split; [done|]. split_and!; [done|by rewrite Hb|]. rewrite Hs', Hb. by apply decode_header_app.
Qed.

Lemma feed_all_midway pdu h chunks f :
  decode_header pdu = Some h -> command_length h = Z.of_nat (length pdu) ->
  16 < command_length h < 2 ^ 32 -> chunks <> [] ->
  midway pdu h f (concat chunks) -> fits chunks f ->
  exists f', feed_all chunks f = Some (replicate (length chunks - 1) false ++ [true], f') /\
    wf f' /\ full_pdu_ f' = pdu /\ framer_state_ f' = PDU_COMPLETE.
Proof.
  intros Hdec Hcl Hr. revert f. induction chunks as [|c chunks IH]; intros f Hne Hm Hf; [done|].
  cbn [concat] in Hm. destruct Hf as (Hc & Hn & Hf).
  destruct (feed_midway pdu h f c (concat chunks) Hdec Hcl Hr Hc Hn Hm) as (f' & Hfeed & Hcase).
  cbn [feed_all]. rewrite Hfeed in Hf |- *. cbn [mbind option_bind].
  destruct chunks as [|c' chunks].
  - cbn in *. by exists f'.
  - assert (Hc' : concat (c' :: chunks) <> []) by (destruct Hf as (? & _); by destruct c').
    rewrite decide_False in Hcase by done. rewrite bool_decide_eq_false_2 by done.
    destruct (IH f') as (f2 & Hrun & Hfin); [done..|]. exists f2. split; [|done].
    rewrite Hrun. cbn. by rewrite Nat.sub_0_r.
Qed.

(** A PDU that is all header. *)
Lemma feed_all_header pdu h chunks f :
  decode_header pdu = Some h -> command_length h = 16 -> length pdu = 16%nat -> chunks <> [] ->
  framer_state_ f = WAITING_HEADER -> (length (full_pdu_ f) < 16)%nat ->
  full_pdu_ f ++ concat chunks = pdu -> fits chunks f ->
  exists f', feed_all chunks f = Some (replicate (length chunks) false, f') /\
    wf f' /\ full_pdu_ f' = pdu /\ framer_state_ f' = WAITING_BODY.
Proof.
  intros Hdec Hcl Hlp. revert f. induction chunks as [|c chunks IH]; intros f Hne Hs Hl Hp Hf; [done|].
  destruct Hf as (Hc & _ & Hf). cbn [concat] in Hp.
  assert (Hle : (length (full_pdu_ f) + length c + length (concat chunks) = 16)%nat)
    by (rewrite <- Hlp, <- Hp, !length_app; lia).
  destruct (feed_header c f Hs Hl Hc) as (f' & Hfeed & Hwf & Hb & Hs').
  rewrite take_ge in Hb, Hs' by lia. cbn [feed_all]. rewrite Hfeed in Hf |- *. cbn [mbind option_bind].
  rewrite app_assoc in Hp. destruct chunks as [|c' chunks].
  - cbn in Hp, Hle. rewrite app_nil_r in Hp. rewrite Hp in Hb, Hs'.
    rewrite decide_True, Hdec, Hcl in Hs' by done. by exists f'.
  - assert (Hc' : (0 < length (concat (c' :: chunks)))%nat).
    { destruct Hf as (? & _). destruct c'; [done|]. cbn. lia. }
    rewrite decide_False in Hs' by (rewrite length_app; lia).
    destruct (IH f') as (f2 & Hrun & Hfin); [done|done|rewrite Hb, length_app; lia|by rewrite Hb|done|].
    exists f2. split; [|done]. by rewrite Hrun.
Qed.

(** C34: Reassembly: a caller that never feeds more than [bytes_needed()] gets the PDU back.
    Whatever the chunks, when their concatenation is a PDU whose length field is its size,
    the framer holds in the end the PDU and the four fields of its header.  A PDU with a
    body is reported by the last call and no other.  One that is all header is reported by
    none of these calls, although nothing more is needed: the next call reports it, whatever
    octets it brings, and takes none of them. *)
Theorem framer_reassembles pdu h chunks :
  decode_header pdu = Some h -> command_length h = Z.of_nat (length pdu) ->
  16 <= command_length h < 2 ^ 32 -> concat chunks = pdu -> fits chunks framer_init ->
  exists reports f, feed_all chunks framer_init = Some (reports, f) /\
    full_pdu_ f = pdu /\ header_is f h /\ bytes_needed f = 0 /\
    if decide (command_length h = 16) then
      reports = replicate (length chunks) false /\
      forall data, data <> [] ->
        exists f', feed_bytes data f = Some (true, f') /\ framer_state_ f' = PDU_COMPLETE /\
          full_pdu_ f' = pdu
    else reports = replicate (length chunks - 1) false ++ [true] /\ framer_state_ f = PDU_COMPLETE.
Proof.
  intros Hdec Hcl Hr Hcat Hf.
  assert (Hne : chunks <> []) by (intros ->; subst; cbn in *; lia).
  assert (Hh : forall f, wf f -> full_pdu_ f = pdu -> framer_state_ f <> WAITING_HEADER -> header_is f h).
  { intros f Hwf Hp Hs. unfold wf in Hwf. rewrite Hp in Hwf.
    destruct (framer_state_ f); [done|destruct Hwf as (_ & h' & Hd & Hh & _)|destruct Hwf as (h' & Hd & Hh & _)];
      congruence. }
  case_decide as H16.
  - destruct (feed_all_header pdu h chunks framer_init) as (f & Hrun & Hwf & Hp & Hs);
      [done|done|lia|done|done|cbn; lia|done|done|].
    assert (Hhf : header_is f h) by (apply Hh; [done|done|by rewrite Hs]).
    eexists _, f. split_and!; [done|done|done| |done|].
    + rewrite bytes_needed_missing by done. unfold missing. destruct Hhf as [Hc _].
      rewrite Hs, Hp, Hc. lia.
    + intros data Hd. assert (Hdf : decode_header (full_pdu_ f) = Some h) by by rewrite Hp.
      destruct (feed_body data f h Hs Hwf Hdf Hd) as (f' & Hf' & _ & Hb' & Hs').
      rewrite Hp in Hb', Hf', Hs'. replace (Z.to_nat _ - _)%nat with 0%nat in Hb', Hf', Hs' by lia.
      rewrite take_0, app_nil_r in Hb', Hf', Hs'.
      rewrite bool_decide_eq_true_2 in Hf', Hs' by done. by exists f'.
  - destruct (feed_all_midway pdu h chunks framer_init) as (f & Hrun & Hwf & Hp & Hs);
      [done|done|lia|done| |done|].
    { split_and!; [left; cbn; lia|done|cbn; lia]. }
    eexists _, f. split_and!; [done|done|apply Hh; [done|done|by rewrite Hs]| |done|done].
    unfold bytes_needed. by rewrite Hs.
Qed.

Definition example_pdu : list byte := pdu_octets ENQUIRE_LINK 0 5 [x61; x62; x63].

Definition example_header_only : list byte := pdu_octets ENQUIRE_LINK 0 6 [].

Lemma framer_reassembles_witness :
  (exists reports f,
     feed_all [take 7 example_pdu; take 9 (drop 7 example_pdu); [x61]; [x62; x63]] framer_init
     = Some (reports, f) /\ full_pdu_ f = example_pdu /\
     header_is f {| command_length := 19; command_id := ENQUIRE_LINK; command_status := 0;
                    sequence_number := 5 |} /\ bytes_needed f = 0 /\
     reports = [false; false; false; true] /\ framer_state_ f = PDU_COMPLETE) /\
  exists reports f,
    feed_all [take 7 example_header_only; drop 7 example_header_only] framer_init
    = Some (reports, f) /\ full_pdu_ f = example_header_only /\
    header_is f {| command_length := 16; command_id := ENQUIRE_LINK; command_status := 0;
                   sequence_number := 6 |} /\ bytes_needed f = 0 /\
    reports = [false; false] /\
    forall data, data <> [] ->
      exists f', feed_bytes data f = Some (true, f') /\ framer_state_ f' = PDU_COMPLETE /\
        full_pdu_ f' = example_header_only.
Proof.
  split.
  - apply (framer_reassembles example_pdu
      {| command_length := 19; command_id := ENQUIRE_LINK; command_status := 0; sequence_number := 5 |}
      [take 7 example_pdu; take 9 (drop 7 example_pdu); [x61]; [x62; x63]]); by vm_compute.
  - apply (framer_reassembles example_header_only
      {| command_length := 16; command_id := ENQUIRE_LINK; command_status := 0; sequence_number := 6 |}
      [take 7 example_header_only; drop 7 example_header_only]); by vm_compute.
Defined.

(** A framer that is fed more than it needs loses the rest.  Given a whole PDU
    in one call, a fresh framer keeps its sixteen header octets only, reports no PDU
    and goes on to wait for a body of the same length, which it will take from what
    follows.  A PDU without body is not reported when it is complete either: the next
    call reports it, and the octets of that call are thrown away. *)
Theorem framer_loses_excess cid sts seq body :
  let pdu := pdu_octets cid sts seq body in
  Z.of_nat (length pdu) < 2 ^ 32 ->
  exists f, feed_bytes pdu framer_init = Some (false, f) /\
    full_pdu_ f = take 16 pdu /\ framer_state_ f = WAITING_BODY /\
    bytes_needed f = Z.of_nat (length body) /\
    (body = [] -> forall data, data <> [] ->
       exists f', feed_bytes data f = Some (true, f') /\ full_pdu_ f' = pdu).
Proof.
  intros pdu Hlen. assert (Hl : length pdu = (16 + length body)%nat) by apply length_pdu_octets.
  assert (Hh : exists h, decode_header (take 16 pdu) = Some h /\
                 command_length h = Z.of_nat (length pdu)).
  { unfold pdu, pdu_octets in *. rewrite <- (app_nil_r (take 16 _)).
    rewrite (take_app_length' (header_octets _)) by done.
    eexists. split; [apply decode_header_octets|]. cbn. rewrite u32_small; unfold is_u32; lia. }
  destruct Hh as (h & Hdec & Hcl).
  destruct (feed_header pdu framer_init) as (f & Hf & Hwf & Hb & Hs);
    [done|cbn; lia|by intros E; rewrite E in Hl|].
  cbn [framer_init full_pdu_ app length] in Hb, Hs. rewrite Nat.sub_0_r in Hb, Hs.
  rewrite length_take, decide_True, Hdec in Hs by lia.
  rewrite (proj2 (Z.leb_le _ _)) in Hs by lia. rewrite <- Hb in Hdec.
  assert (Hfh : command_length_ f = command_length h).
  { unfold wf in Hwf. rewrite Hs in Hwf. destruct Hwf as (_ & h' & Hd & (-> & _) & _). congruence. }
  exists f. split_and!; [done..| |].
  - rewrite bytes_needed_missing by done. unfold missing. rewrite Hs, Hfh, Hb, length_take. lia.
  - intros -> data Hd. destruct (feed_body data f h Hs Hwf Hdec Hd) as (f' & Hf' & _ & Hb' & _).
    replace (Z.to_nat (command_length h) - length (full_pdu_ f))%nat with 0%nat in Hb', Hf'
      by (rewrite Hb, length_take; cbn in *; lia).
    rewrite take_0, app_nil_r in Hb', Hf'. cbn [length] in Hl.
    assert (Hfull : full_pdu_ f = pdu) by (rewrite Hb; apply take_ge; lia).
    exists f'. rewrite Hb', Hfull. split; [|done]. rewrite Hf'. by rewrite bool_decide_eq_true_2 by (rewrite Hfull; lia).
Qed.

Lemma framer_loses_excess_witness :
  exists f, feed_bytes example_pdu framer_init = Some (false, f) /\
    full_pdu_ f = take 16 example_pdu /\ framer_state_ f = WAITING_BODY /\
    bytes_needed f = 3 /\
    ([x61; x62; x63] = [] -> forall data, data <> [] ->
       exists f', feed_bytes data f = Some (true, f') /\ full_pdu_ f' = example_pdu).
Proof. apply (framer_loses_excess ENQUIRE_LINK 0 5 [x61; x62; x63]). by vm_compute. Defined.

(** ** Any input *)

(** A header whose length field is below 16 stops the framer for good. *)
Lemma feed_invalid data f h :
  framer_state_ f = WAITING_HEADER -> length (full_pdu_ f) = 16%nat ->
  decode_header (full_pdu_ f) = Some h -> command_length h < 16 ->
  exists f', feed_bytes data f = Some (false, f') /\ full_pdu_ f' = full_pdu_ f /\
    framer_state_ f' = WAITING_HEADER /\ (wf f -> wf f').
Proof.
  intros Hs Hl Hdec Hcl. unfold feed_bytes. case_decide; [by exists f|].
  unfold bytes_needed. rewrite Hs, Hl. change (u64 (16 - Z.of_nat 16)) with 0.
  rewrite Z.min_r by lia. cbn [Z.to_nat take]. rewrite take_0. set (g := append_pdu [] f).
  assert (Hg : full_pdu_ g = full_pdu_ f) by (cbn; by rewrite app_nil_r).
  assert (Hgs : framer_state_ g = WAITING_HEADER) by done. rewrite Hgs. clearbody g.
  rewrite Hg, Hl. cbn [Nat.leb].
  destruct (parse_header_run g) as (h' & g' & Hdec' & Hu & -> & Hh & Hp & Hst); [by rewrite Hg|].
  rewrite Hg, Hdec in Hdec'. injection Hdec' as <-. cbn [mbind option_bind].
  pose proof Hh as (Hc & _). rewrite Hc, (proj2 (Z.leb_gt _ _)) by lia.
  exists g'. split_and!; [done|congruence|congruence|]. intros _. unfold wf.
  rewrite Hst, Hgs, Hp, Hg. right. split; [done|]. exists h. unfold is_u32 in Hu. split_and!; [done|done|lia|lia].
Qed.

(** The framer never reads outside of its buffer. *)
Lemma feed_total data f :
  wf f -> exists b f', feed_bytes data f = Some (b, f') /\ wf f'.
Proof.
  intros Hwf. destruct (decide (data = [])) as [->|Hd]; [by exists false, f|].
  destruct (framer_state_ f) eqn:Hs.
  - pose proof Hwf as Hw. unfold wf in Hw. rewrite Hs in Hw.
    destruct Hw as [Hl|(Hl & h & Hdec & _ & Hc)].
    + destruct (feed_header data f Hs Hl Hd) as (f' & ? & ? & _). eauto.
    + destruct (feed_invalid data f h) as (f' & ? & _ & _ & ?); [done..|lia|]. eauto.
  - pose proof Hwf as Hw. unfold wf in Hw. rewrite Hs in Hw. destruct Hw as (_ & h & Hdec & _).
    destruct (feed_body data f h Hs Hwf Hdec Hd) as (f' & ? & ? & _). eauto.
  - unfold feed_bytes, bytes_needed. rewrite decide_False, Hs by done.
    rewrite Z.min_r by lia. cbn [Z.to_nat]. rewrite take_0. cbn [append_pdu framer_state_]. rewrite Hs.
    do 2 eexists. split; [done|]. unfold wf in Hwf |- *. rewrite Hs in Hwf.
    cbn. rewrite Hs, app_nil_r. done.
Qed.

Lemma wf_init : wf framer_init.
Proof. left. cbn. lia. Qed.

Lemma wf_complete_length f : wf f -> framer_state_ f = PDU_COMPLETE -> (16 <= length (full_pdu_ f))%nat.
Proof. unfold wf. intros Hw Hs. rewrite Hs in Hw. destruct Hw as (h & _ & _ & ? & ?). lia. Qed.
