(* ===== verification/LegacyHandler.v ===== *)
(** * LegacyHandler: the in-process client handler of SMPPServer

    [SMPPServer/src/smpp_client_handler.cpp], [smpp_handler.cpp] and
    [smpp_session.cpp]: the handler that serves a connection inside the server,
    on a strand, with a queue of PDUs to write.  The smppcxx classes that parse
    bind requests are third-party code and a parameter; a response is the fields
    the source sets on it. *)

From S2P Require Import Prelude Pdu Framer.
#[local] Open Scope Z_scope.
#[local] Open Scope eff_scope.

(** ** [SmppSession] of the server *)

Inductive SrvState := UNBOUND | BOUND_TRANSMITTER | BOUND_RECEIVER | BOUND_TRANSCEIVER.

#[export] Instance SrvState_eq_dec : EqDecision SrvState.
Proof. solve_decision. Defined.

Record SrvSession := { ss_state_ : SrvState; ss_system_id_ : cstring; ss_sequence_counter_ : Z }.

Definition SrvSession_new : SrvSession :=
  {| ss_state_ := UNBOUND; ss_system_id_ := []; ss_sequence_counter_ := 0 |}.

Definition ss_set_state (x : SrvState) (s : SrvSession) : SrvSession :=
  {| ss_state_ := x; ss_system_id_ := ss_system_id_ s; ss_sequence_counter_ := ss_sequence_counter_ s |}.
Definition ss_set_system_id (x : cstring) (s : SrvSession) : SrvSession :=
  {| ss_state_ := ss_state_ s; ss_system_id_ := x; ss_sequence_counter_ := ss_sequence_counter_ s |}.
Definition ss_next_sequence_number (s : SrvSession) : Z * SrvSession :=
  let n := u32 (ss_sequence_counter_ s + 1) in
  (n, {| ss_state_ := ss_state_ s; ss_system_id_ := ss_system_id_ s; ss_sequence_counter_ := n |}).
Definition ss_is_bound (s : SrvSession) : bool := negb (bool_decide (ss_state_ s = UNBOUND)).

(** ** Command ids of these files *)

Definition CMD_BIND_RECEIVER : Z := 0x00000001.
Definition CMD_BIND_TRANSMITTER : Z := 0x00000002.
Definition CMD_BIND_TRANSCEIVER : Z := 0x00000009.
Definition CMD_UNBIND : Z := 0x00000006.
Definition CMD_ENQUIRE_LINK : Z := 0x0000000F.

Definition ntoh32 (buf : list byte) (off : nat) : option Z := be32_to_host buf off.

(** ** [SmppHandler] *)

(** The smppcxx response objects, with the fields that are set on them. *)
Inductive Response :=
| BindReceiverResp (status seq : Z) (system_id : cstring)
| BindTransmitterResp (status seq : Z) (system_id : cstring)
| BindTransceiverResp (status seq : Z) (system_id : cstring)
| UnbindResp (status seq : Z)
| EnquireLinkResp (status seq : Z)
| GenericNack (status seq : Z).

Definition encode_pdu (resp : Response) : list byte := [].

Definition validate_credentials (username password : cstring) : bool :=
  bool_decide (username = str "test") && bool_decide (password = str "test").

(** The response class for a bind command; anything else counts as
    transceiver. *)
Definition bind_resp (command_id status seq : Z) (system_id : cstring) : Response :=
  if command_id =? CMD_BIND_RECEIVER then BindReceiverResp status seq system_id
  else if command_id =? CMD_BIND_TRANSMITTER then BindTransmitterResp status seq system_id
  else BindTransceiverResp status seq system_id.

Definition bind_target (command_id : Z) : SrvState :=
  if command_id =? CMD_BIND_RECEIVER then BOUND_RECEIVER
  else if command_id =? CMD_BIND_TRANSMITTER then BOUND_TRANSMITTER
  else BOUND_TRANSCEIVER.

(** What the smppcxx constructor of the request makes of the octets: system id
    and password, or an exception. *)
Definition bind_parser := Z -> list byte -> option (cstring * cstring).

Definition build_bind_resp (parse : bind_parser) (command_id : Z) (raw_pdu : list byte)
    (sequence_number : Z) (session : SrvSession) : list byte * SrvSession :=
  if ss_is_bound session then
    (encode_pdu (bind_resp command_id 0x00000005 sequence_number []), session)
  else
  match parse command_id raw_pdu with
  | None => (encode_pdu (bind_resp command_id 0x0000000E sequence_number []), session)
  | Some (username, password) =>
      if negb (validate_credentials username password) then
        (encode_pdu (bind_resp command_id 0x0000000E sequence_number []), session)
      else
        (encode_pdu (bind_resp command_id 0x00000000 sequence_number (str "TestServer")),
         ss_set_state (bind_target command_id) (ss_set_system_id username session))
  end.

Definition build_unbind_resp (status seq : Z) : list byte := encode_pdu (UnbindResp status seq).
Definition build_enquire_link_resp (status seq : Z) : list byte :=
  encode_pdu (EnquireLinkResp status seq).
Definition build_generic_nack (status seq : Z) : list byte := encode_pdu (GenericNack status seq).

(** ** [SmppClientHandler] *)

Record handler := {
  framer_ : SmppPduFramer;
  session_ : SrvSession;
  write_queue_ : list (list byte);
  write_in_progress_ : bool;
  close_after_write_ : bool
}.

Definition handler_new : handler :=
  {| framer_ := framer_init; session_ := SrvSession_new; write_queue_ := [];
     write_in_progress_ := false; close_after_write_ := false |}.

Definition set_framer x h := {| framer_ := x; session_ := session_ h; write_queue_ := write_queue_ h;
  write_in_progress_ := write_in_progress_ h; close_after_write_ := close_after_write_ h |}.
Definition set_session x h := {| framer_ := framer_ h; session_ := x; write_queue_ := write_queue_ h;
  write_in_progress_ := write_in_progress_ h; close_after_write_ := close_after_write_ h |}.
Definition set_queue x h := {| framer_ := framer_ h; session_ := session_ h; write_queue_ := x;
  write_in_progress_ := write_in_progress_ h; close_after_write_ := close_after_write_ h |}.
Definition set_in_progress x h := {| framer_ := framer_ h; session_ := session_ h;
  write_queue_ := write_queue_ h; write_in_progress_ := x; close_after_write_ := close_after_write_ h |}.
Definition set_close_after x h := {| framer_ := framer_ h; session_ := session_ h;
  write_queue_ := write_queue_ h; write_in_progress_ := write_in_progress_ h; close_after_write_ := x |}.

Inductive h_effect :=
| ReadSome                          (* async_read_some into read_buf_ *)
| WritePdu (pdu : list byte)        (* async_write of the front of the queue *)
| StopAuthenticator
| CloseSocket (reason : cstring).

Abbreviation HM := (M handler h_effect Empty_set).

Definition do_read : HM unit := emit ReadSome.

Definition do_write : HM unit :=
  h <- eget ;;
  match write_queue_ h with
  | [] => emodify (set_in_progress false)
  | pdu :: _ => emit (WritePdu pdu)
  end.

Definition enqueue_pdu (pdu : list byte) : HM unit :=
  emodify (fun h => set_queue (write_queue_ h ++ [pdu]) h) ;;;
  h <- eget ;;
  if negb (write_in_progress_ h) then
    emodify (set_in_progress true) ;;;
    do_write
  else eret ().

(** [asio::dispatch] on the strand: the handler runs at once when the caller is
    on the strand, as all callers of this file are, and as an event of its own
    otherwise. *)
Definition send_pdu (pdu : list byte) : HM unit := enqueue_pdu pdu.

Definition close (reason : cstring) : HM unit :=
  emit StopAuthenticator ;;;
  emit (CloseSocket reason).

Definition on_write (ec : option cstring) : HM unit :=
  match ec with
  | Some msg => close (str "write error: " ++ msg)
  | None =>
      emodify (fun h => set_queue (tail (write_queue_ h)) h) ;;;
      h <- eget ;;
      if close_after_write_ h then close (str "UNBIND complete") else
      match write_queue_ h with
      | _ :: _ => do_write
      | [] => emodify (set_in_progress false)
      end
  end.

Section Handler.
Context (parse : bind_parser).

(** [build_bind_resp] catches every exception of the parser, so that the
    [catch] of the source is never entered. *)
Definition handle_bind (command_id : Z) (raw_pdu : list byte) (sequence_number : Z) : HM unit :=
  h <- eget ;;
  let '(resp, ses) := build_bind_resp parse command_id raw_pdu sequence_number (session_ h) in
  emodify (set_session ses) ;;;
  send_pdu resp.

Definition handle_unbind (sequence_number : Z) : HM unit :=
  h <- eget ;;
  if negb (ss_is_bound (session_ h)) then send_pdu (build_unbind_resp 0x0000000D sequence_number)
  else
  emodify (set_close_after true) ;;;
  send_pdu (build_unbind_resp 0x00000000 sequence_number) ;;;
  emodify (fun h => set_session (ss_set_state UNBOUND (session_ h)) h).

Definition handle_enquire_link (sequence_number : Z) : HM unit :=
  h <- eget ;;
  if negb (ss_is_bound (session_ h))
  then send_pdu (build_enquire_link_resp 0x0000000D sequence_number)
  else send_pdu (build_enquire_link_resp 0x00000000 sequence_number).

Definition handle_unknown (command_id sequence_number : Z) : HM unit :=
  send_pdu (build_generic_nack 0x00000003 sequence_number).

Definition dispatch_pdu (full_pdu : list byte) : HM unit :=
  if (length full_pdu <? 16)%nat then eret () else
  command_id <- edefined (ntoh32 full_pdu 4) ;;
  sequence_number <- edefined (ntoh32 full_pdu 12) ;;
  if (command_id =? CMD_BIND_RECEIVER) || (command_id =? CMD_BIND_TRANSMITTER)
     || (command_id =? CMD_BIND_TRANSCEIVER) then handle_bind command_id full_pdu sequence_number
  else if command_id =? CMD_UNBIND then handle_unbind sequence_number
  else if command_id =? CMD_ENQUIRE_LINK then handle_enquire_link sequence_number
  else handle_unknown command_id sequence_number.

(** The [while] loop of [on_read]; it runs at most once, because [reset] leaves
    the framer waiting for a header.  Running out of fuel counts as undefined. *)
Fixpoint dispatch_loop (fuel : nat) : HM unit :=
  match fuel with
  | O => edefined None
  | S fuel =>
      h <- eget ;;
      if decide (framer_state_ (framer_ h) = PDU_COMPLETE) then
        dispatch_pdu (full_pdu_ (framer_ h)) ;;;
        emodify (fun h => set_framer (reset (framer_ h)) h) ;;;
        dispatch_loop fuel
      else eret ()
  end.

Definition on_read (r : cstring + list byte) : HM unit :=
  match r with
  | inl msg => close (str "read error: " ++ msg)
  | inr data =>
      h <- eget ;;
      fed <- edefined (feed_bytes data (framer_ h)) ;;
      emodify (set_framer (snd fed)) ;;;
      dispatch_loop 2 ;;;
      do_read
  end.

Definition start : HM unit := do_read.
End Handler.

(** ** The handler on its strand *)

(** What is outstanding with asio, and all effects so far. *)
Record hworld := { hw_reads : nat; hw_writes : list (list byte); hw_trace : list h_effect }.

Definition h_interp (e : h_effect) (w : hworld) : hworld :=
  let tr := hw_trace w ++ [e] in
  match e with
  | ReadSome => {| hw_reads := S (hw_reads w); hw_writes := hw_writes w; hw_trace := tr |}
  | WritePdu p => {| hw_reads := hw_reads w; hw_writes := hw_writes w ++ [p]; hw_trace := tr |}
  | _ => {| hw_reads := hw_reads w; hw_writes := hw_writes w; hw_trace := tr |}
  end.

Record hconfig := { hc_obj : handler; hc_world : hworld; hc_crashed : bool }.

Definition h_exec (m : HM unit) (h : handler) (w : hworld) : hconfig :=
  let '(r, h', es) := m h in
  {| hc_obj := h'; hc_world := interp_all h_interp es w;
     hc_crashed := match r with Ret _ => false | _ => true end |}.

Inductive h_event :=
| HRead (r : cstring + list byte)     (* the outstanding read completes *)
| HWrite (ec : option cstring)        (* the oldest outstanding write completes *)
| HSend (pdu : list byte).            (* send_pdu from outside the strand *)

Definition h_activate (parse : bind_parser) (ev : h_event) (c : hconfig) : option hconfig :=
  let w := hc_world c in
  match ev with
  | HRead r =>
      match hw_reads w with
      | S n => Some (h_exec (on_read parse r) (hc_obj c)
                       {| hw_reads := n; hw_writes := hw_writes w; hw_trace := hw_trace w |})
      | O => None
      end
  | HWrite ec =>
      match hw_writes w with
      | _ :: ws => Some (h_exec (on_write ec) (hc_obj c)
                           {| hw_reads := hw_reads w; hw_writes := ws; hw_trace := hw_trace w |})
      | [] => None
      end
  | HSend pdu => Some (h_exec (send_pdu pdu) (hc_obj c) w)
  end.

Definition h_step (c : hconfig) (l : bind_parser * h_event) (c' : hconfig) : Prop :=
  h_activate (fst l) (snd l) c = Some c'.

Definition h_start : hconfig :=
  h_exec start handler_new {| hw_reads := 0; hw_writes := []; hw_trace := [] |}.

Definition h_init (c : hconfig) : Prop := c = h_start.

(** ** What the functions do *)

Definition enqueued (pdu : list byte) (h : handler) : handler :=
  set_in_progress true (set_queue (write_queue_ h ++ [pdu]) h).

Lemma enqueue_pdu_run pdu h :
  enqueue_pdu pdu h
  = (Ret (), enqueued pdu h,
     if write_in_progress_ h then []
     else match write_queue_ h with p :: _ => [WritePdu p] | [] => [WritePdu pdu] end).
Proof.
  unfold enqueue_pdu, do_write, ebind, emodify, eget, enqueued.
  destruct h as [f s q [] c]; cbn; [done|]. by destruct q.
Qed.

(** Every handler enqueues one response, which is empty, and otherwise changes
    the session and the closing flag only. *)
Lemma dispatch_pdu_run parse full_pdu h :
  (16 <= length full_pdu)%nat ->
  exists ses cl,
    dispatch_pdu parse full_pdu h
    = (Ret (), set_session ses (set_close_after cl (enqueued [] h)),
       run_effects (enqueue_pdu [] h)).
Proof.
  intros Hl. unfold dispatch_pdu. rewrite (proj2 (Nat.ltb_ge _ _)) by lia.
  destruct (read_u32_Some full_pdu 4) as (cid & Hcid & _); [lia|].
  destruct (read_u32_Some full_pdu 12) as (seq & Hseq & _); [lia|].
  unfold ntoh32. rewrite !be32_read_u32, Hcid, Hseq. unfold edefined, ebind at 1 2.
  assert (He : forall pdu g, send_pdu pdu g = (Ret (), enqueued pdu g, run_effects (enqueue_pdu pdu g)))
    by (intros; unfold send_pdu; by rewrite enqueue_pdu_run).
  destruct (_ || _ || _).
  { unfold handle_bind, ebind, eget, emodify.
    destruct (build_bind_resp _ _ _ _ _) as [resp ses] eqn:Hb.
    assert (resp = []) as -> by (unfold build_bind_resp in Hb; by repeat case_match; simplify_eq).
    exists ses, (close_after_write_ h). rewrite He, !enqueue_pdu_run. by destruct h. }
  destruct (cid =? CMD_UNBIND).
  { unfold handle_unbind, ebind, eget, emodify. destruct (negb _).
    - exists (session_ h), (close_after_write_ h). rewrite He, !enqueue_pdu_run. by destruct h.
    - exists (ss_set_state UNBOUND (session_ h)), true. rewrite He, !enqueue_pdu_run.
      destruct h as [f s q [] c]; cbn; [done|]. by destruct q. }
  destruct (cid =? CMD_ENQUIRE_LINK).
  { unfold handle_enquire_link, ebind, eget. exists (session_ h), (close_after_write_ h).
    destruct (negb _); rewrite He, !enqueue_pdu_run; by destruct h as [f s q [] c]; cbn; try destruct q. }
  exists (session_ h), (close_after_write_ h). unfold handle_unknown.
  rewrite He, !enqueue_pdu_run. by destruct h as [f s q [] c]; cbn; try destruct q.
Qed.

(** The effect of a read: the framer moves on, and at most one empty response is
    enqueued. *)
Lemma on_read_run parse data h :
  wf (framer_ h) -> framer_state_ (framer_ h) <> PDU_COMPLETE ->
  exists f', wf f' /\ framer_state_ f' <> PDU_COMPLETE /\
    (on_read parse (inr data) h = (Ret (), set_framer f' h, [ReadSome]) \/
     exists ses cl, on_read parse (inr data) h
       = (Ret (), set_framer f' (set_session ses (set_close_after cl (enqueued [] h))),
          run_effects (enqueue_pdu [] h) ++ [ReadSome])).
Proof.
  intros Hwf Hs. destruct (feed_total data (framer_ h) Hwf) as (b & f & Hf & Hwf').
  assert (Hrun : forall h' es, dispatch_loop parse 2 (set_framer f h) = (Ret (), h', es) ->
            on_read parse (inr data) h = (Ret (), h', es ++ [ReadSome])).
  { intros h' es Hloop. cbn [on_read]. erewrite ebind_run by done.
    erewrite ebind_run by (unfold edefined; by rewrite Hf). erewrite ebind_run by done.
    by erewrite ebind_run by exact Hloop. }
  cbn [dispatch_loop] in Hrun. assert (Hg : framer_ (set_framer f h) = f) by done.
  destruct (decide (framer_state_ f = PDU_COMPLETE)) as [Hc|Hc].
  - destruct (dispatch_pdu_run parse (full_pdu_ f) (set_framer f h)) as (ses & cl & Hd);
      [by apply wf_complete_length|].
    exists (reset f). split_and!; [apply wf_init|done|]. right. exists ses, cl. apply Hrun.
    erewrite ebind_run by done. rewrite Hg, decide_True by done.
    erewrite ebind_run by exact Hd. cbn [emodify ebind]. rewrite !enqueue_pdu_run.
    destruct h as [? ? [] [] ?]; reflexivity.
  - exists f. split_and!; [done|done|]. left. apply (Hrun _ []).
    erewrite ebind_run by done. by rewrite Hg, decide_False.
Qed.

Lemma on_write_run ec h :
  on_write ec h
  = match ec with
    | Some msg => (Ret (), h, [StopAuthenticator; CloseSocket (str "write error: " ++ msg)])
    | None =>
        let h' := set_queue (tail (write_queue_ h)) h in
        if close_after_write_ h then
          (Ret (), h', [StopAuthenticator; CloseSocket (str "UNBIND complete")])
        else match tail (write_queue_ h) with
             | p :: _ => (Ret (), h', [WritePdu p])
             | [] => (Ret (), set_in_progress false h', [])
             end
    end.
Proof.
  destruct ec as [msg|]; [done|]. unfold on_write, ebind, emodify, eget, do_write.
  destruct h as [f s q i []]; cbn; [done|]. by destruct (tail q).
Qed.

(** ** The write side *)

(** The PDUs handed to [async_write], in order. *)
Definition h_written (es : list h_effect) : list (list byte) :=
  omap (fun e => match e with WritePdu p => Some p | _ => None end) es.

Definition h_closed (es : list h_effect) : Prop := exists reason, CloseSocket reason ∈ es.

(** Nothing to write; a write of the front of the queue outstanding; or, after a
    close, neither. *)
Inductive write_side (h : handler) (ws : list (list byte)) (es : list h_effect) : Prop :=
| ws_idle : write_in_progress_ h = false -> write_queue_ h = [] -> ws = [] -> write_side h ws es
| ws_busy p q : write_in_progress_ h = true -> write_queue_ h = p :: q -> ws = [p] -> write_side h ws es
| ws_stuck : write_in_progress_ h = true -> ws = [] -> h_closed es -> write_side h ws es.

Record hinv (c : hconfig) : Prop := {
  hinv_ok : hc_crashed c = false;
  hinv_wf : wf (framer_ (hc_obj c));
  hinv_open : framer_state_ (framer_ (hc_obj c)) <> PDU_COMPLETE;
  hinv_side : write_side (hc_obj c) (hw_writes (hc_world c)) (hw_trace (hc_world c))
}.

Lemma h_closed_app es es' : h_closed es -> h_closed (es ++ es').
Proof. intros [r Hr]. exists r. set_solver. Qed.

Lemma h_closed_last es e r : h_closed ((es ++ [e]) ++ [CloseSocket r]).
Proof. exists r. set_solver. Qed.

(** One more PDU in the queue. *)
Lemma write_side_enqueue pdu h w :
  write_side h (hw_writes w) (hw_trace w) ->
  let w' := interp_all h_interp (run_effects (enqueue_pdu pdu h)) w in
  write_side (enqueued pdu h) (hw_writes w') (hw_trace w') /\
  (~ h_closed (hw_trace w') ->
   h_written (hw_trace w') ++ tail (write_queue_ (enqueued pdu h))
   = (h_written (hw_trace w) ++ tail (write_queue_ h)) ++ [pdu]).
Proof.
  intros Hws. rewrite enqueue_pdu_run.
  destruct Hws as [Hi Hq Hw|p q Hi Hq Hw|Hi Hw Hc]; rewrite ?Hi, ?Hq; cbn.
  - split; [eapply ws_busy; cbn; rewrite ?Hq, ?Hw; done|]. intros _. rewrite Hq.
    unfold h_written. rewrite omap_app. cbn. by rewrite !app_nil_r.
  - rewrite Hq. split; [eapply ws_busy; cbn; rewrite ?Hq; done|]. intros _. cbn. by rewrite app_assoc.
  - split; [by apply ws_stuck|]. by intros [].
Qed.

Lemma write_side_frame h h' w :
  write_in_progress_ h' = write_in_progress_ h -> write_queue_ h' = write_queue_ h ->
  write_side h (hw_writes w) (hw_trace w) -> write_side h' (hw_writes w) (hw_trace w).
Proof.
  intros Hi Hq [? ? ?|p q ? ? ?|? ? ?]; 
    [apply ws_idle|apply (ws_busy _ _ _ p q)|apply ws_stuck]; by rewrite ?Hi, ?Hq.
Qed.

Lemma write_side_silent h w e :
  (forall p, e <> WritePdu p) -> write_side h (hw_writes w) (hw_trace w) ->
  write_side h (hw_writes (h_interp e w)) (hw_trace (h_interp e w)).
Proof.
  intros He Hws. assert (hw_writes (h_interp e w) = hw_writes w /\
    hw_trace (h_interp e w) = hw_trace w ++ [e]) as [-> ->] by (destruct e; [done|by destruct (He pdu)|done|done]).
  destruct Hws as [? ? ?|p q ? ? ?|? ? ?]; [by apply ws_idle|by eapply ws_busy|].
  apply ws_stuck; [done..|]. by apply h_closed_app.
Qed.

Lemma h_written_silent es e : (forall p, e <> WritePdu p) -> h_written (es ++ [e]) = h_written es.
Proof.
  intros He. unfold h_written. rewrite omap_app. destruct e; cbn; rewrite ?app_nil_r; try done.
  by destruct (He pdu).
Qed.

(** What one event adds to the PDUs that were or will be written. *)
Definition h_pipeline (c : hconfig) : list (list byte) :=
  h_written (hw_trace (hc_world c)) ++ tail (write_queue_ (hc_obj c)).

Definition h_adds (ev : h_event) (added : list (list byte)) : Prop :=
  match ev with
  | HRead _ => added = [] \/ added = [[]]
  | HWrite _ => added = []
  | HSend pdu => added = [pdu]
  end.

Lemma h_step_read parse r c c' :
  hinv c -> h_activate parse (HRead r) c = Some c' ->
  hinv c' /\ (~ h_closed (hw_trace (hc_world c')) ->
              exists added, h_adds (HRead r) added /\ h_pipeline c' = h_pipeline c ++ added).
Proof.
  intros [Hok Hwf Hop Hws] Ha. cbn in Ha. destruct c as [h [rd ws tr] cr]; cbn in *.
  destruct rd as [|n]; [done|]. injection Ha as <-. set (w := {| hw_reads := n; hw_writes := ws; hw_trace := tr |}).
  change ws with (hw_writes w) in Hws. change tr with (hw_trace w) in Hws.
  destruct r as [msg|data].
  - split.
    + constructor; [done..|]. 
      apply (write_side_silent h (h_interp StopAuthenticator w)
               (CloseSocket (str "read error: " ++ msg))); [done|].
      by apply (write_side_silent h w).
    + by intros []; apply h_closed_last.
  - destruct (on_read_run parse data h Hwf Hop) as (f' & Hwf' & Hop' & Hcase).
    unfold h_exec, h_pipeline. destruct Hcase as [Hr|(ses & cl & Hr)]; rewrite Hr; cbn [hc_obj hc_world].
    + split.
      * constructor; [done..|]. apply write_side_silent; [done|]. by apply (write_side_frame h).
      * intros _. exists []. split; [by left|]. cbn. by rewrite h_written_silent, app_nil_r.
    + rewrite interp_all_app. destruct (write_side_enqueue [] h w Hws) as [Hs Hp].
      set (w' := interp_all h_interp (run_effects (enqueue_pdu [] h)) w) in *. split.
      * constructor; [done..|]. apply write_side_silent; [done|].
        by apply (write_side_frame (enqueued [] h)).
      * intros Hn. exists [[]]. split; [by right|]. cbn. rewrite h_written_silent by done.
        apply Hp. contradict Hn. by apply h_closed_app.
Qed.

Lemma h_step_write parse ec c c' :
  hinv c -> h_activate parse (HWrite ec) c = Some c' ->
  hinv c' /\ (~ h_closed (hw_trace (hc_world c')) -> h_pipeline c' = h_pipeline c).
Proof.
  intros [Hok Hwf Hop Hws] Ha. cbn in Ha. destruct c as [h [rd ws tr] cr]; cbn in *.
  destruct ws as [|p ws]; [done|]. injection Ha as <-.
  destruct Hws as [|p' q Hi Hq Hw|]; [done| |done]. injection Hw as <- ->.
  unfold h_exec. rewrite on_write_run, Hq. destruct ec as [msg|]; cbn [tail].
  { split; [|by intros []; apply h_closed_last].
    constructor; [done..|]. apply ws_stuck; [done|done|]. apply h_closed_last. }
  destruct (close_after_write_ h).
  { split; [|by intros []; apply h_closed_last].
    constructor; [done..|]. apply ws_stuck; [done|done|]. apply h_closed_last. }
  unfold h_pipeline. destruct q as [|p2 q]; cbn; rewrite ?Hq; cbn.
  - split; [|done]. constructor; [done..|]. by apply ws_idle.
  - split.
    + constructor; [done..|]. by eapply ws_busy.
    + intros _. unfold h_written. rewrite omap_app. cbn. by rewrite <- app_assoc.
Qed.

Lemma h_step_inv c l c' :
  hinv c -> h_step c l c' ->
  hinv c' /\ (~ h_closed (hw_trace (hc_world c')) ->
              exists added, h_adds (snd l) added /\ h_pipeline c' = h_pipeline c ++ added).
Proof.
  destruct l as [parse ev]. unfold h_step. cbn [fst snd]. intros Hi Ha.
  destruct ev as [r|ec|pdu]; [by eapply h_step_read| |].
  - destruct (h_step_write _ _ _ _ Hi Ha) as [? Hp]. split; [done|]. intros Hn.
    exists []. by rewrite app_nil_r, Hp.
  - injection Ha as <-. destruct Hi as [Hok Hwf Hop Hws].
    destruct (write_side_enqueue pdu _ _ Hws) as [Hs Hp]. unfold h_exec, send_pdu, h_pipeline.
    pose proof (enqueue_pdu_run pdu (hc_obj c)) as Hr. rewrite Hr in Hs, Hp |- *.
    cbn [run_effects snd] in Hs, Hp. split; [by constructor|].
    intros Hn. exists [pdu]. split; [done|]. by apply Hp.
Qed.

Lemma h_reachable_inv c : reachable h_init h_step c -> hinv c.
Proof.
  apply invariant_rule; [|intros ? ? ? _ Hi Hs; by eapply h_step_inv].
  intros ? ->. constructor; [done|apply wf_init|done|by apply ws_idle].
Qed.

(** ** Properties *)

(** The write queue is a FIFO with one write at a time: in every reachable
    configuration at most one [async_write] is outstanding and nothing has crashed;
    and until the socket is closed, an event appends to the sequence of PDUs that were
    or will be written what it sends and changes nothing else of it: the PDU itself
    for [send_pdu], nothing for the completion of a write, at most one response for a
    read. *)
Theorem write_queue_fifo c l c' :
  reachable h_init h_step c -> h_step c l c' ->
  hc_crashed c' = false /\ (length (hw_writes (hc_world c')) <= 1)%nat /\
  (~ h_closed (hw_trace (hc_world c')) ->
   exists added, h_adds (snd l) added /\ h_pipeline c' = h_pipeline c ++ added).
Proof.
  intros Hr%h_reachable_inv Hs. destruct (h_step_inv c l c' Hr Hs) as [Hi' Hp].
  destruct Hi' as [Hok _ _ Hws]. split_and!; [done| |done].
  destruct Hws as [_ _ ->|p q _ _ ->|_ -> _]; cbn; lia.
Qed.

Definition no_parser : bind_parser := fun _ _ => None.

Lemma write_queue_fifo_witness :
  let c' := h_exec (send_pdu [x01]) (hc_obj h_start) (hc_world h_start) in
  hc_crashed c' = false /\ (length (hw_writes (hc_world c')) <= 1)%nat /\
  (~ h_closed (hw_trace (hc_world c')) ->
   exists added, h_adds (HSend [x01]) added /\ h_pipeline c' = h_pipeline h_start ++ added).
Proof.
  apply (write_queue_fifo h_start (no_parser, HSend [x01])); [by apply reachable_init|done].
Defined.

(** Steps of a handler that nobody else sends through. *)
Definition own_step (c : hconfig) (l : bind_parser * h_event) (c' : hconfig) : Prop :=
  h_step c l c' /\ forall pdu, snd l <> HSend pdu.

(** All that is queued or was written is empty. *)
Definition mute (c : hconfig) : Prop :=
  hinv c /\ Forall (fun p => p = []) (write_queue_ (hc_obj c)) /\
  Forall (fun p => p = []) (h_written (hw_trace (hc_world c))).

Lemma h_written_app es es' : h_written (es ++ es') = h_written es ++ h_written es'.
Proof. apply omap_app. Qed.

Lemma h_trace_all es w : hw_trace (interp_all h_interp es w) = hw_trace w ++ es.
Proof.
  revert w. induction es as [|e es IH]; intros w; [by rewrite app_nil_r|].
  change (interp_all h_interp (e :: es) w) with (interp_all h_interp es (h_interp e w)).
  rewrite IH. replace (hw_trace (h_interp e w)) with (hw_trace w ++ [e]) by by destruct e.
  by rewrite <- app_assoc.
Qed.

Lemma mute_step c l c' : mute c -> own_step c l c' -> mute c'.
Proof.
  intros (Hi & Hq & Hw) [Hs Hn]. pose proof (proj1 (h_step_inv c l c' Hi Hs)) as Hi'.
  split; [done|]. clear Hi'. destruct l as [parse [r|ec|pdu]]; [| |by destruct (Hn pdu)];
    unfold h_step in Hs; cbn in Hs.
  - destruct (hw_reads _); [done|]. injection Hs as <-. destruct r as [msg|data].
    { cbn. by rewrite !h_written_silent. }
    destruct Hi as [_ Hwf Hop _].
    destruct (on_read_run parse data _ Hwf Hop) as (f' & _ & _ & [Hr|(ses & cl & Hr)]);
      unfold h_exec; rewrite Hr; cbn [hc_obj hc_world]; rewrite h_trace_all, h_written_app; cbn [hw_trace].
    + by rewrite app_nil_r.
    + rewrite enqueue_pdu_run. cbn. split; [by apply Forall_app; repeat constructor|].
      apply Forall_app. split; [done|]. destruct (write_in_progress_ _); [constructor|].
      destruct (write_queue_ _); [by repeat constructor|]. inversion Hq; subst. by repeat constructor.
  - destruct (hw_writes _) as [|p ws]; [done|]. injection Hs as <-. unfold h_exec. rewrite on_write_run.
    assert (Ht : Forall (fun p => p = []) (tail (write_queue_ (hc_obj c)))) by (by inversion Hq).
    destruct ec as [msg|]; [|destruct (close_after_write_ _);
      [|destruct (tail (write_queue_ (hc_obj c))) as [|p2 q] eqn:Htl]]; cbn [hc_obj hc_world];
      rewrite h_trace_all, h_written_app; cbn; rewrite ?Htl, ?app_nil_r; try done.
    inversion Ht; subst. split; [done|]. apply Forall_app. by repeat constructor.
Qed.

(** The handler never answers: [encode_pdu] returns an empty vector, so that
    whatever is received, and however often, every PDU the handler itself hands to
    [async_write] is empty: not one octet reaches the peer. *)
Theorem handler_never_answers c :
  reachable h_init own_step c -> concat (h_written (hw_trace (hc_world c))) = [].
Proof.
  intros Hr. assert (Hm : mute c).
  { revert c Hr. apply invariant_rule; [|intros ? ? ? _; apply mute_step].
    intros ? ->. split; [|by repeat constructor].
    apply h_reachable_inv. by apply reachable_init. }
  destruct Hm as (_ & _ & Hw). by induction Hw as [|p ps -> _ IH].
Qed.

(** A bind request with the built-in credentials, in two reads. *)
Definition example_bind_events : list h_event :=
  let pdu := pdu_octets CMD_BIND_RECEIVER 0 1 (str "test" ++ [x00]) in
  [HRead (inr (take 16 pdu)); HRead (inr (drop 16 pdu))].

Definition example_bind_parser : bind_parser := fun _ _ => Some (str "test", str "test").

Definition h_run (parse : bind_parser) (evs : list h_event) (c : hconfig) : hconfig :=
  foldl (fun c ev => default c (h_activate parse ev c)) c evs.

Lemma handler_never_answers_witness :
  concat (h_written (hw_trace (hc_world (h_run example_bind_parser example_bind_events h_start)))) = [].
Proof.
  apply (handler_never_answers (h_run example_bind_parser example_bind_events h_start)).
  eapply (reachable_step _ _ _ (example_bind_parser, nth 1 example_bind_events (HSend [])));
    [eapply (reachable_step _ _ _ (example_bind_parser, nth 0 example_bind_events (HSend [])));
      [by apply reachable_init|]|].
  - split; [by vm_compute|done].
  - split; [by vm_compute|done].
Defined.

(** An UNBIND that arrives while another response is being written loses its
    own response: the flag that is meant to close the socket after the UNBIND_RESP
    closes it when the earlier write completes; the response stays in the queue. *)
Theorem unbind_resp_lost sequence_number h p :
  ss_is_bound (session_ h) = true -> write_in_progress_ h = true -> write_queue_ h = [p] ->
  exists h', (handle_unbind sequence_number ;;; on_write None) h
    = (Ret (), h', [StopAuthenticator; CloseSocket (str "UNBIND complete")]) /\
    write_queue_ h' = [build_unbind_resp 0x00000000 sequence_number].
Proof.
  intros Hb Hi Hq. eexists. split.
  - erewrite ebind_run.
    2: { unfold handle_unbind. erewrite ebind_run by done. rewrite Hb. cbn [negb].
         erewrite ebind_run by done. unfold send_pdu.
         erewrite ebind_run by apply enqueue_pdu_run. cbn. rewrite Hi. done. }
    rewrite on_write_run. cbn. rewrite Hq. done.
  - done.
Qed.

Lemma unbind_resp_lost_witness :
  let h := hc_obj (h_run example_bind_parser example_bind_events h_start) in
  exists h', (handle_unbind 2 ;;; on_write None) h
    = (Ret (), h', [StopAuthenticator; CloseSocket (str "UNBIND complete")]) /\
    write_queue_ h' = [build_unbind_resp 0x00000000 2].
Proof.
  apply (unbind_resp_lost 2 (hc_obj (h_run example_bind_parser example_bind_events h_start)) []);
    by vm_compute.
Defined.
