(* ===== verification/StateMachine.v ===== *)
(** * StateMachine: the switch-based client state machine of SmppClientHandler

    [smpp_state_machine.hpp] and [smpp_state_machine.cpp].  Registered callbacks
    are effects; logging is left out. *)

From S2P Require Import Prelude.
#[local] Open Scope Z_scope.
#[local] Open Scope eff_scope.

(** [std::to_string] of an unsigned value; ten digits are enough for 32 bits. *)
Fixpoint dec_digits (fuel : nat) (n : Z) (acc : cstring) : cstring :=
  match fuel with
  | O => acc
  | S fuel =>
      let acc := byte_of_Z (48 + n mod 10) :: acc in
      if n <? 10 then acc else dec_digits fuel (n / 10) acc
  end.

Definition to_string (n : Z) : cstring := dec_digits 10 n [].

(** ** Command ids and statuses (smpp_state_machine.hpp) *)

Definition BindReceiver : Z := 0x00000001.
Definition BindTransmitter : Z := 0x00000002.
Definition BindTransceiver : Z := 0x00000009.
Definition Unbind : Z := 0x00000006.
Definition EnquireLink : Z := 0x00000015.
Definition BindReceiverResp : Z := 0x80000001.
Definition BindTransmitterResp : Z := 0x80000002.
Definition BindTransceiverResp : Z := 0x80000009.
Definition UnbindResp : Z := 0x80000006.
Definition EnquireLinkResp : Z := 0x80000015.
Definition SM_ESME_ROK : Z := 0x00000000.

(** ** The switch-based machine *)

Inductive SmppState :=
| IDLE | CONNECTED | BINDING | BOUND_TX | BOUND_RX | BOUND_TRX | UNBINDING | DISCONNECTED
| ERROR_STATE.

#[export] Instance SmppState_eq_dec : EqDecision SmppState.
Proof. solve_decision. Defined.

Record SmppEvent := {
  ev_command_id : Z;
  ev_status_code : Z;
  ev_error_msg : cstring;
  ev_sequence_num : Z
}.

(** Which callbacks are registered. *)
Record callbacks := {
  has_transition : bool; has_bind_success : bool; has_unbind_success : bool; has_error : bool
}.

Record SmppStateMachine := { current_state_ : SmppState; cbs_ : callbacks }.

Inductive sm_effect :=
| CbTransition (from to : SmppState)
| CbBindSuccess (ev : SmppEvent)
| CbUnbindSuccess (ev : SmppEvent)
| CbError (msg : cstring).

Abbreviation SMM := (M SmppStateMachine sm_effect Empty_set).

Definition sm_new : SmppStateMachine :=
  {| current_state_ := IDLE;
     cbs_ := {| has_transition := false; has_bind_success := false; has_unbind_success := false;
                has_error := false |} |}.

Definition is_bind_response (cmd_id : Z) : bool :=
  (cmd_id =? BindTransmitterResp) || (cmd_id =? BindReceiverResp) || (cmd_id =? BindTransceiverResp).

Definition get_bind_state_from_response (cmd_id : Z) : SmppState :=
  if cmd_id =? BindTransmitterResp then BOUND_TX
  else if cmd_id =? BindReceiverResp then BOUND_RX
  else if cmd_id =? BindTransceiverResp then BOUND_TRX
  else ERROR_STATE.

Definition state_to_string (s : SmppState) : cstring :=
  match s with
  | IDLE => str "IDLE" | CONNECTED => str "CONNECTED" | BINDING => str "BINDING"
  | BOUND_TX => str "BOUND_TX" | BOUND_RX => str "BOUND_RX" | BOUND_TRX => str "BOUND_TRX"
  | UNBINDING => str "UNBINDING" | DISCONNECTED => str "DISCONNECTED"
  | ERROR_STATE => str "ERROR_STATE"
  end.

Definition is_bound (m : SmppStateMachine) : bool :=
  match current_state_ m with BOUND_TX | BOUND_RX | BOUND_TRX => true | _ => false end.
Definition can_send (m : SmppStateMachine) : bool :=
  match current_state_ m with BOUND_TX | BOUND_TRX => true | _ => false end.
Definition can_receive (m : SmppStateMachine) : bool :=
  match current_state_ m with BOUND_RX | BOUND_TRX => true | _ => false end.

Definition transition_to (new_state : SmppState) : SMM unit :=
  m <- eget ;;
  if decide (current_state_ m = new_state) then eret () else
  let old_state := current_state_ m in
  emodify (fun m => {| current_state_ := new_state; cbs_ := cbs_ m |}) ;;;
  ewhen (has_transition (cbs_ m)) (emit (CbTransition old_state new_state)).

Definition request_bind (bind_command_id : Z) : SMM bool :=
  m <- eget ;;
  if negb (bool_decide (current_state_ m = CONNECTED)) then eret false else
  if negb (bind_command_id =? BindTransmitter) && negb (bind_command_id =? BindReceiver)
     && negb (bind_command_id =? BindTransceiver) then eret false else
  transition_to BINDING ;;;
  eret true.

Definition request_unbind : SMM bool :=
  m <- eget ;;
  if negb (is_bound m) then eret false else
  transition_to UNBINDING ;;;
  eret true.

Definition request_enquire_link : SMM bool :=
  m <- eget ;; if negb (is_bound m) then eret false else eret true.

Definition handle_error (error_msg : cstring) : SMM unit :=
  transition_to ERROR_STATE ;;;
  m <- eget ;;
  ewhen (has_error (cbs_ m)) (emit (CbError error_msg)).

Definition handle_bind_response (event : SmppEvent) : SMM unit :=
  if ev_status_code event =? SM_ESME_ROK then
    transition_to (get_bind_state_from_response (ev_command_id event)) ;;;
    m <- eget ;;
    ewhen (has_bind_success (cbs_ m)) (emit (CbBindSuccess event))
  else
    handle_error (str "BIND failed with status code: 0x" ++ to_string (ev_status_code event)) ;;;
    transition_to DISCONNECTED.

Definition handle_unbind_response (event : SmppEvent) : SMM unit :=
  if ev_status_code event =? SM_ESME_ROK then
    transition_to DISCONNECTED ;;;
    m <- eget ;;
    ewhen (has_unbind_success (cbs_ m)) (emit (CbUnbindSuccess event))
  else
    handle_error (str "UNBIND failed with status code: 0x" ++ to_string (ev_status_code event)) ;;;
    transition_to ERROR_STATE.

Definition handle_event_in_connected (event : SmppEvent) : SMM unit := eret ().

Definition handle_event_in_binding (event : SmppEvent) : SMM unit :=
  if is_bind_response (ev_command_id event) then handle_bind_response event
  else handle_error (str "Unexpected PDU in BINDING state: 0x" ++ to_string (ev_command_id event)).

Definition handle_event_in_bound_tx (event : SmppEvent) : SMM unit :=
  if ev_command_id event =? EnquireLink then eret ()
  else if ev_command_id event =? Unbind then transition_to UNBINDING
  else eret ().

Definition handle_event_in_bound_rx (event : SmppEvent) : SMM unit :=
  if ev_command_id event =? EnquireLink then eret ()
  else if ev_command_id event =? Unbind then transition_to UNBINDING
  else eret ().

Definition handle_event_in_bound_trx (event : SmppEvent) : SMM unit :=
  if ev_command_id event =? EnquireLink then eret ()
  else if ev_command_id event =? Unbind then transition_to UNBINDING
  else eret ().

Definition handle_event_in_unbinding (event : SmppEvent) : SMM unit :=
  if ev_command_id event =? UnbindResp then handle_unbind_response event
  else handle_error (str "Unexpected PDU in UNBINDING state: 0x" ++ to_string (ev_command_id event)).

Definition process_event (event : SmppEvent) : SMM unit :=
  m <- eget ;;
  match current_state_ m with
  | IDLE => eret ()
  | CONNECTED => handle_event_in_connected event
  | BINDING => handle_event_in_binding event
  | BOUND_TX => handle_event_in_bound_tx event
  | BOUND_RX => handle_event_in_bound_rx event
  | BOUND_TRX => handle_event_in_bound_trx event
  | UNBINDING => handle_event_in_unbinding event
  | DISCONNECTED | ERROR_STATE => eret ()
  end.

(** The public interface. *)
Inductive sm_op :=
| OpProcess (event : SmppEvent)
| OpRequestBind (bind_command_id : Z)
| OpRequestUnbind
| OpRequestEnquireLink
| OpRegister (c : callbacks).

(** The answer ([None] for [void]), the machine and the callbacks invoked. *)
Definition sm_call (op : sm_op) (m : SmppStateMachine)
    : option bool * SmppStateMachine * list sm_effect :=
  match op with
  | OpProcess event => (None, run_state (process_event event m), run_effects (process_event event m))
  | OpRequestBind id =>
      (match run_outcome (request_bind id m) with Ret b => Some b | _ => None end,
       run_state (request_bind id m), run_effects (request_bind id m))
  | OpRequestUnbind =>
      (match run_outcome (request_unbind m) with Ret b => Some b | _ => None end,
       run_state (request_unbind m), run_effects (request_unbind m))
  | OpRequestEnquireLink =>
      (match run_outcome (request_enquire_link m) with Ret b => Some b | _ => None end,
       run_state (request_enquire_link m), run_effects (request_enquire_link m))
  | OpRegister c => (None, {| current_state_ := current_state_ m; cbs_ := c |}, [])
  end.

Fixpoint sm_run (ops : list sm_op) (m : SmppStateMachine)
    : list (option bool) * SmppStateMachine * list sm_effect :=
  match ops with
  | [] => ([], m, [])
  | op :: ops =>
      let '(a, m, es) := sm_call op m in
      let '(l, m, es') := sm_run ops m in (a :: l, m, es ++ es')
  end.

(** ** The diagram the machine is meant to follow *)

Definition bound_by (cmd_id : Z) (s : SmppState) : Prop :=
  (cmd_id = BindTransmitterResp /\ s = BOUND_TX) \/ (cmd_id = BindReceiverResp /\ s = BOUND_RX) \/
  (cmd_id = BindTransceiverResp /\ s = BOUND_TRX).

(** One call moves the machine along an edge, or leaves it where it is. *)
Inductive edge : sm_op -> SmppState -> SmppState -> Prop :=
| edge_stay op s : edge op s s
| edge_bind id : edge (OpRequestBind id) CONNECTED BINDING
| edge_bound ev s :
    ev_status_code ev = SM_ESME_ROK -> bound_by (ev_command_id ev) s -> edge (OpProcess ev) BINDING s
| edge_refused ev : ev_status_code ev <> SM_ESME_ROK -> edge (OpProcess ev) BINDING DISCONNECTED
| edge_unexpected ev s :
    s = BINDING \/ s = UNBINDING -> edge (OpProcess ev) s ERROR_STATE
| edge_unbind_req s : s = BOUND_TX \/ s = BOUND_RX \/ s = BOUND_TRX -> edge OpRequestUnbind s UNBINDING
| edge_unbind ev s :
    s = BOUND_TX \/ s = BOUND_RX \/ s = BOUND_TRX -> ev_command_id ev = Unbind ->
    edge (OpProcess ev) s UNBINDING
| edge_closed ev : ev_command_id ev = UnbindResp -> edge (OpProcess ev) UNBINDING DISCONNECTED.

Definition in_state (s : SmppState) (m : SmppStateMachine) : SmppStateMachine :=
  {| current_state_ := s; cbs_ := cbs_ m |}.

Definition transition_effects (s : SmppState) (m : SmppStateMachine) : list sm_effect :=
  if decide (current_state_ m = s) then []
  else if has_transition (cbs_ m) then [CbTransition (current_state_ m) s] else [].

Lemma transition_to_run s m :
  transition_to s m = (Ret (), in_state s m, transition_effects s m).
Proof.
  unfold transition_to, transition_effects, ebind, eget. case_decide as H.
  - subst. by destruct m.
  - unfold emodify, ewhen. by destruct (has_transition _).
Qed.

Lemma handle_error_run msg m :
  handle_error msg m
  = (Ret (), in_state ERROR_STATE m,
     transition_effects ERROR_STATE m ++ if has_error (cbs_ m) then [CbError msg] else []).
Proof.
  unfold handle_error. erewrite ebind_run by apply transition_to_run.
  erewrite ebind_run by done. cbn. by destruct (has_error _).
Qed.

Lemma get_bind_state_bound id :
  is_bind_response id = true -> bound_by id (get_bind_state_from_response id).
Proof.
  unfold is_bind_response, get_bind_state_from_response, bound_by.
  destruct (Z.eqb_spec id BindTransmitterResp); [by auto|].
  destruct (Z.eqb_spec id BindReceiverResp); [by auto|].
  destruct (Z.eqb_spec id BindTransceiverResp); [by auto|done].
Qed.

Lemma handle_bind_response_state ev m :
  current_state_ (run_state (handle_bind_response ev m))
  = if ev_status_code ev =? SM_ESME_ROK then get_bind_state_from_response (ev_command_id ev)
    else DISCONNECTED.
Proof.
  unfold handle_bind_response. destruct (_ =? _).
  - erewrite ebind_run by apply transition_to_run. erewrite ebind_run by done.
    cbn. by destruct (has_bind_success _).
  - erewrite ebind_run by apply handle_error_run. by rewrite transition_to_run.
Qed.

Lemma handle_unbind_response_state ev m :
  current_state_ (run_state (handle_unbind_response ev m))
  = if ev_status_code ev =? SM_ESME_ROK then DISCONNECTED else ERROR_STATE.
Proof.
  unfold handle_unbind_response. destruct (_ =? _).
  - erewrite ebind_run by apply transition_to_run. erewrite ebind_run by done.
    cbn. by destruct (has_unbind_success _).
  - erewrite ebind_run by apply handle_error_run. by rewrite transition_to_run.
Qed.

Lemma process_event_state ev m :
  edge (OpProcess ev) (current_state_ m) (current_state_ (run_state (process_event ev m))).
Proof.
  unfold process_event. erewrite ebind_run by done.
  destruct (current_state_ m) eqn:Hs; cbn; rewrite ?Hs; try apply edge_stay.
  - unfold handle_event_in_binding. destruct (is_bind_response _) eqn:Hb.
    + pose proof (handle_bind_response_state ev m) as H.
      destruct (handle_bind_response ev m) as [[? m'] ?]. cbn in H |- *. rewrite H.
      destruct (Z.eqb_spec (ev_status_code ev) SM_ESME_ROK).
      * apply edge_bound; [done|]. by apply get_bind_state_bound.
      * by apply edge_refused.
    + rewrite handle_error_run. cbn. apply edge_unexpected. auto.
  - unfold handle_event_in_bound_tx. destruct (_ =? EnquireLink); [cbn; rewrite Hs; apply edge_stay|].
    destruct (Z.eqb_spec (ev_command_id ev) Unbind); [|cbn; rewrite Hs; apply edge_stay].
    rewrite transition_to_run. cbn. apply edge_unbind; auto.
  - unfold handle_event_in_bound_rx. destruct (_ =? EnquireLink); [cbn; rewrite Hs; apply edge_stay|].
    destruct (Z.eqb_spec (ev_command_id ev) Unbind); [|cbn; rewrite Hs; apply edge_stay].
    rewrite transition_to_run. cbn. apply edge_unbind; auto.
  - unfold handle_event_in_bound_trx. destruct (_ =? EnquireLink); [cbn; rewrite Hs; apply edge_stay|].
    destruct (Z.eqb_spec (ev_command_id ev) Unbind); [|cbn; rewrite Hs; apply edge_stay].
    rewrite transition_to_run. cbn. apply edge_unbind; auto.
  - unfold handle_event_in_unbinding.
    destruct (Z.eqb_spec (ev_command_id ev) UnbindResp).
    + pose proof (handle_unbind_response_state ev m) as H.
      destruct (handle_unbind_response ev m) as [[? m'] ?]. cbn in H |- *. rewrite H.
      destruct (_ =? SM_ESME_ROK); [by apply edge_closed|apply edge_unexpected; auto].
    + rewrite handle_error_run. cbn. apply edge_unexpected. auto.
Qed.

(** The machine follows its diagram from any state: a call leaves the state
    alone or takes one of the edges of [edge]; in particular a bound state is entered
    only from BINDING by a successful response of the matching type, and DISCONNECTED
    and ERROR_STATE are never left. *)
Theorem sm_follows_diagram op m :
  edge op (current_state_ m) (current_state_ (snd (fst (sm_call op m)))).
Proof.
  destruct op as [ev|id| | |c]; cbn [sm_call fst snd].
  - apply process_event_state.
  - unfold request_bind. erewrite ebind_run by done. case_bool_decide as Hs; cbn; [|apply edge_stay].
    destruct (_ && _); cbn; [apply edge_stay|]. rewrite Hs.
    unfold ebind. rewrite transition_to_run. apply edge_bind.
  - unfold request_unbind. erewrite ebind_run by done. unfold is_bound.
    destruct (current_state_ m) eqn:Hs; cbn; rewrite ?Hs; try apply edge_stay;
      unfold ebind; rewrite transition_to_run; apply edge_unbind_req; auto.
  - unfold request_enquire_link. erewrite ebind_run by done. destruct (negb _); apply edge_stay.
  - apply edge_stay.
Qed.

(** No public operation leads out of IDLE: the class has no operation that
    enters CONNECTED, so that after construction every event is ignored, every request
    is refused and no callback is ever invoked, whatever the sequence of calls. *)
Theorem sm_never_leaves_idle ops :
  let '(answers, m, es) := sm_run ops sm_new in
  current_state_ m = IDLE /\ es = [] /\ Forall (fun a => a <> Some true) answers.
Proof.
  assert (H : forall m, current_state_ m = IDLE ->
    let '(answers, m', es) := sm_run ops m in
    current_state_ m' = IDLE /\ es = [] /\ Forall (fun a => a <> Some true) answers);
    [|by apply H].
  induction ops as [|op ops IH]; intros m Hm; [by repeat constructor|].
  assert (exists a m1, sm_call op m = (a, m1, []) /\ current_state_ m1 = IDLE /\ a <> Some true)
    as (a & m1 & Hc & Hm1 & Ha).
  { destruct m as [s c]. cbn in Hm. subst s. by destruct op; do 2 eexists. }
  cbn [sm_run]. rewrite Hc. specialize (IH m1 Hm1).
  destruct (sm_run ops m1) as [[l m2] es]. destruct IH as (? & -> & ?). split_and!; [done..|].
  by constructor.
Qed.
