(* ===== verification/StateMachineV2.v ===== *)
(** * StateMachineV2: the state-pattern client state machine of SmppClientHandler

    [smpp_state_machine_v2.cpp] with its state classes [smpp_states.cpp] and
    [smpp_state_base.hpp].  The objects the machine owns through
    [std::unique_ptr] are modelled with their lifetimes; registered callbacks are
    effects; logging is left out. *)

From S2P Require Import Prelude.
#[local] Open Scope Z_scope.
#[local] Open Scope eff_scope.

(** ** Objects and machine *)

(** The state classes. *)
Inductive state_class :=
| IdleState | ConnectedState | BindingState | BoundTxState | BoundRxState | BoundTrxState
| UnbindingState | DisconnectedState | ErrorState.

#[export] Instance state_class_eq_dec : EqDecision state_class.
Proof. solve_decision. Defined.

Definition state_name (c : state_class) : cstring :=
  match c with
  | IdleState => str "IDLE" | ConnectedState => str "CONNECTED" | BindingState => str "BINDING"
  | BoundTxState => str "BOUND_TX" | BoundRxState => str "BOUND_RX" | BoundTrxState => str "BOUND_TRX"
  | UnbindingState => str "UNBINDING" | DisconnectedState => str "DISCONNECTED"
  | ErrorState => str "ERROR_STATE"
  end.

(** The objects that the constructor allocates: one of each class for the members
    [idle_state_] to [error_state_], and one more [IdleState] for
    [current_state_]. *)
Inductive obj := OInit | OMember (c : state_class).

#[export] Instance obj_eq_dec : EqDecision obj.
Proof. solve_decision. Defined.

Definition class_of (o : obj) : state_class :=
  match o with OInit => IdleState | OMember c => c end.

Record callbacks := {
  has_transition : bool; has_bind_success : bool; has_unbind_success : bool; has_error : bool
}.

(** The members that change: what [current_state_] points to, and which of the
    objects have been deleted.  The other [unique_ptr]s keep their addresses. *)
Record SmppStateMachine := {
  current_state_ : obj;
  freed : list obj;
  cbs_ : callbacks
}.

Inductive sm_effect :=
| CbTransition (from to : cstring)
| CbBindSuccess (bind_type : Z)
| CbUnbindSuccess
| CbError (msg : cstring).

Inductive sm_exn := SmppStateException (what : cstring).

Abbreviation SMM := (M SmppStateMachine sm_effect sm_exn).

(** [init_states] *)
Definition sm_new (c : callbacks) : SmppStateMachine :=
  {| current_state_ := OInit; freed := []; cbs_ := c |}.

(** [current_state_->]: the class of the object, if it is alive. *)
Definition deref_current : SMM state_class :=
  m <- eget ;;
  edefined (if decide (current_state_ m ∈ freed m) then None
            else Some (class_of (current_state_ m))).

(** [delete p]: of a live object. *)
Definition delete_obj (o : obj) : SMM unit :=
  m <- eget ;;
  _ <- edefined (if decide (o ∈ freed m) then None else Some ()) ;;
  emodify (fun m => {| current_state_ := current_state_ m; freed := o :: freed m; cbs_ := cbs_ m |}).

(** [current_state_.reset(p)]: the pointer is replaced, then the old object is
    deleted. *)
Definition reset_current (o : obj) : SMM unit :=
  m <- eget ;;
  emodify (fun m => {| current_state_ := o; freed := freed m; cbs_ := cbs_ m |}) ;;;
  delete_obj (current_state_ m).

Definition transition_to (new_state : obj) (name : cstring) : SMM unit :=
  c <- deref_current ;;
  let old_state := state_name c in
  if decide (old_state = name) then eret () else
  reset_current new_state ;;;
  m <- eget ;;
  ewhen (has_transition (cbs_ m)) (emit (CbTransition old_state name)).

Definition transition_to_connected := transition_to (OMember ConnectedState) (str "CONNECTED").
Definition transition_to_binding := transition_to (OMember BindingState) (str "BINDING").
Definition transition_to_bound_tx := transition_to (OMember BoundTxState) (str "BOUND_TX").
Definition transition_to_bound_rx := transition_to (OMember BoundRxState) (str "BOUND_RX").
Definition transition_to_bound_trx := transition_to (OMember BoundTrxState) (str "BOUND_TRX").
Definition transition_to_unbinding := transition_to (OMember UnbindingState) (str "UNBINDING").
Definition transition_to_disconnected := transition_to (OMember DisconnectedState) (str "DISCONNECTED").

Definition transition_to_error (error_msg : cstring) : SMM unit :=
  transition_to (OMember ErrorState) (str "ERROR_STATE") ;;;
  m <- eget ;;
  ewhen (has_error (cbs_ m)) (emit (CbError error_msg)).

(** ** The state classes' handlers; the base class throws *)

Definition not_accepted (pdu : cstring) (c : state_class) : SMM unit :=
  ethrow (SmppStateException (pdu ++ str " PDU not accepted in state: " ++ state_name c)).

Definition on_bind (c : state_class) (bind_type : Z) (system_id password : cstring) : SMM unit :=
  match c with
  | ConnectedState => transition_to_binding
  | _ => not_accepted (str "BIND") c
  end.

Definition on_bind_resp (c : state_class) (bind_type status_code : Z) : SMM unit :=
  match c with
  | BindingState =>
      if status_code =? 0x00000000 then
        if bind_type =? 0x80000002 then transition_to_bound_tx
        else if bind_type =? 0x80000001 then transition_to_bound_rx
        else if bind_type =? 0x80000009 then transition_to_bound_trx
        else eret ()
      else transition_to_disconnected
  | _ => not_accepted (str "BIND_RESP") c
  end.

(** The overrides of the three bound classes. *)
Definition BoundTxState_on_unbind : SMM unit := transition_to_unbinding.
Definition BoundRxState_on_unbind : SMM unit := transition_to_unbinding.
Definition BoundTrxState_on_unbind : SMM unit := transition_to_unbinding.
(** Nothing is sent yet, says the source. *)
Definition BoundTxState_on_enquire_link : SMM unit := eret ().
Definition BoundRxState_on_enquire_link : SMM unit := eret ().
Definition BoundTrxState_on_enquire_link : SMM unit := eret ().
Definition BoundTxState_on_enquire_link_resp (status_code : Z) : SMM unit := eret ().
Definition BoundRxState_on_enquire_link_resp (status_code : Z) : SMM unit := eret ().
Definition BoundTrxState_on_enquire_link_resp (status_code : Z) : SMM unit := eret ().

Definition on_unbind (c : state_class) : SMM unit :=
  match c with
  | BoundTxState => BoundTxState_on_unbind
  | BoundRxState => BoundRxState_on_unbind
  | BoundTrxState => BoundTrxState_on_unbind
  | _ => not_accepted (str "UNBIND") c
  end.

Definition on_unbind_resp (c : state_class) (status_code : Z) : SMM unit :=
  match c with
  | UnbindingState =>
      if status_code =? 0x00000000 then transition_to_disconnected
      else transition_to_error (str "UNBIND failed")
  | _ => not_accepted (str "UNBIND_RESP") c
  end.

Definition on_enquire_link (c : state_class) : SMM unit :=
  match c with
  | BoundTxState => BoundTxState_on_enquire_link
  | BoundRxState => BoundRxState_on_enquire_link
  | BoundTrxState => BoundTrxState_on_enquire_link
  | _ => not_accepted (str "ENQUIRE_LINK") c
  end.

Definition on_enquire_link_resp (c : state_class) (status_code : Z) : SMM unit :=
  match c with
  | BoundTxState => BoundTxState_on_enquire_link_resp status_code
  | BoundRxState => BoundRxState_on_enquire_link_resp status_code
  | BoundTrxState => BoundTrxState_on_enquire_link_resp status_code
  | _ => not_accepted (str "ENQUIRE_LINK_RESP") c
  end.

(** No class overrides these four. *)
Definition on_submit_sm (c : state_class) (source_addr dest_addr message : cstring) : SMM unit :=
  not_accepted (str "SUBMIT_SM") c.
Definition on_submit_sm_resp (c : state_class) (status_code : Z) (message_id : cstring) : SMM unit :=
  not_accepted (str "SUBMIT_SM_RESP") c.
Definition on_deliver_sm (c : state_class) (source_addr dest_addr message : cstring) : SMM unit :=
  not_accepted (str "DELIVER_SM") c.
Definition on_deliver_sm_resp (c : state_class) (status_code : Z) : SMM unit :=
  not_accepted (str "DELIVER_SM_RESP") c.

(** ** The machine's handlers *)

(** [try { m } catch (const SmppStateException& e) { transition_to_error(e.what()); }] *)
Definition guarded (m : SMM unit) : SMM unit :=
  fun s => match m s with
           | (Throw (SmppStateException what), s1, es1) =>
               let '(r, s2, es2) := transition_to_error what s1 in (r, s2, es1 ++ es2)
           | r => r
           end.

Definition invoke_callbacks_for_bind_success (bind_type : Z) : SMM unit :=
  m <- eget ;; ewhen (has_bind_success (cbs_ m)) (emit (CbBindSuccess bind_type)).
Definition invoke_callbacks_for_unbind_success : SMM unit :=
  m <- eget ;; ewhen (has_unbind_success (cbs_ m)) (emit CbUnbindSuccess).

Definition handle_bind (bind_type : Z) (system_id password : cstring) : SMM unit :=
  guarded (c <- deref_current ;; on_bind c bind_type system_id password).
Definition handle_bind_resp (bind_type status_code : Z) : SMM unit :=
  guarded (c <- deref_current ;;
           on_bind_resp c bind_type status_code ;;;
           ewhen (status_code =? 0x00000000) (invoke_callbacks_for_bind_success bind_type)).
Definition handle_unbind : SMM unit := guarded (c <- deref_current ;; on_unbind c).
Definition handle_unbind_resp (status_code : Z) : SMM unit :=
  guarded (c <- deref_current ;;
           on_unbind_resp c status_code ;;;
           ewhen (status_code =? 0x00000000) invoke_callbacks_for_unbind_success).
Definition handle_enquire_link : SMM unit := guarded (c <- deref_current ;; on_enquire_link c).
Definition handle_enquire_link_resp (status_code : Z) : SMM unit :=
  guarded (c <- deref_current ;; on_enquire_link_resp c status_code).
Definition handle_submit_sm (source_addr dest_addr message : cstring) : SMM unit :=
  guarded (c <- deref_current ;; on_submit_sm c source_addr dest_addr message).
Definition handle_submit_sm_resp (status_code : Z) (message_id : cstring) : SMM unit :=
  guarded (c <- deref_current ;; on_submit_sm_resp c status_code message_id).
Definition handle_deliver_sm (source_addr dest_addr message : cstring) : SMM unit :=
  guarded (c <- deref_current ;; on_deliver_sm c source_addr dest_addr message).
Definition handle_deliver_sm_resp (status_code : Z) : SMM unit :=
  guarded (c <- deref_current ;; on_deliver_sm_resp c status_code).

Definition get_current_state : SMM cstring := c <- deref_current ;; eret (state_name c).
Definition is_bound : SMM bool :=
  c <- deref_current ;;
  let s := state_name c in
  eret (bool_decide (s = str "BOUND_TX" \/ s = str "BOUND_RX" \/ s = str "BOUND_TRX")).
Definition can_send : SMM bool :=
  c <- deref_current ;;
  let s := state_name c in eret (bool_decide (s = str "BOUND_TX" \/ s = str "BOUND_TRX")).
Definition can_receive : SMM bool :=
  c <- deref_current ;;
  let s := state_name c in eret (bool_decide (s = str "BOUND_RX" \/ s = str "BOUND_TRX")).

(** A reference to the current state, through which its handlers can be called directly. *)
Definition get_state_impl : SMM state_class := deref_current.

(** Callbacks are registered, or removed when the function is empty. *)
Definition on_state_transition (callback : bool) : SMM unit :=
  emodify (fun m => {| current_state_ := current_state_ m; freed := freed m;
    cbs_ := {| has_transition := callback; has_bind_success := has_bind_success (cbs_ m);
               has_unbind_success := has_unbind_success (cbs_ m); has_error := has_error (cbs_ m) |} |}).
Definition on_bind_success (callback : bool) : SMM unit :=
  emodify (fun m => {| current_state_ := current_state_ m; freed := freed m;
    cbs_ := {| has_transition := has_transition (cbs_ m); has_bind_success := callback;
               has_unbind_success := has_unbind_success (cbs_ m); has_error := has_error (cbs_ m) |} |}).
Definition on_unbind_success (callback : bool) : SMM unit :=
  emodify (fun m => {| current_state_ := current_state_ m; freed := freed m;
    cbs_ := {| has_transition := has_transition (cbs_ m); has_bind_success := has_bind_success (cbs_ m);
               has_unbind_success := callback; has_error := has_error (cbs_ m) |} |}).
Definition on_error (callback : bool) : SMM unit :=
  emodify (fun m => {| current_state_ := current_state_ m; freed := freed m;
    cbs_ := {| has_transition := has_transition (cbs_ m); has_bind_success := has_bind_success (cbs_ m);
               has_unbind_success := has_unbind_success (cbs_ m); has_error := callback |} |}).

(** The destructor: the members are destroyed in reverse order of declaration,
    [error_state_] first and [current_state_] last. *)
Definition destroy_order : list obj :=
  OMember <$> [ErrorState; DisconnectedState; UnbindingState; BoundTrxState; BoundRxState;
               BoundTxState; BindingState; ConnectedState; IdleState].

Fixpoint delete_all (os : list obj) : SMM unit :=
  match os with [] => eret () | o :: os => delete_obj o ;;; delete_all os end.

Definition destructor : SMM unit :=
  delete_all destroy_order ;;;
  m <- eget ;;
  delete_obj (current_state_ m).

(** ** Calls *)

(** The handlers of the state classes, called on [get_state_impl()]. *)
Inductive state_op :=
| OnBind (bind_type : Z) (system_id password : cstring)
| OnBindResp (bind_type status_code : Z)
| OnUnbind
| OnUnbindResp (status_code : Z)
| OnEnquireLink
| OnEnquireLinkResp (status_code : Z)
| OnSubmitSm (src dst msg : cstring)
| OnSubmitSmResp (status_code : Z) (message_id : cstring)
| OnDeliverSm (src dst msg : cstring)
| OnDeliverSmResp (status_code : Z).

Definition state_call (c : state_class) (op : state_op) : SMM unit :=
  match op with
  | OnBind t s p => on_bind c t s p
  | OnBindResp t st => on_bind_resp c t st
  | OnUnbind => on_unbind c
  | OnUnbindResp st => on_unbind_resp c st
  | OnEnquireLink => on_enquire_link c
  | OnEnquireLinkResp st => on_enquire_link_resp c st
  | OnSubmitSm a b m => on_submit_sm c a b m
  | OnSubmitSmResp st id => on_submit_sm_resp c st id
  | OnDeliverSm a b m => on_deliver_sm c a b m
  | OnDeliverSmResp st => on_deliver_sm_resp c st
  end.

(** The public member functions of the machine. *)
Inductive sm_op :=
| OpGetCurrentState | OpIsBound | OpCanSend | OpCanReceive
| OpStateImpl (op : state_op)
| OpBind (bind_type : Z) (system_id password : cstring)
| OpBindResp (bind_type status_code : Z)
| OpUnbind
| OpUnbindResp (status_code : Z)
| OpEnquireLink
| OpEnquireLinkResp (status_code : Z)
| OpSubmitSm (src dst msg : cstring)
| OpSubmitSmResp (status_code : Z) (message_id : cstring)
| OpDeliverSm (src dst msg : cstring)
| OpDeliverSmResp (status_code : Z)
| OpOnStateTransition (callback : bool)
| OpOnBindSuccess (callback : bool)
| OpOnUnbindSuccess (callback : bool)
| OpOnError (callback : bool)
| OpTransition (c : state_class)       (* the transition_to_* without an argument *)
| OpTransitionError (msg : cstring).

(** The public transitions other than to ERROR_STATE; there is none to IDLE. *)
Definition public_transition (c : state_class) : SMM unit :=
  match c with
  | IdleState | ErrorState => eret ()
  | ConnectedState => transition_to_connected
  | BindingState => transition_to_binding
  | BoundTxState => transition_to_bound_tx
  | BoundRxState => transition_to_bound_rx
  | BoundTrxState => transition_to_bound_trx
  | UnbindingState => transition_to_unbinding
  | DisconnectedState => transition_to_disconnected
  end.

Definition sm_call (op : sm_op) : SMM unit :=
  match op with
  | OpGetCurrentState => _ <- get_current_state ;; eret ()
  | OpIsBound => _ <- is_bound ;; eret ()
  | OpCanSend => _ <- can_send ;; eret ()
  | OpCanReceive => _ <- can_receive ;; eret ()
  | OpStateImpl op => c <- get_state_impl ;; state_call c op
  | OpBind t s p => handle_bind t s p
  | OpBindResp t st => handle_bind_resp t st
  | OpUnbind => handle_unbind
  | OpUnbindResp st => handle_unbind_resp st
  | OpEnquireLink => handle_enquire_link
  | OpEnquireLinkResp st => handle_enquire_link_resp st
  | OpSubmitSm a b c => handle_submit_sm a b c
  | OpSubmitSmResp st id => handle_submit_sm_resp st id
  | OpDeliverSm a b c => handle_deliver_sm a b c
  | OpDeliverSmResp st => handle_deliver_sm_resp st
  | OpOnStateTransition b => on_state_transition b
  | OpOnBindSuccess b => on_bind_success b
  | OpOnUnbindSuccess b => on_unbind_success b
  | OpOnError b => on_error b
  | OpTransition c => public_transition c
  | OpTransitionError msg => transition_to_error msg
  end.

(** An exception goes to the caller, who may go on (only [OpStateImpl] throws one). *)
Definition caught {S E X} (k : M S E X unit) : M S E X unit :=
  fun s => match k s with (Throw _, s1, es) => (Ret (), s1, es) | r => r end.

Fixpoint sm_calls (ops : list sm_op) : SMM unit :=
  match ops with [] => eret () | op :: ops => caught (sm_call op) ;;; sm_calls ops end.

(** ** Lifetimes *)

(** Until the first transition nothing has been deleted; the machine never goes back to
    [idle_state_]. *)
Definition pristine (m : SmppStateMachine) : Prop :=
  (current_state_ m = OInit -> freed m = []) /\ current_state_ m <> OMember IdleState.

(** Code that keeps it so, however it ends. *)
Definition preserves {A} (k : SMM A) : Prop :=
  forall m, pristine m -> pristine (run_state (k m)).

Lemma preserves_ret {A} (a : A) : preserves (eret a).
Proof. by intros m. Qed.
Lemma preserves_get : preserves eget.
Proof. by intros m. Qed.
Lemma preserves_emit e : preserves (emit e).
Proof. by intros m. Qed.
Lemma preserves_throw {A} x : preserves (ethrow x : SMM A).
Proof. by intros m. Qed.
Lemma preserves_defined {A} (o : option A) : preserves (edefined o).
Proof. intros m. by destruct o. Qed.
Lemma preserves_when b (k : SMM unit) : preserves k -> preserves (ewhen b k).
Proof. destruct b; [done|]. intros _. apply preserves_ret. Qed.
Lemma preserves_if {A} (b : bool) (k1 k2 : SMM A) :
  preserves k1 -> preserves k2 -> preserves (if b then k1 else k2).
Proof. by destruct b. Qed.

Lemma preserves_bind {A B} (k : SMM A) (f : A -> SMM B) :
  preserves k -> (forall a, preserves (f a)) -> preserves (ebind k f).
Proof.
  intros Hk Hf m Hm. specialize (Hk m Hm). unfold ebind.
  destruct (k m) as [[[a|x|] m1] es]; [|done..]. specialize (Hf a m1 Hk).
  by destruct (f a m1) as [[? ?] ?].
Qed.

Lemma preserves_deref : preserves deref_current.
Proof. apply preserves_bind; [apply preserves_get|]. intros. apply preserves_defined. Qed.

(** Replacing the current object by a member's object. *)
Lemma preserves_reset c : c <> IdleState -> preserves (reset_current (OMember c)).
Proof.
  intros Hc m _. unfold reset_current, delete_obj, ebind, eget, emodify, edefined. cbn.
  case_decide; (split; [done|]); cbn; congruence.
Qed.

Create HintDb lifetimes.
#[local] Hint Resolve preserves_ret preserves_get preserves_emit preserves_throw preserves_defined
  preserves_when preserves_if preserves_bind preserves_deref preserves_reset : lifetimes.
#[local] Hint Extern 1 (_ <> _) => discriminate : lifetimes.

Lemma preserves_transition c name : c <> IdleState -> preserves (transition_to (OMember c) name).
Proof.
  intros Hc. apply preserves_bind; [auto with lifetimes|]. intros c0. cbv zeta.
  case_decide; auto 6 with lifetimes.
Qed.
#[local] Hint Resolve preserves_transition : lifetimes.

Lemma preserves_error msg : preserves (transition_to_error msg).
Proof. unfold transition_to_error. auto 6 with lifetimes. Qed.

Lemma preserves_guarded k : preserves k -> preserves (guarded k).
Proof.
  intros Hk m Hm. specialize (Hk m Hm). unfold guarded.
  destruct (k m) as [[[a|[what]|] m1] es]; [done| |done].
  pose proof (preserves_error what m1 Hk) as He. by destruct (transition_to_error what m1) as [[? ?] ?].
Qed.

Lemma preserves_not_accepted pdu c : preserves (not_accepted pdu c).
Proof. apply preserves_throw. Qed.
#[local] Hint Resolve preserves_error preserves_guarded preserves_not_accepted : lifetimes.

Ltac keep_pristine :=
  repeat first
    [ progress auto with lifetimes
    | progress unfold transition_to_connected, transition_to_binding, transition_to_bound_tx,
        transition_to_bound_rx, transition_to_bound_trx, transition_to_unbinding,
        transition_to_disconnected, invoke_callbacks_for_bind_success,
        invoke_callbacks_for_unbind_success, BoundTxState_on_unbind, BoundRxState_on_unbind,
        BoundTrxState_on_unbind, BoundTxState_on_enquire_link, BoundRxState_on_enquire_link,
        BoundTrxState_on_enquire_link, BoundTxState_on_enquire_link_resp,
        BoundRxState_on_enquire_link_resp, BoundTrxState_on_enquire_link_resp, on_bind, on_bind_resp, on_unbind, on_unbind_resp,
        on_enquire_link, on_enquire_link_resp, on_submit_sm, on_submit_sm_resp, on_deliver_sm,
        on_deliver_sm_resp, state_call, public_transition, get_current_state, is_bound, can_send,
        can_receive, get_state_impl
    | apply preserves_guarded | apply preserves_bind; [|intros ?] | case_match ].

Lemma preserves_modify f :
  (forall m, current_state_ (f m) = current_state_ m /\ freed (f m) = freed m) -> preserves (emodify f).
Proof. intros Hf m Hm. unfold pristine, run_state. cbn. by destruct (Hf m) as [-> ->]. Qed.
#[local] Hint Resolve preserves_modify : lifetimes.

Lemma preserves_caught k : preserves k -> preserves (caught k).
Proof.
  intros Hk m Hm. specialize (Hk m Hm). unfold caught. by destruct (k m) as [[[]]].
Qed.

Lemma preserves_queries : preserves is_bound /\ preserves can_send /\ preserves can_receive.
Proof. split_and!; keep_pristine. Qed.

Lemma preserves_call op : preserves (sm_call op).
Proof.
  destruct op; cbn [sm_call];
    unfold handle_bind, handle_bind_resp, handle_unbind, handle_unbind_resp, handle_enquire_link,
      handle_enquire_link_resp, handle_submit_sm, handle_submit_sm_resp, handle_deliver_sm,
      handle_deliver_sm_resp; keep_pristine.
Qed.

Lemma preserves_calls ops : preserves (sm_calls ops).
Proof.
  induction ops as [|op ops IH]; [apply preserves_ret|].
  apply preserves_bind; [apply preserves_caught, preserves_call|done].
Qed.

(** After its deletion an object stays deleted, and the pointer is as it was. *)
Lemma delete_all_run os m :
  match delete_all os m with
  | (Ret _, m', es) =>
      current_state_ m' = current_state_ m /\ (forall o, o ∈ os \/ o ∈ freed m -> o ∈ freed m')
  | (UB, _, _) => True
  | (Throw _, _, _) => False
  end.
Proof.
  revert m. induction os as [|o os IH]; intros m; [cbn; set_solver|].
  cbn [delete_all]. unfold ebind at 1, delete_obj. unfold ebind, eget, edefined, emodify.
  case_decide as Ho; [done|].
  specialize (IH {| current_state_ := current_state_ m; freed := o :: freed m; cbs_ := cbs_ m |}).
  destruct (delete_all os _) as [[[[]|x|] m'] es]; [|done..]. cbn in IH.
  destruct IH as [Hc Hf]. split; [done|]. intros o'. rewrite elem_of_cons.
  specialize (Hf o'). set_solver.
Qed.

Lemma delete_freed o m : o ∈ freed m -> run_outcome (delete_obj o m) = UB.
Proof.
  intros H. unfold delete_obj, ebind, eget, edefined. by rewrite decide_True.
Qed.

(** The machine destroys an object twice: [transition_to] makes [current_state_] the second
    owner of an object that a member already owns. *)
Lemma destructor_run m :
  pristine m ->
  run_outcome (destructor m) = if decide (current_state_ m = OInit) then Ret () else UB.
Proof.
  intros [Hp _]. case_decide as Hc.
  - specialize (Hp Hc). destruct m as [cur fr cb]. cbn in *. subst. by vm_compute.
  - destruct (current_state_ m) as [|cl] eqn:Hcur; [done|]. unfold destructor.
    pose proof (delete_all_run destroy_order m) as Hd. unfold ebind at 1.
    destruct (delete_all destroy_order m) as [[[[]|x|] m'] es1]; [|done..].
    destruct Hd as [Hc' Hf]. unfold ebind, eget. rewrite Hc', Hcur.
    assert (Hin : OMember cl ∈ freed m').
    { apply Hf. left. unfold destroy_order. apply list_elem_of_fmap. exists cl. split; [done|].
      apply (bool_decide_unpack _). by destruct cl; vm_compute. }
    pose proof (delete_freed _ _ Hin) as Hu.
    destruct (delete_obj (OMember cl) m') as [[[]] ?]; done.
Qed.

(** The name of the current state tells whether there has been a transition. *)
Lemma current_state_run m :
  pristine m ->
  run_outcome (get_current_state m) = Ret (str "IDLE") <-> current_state_ m = OInit.
Proof.
  intros [Hp Hi]. unfold get_current_state, deref_current, ebind, eget, edefined.
  split.
  - case_decide as Hf; [done|]. destruct (current_state_ m) as [|[]]; done.
  - intros Hc. by rewrite (Hp Hc), Hc.
Qed.

(** Once any transition has taken place the destructor of the machine deletes an object
    twice; only a machine that never left its initial state is destroyed without undefined
    behaviour. *)
Theorem destructor_double_free ops c m es :
  sm_calls ops (sm_new c) = (Ret (), m, es) ->
  (current_state_ m = OInit -> run_outcome (destructor m) = Ret ()) /\
  (current_state_ m <> OInit -> run_outcome (destructor m) = UB).
Proof.
  intros Hrun. assert (Hp : pristine m).
  { pose proof (preserves_calls ops (sm_new c)) as H. rewrite Hrun in H. by apply H. }
  rewrite (destructor_run m Hp). split; intros; [by rewrite decide_True|by rewrite decide_False].
Qed.

Definition example_callbacks : callbacks :=
  {| has_transition := true; has_bind_success := true; has_unbind_success := true; has_error := true |}.

Definition example_session_ops : list sm_op :=
  [OpTransition ConnectedState; OpBind 0x00000009 (str "esme1") (str "pass1");
   OpBindResp 0x80000009 0; OpEnquireLink; OpUnbind; OpUnbindResp 0].

Lemma destructor_double_free_witness :
  let m := run_state (sm_calls example_session_ops (sm_new example_callbacks)) in
  (current_state_ m = OInit -> run_outcome (destructor m) = Ret ()) /\
  (current_state_ m <> OInit -> run_outcome (destructor m) = UB).
Proof.
  apply (destructor_double_free example_session_ops example_callbacks
           (run_state (sm_calls example_session_ops (sm_new example_callbacks)))
           (run_effects (sm_calls example_session_ops (sm_new example_callbacks)))).
  by vm_compute.
Defined.
