(* ===== verification/ClientHandler.v ===== *)
(** * ClientHandler: the stub client handler around the state-pattern machine

    [SmppClientHandler/src/smpp_client_handler.cpp]: [smpp_client::SmppClientHandler]
    owns a [SmppStateMachine] (see [StateMachineV2]), hands out a reference to it, and has
    private handlers that pass requests to it and that no code calls: the PDU extraction is
    a stub in the source.  Logging is left out. *)

From S2P Require Import Prelude StateMachineV2.
#[local] Open Scope Z_scope.
#[local] Open Scope eff_scope.

(** ** State and effects *)

Record SmppClientHandler := {
  socket_fd_ : Z;
  state_machine_ : SmppStateMachine;
  has_error_callback_ : bool;
  running_ : bool
}.

Inductive ch_effect :=
| ErrorCallback (msg : cstring)
| FromMachine (e : sm_effect).

Abbreviation HM := (M SmppClientHandler ch_effect sm_exn).

Definition set_machine (m : SmppStateMachine) (h : SmppClientHandler) : SmppClientHandler :=
  {| socket_fd_ := socket_fd_ h; state_machine_ := m;
     has_error_callback_ := has_error_callback_ h; running_ := running_ h |}.
Definition set_running (b : bool) (h : SmppClientHandler) : SmppClientHandler :=
  {| socket_fd_ := socket_fd_ h; state_machine_ := state_machine_ h;
     has_error_callback_ := has_error_callback_ h; running_ := b |}.

(** [state_machine_.f(...)] *)
Definition on_machine {A} (k : SMM A) : HM A :=
  fun h => let '(r, m, es) := k (state_machine_ h) in (r, set_machine m h, FromMachine <$> es).

Definition no_callbacks : callbacks :=
  {| has_transition := false; has_bind_success := false; has_unbind_success := false;
     has_error := false |}.

(** ** The member functions *)

(** The machine of the constructor's body replaces the one of the member: both are new. *)
Definition SmppClientHandler_new (socket_fd : Z) : SmppClientHandler :=
  {| socket_fd_ := socket_fd; state_machine_ := sm_new no_callbacks;
     has_error_callback_ := false; running_ := false |}.

Definition init : HM unit :=
  h <- eget ;;
  if socket_fd_ h <? 0 then
    ewhen (has_error_callback_ h) (emit (ErrorCallback (str "Invalid socket file descriptor")))
  else eret ().

(** To be implemented, says the source. *)
Definition process_pdu : HM unit := eret ().

Definition start : HM unit :=
  h <- eget ;;
  if running_ h then eret () else
  emodify (set_running true) ;;;
  process_pdu.

Definition stop : HM unit := emodify (set_running false).

Definition set_error_callback (callback : bool) : HM unit :=
  emodify (fun h => {| socket_fd_ := socket_fd_ h; state_machine_ := state_machine_ h;
                       has_error_callback_ := callback; running_ := running_ h |}).

(** What is done with the reference that [get_state_machine] returns. *)
Definition get_state_machine (op : sm_op) : HM unit := on_machine (caught (sm_call op)).

Definition ch_is_bound : HM bool := on_machine is_bound.
Definition ch_can_send : HM bool := on_machine can_send.
Definition ch_can_receive : HM bool := on_machine can_receive.

(** The private request handlers. *)
Definition handle_bind_request (bind_command_id : Z) : HM unit :=
  on_machine (handle_bind bind_command_id [] []).

Definition handle_unbind_request : HM unit := on_machine handle_unbind.

Definition handle_enquire_link_request : HM unit :=
  b <- ch_is_bound ;;
  if b : bool then on_machine handle_enquire_link else eret ().

(** The destructor, and then that of the machine. *)
Definition ch_destructor : HM unit :=
  h <- eget ;;
  ewhen (running_ h) stop ;;;
  on_machine destructor.

(** ** Calls *)

(** The public member functions; the machine behind the reference may be told anything. *)
Inductive ch_op :=
| ChInit | ChStart | ChStop
| ChSetErrorCallback (callback : bool)
| ChIsBound | ChCanSend | ChCanReceive
| ChStateMachine (op : sm_op).

Definition ch_call (op : ch_op) : HM unit :=
  match op with
  | ChInit => init
  | ChStart => start
  | ChStop => stop
  | ChSetErrorCallback b => set_error_callback b
  | ChIsBound => _ <- ch_is_bound ;; eret ()
  | ChCanSend => _ <- ch_can_send ;; eret ()
  | ChCanReceive => _ <- ch_can_receive ;; eret ()
  | ChStateMachine op => get_state_machine op
  end.

Fixpoint ch_calls (ops : list ch_op) : HM unit :=
  match ops with [] => eret () | op :: ops => ch_call op ;;; ch_calls ops end.

(** A call that does not go through [get_state_machine]. *)
Definition is_own (op : ch_op) : bool := match op with ChStateMachine _ => false | _ => true end.

(** ** The machine under the handler *)

(** Code that keeps the machine's objects as [pristine] says, however it ends. *)
Definition ch_preserves {A} (k : HM A) : Prop :=
  forall h, pristine (state_machine_ h) -> pristine (state_machine_ (run_state (k h))).

(** Code that leaves the machine alone and returns. *)
Definition keeps_machine {A} (k : HM A) : Prop :=
  forall h, state_machine_ h = sm_new no_callbacks ->
    exists a h' es, k h = (Ret a, h', es) /\ state_machine_ h' = sm_new no_callbacks.

Lemma ch_preserves_machine {A} (k : SMM A) : preserves k -> ch_preserves (on_machine k).
Proof.
  intros Hk h Hp. specialize (Hk _ Hp). unfold on_machine. by destruct (k _) as [[r m] es].
Qed.

Lemma ch_preserves_bind {A B} (k : HM A) (f : A -> HM B) :
  ch_preserves k -> (forall a, ch_preserves (f a)) -> ch_preserves (ebind k f).
Proof.
  intros Hk Hf h Hh. specialize (Hk h Hh). unfold ebind.
  destruct (k h) as [[[a|x|] h1] es]; [|done..]. specialize (Hf a h1 Hk).
  by destruct (f a h1) as [[? ?] ?].
Qed.

Lemma keeps_machine_bind {A B} (k : HM A) (f : A -> HM B) :
  keeps_machine k -> (forall a, keeps_machine (f a)) -> keeps_machine (ebind k f).
Proof.
  intros Hk Hf h Hh. destruct (Hk h Hh) as (a & h1 & es1 & H1 & Hm1).
  destruct (Hf a h1 Hm1) as (b & h2 & es2 & H2 & Hm2).
  exists b, h2, (es1 ++ es2). erewrite ebind_run by exact H1. by rewrite H2.
Qed.

(** Neither does the handler's own code touch the machine. *)
Lemma own_machine op h :
  match op with ChInit | ChStart | ChStop | ChSetErrorCallback _ => True | _ => False end ->
  exists h' es, ch_call op h = (Ret (), h', es) /\ state_machine_ h' = state_machine_ h.
Proof.
  destruct op; try done; intros _; cbn [ch_call]; [| |by eauto..].
  - unfold init, ebind, eget. destruct (_ <? 0), (has_error_callback_ h); eauto.
  - unfold start, ebind, eget. destruct (running_ h); eauto.
Qed.

Lemma ch_preserves_call op : ch_preserves (ch_call op).
Proof.
  destruct op as [| | |b| | | |op];
    try (intros h Hp; match goal with |- context [ch_call ?o h] =>
           destruct (own_machine o h I) as (h' & es & -> & Hm) end; by unfold run_state; cbn; rewrite Hm).
  all: cbn [ch_call].
  4: apply ch_preserves_machine, preserves_caught, preserves_call.
  all: apply ch_preserves_bind; [apply ch_preserves_machine|by intros ? ?].
  all: apply preserves_queries.
Qed.

Lemma ch_preserves_calls ops : ch_preserves (ch_calls ops).
Proof.
  induction ops as [|op ops IH]; [by intros h|].
  apply ch_preserves_bind; [apply ch_preserves_call|done].
Qed.

Lemma keeps_machine_query (k : SMM bool) b :
  k (sm_new no_callbacks) = (Ret b, sm_new no_callbacks, []) -> keeps_machine (on_machine k).
Proof. intros Hk h Hm. unfold on_machine. rewrite Hm, Hk. by exists b; eauto. Qed.

Lemma keeps_machine_call op : is_own op = true -> keeps_machine (ch_call op).
Proof.
  intros Ho. destruct op as [| | |b| | | |op]; try done;
    try (intros h Hm; match goal with |- context [ch_call ?o h] =>
           destruct (own_machine o h I) as (h' & es & -> & Hm') end; exists (); rewrite Hm in Hm'; eauto).
  all: cbn [ch_call]; apply keeps_machine_bind; [|intros ? h Hm; exists (); eauto].
  all: by apply (keeps_machine_query _ false); vm_compute.
Qed.

Lemma keeps_machine_calls ops : forallb is_own ops = true -> keeps_machine (ch_calls ops).
Proof.
  induction ops as [|op ops IH]; cbn [forallb]; [intros _ h Hm; exists (); eauto|].
  intros [Ho Hos]%andb_true_iff.
  apply keeps_machine_bind; [by apply keeps_machine_call|intros _; by apply IH].
Qed.

(** The destructor does what that of the machine does. *)
Lemma ch_destructor_run h :
  run_outcome (ch_destructor h) = run_outcome (destructor (state_machine_ h)).
Proof.
  unfold ch_destructor, ebind, eget, on_machine, stop, ewhen, emodify.
  destruct h as [fd m cb []]; cbn; by destruct (destructor m) as [[[]]].
Qed.

Lemma on_machine_outcome {A} (k : SMM A) h :
  run_outcome (on_machine k h) = run_outcome (k (state_machine_ h)).
Proof. unfold on_machine. by destruct (k _) as [[]]. Qed.

(** A bind request that reaches the machine first is refused: ERROR_STATE. *)
Lemma first_request_refused fd id :
  run_outcome (handle_bind_request id (SmppClientHandler_new fd)) = Ret () /\
  run_outcome (on_machine get_current_state (run_state (handle_bind_request id (SmppClientHandler_new fd))))
  = Ret (str "ERROR_STATE").
Proof. by vm_compute. Qed.

(** Through [get_state_machine] a handler can be bound. *)
Definition example_binding : list ch_op :=
  [ChInit; ChStart; ChStateMachine (OpTransition ConnectedState);
   ChStateMachine (OpBind 0x00000009 (str "esme1") (str "pass1"));
   ChStateMachine (OpBindResp 0x80000009 0)].

(** C40: The client handler and its state machine.  With its own member functions alone the
    handler does nothing to the machine: every call returns and the state is IDLE.  Whatever
    is done through [get_state_machine], when the calls have returned the handler can be
    destroyed exactly if the machine is still in IDLE; in any other state, in particular
    whenever the handler is bound, can send or can receive, the destructor deletes a state
    object twice. *)
Theorem client_handler_destruction fd ops :
  (forallb is_own ops = true -> exists h es, ch_calls ops (SmppClientHandler_new fd) = (Ret (), h, es) /\
     run_outcome (on_machine get_current_state h) = Ret (str "IDLE")) /\
  (forall h es, ch_calls ops (SmppClientHandler_new fd) = (Ret (), h, es) ->
     (run_outcome (on_machine get_current_state h) = Ret (str "IDLE") ->
      run_outcome (ch_destructor h) = Ret ()) /\
     (run_outcome (on_machine get_current_state h) <> Ret (str "IDLE") ->
      run_outcome (ch_destructor h) = UB) /\
     (run_outcome (ch_is_bound h) = Ret true \/ run_outcome (ch_can_send h) = Ret true \/
      run_outcome (ch_can_receive h) = Ret true -> run_outcome (ch_destructor h) = UB)).
Proof.
  split.
  - intros Ho. destruct (keeps_machine_calls ops Ho (SmppClientHandler_new fd) eq_refl)
      as ([] & h & es & Hr & Hm). exists h, es. split; [done|]. by rewrite on_machine_outcome, Hm.
  - intros h es Hr. assert (Hp : pristine (state_machine_ h)).
    { pose proof (ch_preserves_calls ops (SmppClientHandler_new fd)) as H. rewrite Hr in H.
      by apply H. }
    unfold ch_is_bound, ch_can_send, ch_can_receive.
    rewrite ch_destructor_run, (destructor_run _ Hp), !on_machine_outcome, (current_state_run _ Hp).
    split_and!; [intros; by rewrite decide_True|intros; by rewrite decide_False|].
    intros Hb. rewrite decide_False; [done|]. intros Hc. revert Hb.
    unfold is_bound, can_send, can_receive, deref_current, ebind, eget, edefined.
    rewrite (proj1 Hp Hc), Hc. vm_compute. naive_solver.
Qed.

Lemma client_handler_destruction_witness :
  let h := run_state (ch_calls example_binding (SmppClientHandler_new 5)) in
  run_outcome (ch_is_bound h) = Ret true /\ run_outcome (ch_destructor h) = UB.
Proof.
  split; [by vm_compute|].
  apply (proj2 (client_handler_destruction 5 example_binding) _
           (run_effects (ch_calls example_binding (SmppClientHandler_new 5)))); [by vm_compute|].
  left. by vm_compute.
Defined.
